(* ===== verification/_CoqProject ===== *)
-Q . S2P
Prelude.v
Words.v
Effects.v
JsonFrame.v
Engine.v
EngineSpec.v
TlsServer.v
TlsServerSpec.v
TlsServerThms.v
Sslio.v
SslioSpec.v
TlsClient.v
TlsClientSpec.v
HashRounds.v
HashStd.v
ChaCha20.v
Poly1305.v
RecordLink.v
RecChapol.v
RecGcm.v
Hash.v
HashSpec.v
Hmac.v
HmacCt.v
Aes.v
AesSpec.v
RecCbc.v
AesModes.v
RecCbcSpec.v
Kdf.v
KdfSpec.v
PrfSpec.v
WebSocket.v
WebSocketSpec.v
WebSocketThms.v
Lru.v
LruTree.v
LruSpec.v
LruThms.v
ServerStart.v
ServerStartSpec.v
ServerStartThms.v
ServerPoll.v
TlsV1.v
TlsV1Spec.v
