(* ===== verification/Prelude.v ===== *)
(** * GF-NetStack: a verification development (root file)

    ** The program

    GF-NetStack offers TLS, JSON-over-TLS and WebSocket connections to programs
    in FreeBASIC, PureBasic and Fortran.  Its own code is the C of
    [src/src/wrappers/c]: the TLS wrapper [tls_wrapper_v3.c] (a non-blocking
    server for many clients, a blocking client), the first wrapper
    [tls_wrapper.c] (over OpenSSL) with the socket helpers, the unified connections
    of [gfns_conn.c] and the WebSocket client of [gfns_ws.c].  Below it lies its
    in-tree copy of BearSSL, [src/src/wrappers/c/bearssl].  The control flow is

      application -> wrapper (client or server)
                  -> [br_sslio] (blocking client only)
                  -> [br_ssl_engine] (records, buffers, handshake coroutine)
                  -> record protection -> ciphers, HMAC, hash functions
                  -> handshake -> PRF, HMAC, hash functions, session cache
      wrapper     -> sockets of the operating system (v1: and OpenSSL)

    and every arrow is a parameter of the upper part here: the wrappers are
    verified over the engine's invariant, the engine over the laws of record
    protection and handshake, HMAC over the interface of a hash function.

    ** Files and the code they model

    Shared.
    - [Prelude]: machine integers as [Z] with explicit wrap-around, lists indexed
      by [Z] (memory regions), updates of records, tactics.
    - [Words]: [inner.h] (constant-time comparisons, encoders), [codec/enc*.c],
      [codec/dec*.c], [codec/ccopy.c], [int/i32_div32.c].
    - [Effects]: the state monad with failure [M], its total-correctness
      predicate [wp], loops with fuel, and the operating system as the class [OS].

    TLS records.
    - [Engine]: [ssl/ssl_engine.c], one definition per function.  Memory is one
      array of bytes, a pointer is an offset, so that a shared buffer is shared.
      [RecordIn], [RecordOut] and [Handshake] are the vtables and the coroutine.
    - [EngineSpec]: the invariant and its preservation by every public call,
      termination, the meaning of the state word, transport of application data.
    - [Sslio], [SslioSpec]: [ssl/ssl_io.c] and the byte stream it implements.

    JSON over TLS.
    - [JsonFrame]: the length-prefixed framing and its reference parser.
    - [TlsServer]: section 2 of [tls_wrapper_v3.c]: client store, accept, engine
      pumps, framing, [tlsv2_send_json], one turn of the [select] loop.
    - [TlsServerSpec], [TlsServerThms]: the invariant of the store and the theorems.
      An [fd_set] holds descriptors below [FD_SETSIZE]; the turn checks each access.
    - [ServerPoll]: the [WSAPoll] form of the turn, against the [select] form.
    - [ServerStart], [ServerStartSpec], [ServerStartThms]: [load_der],
      [load_certificate_der], [load_rsa_key_der], the listening socket and the
      part of [tlsv2_server_run] before the loop; [x509/skey_decoder.c] apart from
      its generated interpreter.  [calls] records what the system was asked and
      answered during the start.
    - [TlsClient], [TlsClientSpec]: section 3: the table of connections, connect,
      send, receive, close.

    TLS over OpenSSL.
    - [TlsV1], [TlsV1Spec]: [tls_wrapper.c], [tcp_wrapper.c], [select_wrapper.c],
      and the contract they implement: a finite map from descriptors to sessions.

    WebSocket.
    - [WebSocket], [WebSocketSpec], [WebSocketThms]: [gfns_conn.c], [gfns_ws.c].

    Record protection: instances of the interfaces of the engine.
    - [RecordLink]: the class of a pair of contexts whose records open, and the
      transport of application data between two engines over it.
    - [RecChapol]: [ssl/ssl_rec_chapol.c] over [ChaCha20] and [Poly1305]
      ([symcipher/chacha20_ct.c], [symcipher/poly1305_ctmul.c]).
    - [RecGcm]: [ssl/ssl_rec_gcm.c], for any counter mode and GHASH.
    - [RecCbc], [RecCbcSpec]: [ssl/ssl_rec_cbc.c], for any block cipher in CBC
      mode ([CbcCipher]) and hash function with Merkle-Damgard padding
      ([PaddingLaws]).  The length check lets lengths through that are not whole
      blocks ([cbc_accepts_partial_blocks]), on which the loops of the ciphers leave
      the buffer: their runs are partial functions, and so is the decryption, which
      therefore is no instance of [RecordIn].
    - [Aes], [AesSpec], [AesModes]: [symcipher/aes_common.c] and
      [symcipher/aes_small_*.c], FIPS 197, and the CBC mode as a [CbcCipher].

    Hash functions and what is built on them.
    - [HashRounds], [Hash], [HashSpec]: MD5, SHA-1, SHA-224 to SHA-512, MD5+SHA-1.
    - [HashStd]: RFC 1321 and FIPS 180-4 written from the standards, with nothing of
      the code in them: the constants are computed from roots of primes and sines.
    - [Hmac], [HmacCt]: [mac/hmac.c], [mac/hmac_ct.c].
    - [Kdf], [KdfSpec], [PrfSpec]: [kdf/hkdf.c], [ssl/prf*.c], [rand/hmac_drbg.c],
      [hash/mgf1.c].
    - [Lru], [LruTree], [LruSpec], [LruThms]: the session cache [ssl/ssl_lru.c].

    ** What the theorems show

    - Safety and termination: every reachable engine keeps its invariant and
      offers buffers inside its memory ([engine_reachable_safe]); every operation
      returns ([engine_operations_total]); any number of turns of the server make no
      access out of bounds while descriptors are below [FD_SETSIZE]
      ([server_runs_safely]); connections release their descriptors
      ([connections_release]).
    - Functional behaviour: bytes written at one engine arrive at the other through
      encrypted records, in whatever pieces ([protected_data_crosses]); JSON
      crosses frame by frame whatever the cutting into records, up to the first buffer
      that cannot be allocated ([read_plain_delivers_frames], [client_sends_frames],
      [client_receives_frames], [send_json_frames]); WebSocket frames are those of
      RFC 6455 ([ws_send_rfc6455]).
    - Refinement: the blocking wrapper is a byte stream ([sslio_stream]), the
      wrapper over OpenSSL a bounded map that leaks neither session nor descriptor
      ([v1_refines_contract], [v1_no_leak]), the session cache a bounded list in
      order of use ([lru_cache]), the [WSAPoll] loop the [select] loop
      ([poll_is_select]).
    - Records: a wrong tag closes the engine and gives nothing to the application
      ([chapol_authenticates]); CBC records are opened in constant time as RFC 5246
      says ([cbc_opens_rfc5246]), and those that are made open ([cbc_roundtrip]).
    - The standards: [hashes_stream], [compressions_are_standard], [hmac_rfc2104],
      [hmac_ct_rfc2104], [hkdf_rfc5869], [tls_prf_rfc], [hmac_drbg_sp800_90a],
      [mgf1_pkcs1], [chacha20_rfc8439], [poly1305_rfc8439], [aes_fips197].
    - Where the code does less than it means to, the theorem states what it does:
      [rsa_key_dangles], [recv_length_wraps], [short_message_not_flushed],
      [closed_client_keeps_slot], [full_size_records_refused], [client_connects],
      [ws_send_truncates], [ws_recv_keeps_mask], [ws_open_url_leaks],
      [hkdf_restarts], [server_start_outcome], [poly1305_tag_differs],
      [gf_select_flags], [cbc_accepts_partial_blocks], [poll_ignores_hangups],
      [poll_accept_overruns].

    ** Bounds and fuel

    A loop whose end depends on the data takes fuel and gives [None] without it; a
    [wp] or an equation with [Some] therefore says that the fuel is enough.  The
    handshake loop needs two rounds for each entry (the coroutine's law), hash
    and KDF loops one per byte, the loops of the ciphers one per block, the searches of the session cache one per entry of
    the block.  The loops that wait for the network are bounded by a budget of the
    world: [OSLaws] gives each world a number of reads and writes that can still
    make progress, and the theorems ask for more fuel than the budget.  [size_t]
    has 64 bits.

    ** Not modelled, and why
    - The handshake ([ssl_hs_client.c], [ssl_hs_server.c]), the X.509 and key
      decoders, PEM: byte code generated by the T0 compiler; they are parameters with
      the laws their callers rely on.
    - Big integers, RSA and elliptic curves: used through the handshake.
    - CCM records, DES, the AES implementations other than [aes_small] (they compute
      the same function by other means: tables, bit slicing, vector instructions),
      the vector versions of ChaCha20, Poly1305 and GHASH.
    - The v2 wrapper and the older v3: superseded by v3, the same code in an earlier
      state.
    - [crypto_wrapper.c]: two calls of OpenSSL.
    - Bindings, samples, tests and tools. *)
From stdpp Require Export base numbers list.
From Stdlib Require Export ZArith Lia.

#[global] Open Scope Z_scope.

(** ** Machine integers

    An unsigned C integer of width [w] is a [Z] in [0, 2^w); every operation
    that may leave that range is followed by the explicit reduction below. *)

Definition u8 (x : Z) : Z := x mod 2 ^ 8.
Definition u16 (x : Z) : Z := x mod 2 ^ 16.
Definition u32 (x : Z) : Z := x mod 2 ^ 32.
Definition u64 (x : Z) : Z := x mod 2 ^ 64.

Definition add32 (x y : Z) : Z := u32 (x + y).
Definition sub32 (x y : Z) : Z := u32 (x - y).

(** [size_t] is 64 bits wide on the targets the Makefiles build. *)
Definition szadd (x y : Z) : Z := u64 (x + y).
Definition szsub (x y : Z) : Z := u64 (x - y).

Declare Scope c_scope.
Delimit Scope c_scope with c.
Notation "x +! y" := (szadd x y) (at level 50, left associativity) : c_scope.
Notation "x -! y" := (szsub x y) (at level 50, left associativity) : c_scope.
#[global] Open Scope c_scope.

Definition is_u8 (x : Z) : Prop := 0 <= x < 2 ^ 8.
Definition is_u16 (x : Z) : Prop := 0 <= x < 2 ^ 16.
Definition is_u32 (x : Z) : Prop := 0 <= x < 2 ^ 32.

(** A C truth value. *)
Definition b2z (b : bool) : Z := if b then 1 else 0.
Definition z2b (x : Z) : bool := negb (x =? 0).

Create HintDb words.

Lemma u8_small x : 0 <= x < 256 -> u8 x = x.
Proof. intros; apply Z.mod_small; lia. Qed.
Lemma u16_small x : 0 <= x < 65536 -> u16 x = x.
Proof. intros; apply Z.mod_small; lia. Qed.
Lemma u32_small x : 0 <= x < 4294967296 -> u32 x = x.
Proof. intros; apply Z.mod_small; lia. Qed.
Lemma u64_small x : 0 <= x < 2 ^ 64 -> u64 x = x.
Proof. intros; apply Z.mod_small; lia. Qed.
Lemma szadd_small x y : 0 <= x + y < 2 ^ 64 -> x +! y = x + y.
Proof. apply u64_small. Qed.
Lemma szsub_small x y : 0 <= x - y < 2 ^ 64 -> x -! y = x - y.
Proof. apply u64_small. Qed.

(** The conversion to [int]. *)
Definition i32 (x : Z) : Z := let y := u32 x in if y <? 2 ^ 31 then y else y - 2 ^ 32.
Lemma i32_small x : 0 <= x < 2 ^ 31 -> i32 x = x.
Proof.
  intros. unfold i32. rewrite u32_small by lia. by rewrite (proj2 (Z.ltb_lt x (2 ^ 31))) by lia.
Qed.

Lemma u8_range x : 0 <= u8 x < 256.
Proof. apply Z.mod_pos_bound; lia. Qed.
Lemma u16_range x : 0 <= u16 x < 65536.
Proof. apply Z.mod_pos_bound; lia. Qed.
Lemma u32_range x : 0 <= u32 x < 4294967296.
Proof. apply Z.mod_pos_bound; lia. Qed.
Lemma u64_range x : 0 <= u64 x < 2 ^ 64.
Proof. apply Z.mod_pos_bound; lia. Qed.

#[export] Hint Resolve u8_range u16_range u32_range u64_range : words.

(** [szsimp] removes every [size_t] wrap whose operands are in range. *)
Ltac szsimp :=
  repeat (first [ rewrite szadd_small by lia | rewrite szsub_small by lia ]).
Tactic Notation "szsimp" "in" hyp(H) :=
  repeat (first [ rewrite szadd_small in H by lia | rewrite szsub_small in H by lia ]).

(** ** Arrays addressed by [Z] offsets *)

Abbreviation zlen l := (Z.of_nat (length l)).
Definition ztake {A} (n : Z) (l : list A) : list A := take (Z.to_nat n) l.
Definition zdrop {A} (n : Z) (l : list A) : list A := drop (Z.to_nat n) l.

(** [len] elements of [m] from offset [off]. *)
Definition zslice {A} (m : list A) (off len : Z) : list A := ztake len (zdrop off m).

(** [memcpy(m + off, src, zlen src)]. *)
Definition zblit {A} (m : list A) (off : Z) (src : list A) : list A :=
  ztake off m ++ src ++ zdrop (off + zlen src) m.

(** [m[i]]; reads outside the array do not occur in the models. *)
Definition zget (m : list Z) (i : Z) : Z := nth (Z.to_nat i) m 0.

(** [blia] is [lia] for goals with boolean tests on lengths. *)
Ltac zlen_facts :=
  repeat match goal with
  | |- context [Z.of_nat (length ?l)] =>
      lazymatch goal with
      | _ : 0 <= Z.of_nat (length l) |- _ => fail
      | _ => pose proof (Nat2Z.is_nonneg (length l))
      end
  end.
Ltac blia := zlen_facts; lia.

(** [calloc]: [n] zero bytes. *)
Definition zeros (n : Z) : list Z := replicate (Z.to_nat n) 0.

Section arrays.
Context {A : Type}.
Implicit Types l m : list A.

Lemma zlen_app l m : zlen (l ++ m) = zlen l + zlen m.
Proof. rewrite length_app; lia. Qed.
Lemma zlen_ztake n l : 0 <= n <= zlen l -> zlen (ztake n l) = n.
Proof. intros; unfold ztake; rewrite length_take; lia. Qed.
Lemma zlen_zdrop n l : 0 <= n <= zlen l -> zlen (zdrop n l) = zlen l - n.
Proof. intros; unfold zdrop; rewrite length_drop; lia. Qed.
Lemma zlen_zslice l o n : 0 <= o -> 0 <= n -> o + n <= zlen l -> zlen (zslice l o n) = n.
Proof. intros; unfold zslice; rewrite zlen_ztake; rewrite ?zlen_zdrop; lia. Qed.
Lemma zlen_zblit l o m : 0 <= o -> o + zlen m <= zlen l -> zlen (zblit l o m) = zlen l.
Proof. intros; unfold zblit; rewrite !zlen_app, zlen_ztake, zlen_zdrop; lia. Qed.
Lemma length_zblit l o m : 0 <= o -> o + zlen m <= zlen l -> length (zblit l o m) = length l.
Proof. intros; apply Nat2Z.inj, zlen_zblit; lia. Qed.

Lemma ztake_zdrop n l : ztake n l ++ zdrop n l = l.
Proof. apply take_drop. Qed.
Lemma zdrop_0 l : zdrop 0 l = l.
Proof. reflexivity. Qed.
Lemma zdrop_zdrop a b l : 0 <= a -> 0 <= b -> zdrop a (zdrop b l) = zdrop (b + a) l.
Proof. intros; unfold zdrop; rewrite drop_drop; f_equal; lia. Qed.
Lemma ztake_app_le n l m : 0 <= n <= zlen l -> ztake n (l ++ m) = ztake n l.
Proof. intros; unfold ztake; rewrite take_app_le; [done|lia]. Qed.
Lemma ztake_app_ge n l m : zlen l <= n -> ztake n (l ++ m) = l ++ ztake (n - zlen l) m.
Proof. intros; unfold ztake; rewrite take_app_ge; [|lia]; do 2 f_equal; lia. Qed.
Lemma zdrop_app_le n l m : 0 <= n <= zlen l -> zdrop n (l ++ m) = zdrop n l ++ m.
Proof. intros; unfold zdrop; rewrite drop_app_le; [done|lia]. Qed.
Lemma zdrop_app_ge n l m : zlen l <= n -> zdrop n (l ++ m) = zdrop (n - zlen l) m.
Proof. intros; unfold zdrop; rewrite drop_app_ge; [|lia]; f_equal; lia. Qed.
Lemma ztake_ge n l : zlen l <= n -> ztake n l = l.
Proof. intros; unfold ztake; apply take_ge; lia. Qed.
Lemma zdrop_ge n l : zlen l <= n -> zdrop n l = [].
Proof. intros; unfold zdrop; apply drop_ge; lia. Qed.
Lemma ztake_le0 n l : n <= 0 -> ztake n l = [].
Proof. intros; unfold ztake; replace (Z.to_nat n) with 0%nat by lia; done. Qed.

Lemma zdrop_split n k l :
  0 <= k <= n -> n <= zlen l -> zdrop k l = zdrop k (ztake n l) ++ zdrop n l.
Proof.
  intros. rewrite <- (zdrop_app_le k (ztake n l)) by (rewrite zlen_ztake; lia).
  by rewrite ztake_zdrop.
Qed.

(** Reading back what [memcpy] wrote. *)
Lemma zslice_zblit_same l o m :
  0 <= o -> o + zlen m <= zlen l -> zslice (zblit l o m) o (zlen m) = m.
Proof.
  intros. unfold zslice, zblit.
  rewrite zdrop_app_ge by (rewrite zlen_ztake; lia).
  rewrite zlen_ztake by lia. rewrite Z.sub_diag, zdrop_0.
  rewrite ztake_app_le by lia. apply ztake_ge; lia.
Qed.

(** A read that ends before the written range. *)
Lemma zslice_zblit_before l o m o' n :
  0 <= o' -> 0 <= n -> o' + n <= o -> o <= zlen l ->
  zslice (zblit l o m) o' n = zslice l o' n.
Proof.
  intros. unfold zslice, zblit.
  rewrite zdrop_app_le by (rewrite zlen_ztake; lia).
  rewrite ztake_app_le by (rewrite zlen_zdrop; rewrite ?zlen_ztake; lia).
  rewrite (zdrop_split o o' l) by lia.
  rewrite ztake_app_le; [done|rewrite zlen_zdrop; rewrite ?zlen_ztake; lia].
Qed.

(** A read that starts after the written range. *)
Lemma zslice_zblit_after l o m o' n :
  0 <= o -> o + zlen m <= o' -> o + zlen m <= zlen l ->
  zslice (zblit l o m) o' n = zslice l o' n.
Proof.
  intros. unfold zslice, zblit.
  rewrite zdrop_app_ge by (rewrite zlen_ztake; lia).
  rewrite zlen_ztake by lia.
  rewrite zdrop_app_ge by lia.
  rewrite zdrop_zdrop by lia. do 2 f_equal; lia.
Qed.

(** Two adjacent reads are one read. *)
Lemma zslice_app l o n k :
  0 <= o -> 0 <= n -> 0 <= k -> o + n + k <= zlen l ->
  zslice l o n ++ zslice l (o + n) k = zslice l o (n + k).
Proof.
  intros. unfold zslice.
  replace (zdrop (o + n) l) with (zdrop n (zdrop o l)) by (apply zdrop_zdrop; lia).
  rewrite <- (ztake_zdrop n (zdrop o l)) at 3.
  rewrite (ztake_app_ge (n + k)) by (rewrite zlen_ztake; rewrite ?zlen_zdrop; lia).
  rewrite zlen_ztake by (rewrite zlen_zdrop; lia).
  do 2 f_equal; lia.
Qed.

Lemma zslice_all l : zslice l 0 (zlen l) = l.
Proof. unfold zslice; rewrite zdrop_0; apply ztake_ge; lia. Qed.
Lemma zslice_0 l o : zslice l o 0 = [].
Proof. reflexivity. Qed.
Lemma zslice_neg l o n : n <= 0 -> zslice l o n = [].
Proof. intros; unfold zslice; by apply ztake_le0. Qed.
Lemma zslice_zslice l o n o' n' :
  0 <= o -> 0 <= o' -> 0 <= n' -> o' + n' <= n -> o + n <= zlen l ->
  zslice (zslice l o n) o' n' = zslice l (o + o') n'.
Proof.
  intros. unfold zslice.
  replace (zdrop (o + o') l) with (zdrop o' (zdrop o l)) by (apply zdrop_zdrop; lia).
  rewrite (zdrop_split n o' (zdrop o l)) by (rewrite ?zlen_zdrop; lia).
  rewrite ztake_app_le; [done|].
  rewrite zlen_zdrop; rewrite zlen_ztake; rewrite ?zlen_zdrop; lia.
Qed.
Lemma zslice_app_l l m o n :
  0 <= o -> 0 <= n -> o + n <= zlen l -> zslice (l ++ m) o n = zslice l o n.
Proof.
  intros. unfold zslice. rewrite zdrop_app_le by lia.
  apply ztake_app_le. rewrite zlen_zdrop; lia.
Qed.
Lemma zslice_app_r l m o n :
  zlen l <= o -> zslice (l ++ m) o n = zslice m (o - zlen l) n.
Proof. intros. unfold zslice. by rewrite zdrop_app_ge by lia. Qed.

Lemma Forall_ztake (P : A -> Prop) n l : Forall P l -> Forall P (ztake n l).
Proof. intros. by apply Forall_take. Qed.
Lemma Forall_zdrop (P : A -> Prop) n l : Forall P l -> Forall P (zdrop n l).
Proof. intros. by apply Forall_drop. Qed.
Lemma Forall_zslice (P : A -> Prop) l o n : Forall P l -> Forall P (zslice l o n).
Proof. intros. by apply Forall_ztake, Forall_zdrop. Qed.
Lemma Forall_zblit (P : A -> Prop) l o m : Forall P l -> Forall P m -> Forall P (zblit l o m).
Proof.
  intros. unfold zblit. rewrite !Forall_app. auto using Forall_ztake, Forall_zdrop.
Qed.
End arrays.
#[export] Hint Resolve Forall_ztake Forall_zdrop Forall_zslice Forall_zblit : words.

Lemma zlen_zeros n : 0 <= n -> zlen (zeros n) = n.
Proof. intros; unfold zeros; rewrite length_replicate; lia. Qed.

Lemma Forall_zeros n : Forall is_u8 (zeros n).
Proof. unfold zeros. apply Forall_replicate. unfold is_u8. lia. Qed.

(** Deciding that a concrete list holds bytes. *)
Lemma bytes_dec l : forallb (fun x => (0 <=? x) && (x <? 256)) l = true -> Forall is_u8 l.
Proof.
  rewrite Forall_forall. intros H x Hx. apply list_elem_of_In in Hx.
  apply (proj1 (forallb_forall _ _) H) in Hx. unfold is_u8. lia.
Qed.

Lemma zget_app_l l m i : 0 <= i < zlen l -> zget (l ++ m) i = zget l i.
Proof. intros; unfold zget; apply app_nth1; lia. Qed.
Lemma zget_app_r l m i : zlen l <= i -> zget (l ++ m) i = zget m (i - zlen l).
Proof. intros; unfold zget; rewrite app_nth2 by lia; f_equal; lia. Qed.
Lemma zget_zslice l o n i :
  0 <= o -> 0 <= i < n -> o + n <= zlen l -> zget (zslice l o n) i = zget l (o + i).
Proof.
  intros. unfold zget, zslice, ztake, zdrop.
  rewrite <- (firstn_skipn (Z.to_nat o) l) at 2.
  rewrite app_nth2; rewrite length_firstn; [|lia].
  replace (Z.to_nat (o + i) - _)%nat with (Z.to_nat i) by lia.
  rewrite <- (firstn_skipn (Z.to_nat n) (skipn (Z.to_nat o) l)) at 2.
  rewrite app_nth1; [done|]. rewrite length_firstn, length_skipn; lia.
Qed.
Lemma is_u8_zget m i : Forall is_u8 m -> is_u8 (zget m i).
Proof.
  intros H. unfold zget. destruct (nth_in_or_default (Z.to_nat i) m 0) as [Hin| ->].
  - rewrite Forall_forall in H. apply H. by apply list_elem_of_In.
  - unfold is_u8; lia.
Qed.
(** A test on a range of integers. *)
Lemma forallb_seqZ (p : Z -> bool) a n : forallb p (seqZ a n) = true <-> forall x, a <= x < a + n -> p x = true.
Proof.
  rewrite forallb_forall. split; intros H x Hx; apply H.
  - rewrite <- list_elem_of_In, elem_of_seqZ. lia.
  - rewrite <- list_elem_of_In, elem_of_seqZ in Hx. lia.
Qed.

#[global] Opaque ztake zdrop.

(** ** Record update

    [r <| p := v |>] is [r] with the field [p] set to [v].  A record type opts
    in by giving its eta-expansion as an instance of [Eta]; the setter of a
    projection is derived from it by abstracting the projection. *)
Class Eta (R : Type) := eta : R -> R.
Class Setter {R T : Type} (p : R -> T) := setf : T -> R -> R.

Ltac term_head t := match t with ?f _ => term_head f | _ => t end.
Ltac derive_setter :=
  match goal with
  | |- @Setter ?R ?T ?p =>
      tryif has_evar R then fail else idtac;
      let i := constr:(_ : Eta R) in let i := eval cbv beta in i in
      let h := term_head i in
      let e := eval unfold h in i in
      let s := eval pattern p in e in
      lazymatch s with
      | (fun _ => ?b) _ => fail "the projection does not occur in the eta-expansion"
      | ?f _ => exact (fun v : T => f (fun _ => v))
      end
  end.
#[export] Hint Extern 1 (Setter _) => derive_setter : typeclass_instances.

Notation "r <| p := v |>" := (setf (p:=p) v r)
  (at level 1, p at level 10, v at level 200, left associativity,
   format "r  <| p  :=  v |>") : c_scope.
