(* ===== verification/Words.v ===== *)
(** * Words: the constant-time primitives and byte codecs of BearSSL

    Models the inline functions of [bearssl/src/inner.h] (constant-time
    comparisons, multiplexer, bit length, 16/32/64-bit encoders and decoders),
    the constant-time copy [codec/ccopy.c], the range codecs
    [codec/dec*.c]/[codec/enc*.c] and the constant-time division
    [int/i32_div32.c].  A [uint32_t] is a [Z] in [0, 2^32); every wrap-around
    is written with [u32]. *)
From S2P Require Import Prelude.

(** ** Constant-time primitives (inner.h) *)

Definition NOT (ctl : Z) : Z := Z.lxor ctl 1.

Definition MUX (ctl x y : Z) : Z :=
  Z.lxor y (Z.land (u32 (- ctl)) (Z.lxor x y)).

Definition EQ (x y : Z) : Z :=
  let q := Z.lxor x y in
  NOT (Z.shiftr (Z.lor q (u32 (- q))) 31).

Definition NEQ (x y : Z) : Z :=
  let q := Z.lxor x y in
  Z.shiftr (Z.lor q (u32 (- q))) 31.

Definition GT (x y : Z) : Z :=
  let z := sub32 y x in
  Z.shiftr (Z.lxor z (Z.land (Z.lxor x y) (Z.lxor x z))) 31.

Definition GE (x y : Z) : Z := NOT (GT y x).
Definition LT (x y : Z) : Z := GT y x.
Definition LE (x y : Z) : Z := NOT (GT x y).

(** The result is an [int32_t]; [GT] yields 0 or 1, so the casts and the
    negation do not overflow. *)
Definition CMP (x y : Z) : Z := Z.lor (GT x y) (- GT y x).

(** The arguments of the next five are [int32_t]: [u32] is the cast. *)
Definition EQ0 (x : Z) : Z :=
  let q := u32 x in Z.shiftr (u32 (Z.lnot (Z.lor q (u32 (- q))))) 31.
Definition GT0 (x : Z) : Z :=
  let q := u32 x in Z.shiftr (Z.land (u32 (Z.lnot q)) (u32 (- q))) 31.
Definition GE0 (x : Z) : Z := Z.shiftr (u32 (Z.lnot (u32 x))) 31.
Definition LT0 (x : Z) : Z := Z.shiftr (u32 x) 31.
Definition LE0 (x : Z) : Z :=
  let q := u32 x in Z.shiftr (Z.lor q (u32 (Z.lnot (u32 (- q))))) 31.

Definition BIT_LENGTH (x : Z) : Z :=
  let k := NEQ x 0 in
  let c := GT x 0xFFFF in
  let x := MUX c (Z.shiftr x 16) x in let k := add32 k (u32 (Z.shiftl c 4)) in
  let c := GT x 0x00FF in
  let x := MUX c (Z.shiftr x 8) x in let k := add32 k (u32 (Z.shiftl c 3)) in
  let c := GT x 0x000F in
  let x := MUX c (Z.shiftr x 4) x in let k := add32 k (u32 (Z.shiftl c 2)) in
  let c := GT x 0x0003 in
  let x := MUX c (Z.shiftr x 2) x in let k := add32 k (u32 (Z.shiftl c 1)) in
  add32 k (GT x 0x0001).

Definition MIN (x y : Z) : Z := MUX (GT x y) y x.
Definition MAX (x y : Z) : Z := MUX (GT x y) x y.

(** [MUL31] and [MUL31_lo] in their default form ([BR_CT_MUL31] unset). *)
Definition MUL31 (x y : Z) : Z := u64 (x * y).
Definition MUL31_lo (x y : Z) : Z := Z.land (u32 (x * y)) 0x7FFFFFFF.

Definition br_swap32 (x : Z) : Z :=
  let x := Z.lor (u32 (Z.shiftl (Z.land x 0x00FF00FF) 8))
                 (Z.land (Z.shiftr x 8) 0x00FF00FF) in
  Z.lor (u32 (Z.shiftl x 16)) (Z.shiftr x 16).

(** [br_ccopy(ctl, dst, src, len)]: the new contents of [dst[0..len)]. *)
Fixpoint br_ccopy (ctl : Z) (dst src : list Z) (len : nat) : list Z :=
  match len, dst, src with
  | S len, y :: dst, x :: src => u8 (MUX ctl x y) :: br_ccopy ctl dst src len
  | _, _, _ => dst
  end.

(** ** Encoders and decoders (portable branch of inner.h)

    An encoder yields the bytes it stores at [dst]; a decoder reads them from
    the start of its argument. *)

Definition br_enc16le (x : Z) : list Z := [u8 x; u8 (Z.shiftr x 8)].
Definition br_enc16be (x : Z) : list Z := [u8 (Z.shiftr x 8); u8 x].
Definition br_dec16le (buf : list Z) : Z := Z.lor (zget buf 0) (Z.shiftl (zget buf 1) 8).
Definition br_dec16be (buf : list Z) : Z := Z.lor (Z.shiftl (zget buf 0) 8) (zget buf 1).

Definition br_enc32le (x : Z) : list Z :=
  [u8 x; u8 (Z.shiftr x 8); u8 (Z.shiftr x 16); u8 (Z.shiftr x 24)].
Definition br_enc32be (x : Z) : list Z :=
  [u8 (Z.shiftr x 24); u8 (Z.shiftr x 16); u8 (Z.shiftr x 8); u8 x].
Definition br_dec32le (buf : list Z) : Z :=
  Z.lor (Z.lor (Z.lor (zget buf 0) (Z.shiftl (zget buf 1) 8))
               (Z.shiftl (zget buf 2) 16)) (Z.shiftl (zget buf 3) 24).
Definition br_dec32be (buf : list Z) : Z :=
  Z.lor (Z.lor (Z.lor (Z.shiftl (zget buf 0) 24) (Z.shiftl (zget buf 1) 16))
               (Z.shiftl (zget buf 2) 8)) (zget buf 3).

Definition br_enc64le (x : Z) : list Z :=
  br_enc32le (u32 x) ++ br_enc32le (u32 (Z.shiftr x 32)).
Definition br_enc64be (x : Z) : list Z :=
  br_enc32be (u32 (Z.shiftr x 32)) ++ br_enc32be (u32 x).
Definition br_dec64le (buf : list Z) : Z :=
  Z.lor (br_dec32le buf) (Z.shiftl (br_dec32le (zdrop 4 buf)) 32).
Definition br_dec64be (buf : list Z) : Z :=
  Z.lor (Z.shiftl (br_dec32be buf) 32) (br_dec32be (zdrop 4 buf)).

(** The range codecs: [num] values read from, or the values [v] written to, a
    byte array, one after the other. *)
Section ranges.
Context (width : Z) (dec : list Z -> Z) (enc : Z -> list Z).
Fixpoint range_dec (num : nat) (buf : list Z) : list Z :=
  match num with
  | O => []
  | S num => dec buf :: range_dec num (zdrop width buf)
  end.
Fixpoint range_enc (v : list Z) : list Z :=
  match v with
  | [] => []
  | x :: v => enc x ++ range_enc v
  end.
End ranges.

Definition br_range_dec16le := range_dec 2 br_dec16le.
Definition br_range_dec16be := range_dec 2 br_dec16be.
Definition br_range_dec32le := range_dec 4 br_dec32le.
Definition br_range_dec32be := range_dec 4 br_dec32be.
Definition br_range_dec64le := range_dec 8 br_dec64le.
Definition br_range_dec64be := range_dec 8 br_dec64be.
Definition br_range_enc16le := range_enc br_enc16le.
Definition br_range_enc16be := range_enc br_enc16be.
Definition br_range_enc32le := range_enc br_enc32le.
Definition br_range_enc32be := range_enc br_enc32be.
Definition br_range_enc64le := range_enc br_enc64le.
Definition br_range_enc64be := range_enc br_enc64be.

(** ** Masking *)

(** [data[i] ^= mask[i]]. *)
Definition zxor (data mask : list Z) : list Z := zip_with Z.lxor data mask.

(** ** Constant-time division (int/i32_div32.c)

    State of the loop: quotient bits so far, remaining [hi] and [lo]. *)
Definition divrem_step (d : Z) (k : Z) (s : Z * Z * Z) : Z * Z * Z :=
  let '(q, hi, lo) := s in
  let j := 32 - k in
  let w := Z.lor (u32 (Z.shiftl hi j)) (Z.shiftr lo k) in
  let ctl := Z.lor (GE w d) (Z.shiftr hi k) in
  let hi2 := Z.shiftr (sub32 w d) j in
  let lo2 := sub32 lo (u32 (Z.shiftl d k)) in
  (Z.lor q (u32 (Z.shiftl ctl k)), MUX ctl hi2 hi, MUX ctl lo2 lo).

(** [for (k = 31; k > 0; k --)]: [n] is the value of [k]. *)
Fixpoint divrem_loop (d : Z) (n : nat) (s : Z * Z * Z) : Z * Z * Z :=
  match n with
  | O => s
  | S n' => divrem_loop d n' (divrem_step d (Z.of_nat n) s)
  end.

(** Returns the quotient and the remainder stored in [*r]. *)
Definition br_divrem (hi lo d : Z) : Z * Z :=
  let ch := EQ hi d in
  let hi := MUX ch 0 hi in
  let '(q, hi, lo) := divrem_loop d 31 (0, hi, lo) in
  let cf := Z.lor (GE lo d) hi in
  (Z.lor q cf, MUX cf (sub32 lo d) lo).

Definition br_rem (hi lo d : Z) : Z := snd (br_divrem hi lo d).
Definition br_div (hi lo d : Z) : Z := fst (br_divrem hi lo d).

(** ** Lemmas: bit 31 decides everything *)

Lemma shiftr31_testbit v : 0 <= v < 2 ^ 32 -> Z.shiftr v 31 = b2z (Z.testbit v 31).
Proof.
  intros. rewrite Z.shiftr_div_pow2 by lia.
  rewrite Z.testbit_odd, Z.shiftr_div_pow2 by lia.
  assert (v / 2 ^ 31 = 0 \/ v / 2 ^ 31 = 1) as [-> | ->]; [|done|done].
  assert (0 <= v / 2 ^ 31 < 2); [|lia]. split; [apply Z.div_pos; lia|].
  apply Z.div_lt_upper_bound; lia.
Qed.

Lemma testbit31_leb v : 0 <= v < 2 ^ 32 -> Z.testbit v 31 = (2 ^ 31 <=? v).
Proof.
  intros. pose proof (shiftr31_testbit v H) as E.
  rewrite Z.shiftr_div_pow2 in E by lia.
  destruct (Z.testbit v 31); simpl in E; symmetry.
  - apply Z.leb_le. pose proof (Z.mul_div_le v (2 ^ 31)). lia.
  - apply Z.leb_gt. apply Z.div_small_iff in E; lia.
Qed.

(** A number whose bits from [n] up are clear is below [2^n], and conversely. *)
Lemma bits_bound n x : 0 <= n -> 0 <= x ->
  (forall i, n <= i -> Z.testbit x i = false) -> x < 2 ^ n.
Proof.
  intros Hn Hx Hb. destruct (Z.eq_dec x 0) as [-> |]; [lia|].
  assert (Z.log2 x < n) as Hl.
  { destruct (Z_lt_le_dec (Z.log2 x) n); [done|].
    specialize (Hb (Z.log2 x) ltac:(lia)). rewrite Z.bit_log2 in Hb by lia. done. }
  apply Z.log2_lt_pow2; lia.
Qed.
Lemma bound_bits n x i : 0 <= x < 2 ^ n -> n <= i -> Z.testbit x i = false.
Proof.
  intros. destruct (Z.eq_dec x 0) as [-> |]; [by rewrite Z.bits_0|].
  destruct (Z_lt_le_dec n 0); [rewrite Z.pow_neg_r in H by lia; lia|].
  apply Z.bits_above_log2; [lia|].
  assert (Z.log2 x < n) by (apply Z.log2_lt_pow2; lia). lia.
Qed.

Lemma lxor_bound n x y : 0 <= n -> 0 <= x < 2 ^ n -> 0 <= y < 2 ^ n -> 0 <= Z.lxor x y < 2 ^ n.
Proof.
  intros Hn Hx Hy. assert (0 <= Z.lxor x y) by (apply Z.lxor_nonneg; lia).
  split; [done|]. apply bits_bound; [done..|]. intros i Hi.
  by rewrite Z.lxor_spec, (bound_bits n x), (bound_bits n y).
Qed.
Lemma lor_bound n x y : 0 <= n -> 0 <= x < 2 ^ n -> 0 <= y < 2 ^ n -> 0 <= Z.lor x y < 2 ^ n.
Proof.
  intros Hn Hx Hy. assert (0 <= Z.lor x y) by (apply Z.lor_nonneg; lia).
  split; [done|]. apply bits_bound; [done..|]. intros i Hi.
  by rewrite Z.lor_spec, (bound_bits n x), (bound_bits n y).
Qed.
Lemma land_bound n x y : 0 <= n -> 0 <= x < 2 ^ n -> 0 <= y -> 0 <= Z.land x y < 2 ^ n.
Proof.
  intros Hn Hx Hy. assert (0 <= Z.land x y) by (apply Z.land_nonneg; lia).
  split; [done|]. apply bits_bound; [done..|]. intros i Hi.
  by rewrite Z.land_spec, (bound_bits n x).
Qed.

(** Disjoint bits: [or] is addition. *)
Lemma lor_add n x y : 0 <= n -> 0 <= y < 2 ^ n -> Z.lor (x * 2 ^ n) y = x * 2 ^ n + y.
Proof.
  intros. assert (Z.land (x * 2 ^ n) y = 0) as E.
  { apply Z.bits_inj'; intros i Hi. rewrite Z.land_spec, Z.bits_0.
    destruct (Z_lt_le_dec i n).
    - by rewrite Z.mul_pow2_bits_low by lia.
    - by rewrite (bound_bits n y), andb_false_r by lia. }
  rewrite <- Z.lxor_lor by done. symmetry; by apply Z.add_nocarry_lxor.
Qed.
Lemma lor_shiftl_add n x y : 0 <= n -> 0 <= y < 2 ^ n -> Z.lor (Z.shiftl x n) y = x * 2 ^ n + y.
Proof. intros. rewrite Z.shiftl_mul_pow2 by lia. by apply lor_add. Qed.

Lemma b2z_range b : 0 <= b2z b < 2.
Proof. destruct b; simpl; lia. Qed.
#[export] Hint Resolve b2z_range : words.

(** A 32-bit unsigned negation. *)
Lemma u32_opp x : 0 <= x < 2 ^ 32 -> u32 (- x) = if x =? 0 then 0 else 2 ^ 32 - x.
Proof.
  intros. unfold u32. destruct (Z.eqb_spec x 0) as [-> |]; [done|].
  rewrite Z.mod_opp_l_nz; rewrite ?Z.mod_small; lia.
Qed.

(** ** Specifications of the constant-time primitives *)

Lemma NOT_spec b : NOT (b2z b) = b2z (negb b).
Proof. by destruct b. Qed.

Lemma MUX_spec b x y : 0 <= x < 2 ^ 32 -> 0 <= y < 2 ^ 32 ->
  MUX (b2z b) x y = if b then x else y.
Proof.
  intros. unfold MUX. destruct b; simpl b2z.
  - change (u32 (- (1))) with (Z.ones 32).
    rewrite Z.land_comm, Z.land_ones, Z.mod_small by (try apply lxor_bound; lia).
    rewrite (Z.lxor_comm x y), <- Z.lxor_assoc, Z.lxor_nilpotent. apply Z.lxor_0_l.
  - change (u32 (- 0)) with 0. by rewrite Z.land_0_l, Z.lxor_0_r.
Qed.

(** [q | -q] has its top bit set exactly when [q] is not zero. *)
Lemma or_opp_bit31 q : 0 <= q < 2 ^ 32 ->
  Z.testbit (Z.lor q (u32 (- q))) 31 = negb (q =? 0).
Proof.
  intros. rewrite Z.lor_spec, !testbit31_leb by (try apply u32_range; lia).
  rewrite u32_opp by lia. destruct (Z.eqb_spec q 0); lia.
Qed.

Lemma or_opp_range q : 0 <= q < 2 ^ 32 -> 0 <= Z.lor q (u32 (- q)) < 2 ^ 32.
Proof. intros. apply lor_bound; [lia..|]. apply u32_range. Qed.

Lemma lxor_eqb_0 x y : (Z.lxor x y =? 0) = (x =? y).
Proof.
  destruct (Z.eqb_spec x y) as [-> |Hn]; [by rewrite Z.lxor_nilpotent|].
  apply Z.eqb_neq. intros E. by apply Z.lxor_eq in E.
Qed.

Lemma NEQ_spec x y : 0 <= x < 2 ^ 32 -> 0 <= y < 2 ^ 32 -> NEQ x y = b2z (negb (x =? y)).
Proof.
  intros. unfold NEQ. assert (0 <= Z.lxor x y < 2 ^ 32) by (apply lxor_bound; lia).
  rewrite shiftr31_testbit by (by apply or_opp_range).
  by rewrite or_opp_bit31, lxor_eqb_0.
Qed.

Lemma EQ_spec x y : 0 <= x < 2 ^ 32 -> 0 <= y < 2 ^ 32 -> EQ x y = b2z (x =? y).
Proof.
  intros. change (EQ x y) with (NOT (NEQ x y)).
  by rewrite NEQ_spec, NOT_spec, negb_involutive.
Qed.

Lemma sub32_cases x y : 0 <= x < 2 ^ 32 -> 0 <= y < 2 ^ 32 ->
  sub32 x y = if x <? y then x - y + 2 ^ 32 else x - y.
Proof.
  intros. unfold sub32, u32. destruct (Z.ltb_spec x y).
  - symmetry; apply (Z.mod_unique _ _ (-1)); lia.
  - apply Z.mod_small; lia.
Qed.

Lemma GT_spec x y : 0 <= x < 2 ^ 32 -> 0 <= y < 2 ^ 32 -> GT x y = b2z (y <? x).
Proof.
  intros. unfold GT. assert (0 <= sub32 y x < 2 ^ 32) by apply u32_range.
  rewrite shiftr31_testbit.
  2:{ apply lxor_bound; [lia..|]. apply land_bound; [lia| |].
      - apply lxor_bound; lia.
      - apply Z.lxor_nonneg; lia. }
  rewrite !Z.lxor_spec, Z.land_spec, !Z.lxor_spec, !testbit31_leb by lia.
  rewrite sub32_cases by lia. f_equal.
  destruct (Z.ltb_spec y x); destruct (Z.leb_spec (2 ^ 31) x), (Z.leb_spec (2 ^ 31) y);
    repeat match goal with |- context [2 ^ 31 <=? ?e] => destruct (Z.leb_spec (2 ^ 31) e) end;
    simpl; lia.
Qed.

Lemma GE_spec x y : 0 <= x < 2 ^ 32 -> 0 <= y < 2 ^ 32 -> GE x y = b2z (y <=? x).
Proof. intros. unfold GE. rewrite GT_spec, NOT_spec by done. f_equal; lia. Qed.
Lemma LT_spec x y : 0 <= x < 2 ^ 32 -> 0 <= y < 2 ^ 32 -> LT x y = b2z (x <? y).
Proof. intros. unfold LT. by rewrite GT_spec. Qed.
Lemma LE_spec x y : 0 <= x < 2 ^ 32 -> 0 <= y < 2 ^ 32 -> LE x y = b2z (x <=? y).
Proof. intros. unfold LE. rewrite GT_spec, NOT_spec by done. f_equal; lia. Qed.

Lemma CMP_spec x y : 0 <= x < 2 ^ 32 -> 0 <= y < 2 ^ 32 -> CMP x y = Z.sgn (x - y).
Proof.
  intros. unfold CMP. rewrite !GT_spec by done.
  destruct (Z.ltb_spec y x), (Z.ltb_spec x y); [lia| | |].
  - by rewrite Z.sgn_pos by lia.
  - by rewrite Z.sgn_neg by lia.
  - by replace (x - y) with 0 by lia.
Qed.

(** Signed arguments: the top bit of the cast is the sign. *)
Definition is_i32 (x : Z) : Prop := - 2 ^ 31 <= x < 2 ^ 31.

Lemma u32_i32 x : is_i32 x -> u32 x = if x <? 0 then x + 2 ^ 32 else x.
Proof.
  unfold is_i32, u32; intros. destruct (Z.ltb_spec x 0).
  - symmetry; apply (Z.mod_unique _ _ (-1)); lia.
  - apply Z.mod_small; lia.
Qed.

Lemma u32_lnot q : 0 <= q < 2 ^ 32 -> u32 (Z.lnot q) = 2 ^ 32 - 1 - q.
Proof.
  intros. unfold u32, Z.lnot. symmetry; apply (Z.mod_unique _ _ (-1)); lia.
Qed.

Ltac bit31 :=
  rewrite shiftr31_testbit
    by (first [lia | apply u32_range | apply lor_bound | apply land_bound]; try lia;
        try apply u32_range);
  rewrite ?Z.lor_spec, ?Z.land_spec, ?testbit31_leb by (try apply u32_range; lia).

Lemma LT0_spec x : is_i32 x -> LT0 x = b2z (x <? 0).
Proof. intros. unfold LT0. bit31. rewrite u32_i32 by done. unfold is_i32 in *. f_equal. destruct (x <? 0) eqn:?; lia. Qed.

Lemma GE0_spec x : is_i32 x -> GE0 x = b2z (0 <=? x).
Proof.
  intros. unfold GE0. rewrite u32_lnot by apply u32_range.
  rewrite u32_i32 by done. unfold is_i32 in *.
  destruct (Z.ltb_spec x 0); bit31; f_equal; lia.
Qed.

Lemma EQ0_spec x : is_i32 x -> EQ0 x = b2z (x =? 0).
Proof.
  intros. unfold EQ0. assert (0 <= u32 x < 2 ^ 32) by apply u32_range.
  pose proof (or_opp_bit31 (u32 x) ltac:(lia)) as E.
  pose proof (or_opp_range (u32 x) ltac:(lia)).
  rewrite testbit31_leb in E by lia.
  rewrite u32_lnot by lia. rewrite shiftr31_testbit, testbit31_leb by lia. f_equal.
  assert ((u32 x =? 0) = (x =? 0)) as <-; [|lia].
  rewrite u32_i32 by done. unfold is_i32 in *. destruct (x <? 0) eqn:?; lia.
Qed.

Lemma GT0_spec x : is_i32 x -> GT0 x = b2z (0 <? x).
Proof.
  intros. unfold GT0. assert (0 <= u32 x < 2 ^ 32) by apply u32_range.
  rewrite u32_lnot, u32_opp by lia. rewrite (u32_i32 x) in * by done. unfold is_i32 in *.
  destruct (Z.ltb_spec x 0) in *;
    match goal with |- context [if ?c then _ else _] => destruct c eqn:? end;
    bit31; f_equal; lia.
Qed.

Lemma LE0_spec x : is_i32 x -> LE0 x = b2z (x <=? 0).
Proof.
  intros. unfold LE0. assert (0 <= u32 x < 2 ^ 32) by apply u32_range.
  rewrite (u32_lnot (u32 _)) by apply u32_range. rewrite u32_opp by lia.
  rewrite (u32_i32 x) in * by done. unfold is_i32 in *.
  destruct (Z.ltb_spec x 0) in *;
    match goal with |- context [if ?c then _ else _] => destruct c eqn:? end;
    bit31; f_equal; lia.
Qed.

Lemma MIN_spec x y : 0 <= x < 2 ^ 32 -> 0 <= y < 2 ^ 32 -> MIN x y = Z.min x y.
Proof. intros. unfold MIN. rewrite GT_spec, MUX_spec by done. destruct (y <? x) eqn:?; lia. Qed.
Lemma MAX_spec x y : 0 <= x < 2 ^ 32 -> 0 <= y < 2 ^ 32 -> MAX x y = Z.max x y.
Proof. intros. unfold MAX. rewrite GT_spec, MUX_spec by done. destruct (y <? x) eqn:?; lia. Qed.

(** ** Bit length *)

(** The mathematical bit length of a natural number. *)
Definition bitlen (x : Z) : Z := if x =? 0 then 0 else Z.log2 x + 1.

Lemma bitlen_step n x : 0 < n -> 0 <= x ->
  bitlen x = (if 2 ^ n - 1 <? x then n else 0)
             + bitlen (if 2 ^ n - 1 <? x then Z.shiftr x n else x).
Proof.
  intros. destruct (Z.ltb_spec (2 ^ n - 1) x); [|lia]. unfold bitlen.
  assert (0 < 2 ^ n) by (apply Z.pow_pos_nonneg; lia).
  assert (n <= Z.log2 x) by (apply Z.log2_le_pow2; lia).
  assert (0 < Z.shiftr x n).
  { rewrite Z.shiftr_div_pow2 by lia. apply Z.div_str_pos; lia. }
  rewrite Z.log2_shiftr by lia.
  destruct (Z.eqb_spec x 0), (Z.eqb_spec (Z.shiftr x n) 0); lia.
Qed.

Lemma shiftr_lt n k x : 0 <= n -> 0 <= k -> 0 <= x < 2 ^ (n + k) -> 0 <= Z.shiftr x n < 2 ^ k.
Proof.
  intros. rewrite Z.shiftr_div_pow2 by lia. rewrite Z.pow_add_r in * by lia.
  split; [apply Z.div_pos; lia|]. apply Z.div_lt_upper_bound; lia.
Qed.

Lemma BIT_LENGTH_spec x : 0 <= x < 2 ^ 32 -> BIT_LENGTH x = bitlen x.
Proof.
  intros Hx. unfold BIT_LENGTH.
  rewrite NEQ_spec by lia. rewrite GT_spec by lia.
  rewrite MUX_spec by (rewrite ?Z.shiftr_div_pow2 by lia; try lia; 
                       pose proof (shiftr_lt 16 16 x); rewrite Z.shiftr_div_pow2 in *; lia).
  pose proof (bitlen_step 16 x) as E1. pose proof (shiftr_lt 16 16 x) as R1.
  change (2 ^ 16 - 1) with 0xFFFF in E1.
  set (x1 := if 0xFFFF <? x then Z.shiftr x 16 else x) in *.
  assert (0 <= x1 < 2 ^ 16) by (subst x1; destruct (0xFFFF <? x) eqn:?; lia).
  pose proof (bitlen_step 8 x1) as E2. pose proof (shiftr_lt 8 8 x1) as R2.
  rewrite GT_spec, MUX_spec by lia.
  change (2 ^ 8 - 1) with 0xFF in E2.
  set (x2 := if 0xFF <? x1 then Z.shiftr x1 8 else x1) in *.
  assert (0 <= x2 < 2 ^ 8) by (subst x2; destruct (0xFF <? x1) eqn:?; lia).
  pose proof (bitlen_step 4 x2) as E3. pose proof (shiftr_lt 4 4 x2) as R3.
  rewrite GT_spec, MUX_spec by lia.
  change (2 ^ 4 - 1) with 0xF in E3.
  set (x3 := if 0xF <? x2 then Z.shiftr x2 4 else x2) in *.
  assert (0 <= x3 < 2 ^ 4) by (subst x3; destruct (0xF <? x2) eqn:?; lia).
  pose proof (bitlen_step 2 x3) as E4. pose proof (shiftr_lt 2 2 x3) as R4.
  rewrite GT_spec, MUX_spec by lia.
  change (2 ^ 2 - 1) with 0x3 in E4.
  set (x4 := if 0x3 <? x3 then Z.shiftr x3 2 else x3) in *.
  assert (0 <= x4 < 2 ^ 2) by (subst x4; destruct (0x3 <? x3) eqn:?; lia).
  rewrite GT_spec by lia.
  assert (bitlen x4 = b2z (negb (x4 =? 0)) + b2z (1 <? x4)) as E5.
  { assert (x4 = 0 \/ x4 = 1 \/ x4 = 2 \/ x4 = 3) as [-> | [-> | [-> | ->]]] by lia; done. }
  assert ((x4 =? 0) = (x =? 0)) as E0.
  { assert (forall y n, 0 <= y -> 0 < n -> ((if 2 ^ n - 1 <? y then Z.shiftr y n else y) =? 0) = (y =? 0)) as Hz.
    { intros y n Hy Hn. destruct (Z.ltb_spec (2 ^ n - 1) y); [|done].
      assert (0 < 2 ^ n) by (apply Z.pow_pos_nonneg; lia).
      rewrite Z.shiftr_div_pow2 by lia.
      assert (0 < y / 2 ^ n) by (apply Z.div_str_pos; lia). lia. }
    transitivity (x3 =? 0); [apply (Hz x3 2); lia|].
    transitivity (x2 =? 0); [apply (Hz x2 4); lia|].
    transitivity (x1 =? 0); [apply (Hz x1 8); lia|]. apply (Hz x 16); lia. }
  rewrite E1, E2, E3, E4, E5, E0 by lia.
  clearbody x1 x2 x3 x4. unfold add32.
  repeat match goal with |- context [b2z (?a <? ?b)] => destruct (a <? b) end;
    destruct (x =? 0); reflexivity.
Qed.

(** ** Conditional copy *)

Lemma br_ccopy_spec b dst src :
  length dst = length src -> Forall is_u8 dst -> Forall is_u8 src ->
  br_ccopy (b2z b) dst src (length dst) = if b then src else dst.
Proof.
  revert src. induction dst as [|y dst IH]; intros [|x src] Hl Hd Hs; try done.
  { by destruct b. }
  simpl. inversion_clear Hd. inversion_clear Hs. unfold is_u8 in *.
  rewrite MUX_spec, IH by (try done; try lia; simpl in Hl; lia).
  destruct b; by rewrite u8_small by lia.
Qed.

(** ** Codecs: decoding inverts encoding and conversely *)

Lemma u8_split x : 0 <= x -> x = Z.shiftr x 8 * 2 ^ 8 + u8 x.
Proof. intros. rewrite Z.shiftr_div_pow2 by lia. unfold u8. pose proof (Z.div_mod x (2 ^ 8)). lia. Qed.

Lemma shiftr_nonneg' x n : 0 <= x -> 0 <= Z.shiftr x n.
Proof. by rewrite Z.shiftr_nonneg. Qed.

(** The big-endian and little-endian values of four bytes as sums. *)
Lemma dec32be_sum a b c d m : is_u8 a -> is_u8 b -> is_u8 c -> is_u8 d ->
  br_dec32be (a :: b :: c :: d :: m) = a * 2 ^ 24 + b * 2 ^ 16 + c * 2 ^ 8 + d.
Proof.
  unfold is_u8, br_dec32be, zget; simpl; intros.
  rewrite !Z.shiftl_mul_pow2 by lia.
  rewrite (lor_add 24 a (b * 2 ^ 16)) by lia.
  replace (a * 2 ^ 24 + b * 2 ^ 16) with ((a * 2 ^ 8 + b) * 2 ^ 16) by lia.
  rewrite (lor_add 16 _ (c * 2 ^ 8)) by lia.
  replace ((a * 2 ^ 8 + b) * 2 ^ 16 + c * 2 ^ 8) with ((a * 2 ^ 16 + b * 2 ^ 8 + c) * 2 ^ 8) by lia.
  rewrite (lor_add 8 _ d) by lia. lia.
Qed.

Lemma dec32le_sum a b c d m : is_u8 a -> is_u8 b -> is_u8 c -> is_u8 d ->
  br_dec32le (a :: b :: c :: d :: m) = d * 2 ^ 24 + c * 2 ^ 16 + b * 2 ^ 8 + a.
Proof.
  intros. rewrite <- (dec32be_sum d c b a m) by done.
  unfold br_dec32le, br_dec32be, zget; simpl.
  rewrite (Z.lor_comm _ (Z.shiftl d 24)), (Z.lor_comm _ (Z.shiftl c 16)), (Z.lor_comm a).
  by rewrite !Z.lor_assoc.
Qed.

Lemma dec16be_sum a b m : is_u8 a -> is_u8 b -> br_dec16be (a :: b :: m) = a * 2 ^ 8 + b.
Proof. unfold is_u8, br_dec16be, zget; simpl; intros. by rewrite lor_shiftl_add by lia. Qed.
Lemma dec16le_sum a b m : is_u8 a -> is_u8 b -> br_dec16le (a :: b :: m) = b * 2 ^ 8 + a.
Proof. unfold is_u8, br_dec16le, zget; simpl; intros. rewrite Z.lor_comm. by rewrite lor_shiftl_add by lia. Qed.

Lemma is_u8_u8 x : is_u8 (u8 x).
Proof. apply u8_range. Qed.
#[export] Hint Resolve is_u8_u8 : words.

(** A byte of a truncated word. *)
Lemma u8_shiftr_u32 y k : 0 <= k <= 24 -> u8 (Z.shiftr (u32 y) k) = u8 (Z.shiftr y k).
Proof.
  intros Hk. unfold u8, u32. apply Z.bits_inj'. intros n Hn. destruct (Z.lt_ge_cases n 8).
  - rewrite !Z.mod_pow2_bits_low, !Z.shiftr_spec, Z.mod_pow2_bits_low by lia. done.
  - by rewrite !Z.mod_pow2_bits_high by lia.
Qed.
Lemma u8_u32 y : u8 (u32 y) = u8 y.
Proof. pose proof (u8_shiftr_u32 y 0 ltac:(lia)) as E. by rewrite !Z.shiftr_0_r in E. Qed.

Lemma bytes_of_u32 x : is_u32 x ->
  x = u8 (Z.shiftr x 24) * 2 ^ 24 + u8 (Z.shiftr x 16) * 2 ^ 16 + u8 (Z.shiftr x 8) * 2 ^ 8 + u8 x.
Proof.
  unfold is_u32; intros.
  pose proof (u8_split x) as E0. pose proof (u8_split (Z.shiftr x 8)) as E1.
  pose proof (u8_split (Z.shiftr x 16)) as E2.
  pose proof (shiftr_lt 24 8 x ltac:(lia) ltac:(lia) ltac:(lia)).
  rewrite !Z.shiftr_shiftr in E1, E2 by lia.
  change (8 + 8) with 16 in E1. change (16 + 8) with 24 in E2.
  rewrite (u8_small (Z.shiftr x 24)) by lia.
  pose proof (shiftr_nonneg' x 8). pose proof (shiftr_nonneg' x 16). lia.
Qed.

Lemma dec_enc32be x m : is_u32 x -> br_dec32be (br_enc32be x ++ m) = x.
Proof. intros. simpl. rewrite dec32be_sum by (apply is_u8_u8). symmetry; by apply bytes_of_u32. Qed.
Lemma dec_enc32le x m : is_u32 x -> br_dec32le (br_enc32le x ++ m) = x.
Proof. intros. simpl. rewrite dec32le_sum by (apply is_u8_u8). symmetry; by apply bytes_of_u32. Qed.

Lemma dec_enc16be x m : is_u16 x -> br_dec16be (br_enc16be x ++ m) = x.
Proof.
  unfold is_u16; intros. simpl. rewrite dec16be_sum by (apply is_u8_u8).
  pose proof (u8_split x). pose proof (shiftr_lt 8 8 x ltac:(lia) ltac:(lia) ltac:(lia)).
  rewrite (u8_small (Z.shiftr x 8)) by lia. lia.
Qed.
Lemma dec_enc16le x m : is_u16 x -> br_dec16le (br_enc16le x ++ m) = x.
Proof.
  intros. simpl. rewrite dec16le_sum by (apply is_u8_u8).
  rewrite <- (dec_enc16be x m) at 3 by done. simpl. by rewrite dec16be_sum by (apply is_u8_u8).
Qed.

Lemma u64_halves x : 0 <= x < 2 ^ 64 -> x = u32 (Z.shiftr x 32) * 2 ^ 32 + u32 x.
Proof.
  intros. pose proof (shiftr_lt 32 32 x ltac:(lia) ltac:(lia) ltac:(lia)).
  rewrite (u32_small (Z.shiftr x 32)) by lia. rewrite Z.shiftr_div_pow2 by lia.
  unfold u32. pose proof (Z.div_mod x (2 ^ 32)). lia.
Qed.

Lemma dec_enc64be x m : 0 <= x < 2 ^ 64 -> br_dec64be (br_enc64be x ++ m) = x.
Proof.
  intros. unfold br_dec64be, br_enc64be. rewrite <- app_assoc, dec_enc32be by apply u32_range.
  rewrite zdrop_app_ge by done. simpl zlen. rewrite Z.sub_diag, zdrop_0.
  rewrite dec_enc32be by apply u32_range.
  rewrite lor_shiftl_add by (try apply u32_range; lia). symmetry; by apply u64_halves.
Qed.
Lemma dec_enc64le x m : 0 <= x < 2 ^ 64 -> br_dec64le (br_enc64le x ++ m) = x.
Proof.
  intros. unfold br_dec64le, br_enc64le. rewrite <- app_assoc, dec_enc32le by apply u32_range.
  rewrite zdrop_app_ge by done. simpl zlen. rewrite Z.sub_diag, zdrop_0.
  rewrite dec_enc32le by apply u32_range.
  rewrite Z.lor_comm, lor_shiftl_add by (try apply u32_range; lia). symmetry; by apply u64_halves.
Qed.

(** One round-trip lemma serves the six range codecs. *)
Lemma range_dec_enc width dec enc (P : Z -> Prop) :
  (forall x m, P x -> dec (enc x ++ m) = x) ->
  (forall x, zlen (enc x) = width) ->
  forall v m, Forall P v -> range_dec width dec (length v) (range_enc enc v ++ m) = v.
Proof.
  intros Hd Hl v m. induction 1 as [|x v Hx Hv IH]; [done|]. simpl.
  rewrite <- app_assoc, Hd by done. f_equal.
  rewrite zdrop_app_ge by (rewrite Hl; lia). rewrite Hl, Z.sub_diag, zdrop_0. apply IH.
Qed.

(** ** Constant-time division *)

(** One iteration, on the mathematical value [V = hi * 2^32 + lo] of the
    partial remainder: the quotient bit [k] is set exactly when [d * 2^k] fits
    in [V], and it is then subtracted. *)
Definition divrem_inv (d k N : Z) (s : Z * Z * Z) : Prop :=
  let '(q, hi, lo) := s in
  is_u32 hi /\ is_u32 lo /\ 0 <= hi * 2 ^ 32 + lo < d * 2 ^ k
  /\ (exists q', q = q' * 2 ^ k)
  /\ N = q * d + (hi * 2 ^ 32 + lo).

Lemma div_pow_split hi lo k : 0 < k < 32 -> is_u32 hi -> is_u32 lo ->
  let w := Z.lor (u32 (Z.shiftl hi (32 - k))) (Z.shiftr lo k) in
  is_u32 w /\ (hi * 2 ^ 32 + lo) / 2 ^ k = Z.shiftr hi k * 2 ^ 32 + w.
Proof.
  unfold is_u32. intros Hk Hh Hl.
  assert (2 ^ 32 = 2 ^ k * 2 ^ (32 - k)) as EP by (rewrite <- Z.pow_add_r by lia; f_equal; lia).
  assert (0 < 2 ^ k) by (apply Z.pow_pos_nonneg; lia).
  assert (0 < 2 ^ (32 - k)) by (apply Z.pow_pos_nonneg; lia).
  assert (0 <= Z.shiftr lo k < 2 ^ (32 - k)) as HL.
  { apply shiftr_lt; [lia..|]. by replace (k + (32 - k)) with 32 by lia. }
  assert (u32 (Z.shiftl hi (32 - k)) = (hi mod 2 ^ k) * 2 ^ (32 - k)) as ->.
  { unfold u32. rewrite Z.shiftl_mul_pow2 by lia. rewrite EP.
    rewrite Z.mul_mod_distr_r by lia. done. }
  rewrite lor_add by lia. rewrite !Z.shiftr_div_pow2 in * by lia.
  pose proof (Z.mod_pos_bound hi (2 ^ k) ltac:(lia)).
  pose proof (Z.div_mod hi (2 ^ k) ltac:(lia)) as Dh. split.
  - rewrite EP. nia.
  - replace (hi * 2 ^ 32 + lo) with (lo + (hi * 2 ^ (32 - k)) * 2 ^ k) by (rewrite EP; ring).
    rewrite Z.div_add by lia.
    transitivity (lo / 2 ^ k + (2 ^ k * (hi / 2 ^ k) + hi mod 2 ^ k) * 2 ^ (32 - k)).
    { by rewrite <- Dh. }
    rewrite EP. ring.
Qed.

Lemma b2z_lor a b : Z.lor (b2z a) (b2z b) = b2z (a || b).
Proof. by destruct a, b. Qed.

Lemma divrem_step_inv d k N s : 0 < k < 32 -> 0 < d < 2 ^ 32 ->
  divrem_inv d (k + 1) N s -> divrem_inv d k N (divrem_step d k s).
Proof.
  destruct s as [[q hi] lo]. intros Hk Hd (Hh & Hl & HV & (q' & Hq) & HN).
  pose proof (div_pow_split hi lo k Hk Hh Hl) as [Hw HW]. unfold divrem_step.
  set (w := Z.lor _ _) in *. unfold is_u32 in *.
  set (V := hi * 2 ^ 32 + lo) in *.
  assert (2 ^ 32 = 2 ^ k * 2 ^ (32 - k)) as EP by (rewrite <- Z.pow_add_r by lia; f_equal; lia).
  assert (0 < 2 ^ k) as HA by (apply Z.pow_pos_nonneg; lia).
  assert (0 < 2 ^ (32 - k)) as HB by (apply Z.pow_pos_nonneg; lia).
  assert (2 ^ (k + 1) = 2 * 2 ^ k) as E1 by (rewrite Z.pow_add_r by lia; lia).
  pose proof (Z.div_mod V (2 ^ k) ltac:(lia)) as DV.
  pose proof (Z.mod_pos_bound V (2 ^ k) ltac:(lia)) as MV.
  assert (V / 2 ^ k < 2 * d) as HV2 by (apply Z.div_lt_upper_bound; lia).
  assert (0 <= Z.shiftr hi k) by (apply Z.shiftr_nonneg; lia).
  assert (exists b, Z.shiftr hi k = b2z b) as [b Hb].
  { assert (Z.shiftr hi k = 0 \/ Z.shiftr hi k = 1) as [-> | ->] by nia; [by exists false | by exists true]. }
  rewrite GE_spec, Hb, b2z_lor by lia. set (c := ((d <=? w) || b)).
  assert (c = (d <=? V / 2 ^ k)) as Hc.
  { subst c. rewrite HW, Hb. destruct b; simpl b2z; [|f_equal; lia].
    rewrite orb_true_r. symmetry. lia. }
  assert (0 <= sub32 w d < 2 ^ 32) by apply u32_range.
  assert (0 <= Z.shiftr (sub32 w d) (32 - k) < 2 ^ 32) as Hs.
  { pose proof (shiftr_lt (32 - k) k (sub32 w d)) as S.
    replace (32 - k + k) with 32 in S by lia. nia. }
  rewrite !MUX_spec by (try apply u32_range; lia).
  rewrite Hc. destruct (Z.leb_spec d (V / 2 ^ k)) as [Hle | Hgt].
  - assert (sub32 w d = V / 2 ^ k - d) as Esub.
    { unfold sub32, u32. rewrite HW in *. symmetry.
      apply (Z.mod_unique _ _ (- b2z b)); [|lia]. left. destruct b; simpl b2z in *; lia. }
    set (V' := V - d * 2 ^ k).
    assert (V' / 2 ^ k = V / 2 ^ k - d) as EV'.
    { subst V'. replace (V - d * 2 ^ k) with (V + (- d) * 2 ^ k) by ring.
      rewrite Z.div_add by lia. ring. }
    assert (0 <= V' < d * 2 ^ k) as HV' by (subst V'; nia).
    assert (Z.shiftr (sub32 w d) (32 - k) = V' / 2 ^ 32) as ->.
    { rewrite Esub, <- EV', Z.shiftr_div_pow2 by lia.
      rewrite Z.div_div by lia. by rewrite <- EP. }
    assert (sub32 lo (u32 (Z.shiftl d k)) = V' mod 2 ^ 32) as ->.
    { unfold sub32, u32. rewrite Z.shiftl_mul_pow2 by lia.
      rewrite Zminus_mod_idemp_r. subst V' V.
      replace (hi * 2 ^ 32 + lo - d * 2 ^ k) with (lo - d * 2 ^ k + hi * 2 ^ 32) by ring.
      by rewrite Z.mod_add by lia. }
    pose proof (Z.div_mod V' (2 ^ 32) ltac:(lia)) as D'.
    pose proof (Z.mod_pos_bound V' (2 ^ 32) ltac:(lia)).
    assert (d * 2 ^ k < 2 ^ 32 * 2 ^ 32) by nia.
    assert (0 <= V' / 2 ^ 32 < 2 ^ 32).
    { split; [apply Z.div_pos; lia | apply Z.div_lt_upper_bound; lia]. }
    assert (Z.lor q (u32 (Z.shiftl 1 k)) = q + 2 ^ k) as EQ1.
    { assert (2 ^ k <= 2 ^ 31) by (apply Z.pow_le_mono_r; lia).
      rewrite Z.shiftl_1_l, u32_small by lia. rewrite Hq. apply lor_add; lia. }
    simpl b2z. rewrite EQ1. unfold divrem_inv, is_u32.
    replace (V' / 2 ^ 32 * 2 ^ 32 + V' mod 2 ^ 32) with V' by lia.
    repeat split; try lia. exists (2 * q' + 1). rewrite Hq, E1. ring.
  - simpl b2z. rewrite Z.shiftl_0_l. change (u32 0) with 0. rewrite Z.lor_0_r.
    unfold divrem_inv, is_u32. fold V. repeat split; try lia; [nia|].
    exists (2 * q'). rewrite Hq, E1. ring.
Qed.

Lemma divrem_loop_inv d n N s : (n < 32)%nat -> 0 < d < 2 ^ 32 ->
  divrem_inv d (Z.of_nat n + 1) N s -> divrem_inv d 1 N (divrem_loop d n s).
Proof.
  revert s. induction n as [|n IH]; intros s Hn Hd HI; [exact HI|].
  apply IH; [lia|done|]. replace (Z.of_nat n + 1) with (Z.of_nat (S n)) by lia.
  apply divrem_step_inv; [lia|done|exact HI].
Qed.

(** The constant-time division is Euclidean division whenever the quotient
    fits on 32 bits. *)
Lemma br_divrem_spec hi lo d : is_u32 hi -> is_u32 lo -> 0 < d < 2 ^ 32 -> hi < d ->
  br_divrem hi lo d = ((hi * 2 ^ 32 + lo) / d, (hi * 2 ^ 32 + lo) mod d).
Proof.
  unfold is_u32. intros Hh Hl Hd Hlt. unfold br_divrem.
  rewrite EQ_spec, MUX_spec by lia. replace (hi =? d) with false by lia.
  set (N := hi * 2 ^ 32 + lo).
  assert (divrem_inv d 1 N (divrem_loop d 31 (0, hi, lo))) as HI.
  { apply divrem_loop_inv; [lia|done|]. unfold divrem_inv, is_u32. simpl Z.of_nat.
    change (2 ^ (31 + 1)) with (2 ^ 32).
    repeat split; try lia. exists 0; lia. }
  destruct (divrem_loop d 31 (0, hi, lo)) as [[q hi'] lo'].
  destruct HI as (Hh' & Hl' & HV & (q' & Hq) & HN). unfold is_u32 in *.
  change (2 ^ 1) with 2 in *.
  assert (exists b, hi' = b2z b) as [b ->].
  { assert (hi' = 0 \/ hi' = 1) as [-> | ->] by nia; [by exists false | by exists true]. }
  rewrite GE_spec, b2z_lor by lia. rewrite MUX_spec by (try apply u32_range; lia).
  assert ((d <=? lo') || b = (d <=? b2z b * 2 ^ 32 + lo')) as ->.
  { destruct b; simpl b2z; [rewrite orb_true_r; symmetry|]; lia. }
  rewrite HN. destruct (Z.leb_spec d (b2z b * 2 ^ 32 + lo')) as [Hle | Hgt]; simpl b2z.
  - assert (sub32 lo' d = b2z b * 2 ^ 32 + lo' - d) as ->.
    { unfold sub32, u32. symmetry. apply (Z.mod_unique _ _ (- b2z b)); [|lia].
      left. destruct b; simpl b2z in *; lia. }
    rewrite Hq. change (Z.lor (q' * 2) 1) with (Z.lor (q' * 2 ^ 1) 1).
    rewrite (lor_add 1 q' 1) by lia. f_equal.
    + apply (Z.div_unique _ _ _ (b2z b * 2 ^ 32 + lo' - d)); lia.
    + apply (Z.mod_unique _ _ (q' * 2 + 1)); lia.
  - destruct b; simpl b2z in *; [lia|]. rewrite Z.lor_0_r. f_equal.
    + apply (Z.div_unique _ _ _ lo'); lia.
    + apply (Z.mod_unique _ _ q); lia.
Qed.

(** Masking two byte strings together. *)
Lemma zxor_app l1 l2 k1 k2 : zlen l1 = zlen k1 -> zxor (l1 ++ l2) (k1 ++ k2) = zxor l1 k1 ++ zxor l2 k2.
Proof. intros. apply zip_with_app. lia. Qed.
Lemma zxor_long l k r : zlen l <= zlen k -> zxor l (k ++ r) = zxor l k.
Proof.
  unfold zxor. revert k. induction l as [|x l IH]; intros [|y k] Hl; cbn [length app zip_with] in *; [by destruct r|done|lia|].
  f_equal. apply IH. lia.
Qed.
Lemma zxor_take l k : zxor l (ztake (zlen l) k) = zxor l k.
Proof.
  destruct (Z.le_ge_cases (zlen k) (zlen l)); [by rewrite ztake_ge|].
  rewrite <- (ztake_zdrop (zlen l) k) at 2. rewrite zxor_long; [done|]. rewrite zlen_ztake; lia.
Qed.
Lemma zlen_zxor l k : zlen l <= zlen k -> zlen (zxor l k) = zlen l.
Proof. intros. unfold zxor. rewrite length_zip_with_l; [done|lia]. Qed.
Lemma zxor_zeros n k : 0 <= n <= zlen k -> zxor (zeros n) k = ztake n k.
Proof.
  intros [Hn Hk]. rewrite <- (zxor_take (zeros n) k), zlen_zeros by done.
  assert (zlen (ztake n k) = n) as L by (apply zlen_ztake; lia).
  revert L. generalize (ztake n k) as l. clear. intros l <-. unfold zxor, zeros. rewrite Nat2Z.id.
  induction l as [|x l IH]; [done|]. cbn. by rewrite IH.
Qed.
Lemma zxor_involutive l k : zlen l <= zlen k -> zxor (zxor l k) k = l.
Proof.
  unfold zxor. revert k. induction l as [|x l IH]; intros [|y k] Hl; cbn in *; [done|done|lia|].
  f_equal; [by rewrite Z.lxor_assoc, Z.lxor_nilpotent, Z.lxor_0_r|apply IH; lia].
Qed.
Lemma zxor_bytes l k : Forall is_u8 l -> Forall is_u8 k -> Forall is_u8 (zxor l k).
Proof.
  unfold zxor. intros Hl. revert k. induction Hl as [|x l Hx Hl IH]; intros [|y k] Hk; cbn; try constructor.
  - apply (lxor_bound 8); [lia|done|]. by inversion Hk.
  - apply IH. by inversion Hk.
Qed.

Lemma dec16be_range m : Forall is_u8 m -> 0 <= br_dec16be m < 65536.
Proof.
  intros H. unfold br_dec16be.
  pose proof (is_u8_zget m 0 H). pose proof (is_u8_zget m 1 H). unfold is_u8 in *.
  rewrite lor_shiftl_add by lia. lia.
Qed.

(** ** Properties *)

(** C17: the branch-free comparisons, the multiplexer and [BIT_LENGTH] compute
    what their comments say, on every pair of 32-bit values (unsigned or, for
    the comparisons with zero, signed). *)
Theorem ct_primitives_correct x y : is_u32 x -> is_u32 y ->
  EQ x y = b2z (x =? y) /\ NEQ x y = b2z (negb (x =? y)) /\
  GT x y = b2z (y <? x) /\ GE x y = b2z (y <=? x) /\
  LT x y = b2z (x <? y) /\ LE x y = b2z (x <=? y) /\
  CMP x y = Z.sgn (x - y) /\ MIN x y = Z.min x y /\ MAX x y = Z.max x y /\
  (forall b, MUX (b2z b) x y = if b then x else y) /\
  BIT_LENGTH x = (if x =? 0 then 0 else Z.log2 x + 1).
Proof.
  intros Hx Hy. rewrite EQ_spec, NEQ_spec, GT_spec, GE_spec, LT_spec, LE_spec, CMP_spec,
    MIN_spec, MAX_spec, BIT_LENGTH_spec by done.
  repeat split. intros b. by apply MUX_spec.
Qed.

Lemma ct_primitives_correct_witness :
  is_u32 3 /\ CMP 3 0xFFFFFFFF = -1 /\ BIT_LENGTH 3 = 2.
Proof.
  split; [unfold is_u32; lia|].
  destruct (ct_primitives_correct 3 0xFFFFFFFF) as (_ & _ & _ & _ & _ & _ & E & _ & _ & _ & E').
  - unfold is_u32; lia.
  - unfold is_u32; lia.
  - rewrite E, E'. split; reflexivity.
Defined.

(** C18: every encoder is undone by its decoder, whatever bytes follow, and the
    range encoders by the range decoders on the same number of values. *)
Theorem codecs_roundtrip x y z m v : is_u16 x -> is_u32 y -> 0 <= z < 2 ^ 64 -> Forall is_u32 v ->
  br_dec16be (br_enc16be x ++ m) = x /\ br_dec16le (br_enc16le x ++ m) = x /\
  br_dec32be (br_enc32be y ++ m) = y /\ br_dec32le (br_enc32le y ++ m) = y /\
  br_dec64be (br_enc64be z ++ m) = z /\ br_dec64le (br_enc64le z ++ m) = z /\
  br_range_dec32be (length v) (br_range_enc32be v ++ m) = v /\
  br_range_dec32le (length v) (br_range_enc32le v ++ m) = v.
Proof.
  intros. rewrite dec_enc16be, dec_enc16le, dec_enc32be, dec_enc32le, dec_enc64be, dec_enc64le by done.
  do 6 (split; [done|]). split; apply (range_dec_enc 4 _ _ is_u32); try done.
  - exact dec_enc32be.
  - exact dec_enc32le.
Qed.

Lemma codecs_roundtrip_witness :
  br_dec16be (br_enc16be 0x0303 ++ [7]) = 0x0303 /\
  br_range_dec32be 2 (br_range_enc32be [1; 0xFFFFFFFF] ++ []) = [1; 0xFFFFFFFF].
Proof.
  split.
  - apply (codecs_roundtrip 0x0303 0 0 [7] []); unfold is_u16, is_u32; try lia. constructor.
  - apply (codecs_roundtrip 0 0 0 [] [1; 0xFFFFFFFF]); unfold is_u16, is_u32; try lia.
    repeat constructor; lia.
Defined.

(** C19: the constant-time 64 by 32 bit division computes quotient and remainder
    whenever the quotient fits 32 bits (the documented precondition). *)
Theorem br_divrem_correct hi lo d : is_u32 hi -> is_u32 lo -> 0 < d < 2 ^ 32 -> hi < d ->
  br_div hi lo d = (hi * 2 ^ 32 + lo) / d /\ br_rem hi lo d = (hi * 2 ^ 32 + lo) mod d.
Proof. intros. unfold br_div, br_rem. by rewrite br_divrem_spec by done. Qed.

Lemma br_divrem_correct_witness : is_u32 5 /\ br_rem 5 7 10 = (5 * 2 ^ 32 + 7) mod 10.
Proof.
  split; [unfold is_u32; lia|]. apply (br_divrem_correct 5 7 10); unfold is_u32; lia.
Defined.
