(* ===== verification/Effects.v ===== *)
(** * Effects: stateful code and the operating system

    Code that changes state is a function of [M S A]: it takes the state and
    returns a result and the new state, or [None] when the fuel given to one of
    its loops is used up.  [wp m Q s] says that [m] started in [s] does return,
    with a result and a state that satisfy [Q]: a theorem [wp ...] is a theorem
    of total correctness.  The operating system's calls are the class [OS]. *)
From S2P Require Import Prelude.

(** ** The monad *)

Definition M (S A : Type) : Type := S -> option (A * S).

Section monad.
Context {S : Type}.

Definition mret' {A} (a : A) : M S A := fun s => Some (a, s).
Definition mbind' {A B} (m : M S A) (k : A -> M S B) : M S B := fun s =>
  match m s with Some (a, s') => k a s' | None => None end.
Definition mget : M S S := fun s => Some (s, s).
Definition mset (f : S -> S) : M S unit := fun s => Some (tt, f s).
Definition mlift {A} (o : option A) : M S A := fun s =>
  match o with Some a => Some (a, s) | None => None end.

(** [for (;;)]: the body yields [None] to go round again and [Some r] to leave
    the loop with [r]. *)
Fixpoint mloop {R} (fuel : nat) (body : M S (option R)) : M S R :=
  match fuel with
  | O => fun _ => None
  | Datatypes.S fuel => mbind' body (fun r =>
      match r with Some x => mret' x | None => mloop fuel body end)
  end.

(** [for (i = 0; i < n; i ++)], on the list of the indices. *)
Fixpoint mfor {A} (l : list A) (body : A -> M S unit) : M S unit :=
  match l with
  | [] => mret' tt
  | x :: l => mbind' (body x) (fun _ => mfor l body)
  end.
End monad.

Declare Scope eff_scope.
Delimit Scope eff_scope with eff.
Notation "'let!' x := m 'in' k" := (mbind' m (fun x => k))
  (at level 200, x pattern, m at level 100, k at level 200, right associativity,
   format "'[v' 'let!'  x  :=  m  'in' '//' k ']'") : eff_scope.
Notation "m ;;! k" := (mbind' m (fun _ => k)) (at level 199, right associativity) : eff_scope.
#[global] Open Scope eff_scope.

(** Running the first command of a sequence. *)
Section run.
Context {S : Type}.
Implicit Types s : S.
Lemma run_bind {A B} (m : M S A) (k : A -> M S B) s a s' :
  m s = Some (a, s') -> mbind' m k s = k a s'.
Proof. unfold mbind'. by intros ->. Qed.
Lemma run_bind_bind {A B C} (m : M S A) (f : A -> M S B) (k : B -> M S C) s a s' :
  m s = Some (a, s') -> mbind' (mbind' m f) k s = mbind' (f a) k s'.
Proof. unfold mbind'. by intros ->. Qed.
Lemma run_lift {A B} (o : option A) (k : A -> M S B) s a :
  o = Some a -> mbind' (mlift o) k s = k a s.
Proof. by intros ->. Qed.
End run.

(** ** Total correctness *)

Definition wp {S A} (m : M S A) (Q : A -> S -> Prop) (s : S) : Prop :=
  exists a s', m s = Some (a, s') /\ Q a s'.

Section wp.
Context {S : Type}.
Implicit Types s : S.

Lemma wp_ret {A} (a : A) (Q : A -> S -> Prop) s : Q a s -> wp (mret' a) Q s.
Proof. intros; exists a, s; auto. Qed.
Lemma wp_bind {A B} (m : M S A) (k : A -> M S B) Q s :
  wp m (fun a => wp (k a) Q) s -> wp (mbind' m k) Q s.
Proof. intros (a & s' & E & b & s'' & E' & HQ). exists b, s''. unfold mbind'. by rewrite E. Qed.
Lemma wp_bind_assoc {A B C} (m : M S A) (f : A -> M S B) (k : B -> M S C) Q s :
  wp (mbind' (mbind' m f) k) Q s -> wp (mbind' m (fun a => mbind' (f a) k)) Q s.
Proof.
  intros (c & s' & E & HQ). exists c, s'. split; [|done]. revert E. unfold mbind'.
  by destruct (m s) as [[a t]|].
Qed.
Lemma wp_get (Q : S -> S -> Prop) s : Q s s -> wp mget Q s.
Proof. intros; exists s, s; auto. Qed.
Lemma wp_set f (Q : unit -> S -> Prop) s : Q tt (f s) -> wp (mset f) Q s.
Proof. intros; exists tt, (f s); auto. Qed.
Lemma wp_lift {A} (o : option A) (a : A) (Q : A -> S -> Prop) s :
  o = Some a -> Q a s -> wp (mlift o) Q s.
Proof. intros -> ?; exists a, s; auto. Qed.
Lemma wp_mono {A} (m : M S A) (Q Q' : A -> S -> Prop) s :
  wp m Q s -> (forall a s', Q a s' -> Q' a s') -> wp m Q' s.
Proof. intros (a & s' & E & H) Himp. exists a, s'. auto. Qed.

(** A loop whose body keeps [I] and decreases [mu] as long as it goes on ends
    within any fuel above [mu]. *)
Lemma wp_loop {R} (I : S -> Prop) (mu : S -> nat) (body : M S (option R)) Q fuel s :
  (forall s, I s -> wp body (fun r s' =>
     match r with Some x => Q x s' | None => I s' /\ (mu s' < mu s)%nat end) s) ->
  I s -> (mu s < fuel)%nat -> wp (mloop fuel body) Q s.
Proof.
  intros Hbody. revert s. induction fuel as [|fuel IH]; intros s HI Hf; [lia|].
  cbn [mloop]. apply wp_bind. eapply wp_mono; [by apply Hbody|].
  intros [x|] s' H; [by apply wp_ret|]. apply IH; [tauto|lia].
Qed.

Lemma wp_for {A} (I : S -> Prop) (l : list A) (body : A -> M S unit) s :
  (forall x s, x ∈ l -> I s -> wp (body x) (fun _ => I) s) -> I s ->
  wp (mfor l body) (fun _ => I) s.
Proof.
  revert s. induction l as [|x l IH]; intros s Hb HI; [by apply wp_ret|].
  cbn [mfor]. apply wp_bind. eapply wp_mono; [apply Hb; [by left|done]|].
  intros [] s' HI'. apply IH; [|done]. intros y s'' Hy. apply Hb. by right.
Qed.

(** What a computation that returns does, from its [wp]. *)
Lemma wp_elim {A} (m : M S A) Q s a s' : wp m Q s -> m s = Some (a, s') -> Q a s'.
Proof. intros (b & t & E & H) E'. congruence. Qed.

Lemma wp_returns {A} (m : M S A) Q s : wp m Q s -> exists r, m s = Some r.
Proof. intros (a & s' & E & _). eauto. Qed.
End wp.

Lemma wp_intro {S A} (m : M S A) (Q : A -> S -> Prop) s a s' :
  m s = Some (a, s') -> Q a s' -> wp m Q s.
Proof. intros; by exists a, s'. Qed.
Lemma wp_run {S A} (m : M S A) (Q : A -> S -> Prop) s :
  wp m Q s -> wp m (fun a s' => m s = Some (a, s') /\ Q a s') s.
Proof. intros (a & s' & E & H). exists a, s'. auto. Qed.
#[global] Opaque wp.

(** [wp_step] runs one primitive of a computation. *)
Ltac wp_step :=
  match goal with
  | |- wp (mbind' _ _) _ _ => apply wp_bind
  | |- wp (mret' _) _ _ => apply wp_ret
  | |- wp mget _ _ => apply wp_get
  | |- wp (mset _) _ _ => apply wp_set
  end; cbv beta.

(** ** Relations between the states before and after *)

(** Whatever [m] returns, it leads from a state to a related one. *)
Definition respects {S A} (R : S -> S -> Prop) (m : M S A) : Prop :=
  forall s a s', m s = Some (a, s') -> R s s'.
Section respects.
Context {S : Type} (R : S -> S -> Prop) `{!PreOrder R}.
Lemma respects_ret {A} (a : A) : respects R (mret' a).
Proof. intros s b s' [= _ <-]. reflexivity. Qed.
Lemma respects_mget : respects R mget.
Proof. intros s b s' [= _ <-]. reflexivity. Qed.
Lemma respects_lift {A} (o : option A) : respects R (mlift o).
Proof. intros s b s'. unfold mlift. destruct o; [intros [= _ <-]; reflexivity|done]. Qed.
(** The rest of a computation may use what is known of the result so far. *)
Lemma respects_bind_if {A B} (P : A -> Prop) (m : M S A) (k : A -> M S B) :
  (forall s a s', m s = Some (a, s') -> R s s' /\ P a) -> (forall a, P a -> respects R (k a)) -> respects R (mbind' m k).
Proof.
  intros Hm Hk s b s'. unfold mbind'. destruct (m s) as [[a s1]|] eqn:E; [|done]. intros E'.
  destruct (Hm _ _ _ E) as [H1 Ha]. transitivity s1; [done|]. by apply (Hk a Ha _ _ _ E').
Qed.
Lemma respects_bind {A B} (m : M S A) (k : A -> M S B) :
  respects R m -> (forall a, respects R (k a)) -> respects R (mbind' m k).
Proof. intros Hm Hk. apply (respects_bind_if (fun _ => True)); [|auto]. intros s a s' E. split; [by apply (Hm _ _ _ E)|done]. Qed.
Lemma respects_loop {T} n (body : M S (option T)) : respects R body -> respects R (mloop n body).
Proof.
  intros Hb. induction n as [|n IH]; [done|]. cbn [mloop]. apply respects_bind; [done|].
  intros [x|]; [apply respects_ret|done].
Qed.
End respects.

(** ** The operating system *)

(** The number of descriptors an [fd_set] has room for. *)
Definition FD_SETSIZE : Z := 1024.

(** The socket calls, memory allocation and the entropy source, on a state [W]
    of the world.  A read yields [None] for -1 and [Some []] at end of file; a
    write yields the number of bytes taken, or 0 or less; [select] yields the
    readable and the writable descriptors, or [None] for an error.
    [would_block] is the test of [errno] that follows a failed call. *)
Class OS (W : Type) := {
  sys_read : W -> Z -> Z -> W * option (list Z);
  sys_write : W -> Z -> list Z -> W * Z;
  sys_accept : W -> Z -> W * option Z;
  sys_nonblocking : W -> Z -> W * bool;
  sys_close : W -> Z -> W;
  sys_select : W -> list Z -> list Z -> W * option (list Z * list Z);
  would_block : W -> bool;
  sys_malloc : W -> Z -> W * bool;
  sys_seed : W -> W * bool }.

(** What the wrappers rely on: a call moves at most the bytes it was asked for,
    and only finitely many calls succeed before one would block ([budget]). *)
Class OSLaws (W : Type) `{!OS W} (budget : W -> nat) := {
  sys_read_law : forall w fd n w' r, 0 < n -> sys_read w fd n = (w', r) ->
    (budget w' <= budget w)%nat /\
    forall bs, r = Some bs -> bs <> [] ->
      zlen bs <= n /\ Forall is_u8 bs /\ (budget w' < budget w)%nat;
  sys_write_law : forall w fd bs w' n, bs <> [] -> sys_write w fd bs = (w', n) ->
    (budget w' <= budget w)%nat /\ n <= zlen bs /\ (0 < n -> (budget w' < budget w)%nat);
  sys_accept_law : forall w fd w' r, sys_accept w fd = (w', r) ->
    (budget w' <= budget w)%nat /\
    forall c, r = Some c -> 0 <= c /\ (budget w' < budget w)%nat;
  sys_other_law :
    (forall w fd, (budget (sys_nonblocking w fd).1 <= budget w)%nat) /\
    (forall w fd, (budget (sys_close w fd) <= budget w)%nat) /\
    (forall w r o, (budget (sys_select w r o).1 <= budget w)%nat) /\
    (forall w n, (budget (sys_malloc w n).1 <= budget w)%nat) /\
    (forall w, (budget (sys_seed w).1 <= budget w)%nat) }.

(** ** Memory accesses with their bounds

    [None] is an access outside the array: a program whose [wp] holds makes
    none. *)
Definition write_at (buf : list Z) (off : Z) (src : list Z) : option (list Z) :=
  if (0 <=? off) && (off + zlen src <=? zlen buf) then Some (zblit buf off src) else None.
Definition read_at (buf : list Z) (off len : Z) : option (list Z) :=
  if (0 <=? off) && (0 <=? len) && (off + len <=? zlen buf) then Some (zslice buf off len) else None.

Lemma write_at_ok buf off src : 0 <= off -> off + zlen src <= zlen buf ->
  write_at buf off src = Some (zblit buf off src).
Proof.
  intros. unfold write_at.
  rewrite (proj2 (Z.leb_le 0 off)), (proj2 (Z.leb_le _ (zlen buf))) by lia. done.
Qed.
Lemma read_at_ok buf off len : 0 <= off -> 0 <= len -> off + len <= zlen buf ->
  read_at buf off len = Some (zslice buf off len).
Proof.
  intros. unfold read_at.
  rewrite (proj2 (Z.leb_le 0 off)), (proj2 (Z.leb_le 0 len)), (proj2 (Z.leb_le _ (zlen buf))) by lia.
  done.
Qed.
