(* ===== verification/JsonFrame.v ===== *)
(** * JsonFrame: the length-prefixed JSON framing of the wrappers

    [tls_wrapper_v2.c] and [tls_wrapper_v3.c] put a 32-bit big-endian length in
    front of every JSON text.  This file holds the byte-order helpers they use
    and the reference parser of a stream of frames, against which the buffers of
    the servers and clients are verified. *)
From S2P Require Import Prelude.
From S2P Require Import Words.

Definition TLSV2_MAX_JSON_SIZE : Z := 65536.

(** ** Byte order

    [memcpy(&n, p, 4)] on the little-endian hosts the Makefiles build for reads
    the value with [br_dec32le]; [ntohl] and [htonl] swap its bytes. *)
Definition ntohl (x : Z) : Z := br_swap32 x.
Definition htonl (x : Z) : Z := br_swap32 x.

(** ** Reference parser *)

(** The frame of a message. *)
Definition frame (m : list Z) : list Z := br_enc32be (zlen m) ++ m.

(** The first frame of a stream, when it is complete and its length is legal. *)
Definition parse_step (s : list Z) : option (list Z * list Z) :=
  if zlen s <? 4 then None
  else
    let n := br_dec32be s in
    if (0 <? n) && (n <=? TLSV2_MAX_JSON_SIZE) && (4 + n <=? zlen s)
    then Some (zslice s 4 n, zdrop (4 + n) s) else None.

Fixpoint parse_fuel (k : nat) (s : list Z) : list (list Z) * list Z :=
  match k with
  | O => ([], s)
  | S k =>
      match parse_step s with
      | Some (m, r) => let '(ms, r) := parse_fuel k r in (m :: ms, r)
      | None => ([], s)
      end
  end.

(** All the complete frames at the front of a stream, and the rest. *)
Definition parse (s : list Z) : list (list Z) * list Z := parse_fuel (length s) s.

(** A pending stream whose next frame can never complete. *)
Definition bad_length (s : list Z) : bool :=
  (4 <=? zlen s) && (TLSV2_MAX_JSON_SIZE <? br_dec32be s).

(** ** Lemmas *)

Lemma dec32be_app s t : 4 <= zlen s -> br_dec32be (s ++ t) = br_dec32be s.
Proof. intros. unfold br_dec32be. rewrite !zget_app_l by lia. done. Qed.

Lemma dec32be_slice s n : 4 <= n <= zlen s -> br_dec32be (zslice s 0 n) = br_dec32be s.
Proof. intros. unfold br_dec32be. rewrite !zget_zslice by lia. done. Qed.

Lemma dec32be_range m : Forall is_u8 m -> is_u32 (br_dec32be m).
Proof.
  intros H. change (br_dec32be m) with (br_dec32be [zget m 0; zget m 1; zget m 2; zget m 3]).
  rewrite dec32be_sum by (by apply is_u8_zget).
  pose proof (is_u8_zget m 0 H). pose proof (is_u8_zget m 1 H).
  pose proof (is_u8_zget m 2 H). pose proof (is_u8_zget m 3 H).
  unfold is_u8, is_u32 in *. lia.
Qed.

(** Two lanes of a word are masked independently. *)
Lemma testbit_lane a b n i : 0 <= n -> 0 <= b < 2 ^ n -> 0 <= i ->
  Z.testbit (a * 2 ^ n + b) i = if i <? n then Z.testbit b i else Z.testbit a (i - n).
Proof.
  intros Hn Hb Hi. destruct (Z.ltb_spec i n).
  - rewrite <- (Z.mod_pow2_bits_low (a * 2 ^ n + b) n i) by lia.
    rewrite Z.add_comm, Z.mod_add, Z.mod_small by lia. done.
  - replace i with (i - n + n) at 1 by lia. rewrite <- Z.div_pow2_bits by lia.
    rewrite Z.div_add_l, Z.div_small, Z.add_0_r by lia. done.
Qed.

Lemma land_lanes a b c d n : 0 <= n -> 0 <= b < 2 ^ n -> 0 <= d < 2 ^ n ->
  Z.land (a * 2 ^ n + b) (c * 2 ^ n + d) = Z.land a c * 2 ^ n + Z.land b d.
Proof.
  intros Hn Hb Hd. apply Z.bits_inj'. intros i Hi.
  assert (0 <= Z.land b d < 2 ^ n) by (apply land_bound; lia).
  rewrite Z.land_spec, !testbit_lane by done. case_match; by rewrite Z.land_spec.
Qed.

Lemma land_lane_mask a b c d : is_u8 a -> is_u8 b -> is_u8 c -> is_u8 d ->
  Z.land (a * 2 ^ 24 + b * 2 ^ 16 + c * 2 ^ 8 + d) 0x00FF00FF = b * 2 ^ 16 + d.
Proof.
  unfold is_u8. intros.
  assert (forall x y, 0 <= y < 2 ^ 8 -> Z.land (x * 2 ^ 8 + y) 0xFF = y) as H8.
  { intros x y Hy. change 0xFF with (Z.ones 8). rewrite Z.land_ones by lia.
    rewrite Z.add_comm, Z.mod_add, Z.mod_small by lia. done. }
  replace (a * 2 ^ 24 + b * 2 ^ 16 + c * 2 ^ 8 + d)
    with ((a * 2 ^ 8 + b) * 2 ^ 16 + (c * 2 ^ 8 + d)) by lia.
  change 0x00FF00FF with (0xFF * 2 ^ 16 + 0xFF).
  rewrite land_lanes, !H8 by lia. done.
Qed.

Lemma swap_bytes a b c d : is_u8 a -> is_u8 b -> is_u8 c -> is_u8 d ->
  br_swap32 (a * 2 ^ 24 + b * 2 ^ 16 + c * 2 ^ 8 + d) = d * 2 ^ 24 + c * 2 ^ 16 + b * 2 ^ 8 + a.
Proof.
  intros Ha Hb Hc Hd. unfold br_swap32. rewrite land_lane_mask by done.
  set (x := a * 2 ^ 24 + b * 2 ^ 16 + c * 2 ^ 8 + d).
  assert (Z.land (Z.shiftr x 8) 0x00FF00FF = a * 2 ^ 16 + c) as ->.
  { replace (Z.shiftr x 8) with (0 * 2 ^ 24 + a * 2 ^ 16 + b * 2 ^ 8 + c).
    - by apply land_lane_mask.
    - rewrite Z.shiftr_div_pow2 by lia. unfold is_u8 in *. subst x.
      Z.div_mod_to_equations. lia. }
  unfold is_u8 in *. clear x.
  assert (u32 (Z.shiftl (b * 2 ^ 16 + d) 8) = (b * 2 ^ 8) * 2 ^ 16 + d * 2 ^ 8) as ->.
  { rewrite Z.shiftl_mul_pow2, u32_small by lia. lia. }
  assert (Z.lor (b * 2 ^ 8 * 2 ^ 16 + d * 2 ^ 8) (a * 2 ^ 16 + c)
          = b * 2 ^ 24 + a * 2 ^ 16 + d * 2 ^ 8 + c) as ->.
  { replace (b * 2 ^ 24 + a * 2 ^ 16 + d * 2 ^ 8 + c)
      with ((b * 2 ^ 8 + a) * 2 ^ 16 + (d * 2 ^ 8 + c)) by lia.
    apply Z.bits_inj'. intros i Hi. rewrite Z.lor_spec, !(testbit_lane _ _ 16) by lia.
    case_match; rewrite <- Z.lor_spec; f_equal; rewrite (lor_add 8) by lia; lia. }
  assert (u32 (Z.shiftl (b * 2 ^ 24 + a * 2 ^ 16 + d * 2 ^ 8 + c) 16) = (d * 2 ^ 8 + c) * 2 ^ 16) as ->.
  { rewrite Z.shiftl_mul_pow2 by lia. unfold u32.
    replace ((b * 2 ^ 24 + a * 2 ^ 16 + d * 2 ^ 8 + c) * 2 ^ 16)
      with ((d * 2 ^ 8 + c) * 2 ^ 16 + (b * 2 ^ 8 + a) * 2 ^ 32) by lia.
    rewrite Z.mod_add, Z.mod_small by lia. done. }
  rewrite Z.shiftr_div_pow2 by lia.
  replace ((b * 2 ^ 24 + a * 2 ^ 16 + d * 2 ^ 8 + c) / 2 ^ 16) with (b * 2 ^ 8 + a)
    by (Z.div_mod_to_equations; lia).
  rewrite (lor_add 16) by lia. lia.
Qed.

Lemma ntohl_be m : Forall is_u8 m -> ntohl (br_dec32le m) = br_dec32be m.
Proof.
  intros H.
  change (br_dec32le m) with (br_dec32le [zget m 0; zget m 1; zget m 2; zget m 3]).
  change (br_dec32be m) with (br_dec32be [zget m 0; zget m 1; zget m 2; zget m 3]).
  rewrite dec32le_sum, dec32be_sum by (by apply is_u8_zget).
  by apply swap_bytes; apply is_u8_zget.
Qed.

Lemma htonl_be x : is_u32 x -> br_enc32le (htonl x) = br_enc32be x.
Proof.
  intros Hx. pose proof (bytes_of_u32 x Hx) as E.
  set (a := u8 (Z.shiftr x 24)) in *. set (b := u8 (Z.shiftr x 16)) in *.
  set (c := u8 (Z.shiftr x 8)) in *. set (d := u8 x) in *.
  assert (is_u8 a /\ is_u8 b /\ is_u8 c /\ is_u8 d) as (Ha & Hb & Hc & Hd)
    by (repeat split; apply u8_range).
  unfold htonl. rewrite E, swap_bytes by done. unfold br_enc32be. fold a b c d.
  unfold is_u8 in *. clearbody a b c d. clear x Hx E.
  unfold br_enc32le. rewrite !Z.shiftr_div_pow2 by lia. unfold u8.
  f_equal; [|f_equal; [|f_equal; [|f_equal]]]; Z.div_mod_to_equations; lia.
Qed.

Lemma zlen_frame m : zlen (frame m) = 4 + zlen m.
Proof. unfold frame. rewrite zlen_app. done. Qed.

Lemma Forall_frame m : Forall is_u8 m -> Forall is_u8 (frame m).
Proof. intros. apply Forall_app. split; [|done]. repeat constructor; apply u8_range. Qed.

Lemma parse_step_shorter s m r : parse_step s = Some (m, r) ->
  zlen m + 4 + zlen r = zlen s /\ 0 < zlen m <= TLSV2_MAX_JSON_SIZE /\ r = zdrop (4 + zlen m) s /\
  m = zslice s 4 (zlen m).
Proof.
  unfold parse_step. destruct (Z.ltb_spec (zlen s) 4); [done|].
  destruct (_ && _) eqn:E; [|done]. rewrite !andb_true_iff in E. intros [= <- <-].
  rewrite zlen_zslice, zlen_zdrop by lia. repeat split; lia.
Qed.

Lemma parse_step_app s m r t : parse_step s = Some (m, r) -> parse_step (s ++ t) = Some (m, r ++ t).
Proof.
  intros H. pose proof (parse_step_shorter s m r H) as (Hl & ? & Hr & Hm). revert H.
  unfold parse_step. rewrite zlen_app. destruct (Z.ltb_spec (zlen s) 4); [done|].
  replace (zlen s + zlen t <? 4) with false by blia. rewrite dec32be_app by lia.
  destruct (_ && _) eqn:E; [|done]. rewrite !andb_true_iff in E. intros [= <- <-].
  replace (_ && _ && (4 + br_dec32be s <=? zlen s + zlen t)) with true
    by (symmetry; rewrite !andb_true_iff; blia).
  rewrite zslice_app_l, zdrop_app_le by lia. done.
Qed.

(** Fuel above the length of the stream does not matter. *)
Lemma parse_fuel_enough k s : (length s <= k)%nat -> parse_fuel k s = parse s.
Proof.
  unfold parse. remember (length s) as n eqn:Hn. assert (length s <= n)%nat by lia. clear Hn.
  revert k s H. induction n as [|n IH]; intros k s Hs Hk.
  { destruct s; [|simpl in Hs; lia]. destruct k; done. }
  destruct k as [|k]; [lia|]. cbn [parse_fuel].
  destruct (parse_step s) as [[m r]|] eqn:E; [|done].
  apply parse_step_shorter in E. rewrite IH by lia. done.
Qed.

Lemma parse_unfold s : parse s =
  match parse_step s with
  | Some (m, r) => let '(ms, r) := parse r in (m :: ms, r)
  | None => ([], s)
  end.
Proof.
  rewrite <- (parse_fuel_enough (S (length s)) s) by lia. cbn [parse_fuel].
  destruct (parse_step s) as [[m r]|] eqn:E; [|done].
  apply parse_step_shorter in E. rewrite parse_fuel_enough by lia. done.
Qed.

Lemma parse_rest_stuck s ms r : parse s = (ms, r) -> parse_step r = None.
Proof.
  remember (length s) as n eqn:Hn. revert s ms r Hn.
  induction (lt_wf n) as [n _ IH]. intros s ms r ->. rewrite parse_unfold.
  destruct (parse_step s) as [[m t]|] eqn:E; [|by intros [= <- <-]].
  destruct (parse t) as [ms' r'] eqn:E'. intros [= <- <-].
  apply parse_step_shorter in E. eapply (IH (length t)); [lia|done|done].
Qed.

Lemma parse_bytes s ms r : Forall is_u8 s -> parse s = (ms, r) -> Forall (Forall is_u8) ms.
Proof.
  remember (length s) as n eqn:Hn. revert s ms r Hn.
  induction (lt_wf n) as [n _ IH]. intros s ms r -> Hs. rewrite parse_unfold.
  destruct (parse_step s) as [[m t]|] eqn:E; [|intros [= <- <-]; constructor].
  destruct (parse t) as [ms' r'] eqn:E'. intros [= <- <-].
  apply parse_step_shorter in E as (? & ? & Et & Em). constructor.
  - rewrite Em. by apply Forall_zslice.
  - eapply (IH (length t)); [lia|done| |exact E']. rewrite Et. by apply Forall_zdrop.
Qed.

(** Parsing in pieces: what a first chunk leaves pending is completed by the
    next one. *)
Lemma parse_app s t ms r ms' r' :
  parse s = (ms, r) -> parse (r ++ t) = (ms', r') -> parse (s ++ t) = (ms ++ ms', r').
Proof.
  remember (length s) as n eqn:Hn. revert s ms r Hn.
  induction (lt_wf n) as [n _ IH]. intros s ms r ->. rewrite (parse_unfold s).
  destruct (parse_step s) as [[m u]|] eqn:E; [|by intros [= <- <-]].
  destruct (parse u) as [ms1 r1] eqn:E1. intros [= <- <-] E'.
  rewrite parse_unfold, (parse_step_app s m u t E).
  apply parse_step_shorter in E.
  rewrite (IH (length u) ltac:(lia) u ms1 r1 eq_refl E1 E'). done.
Qed.

Lemma parse_step_frame m t : 0 < zlen m <= TLSV2_MAX_JSON_SIZE ->
  parse_step (frame m ++ t) = Some (m, t).
Proof.
  intros Hm. unfold parse_step, frame. rewrite <- app_assoc, !zlen_app.
  change (zlen (br_enc32be (zlen m))) with 4. replace (_ <? 4) with false by blia.
  rewrite dec_enc32be by (unfold is_u32, TLSV2_MAX_JSON_SIZE in *; lia).
  replace (_ && _) with true by (symmetry; rewrite !andb_true_iff; blia).
  assert (zlen (br_enc32be (zlen m)) = 4) as L by done.
  rewrite zslice_app_r, L by (rewrite L; lia). rewrite Z.sub_diag, zslice_app_l, zslice_all by lia.
  rewrite zdrop_app_ge, L by (rewrite L; lia). replace (4 + zlen m - 4) with (zlen m) by lia.
  rewrite zdrop_app_ge, Z.sub_diag by lia. done.
Qed.

Lemma parse_frames ms t : Forall (fun m => 0 < zlen m <= TLSV2_MAX_JSON_SIZE) ms ->
  parse_step t = None -> parse (concat (map frame ms) ++ t) = (ms, t).
Proof.
  intros H Ht. induction H as [|m ms Hm _ IH]; cbn [map concat app].
  - rewrite parse_unfold, Ht. done.
  - rewrite <- app_assoc, parse_unfold, parse_step_frame, IH by done. done.
Qed.
