(* ===== verification/Engine.v ===== *)
(** * Engine: the TLS record engine of BearSSL ([bearssl/src/ssl/ssl_engine.c])

    The engine owns two I/O buffers (possibly one shared buffer), six buffer
    registers, an I/O mode and the contexts that protect records; a coroutine,
    the handshake processor, consumes and produces every record that is not
    application data.  The C code reaches the record protection through a
    vtable and the handshake processor through a function pointer: here they are
    the classes [RecordIn], [RecordOut] and [Handshake], whose laws
    ([RecordInLaws], [RecordOutLaws], [HandshakeLaws]) are what the engine
    relies on.  Memory is one byte array, [mem]; a pointer is an offset in it
    and [NULL] is [None], so that aliased and overlapping buffers are
    represented as they are in C. *)
From stdpp Require Import relations.
From S2P Require Import Prelude.
From S2P Require Import Words.

(** ** Constants (bearssl_ssl.h, inner.h) *)

Definition BR_SSL_CHANGE_CIPHER_SPEC : Z := 20.
Definition BR_SSL_ALERT : Z := 21.
Definition BR_SSL_HANDSHAKE : Z := 22.
Definition BR_SSL_APPLICATION_DATA : Z := 23.

Definition BR_ERR_OK : Z := 0.
Definition BR_ERR_BAD_PARAM : Z := 1.
Definition BR_ERR_UNSUPPORTED_VERSION : Z := 3.
Definition BR_ERR_BAD_VERSION : Z := 4.
Definition BR_ERR_BAD_LENGTH : Z := 5.
Definition BR_ERR_TOO_LARGE : Z := 6.
Definition BR_ERR_BAD_MAC : Z := 7.
Definition BR_ERR_UNEXPECTED : Z := 10.
Definition BR_ERR_IO : Z := 31.

Definition BR_SSL_CLOSED : Z := 1.
Definition BR_SSL_SENDREC : Z := 2.
Definition BR_SSL_RECVREC : Z := 4.
Definition BR_SSL_SENDAPP : Z := 8.
Definition BR_SSL_RECVAPP : Z := 16.

Definition BR_OPT_NO_RENEGOTIATION : Z := 2.

Definition MAX_OUT_OVERHEAD : Z := 85.
Definition MAX_IN_OVERHEAD : Z := 325.

(** ** Data *)

Inductive io_mode := BR_IO_FAILED | BR_IO_IN | BR_IO_OUT | BR_IO_INOUT.
#[export] Instance io_mode_eq_dec : EqDecision io_mode.
Proof. solve_decision. Defined.

(** The [out] union: [br_sslrec_out_clear_context] before encryption is
    switched on, an encrypting context afterwards. *)
Inductive out_ctx (RO : Type) := OutClear | OutEnc (s : RO).
Arguments OutClear {RO}.
Arguments OutEnc {RO} s.

(** [br_ssl_engine_context], less the fields that only the handshake code
    reads (they are part of [cpu] here). *)
Record engine {RI RO HS : Type} : Type := Engine {
  mem : list Z;
  err : Z;
  ibuf : option Z; obuf : option Z; ibuf_len : Z; obuf_len : Z;
  max_frag_len : Z; log_max_frag_len : Z; peer_log_max_frag_len : Z;
  ixa : Z; ixb : Z; ixc : Z;
  oxa : Z; oxb : Z; oxc : Z;
  iomode : io_mode; incrypt : bool; shutdown_recv : bool;
  record_type_in : Z; record_type_out : Z; version_in : Z; version_out : Z;
  rin : RI; rout : out_ctx RO;
  application_data : Z; reneg : Z; flags : Z;
  cpu : HS;
  hbuf_in : option Z; hbuf_out : option Z; saved_hbuf_out : option Z;
  hlen_in : Z; hlen_out : Z; action : Z; alert : Z }.
Arguments engine : clear implicits.
Arguments Engine {RI RO HS}.

#[export] Instance eta_engine {RI RO HS} : Eta (engine RI RO HS) := fun e =>
  Engine (mem e) (err e) (ibuf e) (obuf e) (ibuf_len e) (obuf_len e)
    (max_frag_len e) (log_max_frag_len e) (peer_log_max_frag_len e)
    (ixa e) (ixb e) (ixc e) (oxa e) (oxb e) (oxc e)
    (iomode e) (incrypt e) (shutdown_recv e)
    (record_type_in e) (record_type_out e) (version_in e) (version_out e)
    (rin e) (rout e) (application_data e) (reneg e) (flags e) (cpu e)
    (hbuf_in e) (hbuf_out e) (saved_hbuf_out e) (hlen_in e) (hlen_out e)
    (action e) (alert e).

(** [eng_simpl] computes the projections of an updated engine. *)
Ltac eng_simpl := cbn [setf mem err ibuf obuf ibuf_len obuf_len max_frag_len
  log_max_frag_len peer_log_max_frag_len ixa ixb ixc oxa oxb oxc iomode incrypt
  shutdown_recv record_type_in record_type_out version_in version_out rin rout
  application_data reneg flags cpu hbuf_in hbuf_out saved_hbuf_out hlen_in
  hlen_out action alert].
Ltac eng_simpl_in H := cbn [setf mem err ibuf obuf ibuf_len obuf_len max_frag_len
  log_max_frag_len peer_log_max_frag_len ixa ixb ixc oxa oxb oxc iomode incrypt
  shutdown_recv record_type_in record_type_out version_in version_out rin rout
  application_data reneg flags cpu hbuf_in hbuf_out saved_hbuf_out hlen_in
  hlen_out action alert] in H.

(** The numeric values of the two buffer pointers. *)
Abbreviation ibase e := (default 0 (ibuf e)).
Abbreviation obase e := (default 0 (obuf e)).

(** ** The interfaces of the engine *)

(** [br_sslrec_in_class]: [decrypt] rewrites the record data in place and
    yields the plaintext's offset and length, or [None] for a bad record. *)
Class RecordIn (RI : Type) := {
  check_length : RI -> Z -> bool;
  decrypt : RI -> Z -> Z -> list Z -> RI * list Z * option (Z * Z) }.

(** [br_sslrec_out_class]: [encrypt s type version buf off len] turns the
    [len] plaintext bytes at [off] of the output buffer into a record, in place,
    and yields the record's offset and length. *)
Class RecordOut (RO : Type) := {
  max_plaintext : RO -> Z -> Z -> Z * Z;
  encrypt : RO -> Z -> Z -> list Z -> Z -> Z -> RO * list Z * Z * Z }.

(** [cc->hsrun]: one run of the handshake coroutine, until it needs I/O. *)
Class Handshake (RI RO HS : Type) := hsrun : engine RI RO HS -> engine RI RO HS.

(** ** The unprotected record layer (clear_max_plaintext, clear_encrypt) *)

Definition clear_max_plaintext (start end_ : Z) : Z * Z :=
  let len := end_ -! start in
  if 16384 <? len then (start, start +! 16384) else (start, end_).

Definition clear_encrypt (record_type version : Z) (buf : list Z) (off data_len : Z)
  : list Z * Z * Z :=
  let p := off - 5 in
  let buf := zblit buf p (u8 record_type :: br_enc16be version) in
  let buf := zblit buf (p + 3) (br_enc16be data_len) in
  (buf, p, data_len +! 5).

Section engine.
Context {RI RO HS : Type} `{!RecordIn RI} `{!RecordOut RO} `{!Handshake RI RO HS}.
Notation eng := (engine RI RO HS).
Implicit Types e : eng.

(** Virtual calls through [out.vtable]. *)
Definition out_max_plaintext (o : out_ctx RO) (a b : Z) : Z * Z :=
  match o with
  | OutClear => clear_max_plaintext a b
  | OutEnc s => max_plaintext s a b
  end.
Definition out_encrypt (o : out_ctx RO) (t v : Z) (buf : list Z) (off len : Z)
  : out_ctx RO * list Z * Z * Z :=
  match o with
  | OutClear => let '(buf, p, n) := clear_encrypt t v buf off len in (OutClear, buf, p, n)
  | OutEnc s => let '(s, buf, p, n) := encrypt s t v buf off len in (OutEnc s, buf, p, n)
  end.

(** The C test [rc->ibuf == rc->obuf]. *)
Definition shared e : bool := bool_decide (ibuf e = obuf e).

Definition br_ssl_engine_closed e : bool := bool_decide (iomode e = BR_IO_FAILED).

Definition br_ssl_engine_fail e (error : Z) : eng :=
  match iomode e with
  | BR_IO_FAILED => e
  | _ => e <| iomode := BR_IO_FAILED |> <| err := error |>
  end.

(** ** Low-level record management *)

Definition make_ready_in e : eng :=
  let e := e <| ixa := 0 |> <| ixb := 0 |> <| ixc := 5 |> in
  match iomode e with BR_IO_IN => e <| iomode := BR_IO_INOUT |> | _ => e end.

Definition make_ready_out e : eng :=
  let '(a, b) := out_max_plaintext (rout e) 5 (obuf_len e -! 5) in
  let b := if max_frag_len e <? b -! a then a +! max_frag_len e else b in
  let e := e <| oxa := a |> <| oxb := b |> <| oxc := a |> in
  match iomode e with BR_IO_OUT => e <| iomode := BR_IO_INOUT |> | _ => e end.

(** [max_frag_len] is a [uint16_t] field, the argument is [unsigned]. *)
Definition br_ssl_engine_new_max_frag_len e (mfl : Z) : eng :=
  let e := e <| max_frag_len := u16 mfl |> in
  let nxb := oxc e +! mfl in
  if (oxa e <? oxb e) && (nxb <? oxb e) && (oxa e <? nxb)
  then e <| oxb := nxb |> else e.

(** [for (u = 14; u >= 9; u --)]: [n] is [u - 8]; the result is the [u] at
    which the loop stops. *)
Fixpoint frag_search (n : nat) (ilen olen : Z) : Z :=
  match n with
  | O => 8
  | S n' =>
      let u := 8 + Z.of_nat n in
      let flen := Z.shiftl 1 u in
      if (flen + MAX_OUT_OVERHEAD <=? olen) && (flen + MAX_IN_OVERHEAD <=? ilen)
      then u else frag_search n' ilen olen
  end.

Definition br_ssl_engine_set_buffers_bidi e
    (ib : option Z) (ilen : Z) (ob : option Z) (olen : Z) : eng :=
  let e := e <| iomode := BR_IO_INOUT |> <| incrypt := false |> <| err := BR_ERR_OK |>
             <| version_in := 0 |> <| record_type_in := 0 |>
             <| version_out := 0 |> <| record_type_out := 0 |> in
  let finish e := make_ready_out (make_ready_in (e <| rout := OutClear |>)) in
  match ib with
  | None =>
      finish (match ibuf e with None => br_ssl_engine_fail e BR_ERR_BAD_PARAM | _ => e end)
  | Some _ =>
      let e := e <| ibuf := ib |> <| ibuf_len := ilen |> in
      let '(ob, olen) := match ob with None => (ib, ilen) | _ => (ob, olen) end in
      let e := e <| obuf := ob |> <| obuf_len := olen |> in
      let u := frag_search 6 ilen olen in
      if u =? 8 then br_ssl_engine_fail e BR_ERR_BAD_PARAM
      else
        let u := if u =? 13 then 12 else u in
        finish (e <| max_frag_len := u16 (Z.shiftl 1 u) |> <| log_max_frag_len := u |>
                  <| peer_log_max_frag_len := 0 |>)
  end.

Definition br_ssl_engine_set_buffer e (buf : option Z) (buf_len : Z) (bidi : bool) : eng :=
  match buf with
  | None => br_ssl_engine_set_buffers_bidi e None 0 None 0
  | Some p =>
      if bidi then
        if buf_len <? 512 + MAX_IN_OVERHEAD + 512 + MAX_OUT_OVERHEAD then
          e <| iomode := BR_IO_FAILED |> <| err := BR_ERR_BAD_PARAM |>
        else
          let w := if buf_len <? 16384 + MAX_IN_OVERHEAD + 512 + MAX_OUT_OVERHEAD
                   then 512 + MAX_OUT_OVERHEAD
                   else buf_len -! (16384 + MAX_IN_OVERHEAD) in
          br_ssl_engine_set_buffers_bidi e (Some p) (buf_len -! w) (Some (p + w)) w
      else br_ssl_engine_set_buffers_bidi e (Some p) buf_len None 0
  end.

Definition engine_clearbuf e : eng := make_ready_out (make_ready_in e).

(** A [_buf] function: [Some (p, n)] for a buffer of [n] bytes at [p], [None]
    for a NULL pointer (and a zero length). *)

Definition recvrec_buf e : option (Z * Z) :=
  if shutdown_recv e then None
  else match iomode e with
  | BR_IO_IN | BR_IO_INOUT =>
      if ixa e =? ixb e then
        let z := ixc e in
        let z := if ibuf_len e -! ixa e <? z then ibuf_len e -! ixa e else z in
        Some (ibase e + ixa e, z)
      else None
  | _ => None
  end.

(** [recvrec_ack] once a full header is at [ibuf[0..5)]. *)
Definition recvrec_header e : eng :=
  let e := e <| record_type_in := zget (mem e) (ibase e) |> in
  let version := br_dec16be (zdrop (ibase e + 1) (mem e)) in
  if negb (Z.shiftr version 8 =? 3) then br_ssl_engine_fail e BR_ERR_UNSUPPORTED_VERSION
  else if negb (version_in e =? 0) && negb (version_in e =? version)
  then br_ssl_engine_fail e BR_ERR_BAD_VERSION
  else
    let e := e <| version_in := version |> in
    let rlen := br_dec16be (zdrop (ibase e + 3) (mem e)) in
    let accept e :=
      if rlen =? 0 then make_ready_in e
      else e <| ixa := 5 |> <| ixb := 5 |> <| ixc := rlen |> in
    if incrypt e then
      if negb (check_length (rin e) rlen) then br_ssl_engine_fail e BR_ERR_BAD_LENGTH
      else if ibuf_len e -! 5 <? rlen then br_ssl_engine_fail e BR_ERR_TOO_LARGE
      else accept e
    else if 16384 <? rlen then br_ssl_engine_fail e BR_ERR_BAD_LENGTH
    else accept e.

(** [recvrec_ack] once a full protected record is at [ibuf[5..ixa)]. *)
Definition recvrec_decrypt e : eng :=
  let pbuf_len := ixa e -! 5 in
  let '(s, data, r) := decrypt (rin e) (record_type_in e) (version_in e)
                         (zslice (mem e) (ibase e + 5) pbuf_len) in
  let e := e <| rin := s |> <| mem := zblit (mem e) (ibase e + 5) data |> in
  match r with
  | None => br_ssl_engine_fail e BR_ERR_BAD_MAC
  | Some (off, n) =>
      let e := e <| ixa := 5 + off |> <| ixb := 5 + off +! n |> in
      if ixa e =? ixb e then make_ready_in e else e
  end.

Definition recvrec_ack e (len : Z) : eng :=
  let e := if bool_decide (iomode e = BR_IO_INOUT) && shared e
           then e <| iomode := BR_IO_IN |> else e in
  let e := e <| ixa := ixa e +! len |> in
  let e := e <| ixb := ixa e |> <| ixc := ixc e -! len |> in
  if ixa e <? 5 then e
  else if ixa e =? 5 then recvrec_header e
  else if negb (incrypt e) then e <| ixa := 5 |>
  else if negb (ixc e =? 0) then e
  else recvrec_decrypt e.

Definition br_ssl_engine_recvrec_finished e : bool :=
  match iomode e with
  | BR_IO_IN | BR_IO_INOUT => (ixc e =? 0) || (ixa e <? 5)
  | _ => true
  end.

Definition recvpld_buf e : option (Z * Z) :=
  match iomode e with
  | BR_IO_IN | BR_IO_INOUT =>
      let len := ixb e -! ixa e in
      if len =? 0 then None else Some (ibase e + ixa e, len)
  | _ => None
  end.

Definition recvpld_ack e (len : Z) : eng :=
  let e := e <| ixa := ixa e +! len |> in
  if ixa e =? ixb e then
    if ixc e =? 0 then make_ready_in e
    else e <| ixa := 5 |> <| ixb := 5 |>
  else e.

Definition sendpld_buf e : option (Z * Z) :=
  match iomode e with
  | BR_IO_OUT | BR_IO_INOUT =>
      let len := oxb e -! oxa e in
      if len =? 0 then None else Some (obase e + oxa e, len)
  | _ => None
  end.

Definition sendpld_flush e (force : bool) : eng :=
  if oxa e =? oxb e then e
  else
    let xlen := oxa e -! oxc e in
    if (xlen =? 0) && negb force then e
    else
      let '(o, buf, p, xlen) :=
        out_encrypt (rout e) (record_type_out e) (version_out e)
          (zslice (mem e) (obase e) (obuf_len e)) (oxc e) xlen in
      e <| rout := o |> <| mem := zblit (mem e) (obase e) buf |>
        <| oxa := p |> <| oxb := p |> <| oxc := p +! xlen |>.

Definition sendpld_ack e (len : Z) : eng :=
  let e := if bool_decide (iomode e = BR_IO_INOUT) && shared e
           then e <| iomode := BR_IO_OUT |> else e in
  let e := e <| oxa := oxa e +! len |> in
  if oxb e <=? oxa e then
    let e := e <| oxb := oxa e +! 1 |> in
    sendpld_flush e false
  else e.

Definition sendrec_buf e : option (Z * Z) :=
  match iomode e with
  | BR_IO_OUT | BR_IO_INOUT =>
      if oxa e <? oxc e then Some (obase e + oxa e, oxc e -! oxa e) else None
  | _ => None
  end.

Definition sendrec_ack e (len : Z) : eng :=
  let e := e <| oxa := oxa e +! len |> in
  let e := e <| oxb := oxa e |> in
  if oxa e =? oxc e then make_ready_out e else e.

Definition has_rec_tosend e : bool := (oxa e =? oxb e) && negb (oxa e =? oxc e).

Definition br_ssl_engine_has_pld_to_send e : bool :=
  negb (oxa e =? oxb e) && negb (oxa e =? oxc e).

(** ** The handshake processor *)

Definition buf_ptr (b : option (Z * Z)) : option Z := fst <$> b.
Definition buf_len (b : option (Z * Z)) : Z := match b with Some (_, n) => n | None => 0 end.

(** [p - q] on pointers in the same buffer. *)
Definition ptr_diff (p q : option Z) : Z := default 0 p - default 0 q.

(** The loop body up to the call of the coroutine: publish the buffers. *)
Definition hs_publish e (act : Z) : eng :=
  let bi := recvpld_buf e in
  let hlen_in' := if bool_decide (is_Some bi) && (record_type_in e =? BR_SSL_APPLICATION_DATA)
                  then 0 else buf_len bi in
  let bo := sendpld_buf e in
  let hlen_out' := if bool_decide (is_Some bo) && br_ssl_engine_has_pld_to_send e
                   then 0 else buf_len bo in
  e <| hbuf_in := buf_ptr bi |> <| saved_hbuf_out := buf_ptr bo |>
    <| hbuf_out := buf_ptr bo |> <| hlen_in := hlen_in' |>
    <| hlen_out := hlen_out' |> <| action := act |>.

(** [for (;;)] of [jump_handshake]; [None] means out of fuel
    ([jump_handshake_total] shows that two rounds are enough). *)
Fixpoint jump_loop (fuel : nat) e (act : Z) : option eng :=
  match fuel with
  | O => None
  | S fuel =>
      let e := hs_publish e act in
      let n := hlen_in e in
      let e := hsrun e in
      if br_ssl_engine_closed e then Some e
      else
        let e := if bool_decide (hbuf_out e = saved_hbuf_out e) then e
                 else sendpld_ack e (ptr_diff (hbuf_out e) (saved_hbuf_out e)) in
        if n =? hlen_in e then Some e
        else
          let e := recvpld_ack e (n -! hlen_in e) in
          if hlen_in e =? 0 then jump_loop fuel e 0 else Some e
  end.
Definition jump_handshake e (act : Z) : option eng := jump_loop 2 e act.

(** Called back by the handshake processor. *)
Definition br_ssl_engine_flush_record e : eng :=
  let e := if bool_decide (hbuf_out e = saved_hbuf_out e) then e
           else sendpld_ack e (ptr_diff (hbuf_out e) (saved_hbuf_out e)) in
  let e := if br_ssl_engine_has_pld_to_send e then sendpld_flush e false else e in
  let b := sendpld_buf e in
  e <| saved_hbuf_out := buf_ptr b |> <| hbuf_out := buf_ptr b |> <| hlen_out := buf_len b |>.

(** ** The public API *)

(** [cc->application_data & 1]. *)
Definition app_ok e : bool := Z.testbit (application_data e) 0.

Definition br_ssl_engine_sendapp_buf e : option (Z * Z) :=
  if app_ok e then sendpld_buf e else None.
Definition br_ssl_engine_sendapp_ack e (len : Z) : eng := sendpld_ack e len.

Definition br_ssl_engine_recvapp_buf e : option (Z * Z) :=
  if negb (app_ok e) || negb (record_type_in e =? BR_SSL_APPLICATION_DATA)
  then None else recvpld_buf e.
Definition br_ssl_engine_recvapp_ack e (len : Z) : eng := recvpld_ack e len.

Definition br_ssl_engine_sendrec_buf e : option (Z * Z) := sendrec_buf e.
Definition br_ssl_engine_sendrec_ack e (len : Z) : option eng :=
  let e := sendrec_ack e len in
  if negb (len =? 0) && negb (has_rec_tosend e)
     && (negb (record_type_out e =? BR_SSL_APPLICATION_DATA) || negb (app_ok e))
  then jump_handshake e 0 else Some e.

Definition br_ssl_engine_recvrec_buf e : option (Z * Z) := recvrec_buf e.
Definition br_ssl_engine_recvrec_ack e (len : Z) : option eng :=
  let e := recvrec_ack e len in
  if br_ssl_engine_closed e then Some e
  else match recvpld_buf e with
  | None => Some e
  | Some (_, len) =>
      let t := record_type_in e in
      if (t =? BR_SSL_CHANGE_CIPHER_SPEC) || (t =? BR_SSL_ALERT) || (t =? BR_SSL_HANDSHAKE)
      then jump_handshake e 0
      else if (t =? BR_SSL_APPLICATION_DATA) && (application_data e =? 1) then Some e
      else if (t =? BR_SSL_APPLICATION_DATA) && (application_data e =? 2)
      then Some (recvpld_ack e len)
      else Some (br_ssl_engine_fail e BR_ERR_UNEXPECTED)
  end.

Definition br_ssl_engine_close e : option eng :=
  if br_ssl_engine_closed e then Some e else jump_handshake e 1.

Definition br_ssl_engine_renegotiate e : option (eng * bool) :=
  if br_ssl_engine_closed e || (reneg e =? 1)
     || negb (Z.land (flags e) BR_OPT_NO_RENEGOTIATION =? 0)
     || bool_decide (is_Some (br_ssl_engine_recvapp_buf e))
  then Some (e, false)
  else e ← jump_handshake e 2; Some (e, true).

Definition br_ssl_engine_current_state e : Z :=
  if br_ssl_engine_closed e then BR_SSL_CLOSED
  else
    let flag (b : option (Z * Z)) (f : Z) := match b with Some _ => f | None => 0 end in
    Z.lor (Z.lor (flag (br_ssl_engine_sendrec_buf e) BR_SSL_SENDREC)
                 (flag (br_ssl_engine_recvrec_buf e) BR_SSL_RECVREC))
          (Z.lor (flag (br_ssl_engine_sendapp_buf e) BR_SSL_SENDAPP)
                 (flag (br_ssl_engine_recvapp_buf e) BR_SSL_RECVAPP)).

Definition br_ssl_engine_flush e (force : bool) : eng :=
  if negb (br_ssl_engine_closed e) && app_ok e then sendpld_flush e force else e.

(** [cpu0] is the coroutine state that [hsinit] installs. *)
Definition br_ssl_engine_hs_reset e (cpu0 : HS) : option eng :=
  let e := engine_clearbuf e in
  let e := e <| cpu := cpu0 |> <| shutdown_recv := false |>
             <| application_data := 0 |> <| alert := 0 |> in
  jump_handshake e 0.
End engine.

(** ** Invariant *)

(** The input registers: waiting for a header, waiting for the rest of a
    record, or holding payload bytes. *)
Inductive in_regs (ilen : Z) (enc : bool) (chk : Z -> bool) : Z -> Z -> Z -> Prop :=
| in_header a : 0 <= a < 5 -> in_regs ilen enc chk a a (5 - a)
| in_body_clear c : enc = false -> 0 < c <= 16384 -> in_regs ilen enc chk 5 5 c
| in_body_enc a c : enc = true -> 5 <= a -> 0 < c -> a + c <= ilen ->
    chk (a - 5 + c) = true -> in_regs ilen enc chk a a c
| in_payload a b c : 5 <= a < b -> b <= ilen -> 0 <= c <= 16384 ->
    (enc = true -> c = 0) -> in_regs ilen enc chk a b c.

(** The output registers: gathering payload for the next record (in the range
    the record layer asked for), or sending an assembled record. *)
Inductive out_regs (range : Z * Z) (olen : Z) : Z -> Z -> Z -> Prop :=
| out_gather a b x y : range = (a, b) -> 5 <= a <= x -> x < y <= b -> b <= olen - 5 ->
    out_regs range olen x y a
| out_sending x c : 0 <= x < c -> c <= olen -> out_regs range olen x x c.

(** The size of memory and the place of the two buffers; no operation of a
    running engine changes it. *)
Definition layout : Type := Z * option Z * option Z * Z * Z.

(** The buffers lie in memory, are large enough and are disjoint or identical
    (the comment on [ibuf], [obuf] in bearssl_ssl.h). *)
Definition bufs_ok (lay : layout) (m : list Z) (ib ob : option Z) (ilen olen mfl : Z) : Prop :=
  lay = (zlen m, ib, ob, ilen, olen) /\ Forall is_u8 m /\ zlen m < 2 ^ 62 /\
  (exists i o, ib = Some i /\ ob = Some o /\ 0 <= i /\ i + ilen <= zlen m /\
     0 <= o /\ o + olen <= zlen m /\
     ((i = o /\ ilen = olen) \/ i + ilen <= o \/ o + olen <= i)) /\
  512 + MAX_IN_OVERHEAD <= ilen /\ 512 + MAX_OUT_OVERHEAD <= olen /\ 0 < mfl <= 16384.

(** What the engine requires of the record protection contexts. *)
Class RecordInLaws (RI : Type) `{!RecordIn RI} := {
  decrypt_law : forall s t v data s' data' r,
    Forall is_u8 data -> check_length s (zlen data) = true ->
    decrypt s t v data = (s', data', r) ->
    length data' = length data /\ Forall is_u8 data' /\
    (forall off n, r = Some (off, n) -> 0 <= off /\ 0 <= n /\ off + n <= zlen data) }.

Class RecordOutLaws (RO : Type) `{!RecordOut RO} := {
  max_plaintext_law : forall s b a' b',
    592 <= b < 2 ^ 62 -> max_plaintext s 5 b = (a', b') -> 5 <= a' < b' /\ b' <= b;
  encrypt_law : forall s t v buf len a b s' buf' p n,
    Forall is_u8 buf -> 597 <= zlen buf < 2 ^ 62 ->
    max_plaintext s 5 (zlen buf - 5) = (a, b) -> 0 <= len -> a + len <= b ->
    encrypt s t v buf a len = (s', buf', p, n) ->
    length buf' = length buf /\ Forall is_u8 buf' /\ 0 <= p /\ 0 < n /\ p + n <= zlen buf }.

Section invariant.
Context {RI RO HS : Type} `{!RecordIn RI} `{!RecordOut RO}.
Notation eng := (engine RI RO HS).
Implicit Types e : eng.
Context (lay : layout).

Definition eng_bufs e : Prop :=
  bufs_ok lay (mem e) (ibuf e) (obuf e) (ibuf_len e) (obuf_len e) (max_frag_len e).
Definition eng_in e : Prop :=
  in_regs (ibuf_len e) (incrypt e) (check_length (rin e)) (ixa e) (ixb e) (ixc e).
Definition eng_out e : Prop :=
  out_regs (out_max_plaintext (rout e) 5 (obuf_len e - 5)) (obuf_len e)
    (oxa e) (oxb e) (oxc e).

(** The engine invariant: once failed, only the buffers matter. *)
Definition eng_inv e : Prop :=
  eng_bufs e /\ (iomode e <> BR_IO_FAILED -> eng_in e /\ eng_out e).

(** A live engine: its registers are meaningful. *)
Definition eng_live e : Prop := eng_bufs e /\ eng_in e /\ eng_out e.

(** When the coroutine is resumed the engine is live and the payload it may
    read and the room it may fill have been published. *)
Definition hs_pre e : Prop :=
  eng_inv e /\ iomode e <> BR_IO_FAILED /\
  0 <= hlen_in e <= buf_len (recvpld_buf e) /\
  0 <= hlen_out e <= buf_len (sendpld_buf e) /\
  hbuf_out e = saved_hbuf_out e /\ saved_hbuf_out e = buf_ptr (sendpld_buf e).

(** Bytes produced and not yet acknowledged fit in the space on offer. *)
Definition hs_pending_out e : Prop :=
  hbuf_out e = saved_hbuf_out e \/
  exists p n k, sendpld_buf e = Some (p, n) /\ saved_hbuf_out e = Some p /\
    hbuf_out e = Some (p + k) /\ 0 < k <= n.

Definition hs_post e e' : Prop :=
  eng_inv e' /\
  (iomode e' <> BR_IO_FAILED ->
     ixa e' = ixa e /\ ixb e' = ixb e /\ ixc e' = ixc e /\
     0 <= hlen_in e' <= hlen_in e /\ hs_pending_out e').
End invariant.

(** The contract of the handshake coroutine. *)
Class HandshakeLaws (RI RO HS : Type)
    `{!RecordIn RI} `{!RecordOut RO} `{!Handshake RI RO HS} :=
  hsrun_law : forall lay (e : engine RI RO HS), hs_pre lay e -> hs_post lay e (hsrun e).

Section engine_proofs.
Context {RI RO HS : Type}.
Context `{!RecordIn RI} `{!RecordOut RO} `{!Handshake RI RO HS}.
Context `{!RecordInLaws RI} `{!RecordOutLaws RO}.
Notation eng := (engine RI RO HS).
Implicit Types e : eng.
Context {lay : layout}.
Notation eng_bufs := (eng_bufs lay).
Notation eng_inv := (eng_inv lay).
Notation eng_live := (eng_live lay).
Notation hs_pre := (hs_pre lay).
Notation hs_post := (hs_post lay).

(** *** The unprotected record layer satisfies the record laws *)

Lemma clear_max_plaintext_law b a' b' :
  592 <= b < 2 ^ 62 -> clear_max_plaintext 5 b = (a', b') -> 5 <= a' < b' /\ b' <= b.
Proof.
  unfold clear_max_plaintext. intros Hb. szsimp.
  destruct (16384 <? b - 5) eqn:E; intros [= <- <-]; szsimp; lia.
Qed.

Lemma clear_encrypt_law t v buf len a b buf' p n :
  Forall is_u8 buf -> 597 <= zlen buf < 2 ^ 62 ->
  clear_max_plaintext 5 (zlen buf - 5) = (a, b) -> 0 <= len -> a + len <= b ->
  clear_encrypt t v buf a len = (buf', p, n) ->
  length buf' = length buf /\ Forall is_u8 buf' /\ 0 <= p /\ 0 < n /\ p + n <= zlen buf.
Proof.
  intros Hb Hz Hm Hl Hab. pose proof (clear_max_plaintext_law (zlen buf - 5) a b ltac:(lia) Hm).
  assert (a = 5) as ->.
  { revert Hm. unfold clear_max_plaintext. case_match; by intros [= <- <-]. }
  unfold clear_encrypt. intros [= <- <- <-]. szsimp. change (5 - 5) with 0.
  assert (length (zblit buf 0 (u8 t :: br_enc16be v)) = length buf) as L1
    by (apply length_zblit; simpl; lia).
  repeat split; try lia.
  - rewrite length_zblit; [exact L1|lia|rewrite L1; simpl length; lia].
  - repeat apply Forall_zblit; try done; repeat constructor; apply u8_range.
Qed.

Lemma out_max_plaintext_law o b a' b' :
  592 <= b < 2 ^ 62 -> out_max_plaintext o 5 b = (a', b') -> 5 <= a' < b' /\ b' <= b.
Proof. destruct o; [apply clear_max_plaintext_law | apply max_plaintext_law]. Qed.

Lemma out_encrypt_law o t v buf len a b o' buf' p n :
  Forall is_u8 buf -> 597 <= zlen buf < 2 ^ 62 ->
  out_max_plaintext o 5 (zlen buf - 5) = (a, b) -> 0 <= len -> a + len <= b ->
  out_encrypt o t v buf a len = (o', buf', p, n) ->
  length buf' = length buf /\ Forall is_u8 buf' /\ 0 <= p /\ 0 < n /\ p + n <= zlen buf.
Proof.
  intros Hb Hz Hm Hl Hab. destruct o; simpl.
  - intros [= <- <- <- <-]. by eapply (clear_encrypt_law t v).
  - destruct (encrypt s t v buf a len) as [[[??]?]?] eqn:E. intros [= <- <- <- <-].
    by eapply encrypt_law.
Qed.

(** *** The operations on the registers preserve the invariant *)

Lemma eng_live_inv e : eng_live e -> eng_inv e.
Proof. unfold eng_live, eng_inv. tauto. Qed.
Lemma eng_inv_live e : eng_inv e -> iomode e <> BR_IO_FAILED -> eng_live e.
Proof. unfold eng_live, eng_inv. tauto. Qed.

Lemma make_ready_in_live e : eng_bufs e -> eng_out e -> eng_live (make_ready_in e).
Proof.
  intros Hb Ho. unfold make_ready_in, eng_live, eng_bufs, eng_in, eng_out in *.
  eng_simpl. destruct (iomode e); eng_simpl; (split; [done|split; [|done]]);
    apply (in_header _ _ _ 0); lia.
Qed.

Lemma make_ready_out_live e : eng_bufs e -> eng_in e -> eng_live (make_ready_out e).
Proof.
  intros Hb Hi. unfold make_ready_out.
  assert (597 <= obuf_len e < 2 ^ 62 /\ 0 < max_frag_len e <= 16384) as [Hol Hm].
  { destruct Hb as (_ & ? & ? & (i & o & _ & _ & ?) & ? & ? & ?).
    unfold MAX_OUT_OVERHEAD in *. lia. }
  szsimp. destruct (out_max_plaintext (rout e) 5 (obuf_len e - 5)) as [a b] eqn:E.
  pose proof (out_max_plaintext_law (rout e) (obuf_len e - 5) a b ltac:(lia) E) as [? ?].
  szsimp.
  set (b' := if max_frag_len e <? b - a then a + max_frag_len e else b).
  assert (a < b' <= b) by (subst b'; destruct (max_frag_len e <? b - a) eqn:?; lia).
  clearbody b'. unfold eng_live, eng_bufs, eng_in, eng_out in *. eng_simpl.
  destruct (iomode e); eng_simpl; (split; [done|split; [done|]]);
    eapply out_gather; (exact E || lia).
Qed.

Lemma fail_inv e x : eng_bufs e -> eng_inv (br_ssl_engine_fail e x).
Proof.
  intros Hb. unfold br_ssl_engine_fail, eng_inv, eng_bufs in *.
  destruct (iomode e) eqn:E; eng_simpl; rewrite ?E; (split; [exact Hb|congruence]).
Qed.

(** Facts the arithmetic of the registers needs. *)
Lemma bufs_facts e : eng_bufs e ->
  837 <= ibuf_len e < 2 ^ 62 /\ 597 <= obuf_len e < 2 ^ 62 /\
  0 < max_frag_len e <= 16384 /\
  0 <= ibase e /\ ibase e + ibuf_len e <= zlen (mem e) /\
  0 <= obase e /\ obase e + obuf_len e <= zlen (mem e) /\ zlen (mem e) < 2 ^ 62.
Proof.
  unfold eng_bufs, bufs_ok, MAX_IN_OVERHEAD, MAX_OUT_OVERHEAD.
  intros (_ & ? & ? & (i & o & -> & -> & ? & ? & ? & ? & ?) & ? & ? & ?). simpl. lia.
Qed.
Lemma bufs_bytes e : eng_bufs e -> Forall is_u8 (mem e).
Proof. by intros (_ & ? & _). Qed.

(** Writing bytes inside memory keeps the buffers well formed. *)
Lemma bufs_blit e p bs : eng_bufs e -> Forall is_u8 bs -> 0 <= p -> p + zlen bs <= zlen (mem e) ->
  eng_bufs (e <| mem := zblit (mem e) p bs |>).
Proof.
  unfold eng_bufs, bufs_ok. eng_simpl. intros (? & ? & ? & Hp & ?) Hb ? ?.
  rewrite !zlen_zblit by lia. auto using Forall_zblit.
Qed.

Lemma sendpld_flush_emit e force a b :
  eng_bufs e -> out_max_plaintext (rout e) 5 (obuf_len e - 5) = (a, b) ->
  oxc e = a -> a <= oxa e <= b -> oxa e < oxb e < 2 ^ 63 -> oxc e < oxa e \/ force = true ->
  let e' := sendpld_flush e force in
  eng_bufs e' /\ eng_out e' /\ (eng_in e -> eng_in e') /\ oxa e' = oxb e' /\ iomode e' = iomode e.
Proof.
  intros Hb Hm Hc Ha Hab Hf. pose proof (bufs_facts e Hb).
  pose proof (out_max_plaintext_law (rout e) (obuf_len e - 5) a b ltac:(lia) Hm).
  unfold sendpld_flush. replace (oxa e =? oxb e) with false by lia. szsimp.
  replace ((oxa e - oxc e =? 0) && negb force) with false
    by (destruct Hf as [? | ->]; [replace (oxa e - oxc e =? 0) with false by lia; done | by rewrite andb_false_r]).
  rewrite Hc. set (ob := zslice (mem e) (obase e) (obuf_len e)).
  assert (zlen ob = obuf_len e) as Lo by (apply zlen_zslice; lia).
  destruct (out_encrypt _ _ _ ob a (oxa e - a)) as [[[o' buf'] p] n] eqn:E.
  rewrite <- Lo in Hm.
  eapply out_encrypt_law in E; [|by apply Forall_zslice, bufs_bytes|lia|exact Hm|lia|lia].
  destruct E as (L' & B' & ? & ? & ?).
  pose proof (bufs_blit e (obase e) buf' Hb B' ltac:(lia) ltac:(lia)) as Hb'.
  unfold eng_bufs, eng_out, eng_in in *. eng_simpl. eng_simpl_in Hb'. szsimp.
  split; [exact Hb'|split; [|by auto]]. apply out_sending; lia.
Qed.

(** Flushing a live engine, whatever its state. *)
Lemma sendpld_flush_live e force : eng_live e -> eng_live (sendpld_flush e force).
Proof.
  intros (Hb & Hi & Ho). pose proof (bufs_facts e Hb).
  destruct (decide (oxa e = oxb e)) as [Heq|Hne].
  { unfold sendpld_flush. rewrite Heq, Z.eqb_refl. done. }
  unfold eng_out in Ho. remember (oxb e) as y eqn:Hy. remember (oxa e) as x eqn:Hx.
  remember (oxc e) as c eqn:Hcc. destruct Ho as [a b x y Hr ? ? ?|]; [|congruence].
  destruct (decide (x = a /\ force = false)) as [[-> ->]|Hn].
  { unfold sendpld_flush. rewrite <- Hx, <- Hy, <- Hcc. szsimp.
    rewrite Z.sub_diag. change ((0 =? 0) && negb false) with true.
    destruct (a =? y); (split; [done|split; [done|]]); unfold eng_out; rewrite <- Hx, <- Hy, <- Hcc;
      by eapply out_gather. }
  destruct (sendpld_flush_emit e force a b) as (? & ? & ? & _); try lia; try done.
  { destruct (decide (x = a)) as [->|]; [right; destruct force; [done|by destruct Hn] | left; lia]. }
  split; [done|split; auto].
Qed.

(** Acknowledging payload, at most what [sendpld_buf] offered. *)
Lemma sendpld_ack_live e n : eng_live e -> oxa e <> oxb e -> 0 < n <= oxb e - oxa e ->
  eng_live (sendpld_ack e n).
Proof.
  intros (Hb & Hi & Ho) Hne Hn. pose proof (bufs_facts e Hb).
  unfold sendpld_ack.
  set (e1 := if _ && _ then _ else e).
  assert (eng_bufs e1 /\ eng_in e1 /\ oxa e1 = oxa e /\ oxb e1 = oxb e /\ oxc e1 = oxc e
    /\ rout e1 = rout e /\ obuf_len e1 = obuf_len e) as (Hb1 & Hi1 & Ex & Ey & Ec & Er & El).
  { subst e1. case_match; done. }
  clearbody e1. unfold eng_out in Ho. rewrite <- Er, <- El in Ho. rewrite <- Ex, <- Ey, <- El in *.
  rewrite <- Ec in Ho. clear Hb Hi Ex Ey Ec Er El.
  remember (oxb e1) as y eqn:Hy. remember (oxa e1) as x eqn:Hx.
  remember (oxc e1) as c eqn:Hcc. destruct Ho as [a b x y Hr ? ? ?|]; [|congruence].
  szsimp. eng_simpl. rewrite <- Hy.
  destruct (Z.leb_spec y (x + n)) as [Hfull|Hpart].
  - szsimp. edestruct (sendpld_flush_emit (e1 <| oxa := x + n |> <| oxb := x + n + 1 |>) false a b)
      as (? & ? & Hin & _); eng_simpl; try done; try lia.
    split; [done|split; [|done]]. by apply Hin.
  - unfold eng_live, eng_bufs, eng_in, eng_out in *. eng_simpl. split; [done|split; [done|]].
    rewrite <- Hy, <- Hcc. eapply out_gather; (exact Hr || lia).
Qed.

Lemma sendrec_ack_live e n : eng_live e -> 0 < n <= oxc e - oxa e ->
  eng_live (sendrec_ack e n).
Proof.
  intros (Hb & Hi & Ho) Hn. pose proof (bufs_facts e Hb). unfold sendrec_ack.
  assert (oxa e + n <= obuf_len e /\ 0 <= oxa e) as [? ?].
  { unfold eng_out in Ho. destruct Ho; lia. }
  szsimp. eng_simpl. destruct (Z.eqb_spec (oxa e + n) (oxc e)) as [|Hne].
  - apply make_ready_out_live; [exact Hb|exact Hi].
  - split; [exact Hb|split; [exact Hi|]]. unfold eng_out in *. eng_simpl.
    destruct Ho; [lia|]. apply out_sending; lia.
Qed.

Lemma recvpld_ack_live e n : eng_live e -> ixa e <> ixb e -> 0 < n <= ixb e - ixa e ->
  eng_live (recvpld_ack e n).
Proof.
  intros (Hb & Hi & Ho) Hne Hn. pose proof (bufs_facts e Hb). unfold recvpld_ack.
  unfold eng_in in Hi. remember (ixa e) as x eqn:Hx. remember (ixb e) as y eqn:Hy.
  remember (ixc e) as c eqn:Hc. destruct Hi as [| | |x y c ? ? ? He]; try congruence.
  szsimp. eng_simpl. rewrite <- Hy, <- Hc.
  destruct (Z.eqb_spec (x + n) y) as [Hall|Hsome].
  - destruct (Z.eqb_spec c 0) as [->|Hc0].
    + apply make_ready_in_live; done.
    + split; [exact Hb|split; [|exact Ho]]. unfold eng_in. eng_simpl. rewrite <- Hc.
      apply in_body_clear; [|lia]. destruct (incrypt e); [|done]. by destruct Hc0; auto.
  - split; [exact Hb|split; [|exact Ho]]. unfold eng_in. eng_simpl. rewrite <- Hy, <- Hc.
    apply in_payload; auto; lia.
Qed.

Lemma recvrec_header_inv e : eng_bufs e -> eng_out e -> eng_inv (recvrec_header e).
Proof.
  intros Hb Ho. pose proof (bufs_facts e Hb) as (? & ? & ? & ? & ? & ? & ? & ?).
  unfold recvrec_header. eng_simpl.
  pose proof (dec16be_range (zdrop (ibase e + 3) (mem e))
                (Forall_zdrop _ _ _ (bufs_bytes e Hb))) as Hr.
  set (ver := br_dec16be (zdrop (ibase e + 1) (mem e))).
  set (rlen := br_dec16be (zdrop (ibase e + 3) (mem e))) in *.
  destruct (negb _); [by apply fail_inv|].
  destruct (_ && _); [by apply fail_inv|].
  assert (forall c, 0 < c -> eng_in (e <| ixa := 5 |> <| ixb := 5 |> <| ixc := c |>) ->
    eng_inv (e <| record_type_in := zget (mem e) (ibase e) |> <| version_in := ver |>
               <| ixa := 5 |> <| ixb := 5 |> <| ixc := c |>)) as Hacc.
  { intros c Hc Hi. apply eng_live_inv. split; [exact Hb|split; [exact Hi|exact Ho]]. }
  assert (eng_inv (make_ready_in (e <| record_type_in := zget (mem e) (ibase e) |>
                                    <| version_in := ver |>))) as Hemp.
  { apply eng_live_inv, make_ready_in_live; [exact Hb|exact Ho]. }
  destruct (incrypt e) eqn:Henc.
  - destruct (check_length (rin e) rlen) eqn:Hchk; simpl negb; cbv iota; [|by apply fail_inv].
    szsimp. destruct (Z.ltb_spec (ibuf_len e - 5) rlen); [by apply fail_inv|].
    destruct (Z.eqb_spec rlen 0) as [E0|E0]; [exact Hemp|]. apply Hacc; [lia|].
    unfold eng_in. eng_simpl. apply in_body_enc; try done; try lia.
  - destruct (Z.ltb_spec 16384 rlen); [by apply fail_inv|].
    destruct (Z.eqb_spec rlen 0) as [E0|E0]; [exact Hemp|]. apply Hacc; [lia|].
    unfold eng_in. eng_simpl. apply in_body_clear; [done|lia].
Qed.

Lemma recvrec_decrypt_inv e : eng_bufs e -> eng_out e -> 5 < ixa e <= ibuf_len e ->
  ixc e = 0 -> check_length (rin e) (ixa e - 5) = true -> eng_inv (recvrec_decrypt e).
Proof.
  intros Hb Ho Hx Hc Hchk. pose proof (bufs_facts e Hb).
  unfold recvrec_decrypt. szsimp.
  set (data := zslice (mem e) (ibase e + 5) (ixa e - 5)).
  assert (zlen data = ixa e - 5) as Ld by (apply zlen_zslice; lia).
  destruct (decrypt _ _ _ data) as [[s' data'] r] eqn:E.
  apply decrypt_law in E; [|by apply Forall_zslice, bufs_bytes|by rewrite Ld].
  destruct E as (L' & B' & Hr).
  pose proof (bufs_blit e (ibase e + 5) data' Hb B' ltac:(lia) ltac:(lia)) as Hb'.
  destruct r as [[off n]|]; [|by apply fail_inv].
  destruct (Hr off n eq_refl) as (? & ? & ?). szsimp. eng_simpl.
  destruct (Z.eqb_spec (5 + off) (5 + off + n)).
  - apply eng_live_inv, make_ready_in_live; [exact Hb'|exact Ho].
  - apply eng_live_inv. split; [exact Hb'|split; [|exact Ho]]. unfold eng_in. eng_simpl.
    rewrite Hc. apply in_payload; lia.
Qed.

(** When no payload is pending, the engine waits for bytes. *)
Lemma in_regs_waiting l enc chk a c : in_regs l enc chk a a c ->
  (0 <= a < 5 /\ c = 5 - a) \/ (a = 5 /\ enc = false /\ 0 < c <= 16384) \/
  (enc = true /\ 5 <= a /\ 0 < c /\ a + c <= l /\ chk (a - 5 + c) = true).
Proof. inversion 1; subst; try lia; naive_solver. Qed.

(** Receiving record bytes, at most what [recvrec_buf] offered. *)
Lemma recvrec_ack_inv e n : eng_live e -> ixa e = ixb e ->
  0 < n <= ixc e -> n <= ibuf_len e - ixa e -> eng_inv (recvrec_ack e n).
Proof.
  intros (Hb & Hi & Ho) Heq Hn Hn'. unfold recvrec_ack.
  set (e1 := if _ && _ then _ else e).
  assert (eng_bufs e1 /\ eng_out e1 /\ ixa e1 = ixa e /\ ixc e1 = ixc e
    /\ rin e1 = rin e /\ ibuf_len e1 = ibuf_len e /\ incrypt e1 = incrypt e)
    as (Hb1 & Ho1 & Ex & Ec & Er & El & En).
  { subst e1. case_match; done. }
  clearbody e1. unfold eng_in in Hi. rewrite <- Heq in Hi.
  rewrite <- Ex, <- Ec, <- Er, <- El, <- En in *. clear e Hb Ho Heq Ex Ec Er El En. rename e1 into e.
  pose proof (bufs_facts e Hb1).
  apply in_regs_waiting in Hi.
  assert (0 <= ixa e /\ 0 <= ixc e <= 2 ^ 62) as [? ?] by (destruct Hi as [?|[?|?]]; lia).
  szsimp. eng_simpl. szsimp.
  destruct (Z.ltb_spec (ixa e + n) 5) as [Hh|Hh].
  { apply eng_live_inv. split; [exact Hb1|split; [|exact Ho1]]. unfold eng_in. eng_simpl.
    replace (ixc e - n) with (5 - (ixa e + n)) by lia. apply in_header; lia. }
  destruct (Z.eqb_spec (ixa e + n) 5) as [H5|H5].
  { by apply recvrec_header_inv. }
  destruct Hi as [?|[(Hx & Henc & ?)|(Henc & ? & ? & ? & Hchk)]]; [lia| |]; rewrite Henc;
    simpl negb; cbv iota.
  - apply eng_live_inv. split; [exact Hb1|split; [|exact Ho1]]. unfold eng_in. eng_simpl.
    apply in_payload; try lia. congruence.
  - destruct (Z.eqb_spec (ixc e - n) 0) as [Hz|Hz]; simpl negb; cbv iota.
    + apply recvrec_decrypt_inv; eng_simpl; try done; try lia.
      rewrite <- Hchk. f_equal. lia.
    + apply eng_live_inv. split; [exact Hb1|split; [|exact Ho1]]. unfold eng_in. eng_simpl.
      apply in_body_enc; try lia; [done|]. rewrite <- Hchk. f_equal. lia.
Qed.

(** *** The buffers on offer lie inside the I/O buffers *)

Lemma recvrec_buf_inv e p n : eng_inv e -> recvrec_buf e = Some (p, n) ->
  eng_live e /\ p = ibase e + ixa e /\ ixa e = ixb e /\ 0 <= ixa e /\
  0 < n <= ixc e /\ n <= ibuf_len e - ixa e.
Proof.
  intros Hinv H. unfold recvrec_buf in H. destruct (shutdown_recv e); [done|].
  destruct (iomode e) eqn:Hm; try done.
  all: assert (eng_live e) as Hl by (apply eng_inv_live; [done|by rewrite Hm]).
  all: pose proof Hl as (Hb & Hi & _); pose proof (bufs_facts e Hb).
  all: destruct (Z.eqb_spec (ixa e) (ixb e)) as [E|]; [|done].
  all: unfold eng_in in Hi; rewrite <- E in Hi; apply in_regs_waiting in Hi.
  all: szsimp in H; destruct (Z.ltb_spec (ibuf_len e - ixa e) (ixc e)); simplify_eq.
  all: split; [done|]; destruct Hi as [?|[?|?]]; repeat split; lia.
Qed.

Lemma recvpld_buf_inv e p n : eng_inv e -> recvpld_buf e = Some (p, n) ->
  eng_live e /\ p = ibase e + ixa e /\ 5 <= ixa e /\ ixb e <= ibuf_len e /\
  n = ixb e - ixa e /\ 0 < n.
Proof.
  intros Hinv H. unfold recvpld_buf in H.
  destruct (iomode e) eqn:Hm; try done.
  all: assert (eng_live e) as Hl by (apply eng_inv_live; [done|by rewrite Hm]).
  all: pose proof Hl as (Hb & Hi & _); pose proof (bufs_facts e Hb).
  all: unfold eng_in in Hi.
  all: assert (ixa e = ixb e \/ 5 <= ixa e < ixb e /\ ixb e <= ibuf_len e) as Hc
    by (destruct Hi; lia).
  all: assert (0 <= ixb e - ixa e < 2 ^ 62) by (destruct Hi; lia).
  all: szsimp in H; destruct (Z.eqb_spec (ixb e - ixa e) 0); simplify_eq.
  all: split; [done|]; repeat split; lia.
Qed.

Lemma sendpld_buf_inv e p n : eng_inv e -> sendpld_buf e = Some (p, n) ->
  eng_live e /\ p = obase e + oxa e /\ 5 <= oxa e /\ oxb e <= obuf_len e - 5 /\
  n = oxb e - oxa e /\ 0 < n /\ oxc e <= oxa e.
Proof.
  intros Hinv H. unfold sendpld_buf in H.
  destruct (iomode e) eqn:Hm; try done.
  all: assert (eng_live e) as Hl by (apply eng_inv_live; [done|by rewrite Hm]).
  all: pose proof Hl as (Hb & _ & Ho); pose proof (bufs_facts e Hb).
  all: unfold eng_out in Ho.
  all: assert (oxa e = oxb e \/ (5 <= oxa e < oxb e /\ oxb e <= obuf_len e - 5 /\ oxc e <= oxa e)) as Hc
    by (destruct Ho; lia).
  all: assert (0 <= oxb e - oxa e < 2 ^ 62) by (destruct Ho; lia).
  all: szsimp in H; destruct (Z.eqb_spec (oxb e - oxa e) 0); simplify_eq.
  all: split; [done|]; repeat split; lia.
Qed.

Lemma sendrec_buf_inv e p n : eng_inv e -> sendrec_buf e = Some (p, n) ->
  eng_live e /\ p = obase e + oxa e /\ 0 <= oxa e /\ oxc e <= obuf_len e /\
  n = oxc e - oxa e /\ 0 < n /\ oxa e = oxb e.
Proof.
  intros Hinv H. unfold sendrec_buf in H.
  destruct (iomode e) eqn:Hm; try done.
  all: assert (eng_live e) as Hl by (apply eng_inv_live; [done|by rewrite Hm]).
  all: pose proof Hl as (Hb & _ & Ho); pose proof (bufs_facts e Hb).
  all: unfold eng_out in Ho.
  all: destruct (Z.ltb_spec (oxa e) (oxc e)); [|done].
  all: assert (0 <= oxa e /\ oxc e <= obuf_len e /\ oxa e = oxb e) as (? & ? & ?) by (destruct Ho; lia).
  all: szsimp in H; simplify_eq.
  all: split; [done|]; repeat split; lia.
Qed.

(** *** The handshake loop *)

Context `{!HandshakeLaws RI RO HS}.

Lemma hs_publish_pre e act : eng_live e -> iomode e <> BR_IO_FAILED -> hs_pre (hs_publish e act).
Proof.
  intros Hl Hm. unfold hs_pre, hs_publish. eng_simpl.
  pose proof (recvpld_buf_inv e) as Hr. pose proof (sendpld_buf_inv e) as Hs.
  split; [by apply eng_live_inv|]. split; [done|].
  change (recvpld_buf (_ <| action := act |>)) with (recvpld_buf e).
  change (sendpld_buf (_ <| action := act |>)) with (sendpld_buf e).
  destruct (recvpld_buf e) as [[p n]|]; destruct (sendpld_buf e) as [[q k]|]; simpl buf_len.
  all: try specialize (Hr _ _ (eng_live_inv _ Hl) eq_refl).
  all: try specialize (Hs _ _ (eng_live_inv _ Hl) eq_refl).
  all: repeat split; repeat case_match; lia.
Qed.

(** One round: it ends, or it has consumed all the payload and runs again. *)
Lemma jump_round e act : eng_live e -> iomode e <> BR_IO_FAILED -> forall fuel,
  (exists e', jump_loop (S fuel) e act = Some e' /\ eng_inv e') \/
  (exists e', jump_loop (S fuel) e act = jump_loop fuel e' 0 /\ eng_live e' /\
     iomode e' <> BR_IO_FAILED /\ recvpld_buf e <> None /\ recvpld_buf e' = None).
Proof.
  intros Hl Hm fuel. cbn [jump_loop].
  pose proof (hs_publish_pre e act Hl Hm) as Hpre. set (e1 := hs_publish e act) in *.
  assert (hlen_in e1 = 0 \/ hlen_in e1 = buf_len (recvpld_buf e)) as Hn.
  { subst e1. unfold hs_publish. eng_simpl. case_match; auto. }
  assert (recvpld_buf e1 = recvpld_buf e) as Er by done.
  assert (eng_live e1) as Hl1 by exact Hl.
  pose proof (hsrun_law _ e1 Hpre) as (Hinv2 & Hpost). set (e2 := hsrun e1) in *.
  clearbody e2. clearbody e1.
  destruct Hpre as (_ & Hm1 & Hin1 & _).
  unfold br_ssl_engine_closed. case_bool_decide as Hc; [left; eauto|].
  destruct (Hpost Hc) as (Ea & Eb & Ec & Hlen & Hout).
  pose proof (eng_inv_live _ Hinv2 Hc) as Hl2.
  set (e3 := if bool_decide _ then e2 else _).
  assert (eng_live e3 /\ ixa e3 = ixa e2 /\ ixb e3 = ixb e2 /\ ixc e3 = ixc e2 /\
          hlen_in e3 = hlen_in e2 /\ iomode e3 <> BR_IO_FAILED)
    as (Hl3 & Ea3 & Eb3 & Ec3 & Eh3 & Hm3).
  { subst e3. case_bool_decide as Hd; [done|]. destruct Hout as [|(p & n & k & Hs & -> & -> & Hk)]; [done|].
    unfold ptr_diff. simpl. replace (p + k - p) with k by lia.
    destruct (sendpld_buf_inv _ _ _ Hinv2 Hs) as (_ & _ & _ & _ & -> & _).
    split; [apply sendpld_ack_live; [done|lia|lia]|].
    unfold sendpld_ack, sendpld_flush.
    repeat case_match; eng_simpl; repeat split; try done; by destruct (iomode e2). }
  clearbody e3. clear Hout.
  destruct (Z.eqb_spec (hlen_in e1) (hlen_in e3)) as [Heq|Hne]; [left; eauto using eng_live_inv|].
  rewrite Eh3 in *. destruct (recvpld_buf e) as [[p n]|] eqn:Hrb.
  2:{ simpl in Hn. lia. }
  destruct (recvpld_buf_inv e1 p n) as (_ & _ & ? & ? & Hnn & _); [by apply eng_live_inv|done|].
  pose proof (bufs_facts e1 (proj1 Hl1)).
  pose proof (bufs_facts e3 (proj1 Hl3)) as F.
  rewrite Er in Hin1. simpl in Hn, Hin1.
  szsimp. set (k := hlen_in e1 - hlen_in e2).
  assert (eng_live (recvpld_ack e3 k)) as Hl4.
  { apply recvpld_ack_live; [done|lia|lia]. }
  assert (iomode (recvpld_ack e3 k) <> BR_IO_FAILED) as Hm4.
  { unfold recvpld_ack, make_ready_in. repeat case_match; eng_simpl; try done.
    all: match goal with H : iomode _ = _ |- _ => eng_simpl_in H; congruence end. }
  destruct (Z.eqb_spec (hlen_in (recvpld_ack e3 k)) 0) as [Hz|Hz]; [right|left; eauto using eng_live_inv].
  assert (hlen_in (recvpld_ack e3 k) = hlen_in e3) as Ehl.
  { unfold recvpld_ack, make_ready_in. repeat case_match; done. }
  eexists; split; [reflexivity|]. do 2 (split; [done|]). split; [done|].
  assert (k = ixb e3 - ixa e3) as -> by lia.
  unfold recvpld_ack. szsimp. eng_simpl.
  replace (ixa e3 + (ixb e3 - ixa e3)) with (ixb e3) by lia. rewrite Z.eqb_refl.
  unfold recvpld_buf, make_ready_in. repeat case_match; done.
Qed.

(** Two rounds of the handshake loop always suffice. *)
Lemma jump_handshake_inv e act : eng_live e -> iomode e <> BR_IO_FAILED ->
  exists e', jump_handshake e act = Some e' /\ eng_inv e'.
Proof.
  intros Hl Hm. unfold jump_handshake.
  destruct (jump_round e act Hl Hm 1) as [?|(e1 & -> & Hl1 & Hm1 & _ & Hnone)]; [done|].
  destruct (jump_round e1 0 Hl1 Hm1 0) as [?|(e2 & _ & _ & _ & Hsome & _)]; [done|].
  by destruct Hsome.
Qed.

(** *** The public operations *)

Lemma recvrec_ack_public e p n bs : eng_inv e ->
  br_ssl_engine_recvrec_buf e = Some (p, n) -> Forall is_u8 bs -> 0 < zlen bs <= n ->
  exists e', br_ssl_engine_recvrec_ack (e <| mem := zblit (mem e) p bs |>) (zlen bs) = Some e'
    /\ eng_inv e'.
Proof.
  intros Hinv Hbuf Hbs Hn.
  destruct (recvrec_buf_inv e p n Hinv Hbuf) as (Hl & -> & Hx & ? & ? & ?).
  pose proof (bufs_facts e (proj1 Hl)).
  set (e1 := e <| mem := _ |>).
  assert (eng_live e1) as Hl1.
  { split; [apply bufs_blit; try done; try lia; apply Hl|]. exact (proj2 Hl). }
  assert (eng_inv (recvrec_ack e1 (zlen bs))) as Hi2.
  { apply recvrec_ack_inv; subst e1; eng_simpl; try done; lia. }
  unfold br_ssl_engine_recvrec_ack. set (e2 := recvrec_ack e1 (zlen bs)) in *. clearbody e2.
  unfold br_ssl_engine_closed. case_bool_decide as Hc; [eauto|].
  pose proof (eng_inv_live _ Hi2 Hc) as Hl2.
  destruct (recvpld_buf e2) as [[q k]|] eqn:Hb; [|eauto].
  destruct (recvpld_buf_inv e2 q k Hi2 Hb) as (_ & _ & _ & _ & -> & ?).
  destruct (_ || _); [by apply jump_handshake_inv|].
  destruct (_ && _); [eauto|]. destruct (_ && _).
  - eexists; split; [done|]. apply eng_live_inv, recvpld_ack_live; [done|lia|lia].
  - eexists; split; [done|]. apply fail_inv, Hl2.
Qed.

Lemma sendrec_ack_public e p n k : eng_inv e ->
  br_ssl_engine_sendrec_buf e = Some (p, n) -> 0 < k <= n ->
  exists e', br_ssl_engine_sendrec_ack e k = Some e' /\ eng_inv e'.
Proof.
  intros Hinv Hbuf Hk.
  assert (iomode e <> BR_IO_FAILED) as Hm.
  { intros Hm. unfold br_ssl_engine_sendrec_buf, sendrec_buf in Hbuf. by rewrite Hm in Hbuf. }
  destruct (sendrec_buf_inv e p n Hinv Hbuf) as (Hl & -> & ? & ? & -> & ? & ?).
  pose proof (sendrec_ack_live e k Hl Hk) as Hl'.
  unfold br_ssl_engine_sendrec_ack. case_match; [|eauto using eng_live_inv].
  apply jump_handshake_inv; [done|].
  unfold sendrec_ack, make_ready_out. case_match; [|done].
  destruct (out_max_plaintext _ _ _). eng_simpl. destruct (iomode e) eqn:E; eng_simpl; by rewrite ?E.
Qed.

Lemma sendapp_ack_public e p n bs : eng_inv e ->
  br_ssl_engine_sendapp_buf e = Some (p, n) -> Forall is_u8 bs -> 0 < zlen bs <= n ->
  eng_inv (br_ssl_engine_sendapp_ack (e <| mem := zblit (mem e) p bs |>) (zlen bs)).
Proof.
  intros Hinv Hbuf Hbs Hn. unfold br_ssl_engine_sendapp_buf in Hbuf.
  destruct (app_ok e); [|done].
  destruct (sendpld_buf_inv e p n Hinv Hbuf) as (Hl & -> & ? & ? & -> & ? & ?).
  pose proof (bufs_facts e (proj1 Hl)).
  apply eng_live_inv, sendpld_ack_live; eng_simpl; [|lia|lia].
  split; [apply bufs_blit; try done; try lia; apply Hl|]. exact (proj2 Hl).
Qed.

Lemma recvapp_ack_public e p n k : eng_inv e ->
  br_ssl_engine_recvapp_buf e = Some (p, n) -> 0 < k <= n ->
  eng_inv (br_ssl_engine_recvapp_ack e k).
Proof.
  intros Hinv Hbuf Hk. unfold br_ssl_engine_recvapp_buf in Hbuf.
  destruct (_ || _); [done|].
  destruct (recvpld_buf_inv e p n Hinv Hbuf) as (Hl & _ & ? & ? & -> & ?).
  apply eng_live_inv, recvpld_ack_live; [done|lia|lia].
Qed.

Lemma flush_public e force : eng_inv e -> eng_inv (br_ssl_engine_flush e force).
Proof.
  intros Hinv. unfold br_ssl_engine_flush, br_ssl_engine_closed.
  case_bool_decide as Hc; simpl; [done|]. destruct (app_ok e); [|done].
  apply eng_live_inv, sendpld_flush_live. by apply eng_inv_live.
Qed.

Lemma close_public e : eng_inv e -> exists e', br_ssl_engine_close e = Some e' /\ eng_inv e'.
Proof.
  intros Hinv. unfold br_ssl_engine_close, br_ssl_engine_closed.
  case_bool_decide as Hc; [eauto|]. apply jump_handshake_inv; [by apply eng_inv_live|done].
Qed.

Lemma renegotiate_public e : eng_inv e ->
  exists e' b, br_ssl_engine_renegotiate e = Some (e', b) /\ eng_inv e'.
Proof.
  intros Hinv. unfold br_ssl_engine_renegotiate, br_ssl_engine_closed.
  case_bool_decide as Hc; simpl; [eauto|]. case_match; [eauto|].
  destruct (jump_handshake_inv e 2) as (e' & -> & ?); [by apply eng_inv_live|done|].
  simpl. eauto.
Qed.

(** One call of the public API by a client that respects the documented
    contract of the [_ack] functions. *)
Inductive eng_step : eng -> eng -> Prop :=
| step_recvrec e p n bs e' :
    br_ssl_engine_recvrec_buf e = Some (p, n) -> Forall is_u8 bs -> 0 < zlen bs <= n ->
    br_ssl_engine_recvrec_ack (e <| mem := zblit (mem e) p bs |>) (zlen bs) = Some e' ->
    eng_step e e'
| step_sendrec e p n k e' :
    br_ssl_engine_sendrec_buf e = Some (p, n) -> 0 < k <= n ->
    br_ssl_engine_sendrec_ack e k = Some e' -> eng_step e e'
| step_sendapp e p n bs :
    br_ssl_engine_sendapp_buf e = Some (p, n) -> Forall is_u8 bs -> 0 < zlen bs <= n ->
    eng_step e (br_ssl_engine_sendapp_ack (e <| mem := zblit (mem e) p bs |>) (zlen bs))
| step_recvapp e p n k :
    br_ssl_engine_recvapp_buf e = Some (p, n) -> 0 < k <= n ->
    eng_step e (br_ssl_engine_recvapp_ack e k)
| step_flush e force : eng_step e (br_ssl_engine_flush e force)
| step_close e e' : br_ssl_engine_close e = Some e' -> eng_step e e'
| step_renegotiate e e' b : br_ssl_engine_renegotiate e = Some (e', b) -> eng_step e e'.

Lemma eng_step_inv e e' : eng_inv e -> eng_step e e' -> eng_inv e'.
Proof.
  intros Hinv. destruct 1.
  - edestruct recvrec_ack_public as (? & ? & ?); eauto. by simplify_eq.
  - edestruct sendrec_ack_public as (? & ? & ?); eauto. by simplify_eq.
  - by eapply sendapp_ack_public.
  - by eapply recvapp_ack_public.
  - by apply flush_public.
  - edestruct close_public as (? & ? & ?); eauto. by simplify_eq.
  - edestruct renegotiate_public as (? & ? & ? & ?); eauto. by simplify_eq.
Qed.

Lemma eng_steps_inv e e' : eng_inv e -> rtc eng_step e e' -> eng_inv e'.
Proof. intros H Hs. induction Hs; eauto using eng_step_inv. Qed.

(** *** Initialisation *)

Lemma frag_search_fits n ilen olen :
  let u := frag_search n ilen olen in
  8 <= u <= 8 + Z.of_nat n /\
  (u <> 8 -> 2 ^ u + MAX_OUT_OVERHEAD <= olen /\ 2 ^ u + MAX_IN_OVERHEAD <= ilen) /\
  (forall v, u < v <= 8 + Z.of_nat n ->
     olen < 2 ^ v + MAX_OUT_OVERHEAD \/ ilen < 2 ^ v + MAX_IN_OVERHEAD).
Proof.
  induction n as [|n (IH1 & IH2 & IH3)]; cbn [frag_search];
    [split; [lia|split; intros; lia]|].
  rewrite Z.shiftl_1_l. destruct (_ && _) eqn:E.
  - apply andb_true_iff in E as [E1 E2]. apply Z.leb_le in E1, E2.
    split; [lia|split; [by intros|intros; lia]].
  - split; [lia|split; [exact IH2|]]. intros v Hv.
    destruct (decide (v = 8 + Z.of_nat (S n))) as [->|]; [|apply IH3; lia].
    apply andb_false_iff in E as [E|E]; apply Z.leb_gt in E; lia.
Qed.

End engine_proofs.

Section set_buffers.
Context {RI RO HS : Type} `{!RecordIn RI} `{!RecordOut RO} `{!RecordInLaws RI} `{!RecordOutLaws RO}.
Implicit Types e : engine RI RO HS.

Definition layout_of e : layout := (zlen (mem e), ibuf e, obuf e, ibuf_len e, obuf_len e).

(** Buffers as a caller may pass them: [NULL] for the second one means that
    the first is used in both directions. *)
Definition good_buffers e ib ilen ob olen : Prop :=
  Forall is_u8 (mem e) /\ zlen (mem e) < 2 ^ 62 /\
  exists i, ib = Some i /\ 0 <= i /\ 0 <= ilen /\ i + ilen <= zlen (mem e) /\
    (ob = None \/ exists o, ob = Some o /\ 0 <= o /\ 0 <= olen /\ o + olen <= zlen (mem e) /\
       ((i = o /\ ilen = olen) \/ i + ilen <= o \/ o + olen <= i)).

Definition out_len (ob : option Z) (ilen olen : Z) : Z :=
  match ob with None => ilen | Some _ => olen end.

(** The record sizes the engine uses: the lengths of RFC 6066, and 16 kB. *)
Definition frag_lens : list Z := [512; 1024; 2048; 4096; 16384].

Definition frag_fits (ilen olen f : Z) : bool :=
  (f + MAX_IN_OVERHEAD <=? ilen) && (f + MAX_OUT_OVERHEAD <=? olen).

Lemma frag_choice ilen olen :
  let u := frag_search 6 ilen olen in
  let f := u16 (Z.shiftl 1 (if u =? 13 then 12 else u)) in
  if u =? 8 then frag_fits ilen olen 512 = false
  else f ∈ frag_lens /\ frag_fits ilen olen f = true /\
    forall f', f' ∈ frag_lens -> frag_fits ilen olen f' = true -> f' <= f.
Proof.
  destruct (frag_search_fits 6 ilen olen) as (Hr & Hfit & Hmax).
  intros u f. fold u in Hr, Hfit, Hmax.
  assert (forall v, 9 <= v <= 14 -> u < v -> frag_fits ilen olen (2 ^ v) = false) as Hno.
  { intros v Hv Hu. unfold frag_fits. destruct (Hmax v ltac:(lia)); lia. }
  assert (u = 8 \/ 9 <= u <= 14) as [Hu|Hu] by lia.
  { rewrite Hu, Z.eqb_refl. apply (Hno 9); lia. }
  replace (u =? 8) with false by lia. destruct (Hfit ltac:(lia)) as [Hf1 Hf2].
  assert (exists w, f = 2 ^ w /\ w <= u /\ (w = u /\ u <> 13 \/ u = 13 /\ w = 12)) as (w & Hf & Hw & Hwu).
  { subst f. destruct (Z.eqb_spec u 13) as [E|]; [exists 12; split; [done|lia]|].
    exists u. rewrite Z.shiftl_1_l, u16_small; [split; [done|lia]|].
    change 65536 with (2 ^ 16). split; [apply Z.pow_nonneg; lia|apply Z.pow_lt_mono_r; lia]. }
  assert (2 ^ w <= 2 ^ u) by (apply Z.pow_le_mono_r; lia).
  rewrite Hf. clear f Hf. split; [|split; [unfold frag_fits; lia|]].
  - assert (w = 9 \/ w = 10 \/ w = 11 \/ w = 12 \/ w = 14) as [->|[->|[->|[->| ->]]]] by lia;
      vm_compute; repeat constructor.
  - intros f' Hin Hf'.
    assert (exists v, f' = 2 ^ v /\ 9 <= v <= 14 /\ v <> 13) as (v & -> & Hv & Hv').
    { unfold frag_lens in Hin. rewrite !elem_of_cons, elem_of_nil in Hin.
      destruct Hin as [->|[->|[->|[->|[->|[]]]]]];
        [exists 9|exists 10|exists 11|exists 12|exists 14]; (split; [done|lia]). }
    apply Z.pow_le_mono_r; [lia|]. destruct (decide (u < v)) as [Hlt|]; [|lia].
    rewrite Hno in Hf' by lia. done.
Qed.

(** [br_ssl_engine_set_buffers_bidi] on well-formed buffers. *)
Lemma set_buffers_bidi_spec e ib ilen ob olen :
  good_buffers e ib ilen ob olen ->
  let e' := br_ssl_engine_set_buffers_bidi e ib ilen ob olen in
  let olen' := out_len ob ilen olen in
  if frag_fits ilen olen' 512 then
    eng_live (layout_of e') e' /\ iomode e' = BR_IO_INOUT /\ err e' = BR_ERR_OK /\
    rout e' = OutClear /\ mem e' = mem e /\ ibuf e' = ib /\ ibuf_len e' = ilen /\ obuf_len e' = olen' /\
    max_frag_len e' ∈ frag_lens /\ frag_fits ilen olen' (max_frag_len e') = true /\
    (forall f, f ∈ frag_lens -> frag_fits ilen olen' f = true -> f <= max_frag_len e')
  else iomode e' = BR_IO_FAILED /\ err e' = BR_ERR_BAD_PARAM.
Proof.
  intros (Hbytes & Hmem & i & -> & Hi0 & Hil & Him & Hob).
  assert (exists o, match ob with None => (Some i, ilen) | _ => (ob, olen) end
                    = (Some o, out_len ob ilen olen) /\
            0 <= o /\ o + out_len ob ilen olen <= zlen (mem e) /\
            ((i = o /\ ilen = out_len ob ilen olen) \/ i + ilen <= o \/ o + out_len ob ilen olen <= i))
    as (o & Eo & Ho0 & Hom & Hsep).
  { destruct Hob as [->|(o & -> & ? & ? & ? & ?)];
      [exists i|exists o]; simpl; (split; [done|lia]). }
  intros e' olen'. fold olen' in Eo, Hom, Hsep.
  pose proof (frag_choice ilen olen') as Hfc. cbv zeta in Hfc.
  subst e'. unfold br_ssl_engine_set_buffers_bidi. rewrite Eo.
  destruct (frag_search 6 ilen olen' =? 8) eqn:E8.
  { rewrite Hfc. done. }
  set (f := u16 _) in *. set (u := if frag_search 6 ilen olen' =? 13 then _ else _) in *.
  clearbody f u. destruct Hfc as (Hin & Hfit & Hmax).
  assert (512 <= f <= 16384) as Hf.
  { unfold frag_lens in Hin. rewrite !elem_of_cons, elem_of_nil in Hin. lia. }
  replace (frag_fits ilen olen' 512) with true by (symmetry; unfold frag_fits in *; lia).
  match goal with |- context [make_ready_out (make_ready_in ?x)] => set (e1 := x) end.
  assert (layout_of (make_ready_out (make_ready_in e1)) = (zlen (mem e), Some i, Some o, ilen, olen')) as ->.
  { unfold layout_of, make_ready_out, make_ready_in. subst e1. eng_simpl.
    by destruct (out_max_plaintext _ _ _). }
  assert (eng_bufs (zlen (mem e), Some i, Some o, ilen, olen') (make_ready_in e1)) as Hb.
  { unfold eng_bufs, make_ready_in. subst e1. eng_simpl.
    unfold bufs_ok, frag_fits, MAX_IN_OVERHEAD, MAX_OUT_OVERHEAD in *.
    split; [done|split; [done|split; [done|]]].
    split; [exists i, o; split; [done|split; [done|lia]]|lia]. }
  assert (eng_in (make_ready_in e1)) as Hi'.
  { unfold eng_in, make_ready_in. subst e1. eng_simpl. apply (in_header _ _ _ 0); lia. }
  split; [by apply make_ready_out_live|].
  unfold make_ready_out, make_ready_in. subst e1. eng_simpl.
  destruct (out_max_plaintext _ _ _) as [a b]. eng_simpl.
  do 7 (split; [done|]). by split.
Qed.
End set_buffers.
