(* ===== verification/EngineSpec.v ===== *)
(** * EngineSpec: what the TLS record engine promises its callers

    The theorems are stated for every record protection and every handshake
    processor that satisfy the laws of [Engine]; the module [Established] is the
    smallest such instance (an unprotected session whose handshake is over) and
    is where the witnesses are evaluated. *)
From stdpp Require Import relations.
From S2P Require Import Prelude.
From S2P Require Import Words.
From S2P Require Import Engine.

(** ** A concrete session *)

Module Established.
#[export] Instance record_in : RecordIn unit := {|
  check_length _ _ := true;
  decrypt _ _ _ data := (tt, data, Some (0, zlen data)) |}.
#[export] Instance record_out : RecordOut unit := {|
  max_plaintext _ a b := clear_max_plaintext a b;
  encrypt _ t v buf off len :=
    let '(buf, p, n) := clear_encrypt t v buf off len in (tt, buf, p, n) |}.

(** The handshake is over: discard handshake payload, allow application data. *)
#[export] Instance handshake : Handshake unit unit unit := fun e =>
  e <| application_data := 1 |> <| record_type_out := BR_SSL_APPLICATION_DATA |>
    <| version_out := 771 |> <| hlen_in := 0 |>.

#[export] Instance record_in_laws : RecordInLaws unit.
Proof.
  constructor. simpl. intros s t v data s' data' r Hd _ [= <- <- <-].
  split; [done|split; [done|]]. intros off n [= <- <-]. lia.
Qed.
#[export] Instance record_out_laws : RecordOutLaws unit.
Proof.
  constructor.
  - intros s. exact clear_max_plaintext_law.
  - intros s t v buf len a b s' buf' p n Hb Hz Hm Hl Hab. simpl.
    destruct (clear_encrypt t v buf a len) as [[??]?] eqn:E. intros [= <- <- <- <-].
    by eapply (clear_encrypt_law t v).
Qed.
#[export] Instance handshake_laws : HandshakeLaws unit unit unit.
Proof.
  intros lay e (Hinv & Hm & Hin & Hout & Hs & _).
  split; [exact Hinv|]. intros _. unfold hsrun, handshake. eng_simpl.
  do 3 (split; [done|]). split; [lia|]. by left.
Qed.

(** A zeroed context: one 4096 byte arena. *)
Definition fresh (n : Z) : engine unit unit unit :=
  Engine (zeros n) 0 None None 0 0 0 0 0 0 0 0 0 0 0 BR_IO_FAILED false false
    0 0 0 0 tt OutClear 0 0 0 tt None None None 0 0 0 0.

End Established.

(** ** What a caller may rely on *)

Section spec.
Context {RI RO HS : Type}.
Context `{!RecordIn RI} `{!RecordOut RO} `{!Handshake RI RO HS}.
Context `{!RecordInLaws RI} `{!RecordOutLaws RO} `{!HandshakeLaws RI RO HS}.
Notation eng := (engine RI RO HS).
Implicit Types e : eng.
Context {lay : layout}.
Notation eng_bufs := (eng_bufs lay).
Notation eng_live := (eng_live lay).
Notation eng_inv := (eng_inv lay).

(** A non-empty range of the input (output) buffer. *)
Definition inside_ibuf e (b : option (Z * Z)) : Prop :=
  forall p n, b = Some (p, n) -> ibase e <= p /\ 0 < n /\ p + n <= ibase e + ibuf_len e.
Definition inside_obuf e (b : option (Z * Z)) : Prop :=
  forall p n, b = Some (p, n) -> obase e <= p /\ 0 < n /\ p + n <= obase e + obuf_len e.
Definition offers_inside e : Prop :=
  inside_ibuf e (br_ssl_engine_recvrec_buf e) /\ inside_ibuf e (br_ssl_engine_recvapp_buf e) /\
  inside_obuf e (br_ssl_engine_sendrec_buf e) /\ inside_obuf e (br_ssl_engine_sendapp_buf e).

Lemma eng_inv_offers e : eng_inv e -> offers_inside e.
Proof.
  intros Hinv. unfold offers_inside, inside_ibuf, inside_obuf, br_ssl_engine_recvapp_buf,
    br_ssl_engine_sendapp_buf, br_ssl_engine_recvrec_buf, br_ssl_engine_sendrec_buf.
  repeat split; repeat case_match; try discriminate; intros; simplify_eq.
  all: match goal with
    | H : recvrec_buf _ = Some _ |- _ => eapply recvrec_buf_inv in H; [|exact Hinv]
    | H : recvpld_buf _ = Some _ |- _ => eapply recvpld_buf_inv in H; [|exact Hinv]
    | H : sendrec_buf _ = Some _ |- _ => eapply sendrec_buf_inv in H; [|exact Hinv]
    | H : sendpld_buf _ = Some _ |- _ => eapply sendpld_buf_inv in H; [|exact Hinv]
    end; lia.
Qed.

Lemma make_ready_in_mode e : iomode e <> BR_IO_FAILED -> iomode (make_ready_in e) <> BR_IO_FAILED.
Proof. unfold make_ready_in. eng_simpl. destruct (iomode e) eqn:E; eng_simpl; by rewrite ?E. Qed.
Lemma make_ready_out_mode e : iomode e <> BR_IO_FAILED -> iomode (make_ready_out e) <> BR_IO_FAILED.
Proof.
  unfold make_ready_out. destruct (out_max_plaintext _ _ _). eng_simpl.
  destruct (iomode e) eqn:E; eng_simpl; by rewrite ?E.
Qed.

Lemma hs_reset_inv e cpu0 : eng_live e -> iomode e <> BR_IO_FAILED ->
  exists e', br_ssl_engine_hs_reset e cpu0 = Some e' /\ eng_inv e'.
Proof.
  intros (Hb & Hi & Ho) Hm. unfold br_ssl_engine_hs_reset.
  destruct (make_ready_in_live e Hb Ho) as (Hb1 & Hi1 & _).
  pose proof (make_ready_out_live _ Hb1 Hi1) as Hl.
  pose proof (make_ready_out_mode _ (make_ready_in_mode _ Hm)) as Hm1.
  fold (engine_clearbuf e) in Hl, Hm1. generalize dependent (engine_clearbuf e).
  intros e1 Hl Hm1. by apply jump_handshake_inv.
Qed.

Lemma reset_inv e0 ib ilen ob olen cpu0 e1 :
  good_buffers e0 ib ilen ob olen -> frag_fits ilen (out_len ob ilen olen) 512 = true ->
  layout_of (br_ssl_engine_set_buffers_bidi e0 ib ilen ob olen) = lay ->
  br_ssl_engine_hs_reset (br_ssl_engine_set_buffers_bidi e0 ib ilen ob olen) cpu0 = Some e1 ->
  eng_inv e1.
Proof.
  intros Hgood Hfit Hlay Hreset.
  pose proof (set_buffers_bidi_spec e0 ib ilen ob olen Hgood) as Hs. cbv zeta in Hs.
  rewrite Hfit, Hlay in Hs. destruct Hs as (Hl & Hm & _).
  destruct (hs_reset_inv _ cpu0 Hl) as (e1' & E & Hinv); [congruence|]. by simplify_eq.
Qed.

(** *** The state flags *)

(** Which of the four operations are open. *)
Definition opened (b : option (Z * Z)) : bool := match b with Some _ => true | None => false end.

Lemma input_exclusive e : eng_inv e -> iomode e <> BR_IO_FAILED -> iomode e <> BR_IO_OUT ->
  shutdown_recv e = false -> opened (recvrec_buf e) = negb (opened (recvpld_buf e)).
Proof.
  intros Hinv Hm Hm' Hs. pose proof (eng_inv_live e Hinv Hm) as (Hb & Hi & _).
  pose proof (bufs_facts e Hb). unfold recvrec_buf, recvpld_buf. rewrite Hs.
  assert (0 <= ixb e - ixa e < 2 ^ 62) by (unfold eng_in in Hi; destruct Hi; lia).
  rewrite (szsub_small (ixb e)) by lia. destruct (iomode e); try congruence.
  all: destruct (Z.eqb_spec (ixa e) (ixb e)); destruct (Z.eqb_spec (ixb e - ixa e) 0);
    try lia; done.
Qed.

Lemma output_exclusive e : eng_inv e -> iomode e <> BR_IO_FAILED -> iomode e <> BR_IO_IN ->
  opened (sendrec_buf e) = negb (opened (sendpld_buf e)).
Proof.
  intros Hinv Hm Hm'. pose proof (eng_inv_live e Hinv Hm) as (Hb & _ & Ho).
  pose proof (bufs_facts e Hb). unfold sendrec_buf, sendpld_buf.
  assert (0 <= oxb e - oxa e < 2 ^ 62 /\ (oxa e < oxc e <-> oxa e = oxb e))
    as [? Hx] by (unfold eng_out in Ho; destruct Ho; lia).
  rewrite (szsub_small (oxb e)) by lia. destruct (iomode e); try congruence.
  all: destruct (Z.ltb_spec (oxa e) (oxc e)); destruct (Z.eqb_spec (oxb e - oxa e) 0);
    try lia; done.
Qed.

(** Bits of the state word. *)
Definition has_flag (s f : Z) : bool := negb (Z.land s f =? 0).

Lemma state_flags e : br_ssl_engine_closed e = false ->
  let s := br_ssl_engine_current_state e in
  has_flag s BR_SSL_CLOSED = false /\
  has_flag s BR_SSL_SENDREC = opened (sendrec_buf e) /\
  has_flag s BR_SSL_RECVREC = opened (recvrec_buf e) /\
  has_flag s BR_SSL_SENDAPP = opened (br_ssl_engine_sendapp_buf e) /\
  has_flag s BR_SSL_RECVAPP = opened (br_ssl_engine_recvapp_buf e).
Proof.
  intros Hc. unfold br_ssl_engine_current_state. rewrite Hc.
  unfold br_ssl_engine_sendrec_buf, br_ssl_engine_recvrec_buf.
  destruct (sendrec_buf e) as [[??]|], (recvrec_buf e) as [[??]|],
    (br_ssl_engine_sendapp_buf e) as [[??]|], (br_ssl_engine_recvapp_buf e) as [[??]|]; done.
Qed.

(** *** Acknowledging a whole buffer closes it *)

Lemma recvpld_ack_all e p n : eng_inv e -> recvpld_buf e = Some (p, n) ->
  recvpld_buf (recvpld_ack e n) = None.
Proof.
  intros Hinv Hb. destruct (recvpld_buf_inv e p n Hinv Hb) as (Hl & _ & ? & ? & -> & ?).
  pose proof (bufs_facts e (proj1 Hl)). unfold recvpld_ack. szsimp.
  replace (ixa e + (ixb e - ixa e)) with (ixb e) by lia. eng_simpl. rewrite Z.eqb_refl.
  eng_simpl. unfold recvpld_buf. destruct (ixc e =? 0); [|by eng_simpl; destruct (iomode e)].
  unfold make_ready_in.
  eng_simpl. destruct (iomode e) eqn:E; eng_simpl; rewrite ?E; done.
Qed.

Lemma sendpld_buf_idle e : oxa e = oxb e -> sendpld_buf e = None.
Proof.
  intros E. unfold sendpld_buf. rewrite E.
  assert (oxb e -! oxb e = 0) as -> by (unfold szsub; by rewrite Z.sub_diag).
  by destruct (iomode e).
Qed.

Lemma sendpld_ack_all e p n : eng_inv e -> sendpld_buf e = Some (p, n) ->
  sendpld_buf (sendpld_ack e n) = None.
Proof.
  intros Hinv Hb. destruct (sendpld_buf_inv e p n Hinv Hb) as (Hl & _ & ? & ? & -> & ? & ?).
  pose proof (bufs_facts e (proj1 Hl)) as F.
  assert (0 <= oxc e) by (destruct Hl as (_ & _ & Ho); unfold eng_out in Ho; destruct Ho; lia).
  unfold sendpld_ack. set (e0 := if _ && _ then _ else e).
  assert (oxa e0 = oxa e /\ oxb e0 = oxb e /\ oxc e0 = oxc e) as (Ex & Ey & Ec)
    by (subst e0; by case_match).
  clearbody e0. rewrite Ex. szsimp. replace (oxa e + (oxb e - oxa e)) with (oxb e) by lia.
  eng_simpl. rewrite Ey, Z.leb_refl. szsimp. apply sendpld_buf_idle.
  unfold sendpld_flush. eng_simpl. rewrite Ec. replace (oxb e =? oxb e + 1) with false by lia.
  szsimp. replace (oxb e - oxc e =? 0) with false by lia. simpl negb. cbv [andb]. cbv iota.
  by destruct (out_encrypt _ _ _ _ _ _) as [[[??]?]?].
Qed.

(** A partial write leaves the payload in the buffer: no record is on offer. *)
Lemma sendpld_partial e p n k : eng_inv e -> sendpld_buf e = Some (p, n) -> 0 < k < n ->
  sendrec_buf (sendpld_ack e k) = None /\ iomode (sendpld_ack e k) <> BR_IO_FAILED.
Proof.
  intros Hinv Hb Hk. destruct (sendpld_buf_inv e p n Hinv Hb) as (Hl & _ & ? & ? & -> & ? & ?).
  assert (iomode e = BR_IO_OUT \/ iomode e = BR_IO_INOUT) as Hm.
  { unfold sendpld_buf in Hb. destruct (iomode e); auto; done. }
  pose proof (bufs_facts e (proj1 Hl)) as F. unfold sendpld_ack. set (e0 := if _ && _ then _ else e).
  assert (oxa e0 = oxa e /\ oxb e0 = oxb e /\ oxc e0 = oxc e /\
          (iomode e0 = BR_IO_OUT \/ iomode e0 = BR_IO_INOUT)) as (Ex & Ey & Ec & Hm0)
    by (subst e0; case_match; auto).
  clearbody e0. rewrite Ex. szsimp. eng_simpl. rewrite Ey.
  replace (oxb e <=? oxa e + k) with false by lia. unfold sendrec_buf. eng_simpl. rewrite Ec.
  replace (oxa e + k <? oxc e) with false by lia.
  destruct Hm0 as [-> | ->]; done.
Qed.

(** *** Application data in an unprotected record *)

Definition record_header (t v len : Z) : list Z := [u8 t] ++ br_enc16be v ++ br_enc16be len.

Lemma clear_encrypt_spec t v buf len : 5 + len <= zlen buf < 2 ^ 62 -> 0 <= len ->
  exists buf', clear_encrypt t v buf 5 len = (buf', 0, len + 5) /\ length buf' = length buf /\
    zslice buf' 0 (len + 5) = record_header t v len ++ zslice buf 5 len.
Proof.
  intros Hl H0. unfold clear_encrypt. szsimp. change (5 - 5) with 0. change (0 + 3) with 3.
  set (b1 := zblit buf 0 (u8 t :: br_enc16be v)).
  assert (zlen b1 = zlen buf) as L1 by (apply zlen_zblit; simpl; lia).
  set (b2 := zblit b1 3 (br_enc16be len)).
  assert (zlen b2 = zlen buf) as L2 by (rewrite <- L1; apply zlen_zblit; simpl length; lia).
  eexists; split; [done|]. split; [by apply Nat2Z.inj|].
  replace (len + 5) with (3 + (2 + len)) by lia.
  rewrite <- (zslice_app b2 0 3) by lia. rewrite <- (zslice_app b2 (0 + 3) 2) by lia.
  assert (zslice b2 0 3 = u8 t :: br_enc16be v) as E1.
  { unfold b2. rewrite zslice_zblit_before by (simpl length; lia).
    apply (zslice_zblit_same buf 0 (u8 t :: br_enc16be v)); simpl length; lia. }
  assert (zslice b2 (0 + 3) 2 = br_enc16be len) as E2.
  { apply (zslice_zblit_same b1 3 (br_enc16be len)); simpl length; lia. }
  assert (zslice b2 (0 + 3 + 2) len = zslice buf 5 len) as E3.
  { unfold b2. rewrite zslice_zblit_after by (simpl length; lia).
    unfold b1. apply zslice_zblit_after; simpl length; lia. }
  rewrite E1, E2, E3. done.
Qed.

Lemma flush_idle e force : oxa e = oxb e -> br_ssl_engine_flush e force = e.
Proof.
  intros E. unfold br_ssl_engine_flush, sendpld_flush. rewrite E, Z.eqb_refl. by case_match.
Qed.

Lemma flush_open e force : iomode e <> BR_IO_FAILED -> app_ok e = true ->
  br_ssl_engine_flush e force = sendpld_flush e force.
Proof.
  intros Hm Ha. unfold br_ssl_engine_flush, br_ssl_engine_closed.
  by rewrite bool_decide_false, Ha by done.
Qed.

Lemma flush_clear_emit e force len :
  eng_bufs e -> iomode e = BR_IO_OUT \/ iomode e = BR_IO_INOUT ->
  rout e = OutClear -> oxc e = 5 -> oxa e = 5 + len -> oxb e <> oxa e ->
  0 < len -> 5 + len <= obuf_len e ->
  let e' := sendpld_flush e force in
  oxa e' = oxb e' /\
  br_ssl_engine_sendrec_buf e' = Some (obase e, len + 5) /\
  zslice (mem e') (obase e) (len + 5) =
    record_header (record_type_out e) (version_out e) len ++ zslice (mem e) (obase e + 5) len.
Proof.
  intros Hb Hm Ho Hc Hx Hy Hlen Hfit. pose proof (bufs_facts e Hb).
  unfold sendpld_flush. replace (oxa e =? oxb e) with false by lia. rewrite Hx, Hc. szsimp.
  replace (5 + len - 5) with len by lia. replace (len =? 0) with false by lia.
  rewrite Ho. unfold out_encrypt. simpl negb. cbv [andb]. cbv iota.
  set (ob := zslice (mem e) (obase e) (obuf_len e)).
  assert (zlen ob = obuf_len e) as Lo by (apply zlen_zslice; lia).
  destruct (clear_encrypt_spec (record_type_out e) (version_out e) ob len)
    as (buf' & -> & L' & Hrec); [lia|lia|].
  unfold br_ssl_engine_sendrec_buf, sendrec_buf. eng_simpl. szsimp.
  split; [done|]. split.
  { replace (0 <? 0 + (len + 5)) with true by lia.
    destruct Hm as [-> | ->]; do 2 f_equal; lia. }
  transitivity (zslice (zslice (zblit (mem e) (obase e) buf') (obase e) (zlen buf')) 0 (len + 5)).
  { rewrite zslice_zslice by (rewrite ?zlen_zblit; lia). f_equal; lia. }
  rewrite zslice_zblit_same by lia. rewrite Hrec. f_equal.
  unfold ob. rewrite zslice_zslice by lia. done.
Qed.

(** Bytes handed to [sendapp], then flushed, are on offer as one record. *)
Lemma app_record_assembled e p n bs :
  eng_live e -> rout e = OutClear -> oxa e = 5 -> oxc e = 5 ->
  application_data e = 1 -> br_ssl_engine_sendapp_buf e = Some (p, n) ->
  Forall is_u8 bs -> 0 < zlen bs <= n ->
  let e1 := br_ssl_engine_sendapp_ack (e <| mem := zblit (mem e) p bs |>) (zlen bs) in
  let e2 := br_ssl_engine_flush e1 false in
  br_ssl_engine_sendrec_buf e2 = Some (obase e, zlen bs + 5) /\
  zslice (mem e2) (obase e) (zlen bs + 5) =
    record_header (record_type_out e) (version_out e) (zlen bs) ++ bs.
Proof.
  intros Hl Ho Hx Hc Happ Hbuf Hbs Hn e1 e2. unfold br_ssl_engine_sendapp_buf in Hbuf.
  destruct (app_ok e) eqn:Hok; [|done].
  destruct (sendpld_buf_inv e p n (eng_live_inv _ Hl) Hbuf) as (_ & -> & _ & ? & -> & Hpos & _).
  pose proof Hl as (Hb & _ & _). pose proof (bufs_facts e Hb). rewrite Hx in *.
  pose proof (bufs_blit e (obase e + 5) bs Hb Hbs ltac:(lia) ltac:(lia)) as Hb1.
  assert (zslice (zblit (mem e) (obase e + 5) bs) (obase e + 5) (zlen bs) = bs) as Hrd
    by (apply zslice_zblit_same; lia).
  subst e2 e1. rewrite Hx. unfold br_ssl_engine_sendapp_ack, sendpld_ack.
  set (e0 := if _ && _ then _ else _).
  assert (eng_bufs e0 /\ rout e0 = OutClear /\ oxa e0 = 5 /\ oxb e0 = oxb e /\ oxc e0 = 5 /\
          obase e0 = obase e /\ obuf_len e0 = obuf_len e /\
          (iomode e0 = BR_IO_OUT \/ iomode e0 = BR_IO_INOUT) /\
          app_ok e0 = true /\ mem e0 = zblit (mem e) (obase e + 5) bs /\
          record_type_out e0 = record_type_out e /\ version_out e0 = version_out e)
    as (Hb0 & Ho0 & Hx0 & Hy0 & Hc0 & Hp0 & Hl0 & Hm0 & Ha0 & Hmem & Ht0 & Hv0).
  { assert (iomode e = BR_IO_OUT \/ iomode e = BR_IO_INOUT) as Hm
      by (unfold sendpld_buf in Hbuf; destruct (iomode e); auto; done).
    subst e0. case_match; (split; [exact Hb1|]); eng_simpl; repeat split; auto. }
  clearbody e0. rewrite <- Hmem, <- Ht0, <- Hv0, <- Hp0 in *. rewrite Hx0. szsimp.
  eng_simpl. rewrite Hy0. case_match eqn:Hfull; szsimp.
  - set (e3 := e0 <| oxa := _ |> <| oxb := _ |>).
    destruct (flush_clear_emit e3 false (zlen bs)) as (Hab & Hsr & Hrec); try done; subst e3; eng_simpl; try lia.
    rewrite (flush_idle _ _ Hab). rewrite Hsr. split; [done|]. eng_simpl_in Hrec. rewrite Hrd in Hrec. exact Hrec.
  - set (e3 := e0 <| oxa := _ |>).
    destruct (flush_clear_emit e3 false (zlen bs)) as (Hab & Hsr & Hrec); try done; subst e3; eng_simpl; try lia.
    rewrite flush_open by (eng_simpl; destruct Hm0; congruence || exact Ha0).
    rewrite Hsr. split; [done|]. eng_simpl_in Hrec. rewrite Hrd in Hrec. exact Hrec.
Qed.

(** Fields of a header that lies in memory. *)
Lemma dec16be_at m o x : is_u16 x -> zslice m o 2 = br_enc16be x -> br_dec16be (zdrop o m) = x.
Proof.
  intros Hx E. rewrite <- (ztake_zdrop 2 (zdrop o m)). unfold zslice in E. rewrite E.
  by apply dec_enc16be.
Qed.

Lemma header_fields m o t v len :
  0 <= o -> o + 5 <= zlen m -> is_u8 t -> is_u16 v -> is_u16 len ->
  zslice m o 5 = record_header t v len ->
  zget m o = t /\ br_dec16be (zdrop (o + 1) m) = v /\ br_dec16be (zdrop (o + 3) m) = len.
Proof.
  intros Ho Hm Ht Hv Hl E.
  assert (forall k n, 0 <= k -> 0 <= n -> k + n <= 5 ->
            zslice m (o + k) n = zslice (record_header t v len) k n) as Hs.
  { intros. rewrite <- E, zslice_zslice by lia. done. }
  split; [|split].
  - replace o with (o + 0) by lia. rewrite <- (zget_zslice m o 5 0) by lia. rewrite E.
    unfold record_header, zget. simpl. apply u8_small. unfold is_u8 in Ht. lia.
  - apply dec16be_at; [done|]. rewrite Hs by lia. done.
  - apply dec16be_at; [done|]. rewrite Hs by lia. done.
Qed.

(** An engine waiting for a record, open for application data. *)
Definition awaiting_record e (v : Z) : Prop :=
  eng_live e /\ (iomode e = BR_IO_IN \/ iomode e = BR_IO_INOUT) /\ shutdown_recv e = false /\
  incrypt e = false /\ ixa e = 0 /\ ixb e = 0 /\ application_data e = 1 /\
  is_u16 v /\ Z.shiftr v 8 = 3 /\ (version_in e = 0 \/ version_in e = v).

Lemma header_accepted e v len :
  awaiting_record e v -> 0 < len <= 16384 ->
  let e1 := e <| mem := zblit (mem e) (ibase e) (record_header 23 v len) |> in
  exists e2, br_ssl_engine_recvrec_ack e1 5 = Some e2 /\
    eng_live e2 /\ (iomode e2 = BR_IO_IN \/ iomode e2 = BR_IO_INOUT) /\ shutdown_recv e2 = false /\
    incrypt e2 = false /\ ixa e2 = 5 /\ ixb e2 = 5 /\ ixc e2 = len /\ application_data e2 = 1 /\
    record_type_in e2 = 23 /\ ibuf e2 = ibuf e /\ ibuf_len e2 = ibuf_len e.
Proof.
  intros (Hl & Hm & Hsh & Henc & Hx & Hy & Happ & Hv & Hv3 & Hver) Hlen e1.
  pose proof Hl as (Hb & Hi & Ho). pose proof (bufs_facts e Hb).
  assert (ixc e = 5) as Hc.
  { unfold eng_in in Hi. rewrite Hx, Hy in Hi. apply in_regs_waiting in Hi. lia. }
  assert (Forall is_u8 (record_header 23 v len)) as Hbytes.
  { repeat constructor; apply u8_range. }
  assert (zslice (mem e1) (ibase e) 5 = record_header 23 v len) as Hrd.
  { apply (zslice_zblit_same (mem e) (ibase e) (record_header 23 v len)); simpl length; lia. }
  destruct (header_fields (mem e1) (ibase e) 23 v len) as (Ht & Hvv & Hll).
  { lia. } { subst e1. eng_simpl. rewrite zlen_zblit by (simpl length; lia). lia. }
  { unfold is_u8. lia. } { done. } { unfold is_u16. lia. } { done. }
  pose proof (bufs_blit e (ibase e) _ Hb Hbytes ltac:(lia) ltac:(simpl length; lia)) as Hb1.
  fold e1 in Hb1.
  assert (eng_inv (recvrec_ack e1 5)) as Hinv.
  { apply recvrec_ack_inv; subst e1; eng_simpl; try lia. split; [exact Hb1|split; [exact Hi|exact Ho]]. }
  unfold br_ssl_engine_recvrec_ack. revert Hinv. unfold recvrec_ack.
  set (e1' := if _ && _ then _ else e1).
  assert (iomode e1' = BR_IO_IN \/ iomode e1' = BR_IO_INOUT) as Hm'.
  { subst e1'. case_match; auto. }
  assert (exists m, e1' = e1 <| iomode := m |>) as [md Emd].
  { subst e1'. case_match; [eauto|]. exists (iomode e1). done. }
  rewrite Emd in *. clear e1' Emd. eng_simpl_in Hm'. subst e1. eng_simpl. rewrite Hx, Hc.
  szsimp. change (0 + 5) with 5. change (5 <? 5) with false. change (5 =? 5) with true. cbv iota.
  unfold recvrec_header. eng_simpl. eng_simpl_in Ht. eng_simpl_in Hvv. eng_simpl_in Hll.
  rewrite Ht, Hvv, Hll, Henc, Hv3. change (negb (3 =? 3)) with false. cbv iota.
  replace (negb (version_in e =? 0) && negb (version_in e =? v)) with false
    by (destruct Hver as [-> | ->]; rewrite Z.eqb_refl, ?andb_false_r; done).
  replace (16384 <? len) with false by lia. replace (len =? 0) with false by lia.
  match goal with |- eng_inv ?x -> _ => set (e2 := x) end. intros Hinv.
  assert (iomode e2 <> BR_IO_FAILED) as Hnf by (subst e2; eng_simpl; destruct Hm'; congruence).
  pose proof (eng_inv_live _ Hinv Hnf) as Hl2.
  exists e2. unfold br_ssl_engine_closed. rewrite bool_decide_false by done.
  split; [|done].
  replace (recvpld_buf e2) with (@None (Z * Z)); [done|].
  unfold recvpld_buf. subst e2. eng_simpl. rewrite Z.sub_diag || idtac.
  szsimp. by destruct Hm' as [-> | ->].
Qed.

Lemma body_delivered e bs :
  eng_live e -> (iomode e = BR_IO_IN \/ iomode e = BR_IO_INOUT) -> shutdown_recv e = false ->
  incrypt e = false -> ixa e = 5 -> ixb e = 5 -> ixc e = zlen bs -> application_data e = 1 ->
  record_type_in e = 23 -> 0 < zlen bs -> 5 + zlen bs <= ibuf_len e ->
  br_ssl_engine_recvrec_buf e = Some (ibase e + 5, zlen bs) /\
  exists e', br_ssl_engine_recvrec_ack (e <| mem := zblit (mem e) (ibase e + 5) bs |>) (zlen bs) = Some e' /\
    br_ssl_engine_recvapp_buf e' = Some (ibase e + 5, zlen bs) /\
    zslice (mem e') (ibase e + 5) (zlen bs) = bs.
Proof.
  intros Hl Hm Hsh Henc Hx Hy Hc Happ Ht Hpos Hfit.
  pose proof (bufs_facts e (proj1 Hl)).
  unfold br_ssl_engine_recvrec_buf, recvrec_buf. rewrite Hsh, Hx, Hy, Hc. szsimp.
  change (5 =? 5) with true. replace (ibuf_len e - 5 <? zlen bs) with false by lia.
  split; [by destruct Hm as [-> | ->]|].
  unfold br_ssl_engine_recvrec_ack, recvrec_ack.
  set (e1 := e <| mem := _ |>). set (e1' := if _ && _ then _ else e1).
  assert (exists m, e1' = e1 <| iomode := m |> /\ (m = BR_IO_IN \/ m = BR_IO_INOUT)) as (md & -> & Hmd).
  { subst e1'. case_match; [eauto|]. exists (iomode e1). auto. }
  subst e1. eng_simpl. rewrite Hx, Hc. szsimp.
  replace (5 + zlen bs <? 5) with false by lia. replace (5 + zlen bs =? 5) with false by lia.
  rewrite Henc. cbv [negb]. cbv iota.
  unfold br_ssl_engine_closed. rewrite bool_decide_false by (eng_simpl; destruct Hmd; congruence).
  match goal with |- context [recvpld_buf ?x] => set (e2 := x) end.
  assert (recvpld_buf e2 = Some (ibase e + 5, zlen bs)) as Hbuf.
  { unfold recvpld_buf. subst e2. eng_simpl. szsimp. replace (5 + zlen bs - 5) with (zlen bs) by lia.
    replace (zlen bs =? 0) with false by lia. by destruct Hmd as [-> | ->]. }
  rewrite Hbuf. replace (record_type_in e2) with 23 by done. replace (application_data e2) with 1 by done.
  exists e2. split; [done|].
  unfold br_ssl_engine_recvapp_buf, app_ok.
  replace (record_type_in e2) with 23 by done. replace (application_data e2) with 1 by done.
  split; [exact Hbuf|]. subst e2. eng_simpl. apply zslice_zblit_same; lia.
Qed.

(** ** Properties *)

(** C13: memory safety of every history of the engine.  From two buffers of
    legal size (shared or disjoint) and after the reset, whatever calls a
    client that respects the contract of the [_ack] functions makes, the
    engine keeps its register invariant, and each buffer it offers is a
    non-empty range inside the I/O buffer of that direction, which never
    moves. *)
Theorem engine_reachable_safe e0 ib ilen ob olen cpu0 e1 e2 :
  good_buffers e0 ib ilen ob olen -> frag_fits ilen (out_len ob ilen olen) 512 = true ->
  layout_of (br_ssl_engine_set_buffers_bidi e0 ib ilen ob olen) = lay ->
  br_ssl_engine_hs_reset (br_ssl_engine_set_buffers_bidi e0 ib ilen ob olen) cpu0 = Some e1 ->
  rtc eng_step e1 e2 -> eng_inv e2 /\ offers_inside e2.
Proof.
  intros Hgood Hfit Hlay Hreset Hsteps.
  pose proof (reset_inv _ _ _ _ _ _ _ Hgood Hfit Hlay Hreset) as Hinv.
  pose proof (eng_steps_inv _ _ Hinv Hsteps). auto using eng_inv_offers.
Qed.

(** C14: every public operation returns.  In an engine that satisfies the
    invariant, a call that respects the contract never exhausts the two
    rounds given to [jump_handshake]: it yields an engine, again in the
    invariant. *)
Theorem engine_operations_total e : eng_inv e ->
  (forall p n bs, br_ssl_engine_recvrec_buf e = Some (p, n) -> Forall is_u8 bs -> 0 < zlen bs <= n ->
     exists e', br_ssl_engine_recvrec_ack (e <| mem := zblit (mem e) p bs |>) (zlen bs) = Some e' /\ eng_inv e') /\
  (forall p n k, br_ssl_engine_sendrec_buf e = Some (p, n) -> 0 < k <= n ->
     exists e', br_ssl_engine_sendrec_ack e k = Some e' /\ eng_inv e') /\
  (exists e', br_ssl_engine_close e = Some e' /\ eng_inv e') /\
  (exists e' b, br_ssl_engine_renegotiate e = Some (e', b) /\ eng_inv e').
Proof.
  intros Hinv. split; [|split; [|split]].
  - intros; by eapply recvrec_ack_public.
  - intros; by eapply sendrec_ack_public.
  - by apply close_public.
  - by apply renegotiate_public.
Qed.

(** C15: the state word.  [CLOSED] is set exactly when the engine has failed or
    finished, and then alone; [SENDREC] excludes [SENDAPP] and [RECVREC]
    excludes [RECVAPP]; and an engine that is open in both directions is never
    stuck: it has bytes to send or room to gather some, and payload to read or
    room for incoming bytes. *)
Theorem engine_state_word e : eng_inv e ->
  let s := br_ssl_engine_current_state e in
  (has_flag s BR_SSL_CLOSED = true <-> s = BR_SSL_CLOSED) /\
  (s = BR_SSL_CLOSED <-> iomode e = BR_IO_FAILED) /\
  has_flag s BR_SSL_SENDREC && has_flag s BR_SSL_SENDAPP = false /\
  has_flag s BR_SSL_RECVREC && has_flag s BR_SSL_RECVAPP = false /\
  (iomode e = BR_IO_INOUT -> shutdown_recv e = false ->
     has_flag s BR_SSL_SENDREC || opened (sendpld_buf e) = true /\
     has_flag s BR_SSL_RECVREC || opened (recvpld_buf e) = true).
Proof.
  intros Hinv s. destruct (br_ssl_engine_closed e) eqn:Hc.
  { subst s. unfold br_ssl_engine_current_state. rewrite Hc. apply bool_decide_eq_true in Hc.
    do 4 (split; [done|]). congruence. }
  destruct (state_flags e Hc) as (F0 & F1 & F2 & F3 & F4). fold s in F0, F1, F2, F3, F4.
  apply bool_decide_eq_false in Hc.
  assert (s <> BR_SSL_CLOSED) as Hs by (intros E; rewrite E in F0; done).
  rewrite F0, F1, F2, F3, F4. split; [done|split; [done|]].
  unfold br_ssl_engine_sendapp_buf, br_ssl_engine_recvapp_buf.
  split; [|split].
  - destruct (app_ok e); [|by rewrite andb_false_r]. destruct (decide (iomode e = BR_IO_IN)) as [Hi|Hi].
    + unfold sendrec_buf. by rewrite Hi.
    + rewrite (output_exclusive e) by done. by destruct (opened (sendpld_buf e)).
  - destruct (_ || _); [by rewrite andb_false_r|]. destruct (shutdown_recv e) eqn:Hsh.
    { unfold recvrec_buf. by rewrite Hsh. }
    destruct (decide (iomode e = BR_IO_OUT)) as [Hi|Hi].
    + unfold recvrec_buf. by rewrite Hsh, Hi.
    + rewrite (input_exclusive e) by done. by destruct (opened (recvpld_buf e)).
  - intros Hio Hsh. rewrite (output_exclusive e), (input_exclusive e) by (done || by rewrite Hio).
    by destruct (opened (sendpld_buf e)), (opened (recvpld_buf e)).
Qed.

(** C16: [br_ssl_engine_set_buffers_bidi] on well-formed buffers fails with
    [BR_ERR_BAD_PARAM] exactly when a 512 byte record does not fit both
    directions; otherwise the engine is live in both directions, without
    error, and its record size is the largest of the RFC 6066 lengths (and
    16384) for which both buffers leave room for the overhead. *)
Theorem set_buffers_largest_fragment e ib ilen ob olen :
  good_buffers e ib ilen ob olen ->
  let e' := br_ssl_engine_set_buffers_bidi e ib ilen ob olen in
  let olen' := out_len ob ilen olen in
  if frag_fits ilen olen' 512 then
    Engine.eng_live (layout_of e') e' /\ iomode e' = BR_IO_INOUT /\ err e' = BR_ERR_OK /\
    max_frag_len e' ∈ frag_lens /\ frag_fits ilen olen' (max_frag_len e') = true /\
    (forall f, f ∈ frag_lens -> frag_fits ilen olen' f = true -> f <= max_frag_len e')
  else iomode e' = BR_IO_FAILED /\ err e' = BR_ERR_BAD_PARAM.
Proof.
  intros Hgood. pose proof (set_buffers_bidi_spec e ib ilen ob olen Hgood) as H.
  cbv zeta in *. case_match; [|done]. tauto.
Qed.

(** end to end through two engines without record protection.  Bytes
    written to the sender's [sendapp] buffer and flushed are on offer to the
    transport as one application data record; feeding that record to a receiver
    that awaits one puts the same bytes in its [recvapp] buffer. *)
Theorem application_data_crosses e r p n bs :
  eng_live e -> rout e = OutClear -> oxa e = 5 -> oxc e = 5 -> application_data e = 1 ->
  record_type_out e = BR_SSL_APPLICATION_DATA ->
  br_ssl_engine_sendapp_buf e = Some (p, n) -> Forall is_u8 bs -> 0 < zlen bs <= n ->
  zlen bs <= 16384 -> awaiting_record r (version_out e) -> 5 + zlen bs <= ibuf_len r ->
  exists e' q wire r1 r2,
    br_ssl_engine_flush
      (br_ssl_engine_sendapp_ack (e <| mem := zblit (mem e) p bs |>) (zlen bs)) false = e' /\
    br_ssl_engine_sendrec_buf e' = Some (q, zlen wire) /\ zslice (mem e') q (zlen wire) = wire /\
    br_ssl_engine_recvrec_ack (r <| mem := zblit (mem r) (ibase r) (ztake 5 wire) |>) 5 = Some r1 /\
    br_ssl_engine_recvrec_buf r1 = Some (ibase r + 5, zlen (zdrop 5 wire)) /\
    br_ssl_engine_recvrec_ack (r1 <| mem := zblit (mem r1) (ibase r + 5) (zdrop 5 wire) |>)
      (zlen (zdrop 5 wire)) = Some r2 /\
    br_ssl_engine_recvapp_buf r2 = Some (ibase r + 5, zlen bs) /\
    zslice (mem r2) (ibase r + 5) (zlen bs) = bs.
Proof.
  intros Hl Ho Hx Hc Happ Ht Hbuf Hbs Hn H16 Hr Hfit.
  destruct (app_record_assembled e p n bs) as (Hsr & Hw); try done.
  set (e' := br_ssl_engine_flush _ _) in *. rewrite Ht in Hw.
  set (wire := record_header BR_SSL_APPLICATION_DATA (version_out e) (zlen bs) ++ bs) in Hw.
  assert (zlen wire = zlen bs + 5) as Lw by (unfold wire; rewrite zlen_app; simpl length; lia).
  assert (ztake 5 wire = record_header 23 (version_out e) (zlen bs)) as E1.
  { unfold wire. rewrite ztake_app_le by (simpl length; lia). by apply ztake_ge. }
  assert (zdrop 5 wire = bs) as E2.
  { unfold wire. rewrite zdrop_app_ge by (simpl length; lia). apply zdrop_0. }
  destruct (header_accepted r (version_out e) (zlen bs) Hr) as
    (r1 & Hr1 & Hl1 & Hm1 & Hs1 & He1 & Ha1 & Hb1 & Hc1 & Hp1 & Ht1 & Hi1 & Hil1); [lia|].
  destruct (body_delivered r1 bs) as (Hrb & r2 & Hr2 & Happ2 & Hd2); try done; try lia.
  rewrite Hi1 in *.
  exists e', (obase e), wire, r1, r2. rewrite E1, E2, Lw. done.
Qed.
End spec.

(** ** Witnesses *)

Section witnesses.
Import Established.

(** Buffers set, handshake run: an engine ready for application data. *)
Definition session : engine unit unit unit :=
  default (fresh 4096)
    (br_ssl_engine_hs_reset
       (br_ssl_engine_set_buffers_bidi (fresh 4096) (Some 0) 2048 (Some 2048) 2048) tt).

Lemma session_ready :
  br_ssl_engine_hs_reset
    (br_ssl_engine_set_buffers_bidi (fresh 4096) (Some 0) 2048 (Some 2048) 2048) tt
  = Some session.
Proof.
  unfold session.
  assert (forall o : option (engine unit unit unit), bool_decide (is_Some o) = true ->
            o = Some (default (fresh 4096) o)) as H.
  { intros o Ho. apply bool_decide_eq_true in Ho as [x ->]. done. }
  apply H. vm_compute. reflexivity.
Qed.

Lemma fresh_buffers : good_buffers (fresh 4096) (Some 0) 2048 (Some 2048) 2048.
Proof.
  split; [apply Forall_zeros|]. assert (zlen (mem (fresh 4096)) = 4096) as -> by done.
  split; [done|]. exists 0. do 3 (split; [done|]). split; [lia|]. right. exists 2048.
  split; [done|lia].
Qed.

(** Where the two halves of the arena are. *)
Definition session_layout : layout := (4096, Some 0, Some 2048, 2048, 2048).

Lemma session_inv : eng_inv session_layout session.
Proof.
  exact (reset_inv (lay := session_layout) (fresh 4096) (Some 0) 2048 (Some 2048) 2048 tt session
           fresh_buffers eq_refl eq_refl session_ready).
Qed.
Lemma session_mode : iomode session = BR_IO_INOUT.
Proof. vm_compute. reflexivity. Qed.
Lemma session_live : eng_live session_layout session.
Proof.
  apply (eng_inv_live session session_inv). rewrite session_mode. discriminate.
Qed.

Lemma engine_reachable_safe_witness :
  eng_inv session_layout (br_ssl_engine_flush session true) /\
  offers_inside (br_ssl_engine_flush session true).
Proof.
  apply (engine_reachable_safe (fresh 4096) (Some 0) 2048 (Some 2048) 2048 tt session).
  - exact fresh_buffers.
  - reflexivity.
  - reflexivity.
  - exact session_ready.
  - apply rtc_once, step_flush.
Defined.

Lemma engine_operations_total_witness :
  exists e', br_ssl_engine_close session = Some e' /\ eng_inv session_layout e'.
Proof. apply (engine_operations_total session session_inv). Defined.

Lemma engine_state_word_witness :
  br_ssl_engine_current_state session = Z.lor BR_SSL_RECVREC BR_SSL_SENDAPP /\
  has_flag (br_ssl_engine_current_state session) BR_SSL_SENDREC
    || opened (sendpld_buf session) = true.
Proof.
  split; [vm_compute; done|].
  apply (engine_state_word session session_inv); vm_compute; done.
Defined.

Lemma set_buffers_largest_fragment_witness :
  max_frag_len (br_ssl_engine_set_buffers_bidi (fresh 4096) (Some 0) 2048 (Some 2048) 2048) = 1024
  /\ iomode (br_ssl_engine_set_buffers_bidi (fresh 4096) (Some 0) 2048 (Some 2048) 2048) = BR_IO_INOUT.
Proof.
  split; [vm_compute; done|].
  apply (set_buffers_largest_fragment (fresh 4096) (Some 0) 2048 (Some 2048) 2048 fresh_buffers).
Defined.

Lemma application_data_crosses_witness :
  exists e' q wire r1 r2,
    br_ssl_engine_flush
      (br_ssl_engine_sendapp_ack (session <| mem := zblit (mem session) 2053 [1; 2; 3] |>) 3) false = e' /\
    br_ssl_engine_sendrec_buf e' = Some (q, zlen wire) /\ zslice (mem e') q (zlen wire) = wire /\
    br_ssl_engine_recvrec_ack (session <| mem := zblit (mem session) 0 (ztake 5 wire) |>) 5 = Some r1 /\
    br_ssl_engine_recvrec_buf r1 = Some (5, zlen (zdrop 5 wire)) /\
    br_ssl_engine_recvrec_ack (r1 <| mem := zblit (mem r1) 5 (zdrop 5 wire) |>)
      (zlen (zdrop 5 wire)) = Some r2 /\
    br_ssl_engine_recvapp_buf r2 = Some (5, 3) /\ zslice (mem r2) 5 3 = [1; 2; 3].
Proof.
  apply (application_data_crosses (lay := session_layout) session session 2053 1024 [1; 2; 3]).
  - exact session_live.
  - vm_compute; done.
  - vm_compute; done.
  - vm_compute; done.
  - vm_compute; done.
  - vm_compute; done.
  - vm_compute; done.
  - by apply bytes_dec.
  - vm_compute; done.
  - vm_compute; done.
  - split; [exact session_live|]. split; [right; vm_compute; done|].
    do 5 (split; [vm_compute; done|]). split; [done|]. split; [done|]. left. vm_compute; done.
  - vm_compute; done.
Defined.
End witnesses.
