(* ===== verification/TlsServer.v ===== *)
(** * TlsServer: the multi-client TLS server of [tls_wrapper_v3.c]

    The array [g_clients] is a list of 64 records, each with its own engine and
    its JSON buffers; a pointer to a client is an index.  The callbacks of the
    application are programs that may call [tlsv2_send_json] back, so they act on
    the same store.  Loops take fuel; the theorems bound what they need. *)
From S2P Require Import Prelude.
From S2P Require Import Words.
From S2P Require Import Effects.
From S2P Require Import JsonFrame.
From S2P Require Import Engine.

Definition TLSV2_MAX_CLIENTS : nat := 64.
Definition TLSV2_IOBUF_SIZE : Z := 16 * 1024.
Definition TLSV2_PLAINTEXT_SIZE : Z := 70 * 1024.
Definition GFNS_INVALID_SOCK : Z := -1.

Inductive tlsv2_client_state_t :=
  TLSV2_STATE_UNUSED | TLSV2_STATE_HANDSHAKE | TLSV2_STATE_OPEN | TLSV2_STATE_CLOSING.
#[export] Instance client_state_eq_dec : EqDecision tlsv2_client_state_t.
Proof. solve_decision. Defined.

(** [tlsv2_client_t].  [iobuf] and [plainbuf] are the engine's memory [mem eng]:
    [iobuf] is its first [TLSV2_IOBUF_SIZE] bytes. *)
Record client {RI RO HS CERTS KEY : Type} : Type := Client {
  fd : Z;
  eng : engine RI RO HS;
  certs : option CERTS;
  skey : option KEY;
  state : tlsv2_client_state_t;
  in_buf : list Z; in_used : Z; expected_len : Z;
  out_buf : list Z; out_used : Z; out_sent : Z }.
Arguments client : clear implicits.
Arguments Client {RI RO HS CERTS KEY}.

#[export] Instance eta_client {RI RO HS C K} : Eta (client RI RO HS C K) := fun c =>
  Client (fd c) (eng c) (certs c) (skey c) (state c) (in_buf c) (in_used c) (expected_len c)
    (out_buf c) (out_used c) (out_sent c).

(** A callback: it ends in a new world, or calls [tlsv2_send_json(id, json)] and
    goes on with its result. *)
Inductive prog (W : Type) : Type :=
| Ret (w : W)
| SendJson (w : W) (id : Z) (json : list Z) (k : Z -> prog W).
Arguments Ret {W} w.
Arguments SendJson {W} w id json k.

(** [tlsv2_server_config_t]; a null function pointer is [None]. *)
Record tlsv2_server_config_t {W : Type} : Type := Config {
  on_client_connected : option (W -> Z -> prog W);
  on_client_disconnected : option (W -> Z -> prog W);
  on_json_received : option (W -> Z -> list Z -> prog W) }.
Arguments tlsv2_server_config_t : clear implicits.
Arguments Config {W}.

(** The globals that change while the server runs, and the world. *)
Record srv {C W : Type} : Type := Srv { g_clients : list C; world : W }.
Arguments srv : clear implicits.
Arguments Srv {C W}.
#[export] Instance eta_srv {C W} : Eta (srv C W) := fun s => Srv (g_clients s) (world s).

Section session.
Context {RI RO HS : Type} `{!RecordIn RI} `{!RecordOut RO} `{!Handshake RI RO HS}.
Context {W : Type} `{!OS W}.
Notation eng_t := (engine RI RO HS).

(** A zeroed engine context, whose buffers lie in [arena]; [rin0] is a zeroed
    input protection context, [hs] the configuration the handshake code reads
    (suites, keys, implementations). *)
Definition engine_zero (arena : list Z) (rin0 : RI) (hs : HS) : eng_t :=
  Engine arena 0 None None 0 0 0 0 0 0 0 0 0 0 0 BR_IO_FAILED false false
    0 0 0 0 rin0 OutClear 0 0 0 hs None None None 0 0 0 0.

Definition BR_ERR_NO_RANDOM : Z := 8.

(** [br_ssl_engine_init_rand] on a context that was zeroed and never reset
    ([rng_init_done] and [rng_os_rand_done] are 0) and that has SHA-256. *)
Definition br_ssl_engine_init_rand (w : W) (e : eng_t) : W * eng_t * bool :=
  let '(w, ok) := sys_seed w in
  if ok then (w, e, true) else (w, br_ssl_engine_fail e BR_ERR_NO_RANDOM, false).

(** [br_ssl_server_reset]; [init_main] sets the coroutine to its entry point. *)
Definition br_ssl_server_reset (init_main : HS -> HS) (w : W) (e : eng_t) : W * option eng_t :=
  let e := br_ssl_engine_set_buffer e None 0 false in
  let '(w, e, ok) := br_ssl_engine_init_rand w e in
  if negb ok then (w, Some e)
  else
    let e := e <| reneg := 0 |> in
    (w, br_ssl_engine_hs_reset e (init_main (cpu e))).
End session.

(** [tls_low_read] and [tls_low_write]: -1 for an error and for the end of file;
    the bytes read come with the count. *)
Definition tls_low_read {W} `{!OS W} (w : W) (s : Z) (len : Z) : W * Z * list Z :=
  let '(w, r) := sys_read w s len in
  match r with
  | Some bs => if zlen bs <=? 0 then (w, -1, []) else (w, zlen bs, bs)
  | None => (w, -1, [])
  end.
Definition tls_low_write {W} `{!OS W} (w : W) (s : Z) (buf : list Z) : W * Z :=
  let '(w, r) := sys_write w s buf in if r <=? 0 then (w, -1) else (w, r).

Section server.
Context {RI RO HS : Type} `{!RecordIn RI} `{!RecordOut RO} `{!Handshake RI RO HS}.
Context {W : Type} `{!OS W} {CERTS KEY : Type}.
(** A zeroed input protection context; what [br_ssl_server_init_full_rsa] stores
    for the handshake code; the entry point of the server coroutine. *)
Context (rin0 : RI) (server_init_full_rsa : CERTS -> KEY -> HS) (init_main : HS -> HS).
(** [g_cfg] and [g_listen_fd], set before the loop starts. *)
Context (g_cfg : tlsv2_server_config_t W) (g_listen_fd : Z).
(** Fuel of each loop. *)
Context (fuel : nat).
Notation client := (client RI RO HS CERTS KEY).
Notation srv := (srv client W).
Implicit Types (c : client) (s : srv).

Definition has (st flag : Z) : bool := negb (Z.land st flag =? 0).

Definition get_client (i : nat) : M srv client := fun s =>
  match g_clients s !! i with Some c => Some (c, s) | None => None end.
Definition upd_client (i : nat) (f : client -> client) : M srv unit :=
  mset (fun s => s <| g_clients := alter f i (g_clients s) |>).
(** A call of the operating system. *)
Definition sys {A} (f : W -> W * A) : M srv A := fun s =>
  let '(w, a) := f (world s) in Some (a, s <| world := w |>).
Definition gfns_would_block : M srv bool := fun s => Some (would_block (world s), s).

Definition is_unused c : bool := bool_decide (state c = TLSV2_STATE_UNUSED).

(** The first index, from [i] on, whose client satisfies [p]. *)
Fixpoint find_from (p : client -> bool) (i : nat) (l : list client) : option nat :=
  match l with
  | [] => None
  | c :: l => if p c then Some i else find_from p (S i) l
  end.
Definition find_client (p : client -> bool) : M srv (option nat) := fun s =>
  Some (find_from p 0 (g_clients s), s).

Definition tlsv2_clients_init : M srv unit :=
  mset (fun s => s <| g_clients := map (fun c => c <| fd := GFNS_INVALID_SOCK |>
    <| state := TLSV2_STATE_UNUSED |> <| in_used := 0 |> <| expected_len := 0 |>
    <| out_used := 0 |> <| out_sent := 0 |> <| certs := None |>) (g_clients s) |>).

Definition tlsv2_send_json (client_id : Z) (json : list Z) : M srv Z :=
  let len := zlen json in
  if TLSV2_MAX_JSON_SIZE <? len then mret' (-1)
  else
    let! o := find_client (fun c => negb (is_unused c) && (fd c =? client_id)) in
    match o with
    | None => mret' (-1)
    | Some i =>
        let! c := get_client i in
        if negb (out_used c =? out_sent c) then mret' (-2)
        else
          let nlen := htonl (u32 len) in
          let! b := mlift (write_at (out_buf c) 0 (br_enc32le nlen)) in
          let! b := mlift (write_at b 4 json) in
          upd_client i (fun c => c <| out_buf := b |> <| out_used := 4 + len |> <| out_sent := 0 |>) ;;!
          mret' 0
    end.

(** Running a callback of the application. *)
Fixpoint run_prog (p : prog W) : M srv unit :=
  match p with
  | Ret w => mset (fun s => s <| world := w |>)
  | SendJson w id json k =>
      mset (fun s => s <| world := w |>) ;;!
      let! r := tlsv2_send_json id json in
      run_prog (k r)
  end.
Definition callback (o : option (W -> prog W)) : M srv unit :=
  match o with
  | None => mret' tt
  | Some f => let! s := mget in run_prog (f (world s))
  end.
Definition on_client_connected' (id : Z) : M srv unit :=
  callback ((fun f w => f w id) <$> on_client_connected g_cfg).
Definition on_client_disconnected' (id : Z) : M srv unit :=
  callback ((fun f w => f w id) <$> on_client_disconnected g_cfg).
Definition on_json_received' (id : Z) (json : list Z) : M srv unit :=
  callback ((fun f w => f w id json) <$> on_json_received g_cfg).

Definition tlsv2_client_alloc (new_fd : Z) (cs : CERTS) (sk : KEY) : M srv (option nat) :=
  let! o := find_client is_unused in
  match o with
  | None => mret' None
  | Some i =>
      upd_client i (fun c => c <| fd := new_fd |> <| state := TLSV2_STATE_HANDSHAKE |>
        <| certs := Some cs |> <| skey := Some sk |> <| in_used := 0 |> <| expected_len := 0 |>
        <| out_used := 0 |> <| out_sent := 0 |>) ;;!
      let! c := get_client i in
      let e := engine_zero (mem (eng c)) rin0 (server_init_full_rsa cs sk) in
      let e := br_ssl_engine_set_buffers_bidi e (Some 0) TLSV2_IOBUF_SIZE
                 (Some TLSV2_IOBUF_SIZE) TLSV2_PLAINTEXT_SIZE in
      let! oe := sys (fun w => br_ssl_server_reset init_main w e) in
      let! e := mlift oe in
      upd_client i (fun c => c <| eng := e |>) ;;!
      mret' (Some i)
  end.

Definition tlsv2_client_close (i : nat) : M srv unit :=
  let! c := get_client i in
  if is_unused c then mret' tt
  else
    let f := fd c in
    (if negb (f =? GFNS_INVALID_SOCK) then sys (fun w => (sys_close w f, tt)) else mret' tt) ;;!
    upd_client i (fun c => c <| fd := GFNS_INVALID_SOCK |> <| state := TLSV2_STATE_UNUSED |>) ;;!
    if negb (f =? GFNS_INVALID_SOCK) then on_client_disconnected' f else mret' tt.

Definition tlsv2_accept_new_client (cs : CERTS) (sk : KEY) : M srv unit :=
  mloop fuel (
    let! client_fd := sys (fun w => sys_accept w g_listen_fd) in
    match client_fd with
    | None => mret' (Some tt)
    | Some client_fd =>
        let! ok := sys (fun w => sys_nonblocking w client_fd) in
        if negb ok then sys (fun w => (sys_close w client_fd, tt)) ;;! mret' None
        else
          let! slot := tlsv2_client_alloc client_fd cs sk in
          match slot with
          | None => sys (fun w => (sys_close w client_fd, tt)) ;;! mret' None
          | Some _ => on_client_connected' client_fd ;;! mret' None
          end
    end).

Definition tlsv2_engine_recv (i : nat) : M srv Z :=
  mloop fuel (
    let! c := get_client i in
    let st := br_ssl_engine_current_state (eng c) in
    if negb (has st BR_SSL_RECVREC) then mret' (Some 0)
    else match br_ssl_engine_recvrec_buf (eng c) with
    | None => mret' (Some 0)
    | Some (p, len) =>
        let! rb := sys (fun w => let '(w, r, bs) := tls_low_read w (fd c) len in (w, (r, bs))) in
        let '(r, bs) := rb in
        if 0 <? r then
          let! m := mlift (write_at (mem (eng c)) p bs) in
          let! e := mlift (br_ssl_engine_recvrec_ack ((eng c) <| mem := m |>) r) in
          upd_client i (fun c => c <| eng := e |>) ;;! mret' None
        else
          let! wb := gfns_would_block in
          mret' (Some (if wb then 0 else -1))
    end).

Definition tlsv2_engine_send (i : nat) : M srv Z :=
  mloop fuel (
    let! c := get_client i in
    let st := br_ssl_engine_current_state (eng c) in
    if negb (has st BR_SSL_SENDREC) then mret' (Some 0)
    else match br_ssl_engine_sendrec_buf (eng c) with
    | None => mret' (Some 0)
    | Some (p, len) =>
        let! bs := mlift (read_at (mem (eng c)) p len) in
        let! r := sys (fun w => tls_low_write w (fd c) bs) in
        if 0 <? r then
          let! e := mlift (br_ssl_engine_sendrec_ack (eng c) r) in
          upd_client i (fun c => c <| eng := e |>) ;;! mret' None
        else
          let! wb := gfns_would_block in
          mret' (Some (if wb then 0 else -1))
    end).

(** The inner loop of [tlsv2_engine_read_plain]: [Some (Some r)] returns [r] from
    the function, [Some None] breaks out of the loop, [None] goes round. *)
Definition json_loop_body (i : nat) : M srv (option (option Z)) :=
  let! c := get_client i in
  let! go :=
    (if expected_len c =? 0 then
       if 4 <=? in_used c then
         let! b := mlift (read_at (in_buf c) 0 4) in
         let n := ntohl (br_dec32le b) in
         upd_client i (fun c => c <| expected_len := n |>) ;;!
         mret' (if TLSV2_MAX_JSON_SIZE <? n then Some (Some (-1)) else None)
       else mret' (Some None)
     else mret' None) in
  match go with
  | Some r => mret' (Some r)
  | None =>
      let! c := get_client i in
      if (0 <? expected_len c) && (u32 (4 + expected_len c) <=? in_used c) then
        let json_len := expected_len c in
        let! ok := sys (fun w => sys_malloc w (json_len + 1)) in
        if negb ok then mret' (Some (Some (-1)))
        else
          let! json := mlift (read_at (in_buf c) 4 json_len) in
          let rem := in_used c - (4 + json_len) in
          let! tail := mlift (read_at (in_buf c) (4 + json_len) rem) in
          let! b := mlift (write_at (in_buf c) 0 tail) in
          upd_client i (fun c => c <| in_buf := b |> <| in_used := rem |> <| expected_len := 0 |>) ;;!
          on_json_received' (fd c) json ;;!
          mret' None
      else mret' (Some None)
  end.
Definition json_loop (i : nat) : M srv (option Z) := mloop fuel (json_loop_body i).

Definition tlsv2_engine_read_plain (i : nat) : M srv Z :=
  mloop fuel (
    let! c := get_client i in
    let st := br_ssl_engine_current_state (eng c) in
    if negb (has st BR_SSL_RECVAPP) then mret' (Some 0)
    else match br_ssl_engine_recvapp_buf (eng c) with
    | None => mret' (Some 0)
    | Some (p, len) =>
        if TLSV2_MAX_JSON_SIZE + 4 <? in_used c +! len then mret' (Some (-1))
        else
          let! bs := mlift (read_at (mem (eng c)) p len) in
          let! b := mlift (write_at (in_buf c) (in_used c) bs) in
          upd_client i (fun c => c <| in_buf := b |> <| in_used := in_used c +! len |>
            <| eng := br_ssl_engine_recvapp_ack (eng c) len |>) ;;!
          json_loop i
    end).

Definition tlsv2_engine_write_plain (i : nat) : M srv Z :=
  let! c := get_client i in
  if out_used c <=? out_sent c then mret' 0
  else
    mloop fuel (
      let! c := get_client i in
      let st := br_ssl_engine_current_state (eng c) in
      if negb (has st BR_SSL_SENDAPP) then mret' (Some 0)
      else match br_ssl_engine_sendapp_buf (eng c) with
      | None => mret' (Some 0)
      | Some (p, len) =>
          let to_copy := out_used c -! out_sent c in
          let to_copy := if len <? to_copy then len else to_copy in
          let! bs := mlift (read_at (out_buf c) (out_sent c) to_copy) in
          let! m := mlift (write_at (mem (eng c)) p bs) in
          upd_client i (fun c => c <| out_sent := out_sent c +! to_copy |>
            <| eng := br_ssl_engine_sendapp_ack ((eng c) <| mem := m |>) to_copy |>) ;;!
          let! c := get_client i in
          if out_used c <=? out_sent c then
            upd_client i (fun c => c <| out_used := 0 |> <| out_sent := 0 |>) ;;! mret' (Some 1)
          else mret' None
      end).

Definition tlsv2_handle_client (i : nat) : M srv unit :=
  let! c := get_client i in
  if is_unused c then mret' tt
  else
    let! r := tlsv2_engine_recv i in
    let! r := (if r <? 0 then mret' r else tlsv2_engine_send i) in
    if r <? 0 then tlsv2_client_close i
    else
      let! c := get_client i in
      let st := br_ssl_engine_current_state (eng c) in
      if bool_decide (state c = TLSV2_STATE_HANDSHAKE) && has st BR_SSL_CLOSED
      then tlsv2_client_close i
      else
        (if bool_decide (state c = TLSV2_STATE_HANDSHAKE) && has st BR_SSL_SENDAPP
         then upd_client i (fun c => c <| state := TLSV2_STATE_OPEN |>) else mret' tt) ;;!
        let! c := get_client i in
        let! r := (if bool_decide (state c = TLSV2_STATE_OPEN) then
                     let! r := tlsv2_engine_read_plain i in
                     if r <? 0 then mret' r else tlsv2_engine_write_plain i
                   else mret' 0) in
        if r <? 0 then tlsv2_client_close i
        else
          let! r := tlsv2_engine_send i in
          if r <? 0 then tlsv2_client_close i else mret' tt.

(** An [fd_set] is the list of its members; [FD_SET] and [FD_ISSET] access memory
    outside of it for other descriptors than those below [FD_SETSIZE]. *)
Definition fd_in_set (f : Z) : bool := (0 <=? f) && (f <? FD_SETSIZE).
Definition fd_set_add (f : Z) (set : list Z) : option (list Z) := if fd_in_set f then Some (set ++ [f]) else None.
Definition fd_isset (f : Z) (set : list Z) : option bool := if fd_in_set f then Some (bool_decide (f ∈ set)) else None.
(** The loop that fills the two sets. *)
Fixpoint fd_sets (cl : list client) (rw : list Z * list Z) : option (list Z * list Z) :=
  match cl with
  | [] => Some rw
  | c :: cl =>
      if is_unused c then fd_sets cl rw
      else
        readfds ← fd_set_add (fd c) rw.1;
        writefds ← fd_set_add (fd c) rw.2;
        fd_sets cl (readfds, writefds)
  end.

(** One turn of the [select] loop of [tlsv2_server_run]. *)
Definition server_turn (cs : CERTS) (sk : KEY) : M srv unit :=
  let! s := mget in
  let! readfds := mlift (fd_set_add g_listen_fd []) in
  let! rw := mlift (fd_sets (g_clients s) (readfds, [])) in
  let! ret := sys (fun w => sys_select w rw.1 rw.2) in
  match ret with
  | None => mret' tt
  | Some (readfds, writefds) =>
      let! l := mlift (fd_isset g_listen_fd readfds) in
      (if l then tlsv2_accept_new_client cs sk else mret' tt) ;;!
      mfor (seq 0 TLSV2_MAX_CLIENTS) (fun i =>
        let! c := get_client i in
        if is_unused c then mret' tt
        else
          let! r := mlift (fd_isset (fd c) readfds) in
          let! w := (if r then mret' true else mlift (fd_isset (fd c) writefds)) in
          if w then tlsv2_handle_client i else mret' tt)
  end.
End server.
