(* ===== verification/TlsServerSpec.v ===== *)
(** * TlsServerSpec: the server of [tls_wrapper_v3.c] is correct

    The store invariant [srv_inv], its preservation by every operation with the
    fuel that makes each loop end, and the functional behaviour: framing of the
    incoming JSON, contents of the outgoing buffer, and what happens to a client
    in each state. *)
From S2P Require Import Prelude.
From S2P Require Import Words.
From S2P Require Import Effects.
From S2P Require Import JsonFrame.
From S2P Require Import Engine.
From S2P Require Import EngineSpec.
From S2P Require Import TlsServer.

Definition client_layout : layout :=
  (TLSV2_IOBUF_SIZE + TLSV2_PLAINTEXT_SIZE, Some 0, Some TLSV2_IOBUF_SIZE,
   TLSV2_IOBUF_SIZE, TLSV2_PLAINTEXT_SIZE).

(** Size of [in_buf] and [out_buf]. *)
Definition JSON_BUF_SIZE : Z := TLSV2_MAX_JSON_SIZE + 4.

Section server_spec.
Context {RI RO HS : Type} `{!RecordIn RI} `{!RecordOut RO} `{!Handshake RI RO HS}.
Context `{!RecordInLaws RI} `{!RecordOutLaws RO} `{!HandshakeLaws RI RO HS}.
Context {W : Type} `{!OS W} (budget : W -> nat) `{!OSLaws W budget} {CERTS KEY : Type}.
Context (rin0 : RI) (server_init_full_rsa : CERTS -> KEY -> HS) (init_main : HS -> HS).
Context (g_cfg : tlsv2_server_config_t W) (g_listen_fd : Z) (fuel : nat).
Notation client := (client RI RO HS CERTS KEY).
Notation srv := (srv client W).
Implicit Types (c : client) (s : srv).

(** *** Invariant *)

(** The arrays of a client and the indices into them. *)
Definition cl_mem c : Prop :=
  zlen (mem (eng c)) = TLSV2_IOBUF_SIZE + TLSV2_PLAINTEXT_SIZE /\ Forall is_u8 (mem (eng c)) /\
  zlen (in_buf c) = JSON_BUF_SIZE /\ Forall is_u8 (in_buf c) /\
  zlen (out_buf c) = JSON_BUF_SIZE /\ Forall is_u8 (out_buf c) /\
  0 <= in_used c <= JSON_BUF_SIZE /\ 0 <= out_sent c <= out_used c /\ out_used c <= JSON_BUF_SIZE.

(** A length that was read is the one in the buffer. *)
Definition exp_ok c : Prop :=
  expected_len c = 0 \/
  (4 <= in_used c /\ expected_len c = br_dec32be (in_buf c) /\
   0 < expected_len c <= TLSV2_MAX_JSON_SIZE).

Definition used c : Prop := state c <> TLSV2_STATE_UNUSED.

(** [ex] is a client about to be closed, whose [expected_len] may be illegal. *)
Definition cl_ok (ex : bool) c : Prop :=
  cl_mem c /\ (used c -> eng_inv client_layout (eng c) /\ 0 <= fd c /\ (ex = false -> exp_ok c)).

Definition srv_inv (ex : option nat) s : Prop :=
  length (g_clients s) = TLSV2_MAX_CLIENTS /\
  forall i c, g_clients s !! i = Some c -> cl_ok (bool_decide (ex = Some i)) c.

(** Descriptors and states, and engines, of all clients. *)
Definition fds s : list (Z * tlsv2_client_state_t) := map (fun c => (fd c, state c)) (g_clients s).
Definition engs s : list (engine RI RO HS) := map eng (g_clients s).

Definition ok (ex : option nat) (F : list (Z * tlsv2_client_state_t)) (b : nat) s : Prop :=
  srv_inv ex s /\ fds s = F /\ (budget (world s) <= b)%nat.

(** A callback sends bytes, and does not give the sockets more to do. *)
Fixpoint prog_ok (b : nat) (p : prog W) : Prop :=
  match p with
  | Ret w => (budget w <= b)%nat
  | SendJson w _ json k => (budget w <= b)%nat /\ Forall is_u8 json /\ forall r, prog_ok b (k r)
  end.
Definition config_ok : Prop :=
  (forall f, on_client_connected g_cfg = Some f -> forall w id, prog_ok (budget w) (f w id)) /\
  (forall f, on_client_disconnected g_cfg = Some f -> forall w id, prog_ok (budget w) (f w id)) /\
  (forall f, on_json_received g_cfg = Some f -> forall w id json,
     Forall is_u8 json -> prog_ok (budget w) (f w id json)).

(** *** Updating one client *)

Lemma prog_ok_mono b b' p : (b <= b')%nat -> prog_ok b p -> prog_ok b' p.
Proof.
  intros Hb. induction p as [w|w id json k IH]; simpl; [lia|].
  intros (? & ? & ?). repeat split; [lia|done|auto].
Qed.

Lemma ok_budget ex F b b' s : ok ex F b s -> (b <= b')%nat -> ok ex F b' s.
Proof. intros (? & ? & ?) ?. split; [done|split; [done|lia]]. Qed.

Lemma ok_world ex F b s w : ok ex F b s -> (budget w <= b)%nat -> ok ex F b (s <| world := w |>).
Proof. intros (? & ? & ?) ?. split; [done|split; [done|done]]. Qed.

Lemma ok_client ex F b s i c : ok ex F b s -> g_clients s !! i = Some c ->
  cl_ok (bool_decide (ex = Some i)) c /\ F !! i = Some (fd c, state c).
Proof.
  intros ((_ & H) & <- & _) Hc. split; [by apply H|].
  unfold fds. by rewrite list_lookup_fmap, Hc.
Qed.

Lemma ok_lookup ex F b s i : ok ex F b s -> (i < TLSV2_MAX_CLIENTS)%nat ->
  exists c, g_clients s !! i = Some c.
Proof. intros ((H & _) & _) Hi. apply lookup_lt_is_Some. lia. Qed.

(** Changing a client without touching its descriptor or state. *)
Lemma ok_upd ex ex' F b s i f : ok ex F b s ->
  (ex' = ex \/ (ex = None /\ ex' = Some i) \/ (ex' = None /\ ex = Some i)) ->
  (forall c, g_clients s !! i = Some c ->
     cl_ok (bool_decide (ex' = Some i)) (f c) /\ fd (f c) = fd c /\ state (f c) = state c) ->
  ok ex' F b (s <| g_clients := alter f i (g_clients s) |>).
Proof.
  intros ((Hl & Hc) & HF & Hb) Hex Hf. split; [split|split; [|exact Hb]]; simpl.
  - by rewrite length_alter.
  - intros j c. destruct (decide (i = j)) as [<-|Hij].
    + rewrite list_lookup_alter, decide_True by done. destruct (g_clients s !! i) as [d|] eqn:Ed; [|simpl; congruence].
      simpl. intros [= <-]. by apply Hf.
    + rewrite list_lookup_alter_ne by done. intros E. specialize (Hc j c E).
      destruct Hc as (Hm & Hu). split; [done|]. intros Hus. destruct (Hu Hus) as (? & ? & He).
      split; [done|split; [done|]]. intros Hd. apply He. apply bool_decide_eq_false.
      apply bool_decide_eq_false in Hd. destruct Hex as [->|[(-> & ->)|(-> & ->)]]; congruence.
  - rewrite <- HF. unfold fds. cbn [setf g_clients]. simpl.
    apply list_eq. intros j. rewrite !list_lookup_fmap.
    destruct (decide (i = j)) as [<-|Hij]; [|by rewrite list_lookup_alter_ne].
    rewrite list_lookup_alter, decide_True by done. destruct (g_clients s !! i) as [d|] eqn:Ed; [|simpl; congruence].
    simpl. destruct (Hf d) as (_ & -> & ->); done.
Qed.

(** The invariant between two operations. *)
Definition live (b : nat) s : Prop := srv_inv None s /\ (budget (world s) <= b)%nat.

Lemma ok_live F b s : ok None F b s -> live b s.
Proof. intros (? & _ & ?). by split. Qed.
Lemma live_ok b s : live b s -> ok None (fds s) b s.
Proof. intros (? & ?). by split. Qed.

(** Replacing a client altogether. *)
Lemma live_upd ex F b s i f : ok ex F b s -> (ex = None \/ ex = Some i) ->
  (forall c, g_clients s !! i = Some c -> cl_ok false (f c)) ->
  live b (s <| g_clients := alter f i (g_clients s) |>).
Proof.
  intros ((Hl & Hc) & _ & Hb) Hex Hf. split; [split|exact Hb]; simpl.
  { by rewrite length_alter. }
  intros j c. destruct (decide (i = j)) as [<-|Hij].
  - rewrite list_lookup_alter, decide_True by done.
    destruct (g_clients s !! i) as [d|]; [|simpl; congruence]. simpl. intros [= <-]. by apply Hf.
  - rewrite list_lookup_alter_ne by done. intros E. specialize (Hc j c E).
    by rewrite bool_decide_false in Hc by (destruct Hex as [->| ->]; congruence).
Qed.

(** *** Rules for the primitives *)

Lemma wp_get_client i c (Q : client -> srv -> Prop) s :
  g_clients s !! i = Some c -> Q c s -> wp (get_client i) Q s.
Proof. intros E HQ. apply (wp_intro _ _ _ c s); [|done]. unfold get_client. by rewrite E. Qed.
Lemma wp_upd_client i f (Q : unit -> srv -> Prop) s :
  Q tt (s <| g_clients := alter f i (g_clients s) |>) -> wp (upd_client i f) Q s.
Proof. intros. by apply wp_set. Qed.
Lemma wp_sys {A} (f : W -> W * A) (Q : A -> srv -> Prop) s :
  (forall w a, f (world s) = (w, a) -> Q a (s <| world := w |>)) -> wp (sys f) Q s.
Proof.
  intros H. destruct (f (world s)) as [w a] eqn:E. apply (wp_intro _ _ _ a (s <| world := w |>)).
  - unfold sys. by rewrite E.
  - by apply H.
Qed.
Lemma wp_would_block (Q : bool -> srv -> Prop) s :
  Q (would_block (world s)) s -> wp gfns_would_block Q s.
Proof. intros. by eapply wp_intro. Qed.
Lemma wp_write_at buf off src (Q : list Z -> srv -> Prop) s :
  0 <= off -> off + zlen src <= zlen buf -> Q (zblit buf off src) s ->
  wp (mlift (write_at buf off src)) Q s.
Proof. intros. eapply wp_lift; [by apply write_at_ok|done]. Qed.
Lemma wp_read_at buf off len (Q : list Z -> srv -> Prop) s :
  0 <= off -> 0 <= len -> off + len <= zlen buf -> Q (zslice buf off len) s ->
  wp (mlift (read_at buf off len)) Q s.
Proof. intros. eapply wp_lift; [by apply read_at_ok|done]. Qed.

Lemma find_from_spec p i l :
  match find_from p i l with
  | Some k => exists j c, k = (i + j)%nat /\ l !! j = Some c /\ p c = true /\
                forall j' c', (j' < j)%nat -> l !! j' = Some c' -> p c' = false
  | None => forall j c, l !! j = Some c -> p c = false
  end.
Proof.
  revert i. induction l as [|c l IH]; intros i; simpl; [done|].
  destruct (p c) eqn:E.
  - exists 0%nat, c. repeat split; [lia|done|]. lia.
  - specialize (IH (S i)). destruct (find_from p (S i) l) as [k|].
    + destruct IH as (j & d & -> & ? & ? & Hlt). exists (S j), d. repeat split; [lia|done|done|].
      intros [|j'] c' ? ?; simpl in *; [by simplify_eq|]. apply (Hlt j'); [lia|done].
    + intros [|j] d; simpl; [by intros [= <-]|apply IH].
Qed.

Lemma wp_find p (Q : option nat -> srv -> Prop) s :
  (forall i c, g_clients s !! i = Some c -> p c = true ->
     (forall j d, (j < i)%nat -> g_clients s !! j = Some d -> p d = false) -> Q (Some i) s) ->
  ((forall i c, g_clients s !! i = Some c -> p c = false) -> Q None s) ->
  wp (find_client p) Q s.
Proof.
  intros Hs Hn. apply (wp_intro _ _ _ (find_from p 0 (g_clients s)) s); [done|].
  pose proof (find_from_spec p 0 (g_clients s)) as H.
  destruct (find_from p 0 (g_clients s)) as [k|]; [|by apply Hn].
  destruct H as (j & c & -> & ? & ? & ?). by eapply Hs.
Qed.

Lemma is_unused_true c : is_unused c = true <-> state c = TLSV2_STATE_UNUSED.
Proof. apply bool_decide_eq_true. Qed.
Lemma is_unused_false c : is_unused c = false <-> used c.
Proof. apply bool_decide_eq_false. Qed.

(** What the callbacks leave alone: the receiving half of every client. *)
Definition rcv c := (eng c, in_buf c, in_used c, expected_len c).
Definition rcvs s := map rcv (g_clients s).

Lemma rcvs_upd s i f : (forall c, rcv (f c) = rcv c) ->
  rcvs (s <| g_clients := alter f i (g_clients s) |>) = rcvs s.
Proof.
  intros Hf. unfold rcvs. cbn [setf g_clients]. simpl. apply list_eq. intros j.
  rewrite !list_lookup_fmap. destruct (decide (i = j)) as [<-|Hij].
  - rewrite list_lookup_alter, decide_True by done. destruct (g_clients s !! i); [|done].
    simpl. by rewrite Hf.
  - by rewrite list_lookup_alter_ne.
Qed.

Lemma cl_ok_out c ex b u t : cl_ok ex c -> zlen b = JSON_BUF_SIZE -> Forall is_u8 b ->
  0 <= t <= u -> u <= JSON_BUF_SIZE ->
  cl_ok ex (c <| out_buf := b |> <| out_used := u |> <| out_sent := t |>).
Proof.
  intros ((? & ? & ? & ? & ? & ? & ? & ?) & Hu) ? ? ? ?. split; [|exact Hu].
  unfold cl_mem. cbn [setf mem eng in_buf out_buf in_used out_sent out_used]. tauto.
Qed.

Lemma send_json_wp ex F b s id json : ok ex F b s -> Forall is_u8 json ->
  wp (tlsv2_send_json id json)
    (fun r s' => ok ex F b s' /\ world s' = world s /\ rcvs s' = rcvs s) s.
Proof.
  intros Hok Hj. unfold tlsv2_send_json. destruct (Z.ltb_spec TLSV2_MAX_JSON_SIZE (zlen json)) as [|Hlen].
  { by apply wp_ret. }
  apply wp_bind, wp_find; [|by intros; apply wp_ret]. intros i c Hc Hp _.
  apply wp_bind, (wp_get_client i c); [done|].
  destruct (negb (out_used c =? out_sent c)); [by apply wp_ret|].
  destruct (ok_client _ _ _ _ _ _ Hok Hc) as [Hcl _].
  destruct Hcl as ((? & ? & ? & ? & Ho & Hob & ? & ?) & _).
  assert (forall x, zlen (br_enc32le x) = 4) as L4 by done.
  assert (forall x, Forall is_u8 (br_enc32le x)) as B4 by (intros; repeat constructor; apply u8_range).
  unfold JSON_BUF_SIZE in *.
  apply wp_bind, wp_write_at; [lia|rewrite L4; lia|].
  assert (forall x, zlen (zblit (out_buf c) 0 (br_enc32le x)) = TLSV2_MAX_JSON_SIZE + 4) as L1
    by (intros; rewrite zlen_zblit; rewrite ?L4; lia).
  apply wp_bind, wp_write_at; [lia|rewrite L1; lia|].
  apply wp_bind, wp_upd_client, wp_ret.
  split; [|split; [done|apply rcvs_upd; done]].
  eapply ok_upd; [done|by left|]. intros d Hd. assert (d = c) as -> by congruence.
  split; [|done]. apply cl_ok_out.
  - by eapply ok_client.
  - unfold JSON_BUF_SIZE. rewrite zlen_zblit; rewrite ?L1; lia.
  - auto with words.
  - lia.
  - unfold JSON_BUF_SIZE. lia.
Qed.

Lemma run_prog_wp ex F b p s : ok ex F b s -> prog_ok b p ->
  wp (run_prog p) (fun _ s' => ok ex F b s' /\ rcvs s' = rcvs s) s.
Proof.
  revert s. induction p as [w|w id json k IH]; intros s Hok Hp; simpl in Hp |- *.
  - apply wp_set. split; [by apply ok_world|done].
  - destruct Hp as (Hw & Hj & Hk). apply wp_bind, wp_set, wp_bind.
    eapply wp_mono; [apply send_json_wp; [by apply ok_world|done]|].
    intros r s' (Hok' & _ & Hr). eapply wp_mono; [by apply IH|].
    intros ? s'' (? & E). split; [done|]. rewrite E. exact Hr.
Qed.

Lemma callback_wp ex F b s o : ok ex F b s ->
  (forall f, o = Some f -> forall w, prog_ok (budget w) (f w)) ->
  wp (callback o) (fun _ s' => ok ex F b s' /\ rcvs s' = rcvs s) s.
Proof.
  intros Hok Hf. destruct o as [f|]; simpl; [|by apply wp_ret].
  apply wp_bind, wp_get. apply run_prog_wp; [done|].
  eapply prog_ok_mono; [|by apply Hf]. apply Hok.
Qed.

Context (Hcfg : config_ok).

Lemma on_json_wp ex F b s id json : ok ex F b s -> Forall is_u8 json ->
  wp (on_json_received' g_cfg id json) (fun _ s' => ok ex F b s' /\ rcvs s' = rcvs s) s.
Proof.
  intros Hok Hj. apply callback_wp; [done|]. intros f Hf w.
  destruct (on_json_received g_cfg) as [g|] eqn:E; [|done]. simpl in Hf. simplify_eq.
  destruct Hcfg as (_ & _ & H). by apply (H g).
Qed.
Lemma on_disconnected_wp ex F b s id : ok ex F b s ->
  wp (on_client_disconnected' g_cfg id) (fun _ => ok ex F b) s.
Proof.
  intros Hok. eapply wp_mono; [apply callback_wp; [done|]|by intros ? ? [? _]].
  intros f Hf w. destruct (on_client_disconnected g_cfg) as [g|] eqn:E; [|done].
  simpl in Hf. simplify_eq.
  destruct Hcfg as (_ & H & _). by apply (H g).
Qed.
Lemma on_connected_wp ex F b s id : ok ex F b s ->
  wp (on_client_connected' g_cfg id) (fun _ => ok ex F b) s.
Proof.
  intros Hok. eapply wp_mono; [apply callback_wp; [done|]|by intros ? ? [? _]].
  intros f Hf w. destruct (on_client_connected g_cfg) as [g|] eqn:E; [|done].
  simpl in Hf. simplify_eq. destruct Hcfg as (H & _ & _). by apply (H g).
Qed.

(** *** Opening and closing *)

Lemma os_close w f : (budget (sys_close w f) <= budget w)%nat.
Proof. pose proof (sys_other_law (budget := budget)) as (_ & H & _). apply H. Qed.
Lemma os_malloc w n w' r : sys_malloc w n = (w', r) -> (budget w' <= budget w)%nat.
Proof. pose proof (sys_other_law (budget := budget)) as (_ & _ & _ & H & _). specialize (H w n). by intros E; rewrite E in H. Qed.
Lemma os_seed w w' r : sys_seed w = (w', r) -> (budget w' <= budget w)%nat.
Proof. pose proof (sys_other_law (budget := budget)) as (_ & _ & _ & _ & H). specialize (H w). by intros E; rewrite E in H. Qed.
Lemma os_nonblocking w f w' r : sys_nonblocking w f = (w', r) -> (budget w' <= budget w)%nat.
Proof. pose proof (sys_other_law (budget := budget)) as (H & _). specialize (H w f). by intros E; rewrite E in H. Qed.
Lemma os_select w x y w' r : sys_select w x y = (w', r) -> (budget w' <= budget w)%nat.
Proof. pose proof (sys_other_law (budget := budget)) as (_ & _ & H & _). specialize (H w x y). by intros E; rewrite E in H. Qed.

Lemma close_wp ex F b s i : ok ex F b s -> (ex = None \/ ex = Some i) -> (i < TLSV2_MAX_CLIENTS)%nat ->
  wp (tlsv2_client_close g_cfg i) (fun _ => live b) s.
Proof.
  intros Hok Hex Hi. destruct (ok_lookup _ _ _ _ _ Hok Hi) as [c Hc].
  apply wp_bind, (wp_get_client i c); [done|]. destruct (is_unused c) eqn:Hu.
  { apply wp_ret. destruct Hok as ((Hl & Hcl) & _ & Hb). split; [split|done]; [done|].
    intros j d Hd. specialize (Hcl j d Hd). destruct (decide (i = j)) as [<-|Hij].
    - assert (d = c) as -> by congruence. destruct Hcl as [Hm _]. split; [done|].
      intros Hus. by apply is_unused_true in Hu.
    - by rewrite bool_decide_false in Hcl by (destruct Hex as [->| ->]; congruence). }
  apply wp_bind.
  assert (forall s', ok ex F b s' -> wp (upd_client i (fun c => c <| fd := GFNS_INVALID_SOCK |>
      <| state := TLSV2_STATE_UNUSED |>) ;;!
    (if negb (fd c =? GFNS_INVALID_SOCK) then on_client_disconnected' g_cfg (fd c) else mret' tt))
    (fun _ => live b) s') as Hrest.
  { intros s' Hok'. apply wp_bind, wp_upd_client.
    assert (live b (s' <| g_clients := alter (fun c => c <| fd := GFNS_INVALID_SOCK |>
      <| state := TLSV2_STATE_UNUSED |>) i (g_clients s') |>)) as Hlive.
    { eapply live_upd; [done|done|]. intros d Hd. destruct (ok_client _ _ _ _ _ _ Hok' Hd) as [[Hm _] _].
      split; [exact Hm|]. intros Hus. by destruct Hus. }
    case_match; [|by apply wp_ret].
    eapply wp_mono; [by apply on_disconnected_wp, live_ok|]. intros ? s'' H'. exact (ok_live _ _ _ H'). }
  case_match.
  - apply wp_sys. intros w [] [= <-]. apply Hrest. apply ok_world; [done|].
    pose proof (os_close (world s) (fd c)). destruct Hok as (_ & _ & ?). lia.
  - apply wp_ret. by apply Hrest.
Qed.

Lemma set_buffer_reset lay (e : engine RI RO HS) : eng_bufs lay e ->
  eng_live lay (br_ssl_engine_set_buffer e None 0 false) /\
  iomode (br_ssl_engine_set_buffer e None 0 false) = BR_IO_INOUT.
Proof.
  intros Hb. unfold br_ssl_engine_set_buffer, br_ssl_engine_set_buffers_bidi.
  assert (exists i, ibuf e = Some i) as [i Hi].
  { destruct Hb as (_ & _ & _ & (i & o & -> & _) & _). eauto. }
  match goal with |- context [match ibuf ?x with _ => _ end] =>
    set (e0 := x); assert (ibuf e0 = Some i) as -> by (subst e0; eng_simpl; exact Hi) end.
  assert (eng_bufs lay e0 /\ iomode e0 = BR_IO_INOUT) as [Hb0 Hm0].
  { split; [|done]. unfold eng_bufs in *. subst e0. eng_simpl. exact Hb. }
  clearbody e0.
  match goal with |- context [make_ready_out (make_ready_in ?x)] => set (e1 := x) end.
  assert (eng_bufs lay (make_ready_in e1) /\ eng_in (make_ready_in e1)) as [Hb1 Hi1].
  { unfold eng_bufs, eng_in, make_ready_in in *. subst e1. eng_simpl. rewrite Hm0. eng_simpl.
    split; [exact Hb0|]. apply (in_header _ _ _ 0). lia. }
  split; [by apply make_ready_out_live|].
  unfold make_ready_out, make_ready_in. subst e1. eng_simpl. rewrite Hm0. eng_simpl.
  destruct (out_max_plaintext _ _ _). eng_simpl. by rewrite Hm0.
Qed.

Lemma server_reset_inv lay w (e : engine RI RO HS) : eng_bufs lay e ->
  exists w' e', br_ssl_server_reset init_main w e = (w', Some e') /\ eng_inv lay e' /\
    (budget w' <= budget w)%nat.
Proof.
  intros Hb. destruct (set_buffer_reset lay e Hb) as [Hl Hm].
  unfold br_ssl_server_reset. set (e1 := br_ssl_engine_set_buffer e None 0 false) in *. clearbody e1.
  unfold br_ssl_engine_init_rand. destruct (sys_seed w) as [w' ok'] eqn:Ew.
  apply os_seed in Ew. destruct ok'; simpl negb; cbv iota.
  - set (e2 := e1 <| reneg := 0 |>).
    assert (eng_live lay e2 /\ iomode e2 = BR_IO_INOUT) as [Hl2 Hm2].
    { unfold eng_live, eng_bufs, eng_in, eng_out in *. subst e2. eng_simpl. split; [exact Hl|exact Hm]. }
    clearbody e2. destruct (hs_reset_inv e2 (init_main (cpu e2)) Hl2) as (e3 & E3 & Hinv).
    { by rewrite Hm2. }
    exists w', e3. rewrite E3. done.
  - eexists w', _. split; [done|]. split; [|done]. apply fail_inv, Hl.
Qed.

Lemma alloc_buffers arena hs : zlen arena = TLSV2_IOBUF_SIZE + TLSV2_PLAINTEXT_SIZE ->
  Forall is_u8 arena ->
  let e := br_ssl_engine_set_buffers_bidi (engine_zero arena rin0 hs : engine RI RO HS) (Some 0)
             TLSV2_IOBUF_SIZE (Some TLSV2_IOBUF_SIZE) TLSV2_PLAINTEXT_SIZE in
  eng_live client_layout e /\ max_frag_len e = 4096 /\ err e = BR_ERR_OK.
Proof.
  intros Hl Hb e.
  assert (good_buffers (engine_zero arena rin0 hs : engine RI RO HS) (Some 0) TLSV2_IOBUF_SIZE
            (Some TLSV2_IOBUF_SIZE) TLSV2_PLAINTEXT_SIZE) as Hg.
  { split; [exact Hb|]. cbn [engine_zero mem]. rewrite Hl.
    unfold TLSV2_IOBUF_SIZE, TLSV2_PLAINTEXT_SIZE. split; [lia|]. exists 0.
    split; [done|]. do 3 (split; [lia|]). right. eexists; split; [done|]. lia. }
  pose proof (set_buffers_bidi_spec _ _ _ _ _ Hg) as H. cbv zeta in H. fold e in H.
  replace (frag_fits _ _ _) with true in H by done.
  destruct H as (Hlive & _ & Herr & _ & Hmem & Hi & Hil & Hol & Hin & Hfit & Hmax).
  assert (max_frag_len e = 4096) as Hf.
  { unfold frag_lens in Hin. rewrite !elem_of_cons, elem_of_nil in Hin.
    assert (4096 <= max_frag_len e) by (apply Hmax; [unfold frag_lens; rewrite !elem_of_cons; tauto|done]).
    destruct Hin as [E|[E|[E|[E|[E|[]]]]]]; rewrite E in *; try lia; done. }
  split; [|done]. replace client_layout with (layout_of e); [done|].
  unfold layout_of. rewrite Hmem, Hi, Hil, Hol. cbn [engine_zero mem]. rewrite Hl.
  done.
Qed.

Lemma layout_mem (e : engine RI RO HS) : eng_inv client_layout e ->
  zlen (mem e) = TLSV2_IOBUF_SIZE + TLSV2_PLAINTEXT_SIZE /\ Forall is_u8 (mem e) /\
  ibase e = 0 /\ ibuf_len e = TLSV2_IOBUF_SIZE /\
  obase e = TLSV2_IOBUF_SIZE /\ obuf_len e = TLSV2_PLAINTEXT_SIZE.
Proof.
  intros ((Hl & Hb & _) & _). unfold client_layout in Hl. injection Hl as E1 E2 E3 E4 E5.
  rewrite <- E1, <- E2, <- E3, <- E4, <- E5. done.
Qed.

Lemma cl_ok_eng ex c (e : engine RI RO HS) : cl_ok ex c -> eng_inv client_layout e ->
  cl_ok ex (c <| eng := e |>).
Proof.
  intros ((? & ? & Hm) & Hu) He. pose proof (layout_mem e He) as (? & ? & _). split.
  - split; [done|split; [done|exact Hm]].
  - intros Hus. destruct (Hu Hus) as (_ & ? & ?). by split.
Qed.

Lemma alloc_wp b s new_fd cs sk : live b s -> 0 <= new_fd ->
  wp (tlsv2_client_alloc rin0 server_init_full_rsa init_main new_fd cs sk) (fun _ => live b) s.
Proof.
  intros Hlive Hfd. pose proof (live_ok _ _ Hlive) as Hok. unfold tlsv2_client_alloc.
  apply wp_bind, wp_find; [|by intros; apply wp_ret]. intros i c Hc Hun _.
  apply is_unused_true in Hun.
  apply wp_bind, wp_upd_client. set (c' := c <| fd := new_fd |> <| state := TLSV2_STATE_HANDSHAKE |>
    <| certs := Some cs |> <| skey := Some sk |> <| in_used := 0 |> <| expected_len := 0 |>
    <| out_used := 0 |> <| out_sent := 0 |>).
  destruct (ok_client _ _ _ _ _ _ Hok Hc) as [[Hm _] _].
  set (s1 := s <| g_clients := _ |>).
  assert (g_clients s1 !! i = Some c') as Hc1.
  { subst s1. cbn [setf g_clients]. simpl. rewrite list_lookup_alter, decide_True, Hc by done. done. }
  apply wp_bind, (wp_get_client i c'); [done|].
  destruct Hm as (Hml & Hmb & Hm).
  destruct (alloc_buffers (mem (eng c')) (server_init_full_rsa cs sk)) as (Hl & _); [done|done|].
  set (e := br_ssl_engine_set_buffers_bidi _ _ _ _ _) in *. clearbody e.
  destruct (server_reset_inv client_layout (world s1) e (proj1 Hl)) as (w' & e' & E & Hinv & Hw).
  apply wp_bind, wp_sys. intros w o Eo. rewrite E in Eo. injection Eo as <- <-.
  apply wp_bind. eapply wp_lift; [done|].
  apply wp_bind, wp_upd_client, wp_ret.
  assert (alter (fun c => c <| eng := e' |>) i (g_clients s1)
          = alter (fun _ => c' <| eng := e' |>) i (g_clients s)) as Ealt.
  { subst s1. cbn [setf g_clients]. simpl. rewrite list_alter_alter_eq.
    apply list_alter_ext; [|done]. intros d. simpl. rewrite Hc. by intros [= <-]. }
  match goal with |- live b ?x =>
    replace x with ((s <| world := w' |>) <| g_clients := alter (fun _ => c' <| eng := e' |>) i (g_clients (s <| world := w' |>)) |>)
      by (change (g_clients (s <| world := w' |>)) with (g_clients s); rewrite <- Ealt; done) end.
  assert (live b (s <| world := w' |>)) as Hlive'.
  { destruct Hlive as [? ?]. split; [done|]. simpl. simpl in Hw. lia. }
  eapply (live_upd None (fds s) b (s <| world := w' |>)); [by apply live_ok in Hlive'|by left|].
  intros d Hd. assert (d = c) as -> by (cbn in Hd; congruence).
  pose proof (layout_mem e' Hinv) as (? & ? & _). split.
  - split; [done|split; [done|]]. destruct Hm as (? & ? & ? & ? & _).
    unfold JSON_BUF_SIZE, TLSV2_MAX_JSON_SIZE in *. cbn. repeat split; try done; lia.
  - intros _. split; [done|]. split; [done|]. intros _. by left.
Qed.

Lemma accept_wp b s cs sk : live b s -> (b < fuel)%nat ->
  wp (tlsv2_accept_new_client rin0 server_init_full_rsa init_main g_cfg g_listen_fd fuel cs sk)
    (fun _ => live b) s.
Proof.
  intros Hlive Hf. unfold tlsv2_accept_new_client.
  apply (wp_loop (live b) (fun s => budget (world s))); [|done|destruct Hlive; lia].
  clear s Hlive. intros s Hlive. apply wp_bind, wp_sys. intros w o E.
  apply (sys_accept_law (budget := budget)) in E as [Hb Hc].
  assert (live b (s <| world := w |>)) as Hl1 by (destruct Hlive; split; [done|simpl; lia]).
  destruct o as [cfd|]; [|by apply wp_ret]. destruct (Hc cfd eq_refl) as [Hpos Hlt].
  apply wp_bind, wp_sys. intros w1 ok1 E1. apply os_nonblocking in E1. cbn in E1.
  assert (live (budget w) (s <| world := w1 |>)) as Hl2 by (destruct Hlive; split; [done|simpl; lia]).
  assert (forall s', live (budget w) s' -> live b s' /\ (budget (world s') < budget (world s))%nat) as Hfin.
  { intros s' [? ?]. destruct Hl1. simpl in *. split; [split; [done|lia]|lia]. }
  assert (forall s', live (budget w) s' ->
     wp (sys (fun w => (sys_close w cfd, tt)) ;;! mret' None)
       (fun (r : option unit) s'' => match r with Some x => live b s'' | None =>
          live b s'' /\ (budget (world s'') < budget (world s))%nat end) s') as Hclose.
  { intros s' Hl'. apply wp_bind, wp_sys. intros w2 [] [= <-]. apply wp_ret, Hfin.
    destruct Hl'. split; [done|]. pose proof (os_close (world s') cfd). simpl. lia. }
  destruct ok1; simpl negb; cbv iota; [|by apply Hclose].
  apply wp_bind. eapply wp_mono; [by apply (alloc_wp (budget w))|]. cbv beta.
  intros [i|] s' Hl'; [|by apply Hclose].
  apply wp_bind. eapply wp_mono; [by apply on_connected_wp, live_ok|].
  intros [] s'' H. apply wp_ret, Hfin. exact (ok_live _ _ _ H).
Qed.

Lemma ok_state F b s i c : ok None F b s -> g_clients s !! i = Some c ->
  F !! i = Some (fd c, state c).
Proof. intros H Hc. by eapply ok_client. Qed.

(** A client in use. *)
Definition in_use (F : list (Z * tlsv2_client_state_t)) (i : nat) : Prop :=
  exists f t, F !! i = Some (f, t) /\ t <> TLSV2_STATE_UNUSED.

Lemma in_use_client F b s i : ok None F b s -> in_use F i ->
  exists c, g_clients s !! i = Some c /\ cl_ok false c /\ used c /\ eng_inv client_layout (eng c).
Proof.
  intros Hok (f & t & HF & Ht). destruct Hok as ((Hl & Hc) & HF' & Hb).
  rewrite <- HF' in HF. unfold fds in HF. rewrite list_lookup_fmap in HF.
  destruct (g_clients s !! i) as [c|] eqn:E; [|done]. simpl in HF. injection HF as <- <-.
  exists c. specialize (Hc i c E). change (bool_decide (None = Some i)) with false in Hc.
  split; [done|split; [done|split; [done|]]]. by apply Hc.
Qed.

Lemma in_use_fd F b s i c : ok None F b s -> in_use F i -> g_clients s !! i = Some c ->
  cl_ok false c /\ eng_inv client_layout (eng c).
Proof.
  intros Hok Hu Hc. destruct (in_use_client F b s i Hok Hu) as (d & ? & ? & ? & ?).
  assert (d = c) as -> by congruence. done.
Qed.

(** Installing a new engine in client [i]. *)
Lemma ok_eng F b s i c (e : engine RI RO HS) : ok None F b s -> g_clients s !! i = Some c ->
  eng_inv client_layout e ->
  ok None F b (s <| g_clients := alter (fun c => c <| eng := e |>) i (g_clients s) |>).
Proof.
  intros Hok Hc He. eapply ok_upd; [done|by left|]. intros d Hd.
  assert (d = c) as -> by congruence. split; [|done]. apply cl_ok_eng; [|done].
  by eapply ok_client.
Qed.

Lemma has_recvrec (e : engine RI RO HS) :
  has (br_ssl_engine_current_state e) BR_SSL_RECVREC = true ->
  exists p n, br_ssl_engine_recvrec_buf e = Some (p, n).
Proof.
  intros H. destruct (br_ssl_engine_closed e) eqn:Hc.
  { unfold br_ssl_engine_current_state in H. by rewrite Hc in H. }
  destruct (state_flags e Hc) as (_ & _ & F & _). unfold has in H. unfold has_flag in F.
  rewrite F in H. unfold br_ssl_engine_recvrec_buf. destruct (recvrec_buf e) as [[p n]|]; [eauto|done].
Qed.

Lemma recv_wp F b s i : ok None F b s -> in_use F i -> (b < fuel)%nat ->
  wp (tlsv2_engine_recv fuel i) (fun _ => ok None F b) s.
Proof.
  intros Hok Hu Hf. unfold tlsv2_engine_recv.
  apply (wp_loop (ok None F b) (fun s => budget (world s))); [|done|destruct Hok as (_ & _ & ?); lia].
  clear s Hok. intros s Hok. destruct (in_use_client _ _ _ _ Hok Hu) as (c & Hc & _ & _ & Hinv).
  apply wp_bind, (wp_get_client i c); [done|].
  destruct (has _ _) eqn:Hst; simpl negb; cbv iota; [|by apply wp_ret].
  destruct (br_ssl_engine_recvrec_buf (eng c)) as [[p n]|] eqn:Hbuf; [|by apply wp_ret].
  destruct (recvrec_buf_inv (eng c) p n Hinv Hbuf) as (Hl & Hp & ? & ? & ? & ?).
  pose proof (layout_mem _ Hinv) as (Hml & _ & Hib & Hil & _).
  apply wp_bind, wp_sys. intros w [r bs] E. unfold tls_low_read in E.
  destruct (sys_read (world s) (fd c) n) as [w' rd] eqn:Er.
  apply (sys_read_law (budget := budget)) in Er as [Hb Hrd]; [|lia].
  assert (r = -1 /\ w = w' \/ rd = Some bs /\ bs <> [] /\ r = zlen bs /\ w = w') as Hcase.
  { destruct rd as [l|]; [|simplify_eq; by left]. destruct (Z.leb_spec (zlen l) 0); simplify_eq; [by left|].
    right. repeat split; try done. intros ->. simpl in *. lia. }
  assert (ok None F b (s <| world := w' |>)) as Hok'.
  { apply ok_world; [done|]. destruct Hok as (_ & _ & ?). lia. }
  destruct Hcase as [(-> & ->)|(-> & Hne & -> & ->)].
  { change (0 <? -1) with false. cbv iota. by apply wp_bind, wp_would_block, wp_ret. }
  destruct (Hrd bs eq_refl Hne) as (Hn & Hbytes & Hlt).
  assert (0 < zlen bs) by (destruct bs; [done|simpl; lia]).
  replace (0 <? zlen bs) with true by blia.
  unfold TLSV2_IOBUF_SIZE, TLSV2_PLAINTEXT_SIZE in *.
  apply wp_bind, wp_write_at; [lia|lia|].
  destruct (recvrec_ack_public (eng c) p n bs Hinv Hbuf Hbytes) as (e' & E' & Hinv'); [lia|].
  apply wp_bind. eapply wp_lift; [exact E'|].
  apply wp_bind, wp_upd_client, wp_ret. split; [|exact Hlt].
  by eapply ok_eng.
Qed.

Lemma send_wp F b s i : ok None F b s -> in_use F i -> (b < fuel)%nat ->
  wp (tlsv2_engine_send fuel i) (fun _ => ok None F b) s.
Proof.
  intros Hok Hu Hf. unfold tlsv2_engine_send.
  apply (wp_loop (ok None F b) (fun s => budget (world s))); [|done|destruct Hok as (_ & _ & ?); lia].
  clear s Hok. intros s Hok. destruct (in_use_client _ _ _ _ Hok Hu) as (c & Hc & _ & _ & Hinv).
  apply wp_bind, (wp_get_client i c); [done|].
  destruct (has _ _) eqn:Hst; simpl negb; cbv iota; [|by apply wp_ret].
  destruct (br_ssl_engine_sendrec_buf (eng c)) as [[p n]|] eqn:Hbuf; [|by apply wp_ret].
  destruct (sendrec_buf_inv (eng c) p n Hinv Hbuf) as (Hl & Hp & ? & ? & ? & ? & ?).
  pose proof (layout_mem _ Hinv) as (Hml & _ & _ & _ & Hob & Hol).
  unfold TLSV2_IOBUF_SIZE, TLSV2_PLAINTEXT_SIZE in *.
  apply wp_bind, wp_read_at; [lia|lia|lia|].
  set (bs := zslice _ _ _).
  assert (zlen bs = n) as Hbs by (apply zlen_zslice; lia).
  apply wp_bind, wp_sys. intros w r E. unfold tls_low_write in E.
  destruct (sys_write (world s) (fd c) bs) as [w' k] eqn:Er.
  apply (sys_write_law (budget := budget)) in Er as (Hb & Hk & Hlt);
    [|intros Hnil; rewrite Hnil in Hbs; simpl in Hbs; lia].
  assert (w = w' /\ (r = -1 \/ r = k /\ 0 < k)) as [-> Hcase].
  { destruct (Z.leb_spec k 0); simplify_eq; auto. }
  assert (ok None F b (s <| world := w' |>)) as Hok'.
  { apply ok_world; [done|]. destruct Hok as (_ & _ & ?). lia. }
  destruct Hcase as [->|(-> & Hpos)].
  { change (0 <? -1) with false. cbv iota. by apply wp_bind, wp_would_block, wp_ret. }
  rewrite (proj2 (Z.ltb_lt 0 k)) by done.
  destruct (sendrec_ack_public (eng c) p n k Hinv Hbuf) as (e' & E' & Hinv'); [lia|].
  apply wp_bind. eapply wp_lift; [exact E'|].
  apply wp_bind, wp_upd_client, wp_ret. split; [|apply Hlt; done].
  by eapply ok_eng.
Qed.

(** *** The JSON loop against the reference parser *)

(** The bytes received and not yet delivered. *)
Definition pending c : list Z := ztake (in_used c) (in_buf c).

(** The length announced by a pending stream, if it is there. *)
Definition announced (p : list Z) : Z := if 4 <=? zlen p then br_dec32be p else 0.

Definition set_in (i : nat) (f : client -> client) s : srv :=
  s <| g_clients := alter f i (g_clients s) |>.
Definition announce (p : list Z) c : client := c <| expected_len := announced p |>.

Lemma zlen_pending c : cl_mem c -> zlen (pending c) = in_used c.
Proof. intros (_ & _ & Hl & _ & _ & _ & Hu & _). apply zlen_ztake. lia. Qed.

Lemma pending_bytes c : cl_mem c -> Forall is_u8 (pending c).
Proof. intros (_ & _ & _ & Hb & _). by apply Forall_ztake. Qed.

Lemma dec32be_pending c : cl_mem c -> 4 <= in_used c -> br_dec32be (pending c) = br_dec32be (in_buf c).
Proof.
  intros Hm Hu. pose proof (zlen_pending c Hm).
  rewrite <- (dec32be_app (pending c) (zdrop (in_used c) (in_buf c))) by lia.
  unfold pending. by rewrite ztake_zdrop.
Qed.

Lemma alter_same {A} (f : A -> A) i (l : list A) a : l !! i = Some a -> f a = a -> alter f i l = l.
Proof.
  intros Ha Hf. apply list_eq. intros j. destruct (decide (i = j)) as [<-|Hij].
  - rewrite list_lookup_alter, decide_True, Ha by done. simpl. by rewrite Hf.
  - by rewrite list_lookup_alter_ne.
Qed.

Lemma set_in_lookup s i c f : g_clients s !! i = Some c -> g_clients (set_in i f s) !! i = Some (f c).
Proof.
  intros Hc. unfold set_in. cbn [setf g_clients]. simpl.
  by rewrite list_lookup_alter, decide_True, Hc.
Qed.

Lemma set_in_set_in i f g h s c : g_clients s !! i = Some c -> f (g c) = h c ->
  set_in i f (set_in i g s) = set_in i h s.
Proof.
  intros Hc E. assert (alter f i (alter g i (g_clients s)) = alter h i (g_clients s)) as E2.
  { rewrite list_alter_alter_eq. apply list_alter_ext; [|done]. intros d Hd.
    assert (d = c) as -> by congruence. exact E. }
  unfold set_in.
  change (g_clients (s <| g_clients := alter g i (g_clients s) |>)) with (alter g i (g_clients s)).
  by rewrite E2.
Qed.

Lemma set_in_ext i f g s : (forall c, g_clients s !! i = Some c -> f c = g c) ->
  set_in i f s = set_in i g s.
Proof.
  intros H. unfold set_in. assert (alter f i (g_clients s) = alter g i (g_clients s)) as ->; [|done].
  by apply list_alter_ext.
Qed.

Lemma set_in_comm i j f g s : i <> j -> set_in j g (set_in i f s) = set_in i f (set_in j g s).
Proof.
  intros Hij. assert (alter g j (alter f i (g_clients s)) = alter f i (alter g j (g_clients s))) as E
    by (by apply list_alter_alter_ne).
  unfold set_in.
  change (g_clients (s <| g_clients := alter f i (g_clients s) |>)) with (alter f i (g_clients s)).
  change (g_clients (s <| g_clients := alter g j (g_clients s) |>)) with (alter g j (g_clients s)).
  by rewrite E.
Qed.

(** First half of the loop body: read the announced length. *)
Lemma json_announce i s c (k : option (option Z) -> M srv (option (option Z))) :
  g_clients s !! i = Some c -> cl_mem c -> exp_ok c ->
  (let! go :=
    (if expected_len c =? 0 then
       if 4 <=? in_used c then
         let! b := mlift (read_at (in_buf c) 0 4) in
         let n := ntohl (br_dec32le b) in
         upd_client i (fun c => c <| expected_len := n |>) ;;!
         mret' (if TLSV2_MAX_JSON_SIZE <? n then Some (Some (-1)) else None)
       else mret' (Some None)
     else mret' None) in k go) s =
  k (if zlen (pending c) <? 4 then Some None
     else if bad_length (pending c) then Some (Some (-1)) else None)
    (set_in i (announce (pending c)) s).
Proof.
  intros Hc Hm He. pose proof Hm as (_ & _ & Hl & Hb & _ & _ & Hu & _).
  pose proof (zlen_pending c Hm) as Lp. unfold JSON_BUF_SIZE in *.
  unfold bad_length, announce, announced. rewrite Lp.
  assert (forall x, expected_len c = x -> set_in i (fun c => c <| expected_len := x |>) s = s) as Hsame.
  { intros x <-. unfold set_in. rewrite (alter_same _ _ _ c); [by destruct s|done|by destruct c]. }
  destruct (Z.eqb_spec (expected_len c) 0) as [E0|E0].
  - destruct (Z.leb_spec 4 (in_used c)) as [H4|H4].
    + rewrite (dec32be_pending c) by done. replace (in_used c <? 4) with false by lia.
      unfold mbind' at 1. unfold mbind' at 1. rewrite read_at_ok by lia. cbn [mlift].
      rewrite ntohl_be by (by apply Forall_zslice). rewrite dec32be_slice by lia. simpl andb.
      unfold mbind'. cbn. by destruct (TLSV2_MAX_JSON_SIZE <? br_dec32be (in_buf c)).
    + replace (in_used c <? 4) with true by lia.
      rewrite Hsame by done. done.
  - destruct He as [?|(H4 & Hx & ?)]; [done|].
    rewrite (dec32be_pending c) by done. replace (in_used c <? 4) with false by lia.
    replace (4 <=? in_used c) with true by lia. rewrite Hsame by done.
    replace (true && _) with false by (symmetry; simpl; lia). done.
Qed.

(** A delivered message leaves the buffer. *)
Definition consume (n : Z) c : client :=
  c <| in_buf := zblit (in_buf c) 0 (zslice (in_buf c) (4 + n) (in_used c - (4 + n))) |>
    <| in_used := in_used c - (4 + n) |> <| expected_len := 0 |>.

Lemma slice_pending c o n : cl_mem c -> 0 <= o -> 0 <= n -> o + n <= in_used c ->
  zslice (in_buf c) o n = zslice (pending c) o n.
Proof.
  intros Hm ? ? ?. pose proof (zlen_pending c Hm).
  rewrite <- (ztake_zdrop (in_used c) (in_buf c)) at 1. apply zslice_app_l; [lia..|].
  unfold pending in *. lia.
Qed.

Lemma consume_spec c m r : cl_mem c -> parse_step (pending c) = Some (m, r) ->
  cl_mem (consume (zlen m) c) /\ pending (consume (zlen m) c) = r /\ exp_ok (consume (zlen m) c).
Proof.
  intros Hm Hp. pose proof (zlen_pending c Hm) as Lp.
  apply parse_step_shorter in Hp as (Hl & Hm0 & Hr & _).
  pose proof Hm as (Hm1 & Hm2 & Lb & Hb & Ho1 & Ho2 & Hu & Ho3). unfold JSON_BUF_SIZE in *.
  set (rem := in_used c - (4 + zlen m)). assert (zlen r = rem) as Lr by (subst rem; lia).
  assert (zslice (in_buf c) (4 + zlen m) rem = r) as E.
  { rewrite slice_pending by (done || lia). rewrite Hr. unfold zslice. apply ztake_ge.
    rewrite zlen_zdrop by lia. lia. }
  unfold consume. fold rem. rewrite E. split; [|split].
  - split; [done|split; [done|]]. cbn. rewrite zlen_zblit by lia.
    split; [done|]. split; [|unfold JSON_BUF_SIZE; tauto || (repeat split; try done; lia)].
    apply Forall_zblit; [done|]. rewrite <- E. by apply Forall_zslice.
  - unfold pending. cbn. rewrite <- Lr. apply (zslice_zblit_same (in_buf c) 0 r); lia.
  - by left.
Qed.

Lemma json_body_eq i s c : g_clients s !! i = Some c -> cl_mem c -> exp_ok c ->
  json_loop_body g_cfg i s =
  match parse_step (pending c) with
  | Some (m, r) =>
      let '(w, okm) := sys_malloc (world s) (zlen m + 1) in
      if okm
      then (on_json_received' g_cfg (fd c) m ;;! mret' None)
             (set_in i (consume (zlen m)) (s <| world := w |>))
      else Some (Some (Some (-1)), set_in i (announce (pending c)) (s <| world := w |>))
  | None => Some (if bad_length (pending c) then Some (Some (-1)) else Some None,
                  set_in i (announce (pending c)) s)
  end.
Proof.
  intros Hc Hm He. unfold json_loop_body.
  erewrite run_bind by (unfold get_client; by rewrite Hc).
  rewrite (json_announce i s c) by done.
  pose proof (zlen_pending c Hm) as Lp.
  pose proof (dec32be_range (pending c) (pending_bytes c Hm)) as Hr. unfold is_u32 in Hr.
  unfold parse_step, bad_length, announced. rewrite Lp.
  destruct (Z.ltb_spec (in_used c) 4) as [H4|H4].
  { replace (4 <=? in_used c) with false by lia. done. }
  replace (4 <=? in_used c) with true by lia. cbn [andb].
  destruct (Z.ltb_spec TLSV2_MAX_JSON_SIZE (br_dec32be (pending c))) as [Hbad|Hgood].
  { replace (br_dec32be (pending c) <=? TLSV2_MAX_JSON_SIZE) with false by lia.
    rewrite andb_false_r. done. }
  replace (br_dec32be (pending c) <=? TLSV2_MAX_JSON_SIZE) with true by lia. rewrite andb_true_r.
  set (n := br_dec32be (pending c)) in *.
  set (s1 := set_in i (announce (pending c)) s).
  assert (g_clients s1 !! i = Some (c <| expected_len := n |>)) as Hc1.
  { subst s1. rewrite (set_in_lookup s i c) by done. unfold announce, announced. rewrite Lp.
    by replace (4 <=? in_used c) with true by lia. }
  erewrite run_bind by (unfold get_client; by rewrite Hc1).
  cbn [expected_len in_used setf].
  assert (u32 (4 + n) = 4 + n) as -> by (apply u32_small; unfold TLSV2_MAX_JSON_SIZE in *; lia).
  change (expected_len (c <| expected_len := n |>)) with n.
  change (in_used (c <| expected_len := n |>)) with (in_used c).
  change (in_buf (c <| expected_len := n |>)) with (in_buf c).
  change (fd (c <| expected_len := n |>)) with (fd c).
  destruct ((0 <? n) && (4 + n <=? in_used c)) eqn:E.
  2:{ done. }
  apply andb_true_iff in E as [E1 E2]. apply Z.ltb_lt in E1. apply Z.leb_le in E2.
  pose proof Hm as (_ & _ & Lb & _ & _ & _ & Hu & _). unfold JSON_BUF_SIZE in *.
  assert (zlen (zslice (pending c) 4 n) = n) as -> by (apply zlen_zslice; lia).
  destruct (sys_malloc (world s) (n + 1)) as [w okm] eqn:Ew.
  assert (sys (fun w => sys_malloc w (n + 1)) s1 = Some (okm, s1 <| world := w |>)) as Es.
  { unfold sys. change (world s1) with (world s). by rewrite Ew. }
  rewrite (run_bind _ _ _ _ _ Es). destruct okm; cbn [negb]; [|done].
  rewrite (run_lift _ _ _ (zslice (in_buf c) 4 n)) by (apply read_at_ok; lia).
  rewrite (run_lift _ _ _ (zslice (in_buf c) (4 + n) (in_used c - (4 + n)))) by (apply read_at_ok; lia).
  erewrite run_lift by (apply write_at_ok; [lia|]; rewrite zlen_zslice by lia; lia).
  rewrite (slice_pending c 4 n) by (done || lia).
  unfold upd_client. erewrite run_bind by reflexivity. f_equal.
  pose (sw := s <| world := w |>).
  match goal with |- _ <| g_clients := alter ?F i _ |> = _ =>
    exact (set_in_set_in i F (announce (pending c)) (consume n) sw c Hc eq_refl)
  end.
Qed.

Lemma rcvs_client s s' i c : rcvs s' = rcvs s -> g_clients s !! i = Some c ->
  exists c', g_clients s' !! i = Some c' /\ rcv c' = rcv c.
Proof.
  intros E Hc. assert (rcvs s' !! i = Some (rcv c)) as H.
  { rewrite E. unfold rcvs. by rewrite list_lookup_fmap, Hc. }
  unfold rcvs in H. rewrite list_lookup_fmap in H.
  destruct (g_clients s' !! i) as [d|]; [|done]. simpl in H. injection H as H1 H2 H3 H4.
  exists d. split; [done|]. unfold rcv. congruence.
Qed.

Lemma engs_set_in s i f : (forall c, eng (f c) = eng c) -> engs (set_in i f s) = engs s.
Proof.
  intros Hf. unfold engs, set_in. cbn [setf g_clients]. simpl. apply list_eq. intros j.
  rewrite !list_lookup_fmap. destruct (decide (i = j)) as [<-|Hij].
  - rewrite list_lookup_alter, decide_True by done. destruct (g_clients s !! i); [|done].
    simpl. by rewrite Hf.
  - by rewrite list_lookup_alter_ne.
Qed.
Lemma engs_rcvs s s' : rcvs s' = rcvs s -> engs s' = engs s.
Proof.
  intros E. assert (forall t, engs t = map (fun x => x.1.1.1) (rcvs t)) as H.
  { intros t. unfold engs, rcvs. rewrite map_map. done. }
  by rewrite !H, E.
Qed.

Lemma announce_ok c ex : cl_ok false c ->
  (bad_length (pending c) = true -> ex = true) ->
  (bad_length (pending c) = false -> parse_step (pending c) = None \/ ex = true) ->
  cl_ok ex (announce (pending c) c).
Proof.
  intros (Hm & Hu) Hbad Hgood. split; [exact Hm|]. intros Hus.
  destruct (Hu Hus) as (? & ? & _). split; [done|split; [done|]]. intros ->.
  destruct (bad_length (pending c)) eqn:Eb; [by specialize (Hbad eq_refl)|].
  unfold exp_ok, announce, announced. cbn [expected_len setf in_used in_buf].
  change (expected_len (c <| expected_len := ?x |>)) with x.
  unfold bad_length in Eb. rewrite (zlen_pending c Hm) in *.
  destruct (Z.leb_spec 4 (in_used c)) as [H4|H4]; [|by left].
  pose proof (dec32be_range _ (pending_bytes c Hm)) as Hr. unfold is_u32 in Hr.
  rewrite (dec32be_pending c Hm H4) in *. simpl in Eb. apply Z.ltb_ge in Eb.
  destruct (decide (br_dec32be (in_buf c) = 0)) as [E0|E0]; [by left|]. right.
  split; [done|split; [done|lia]].
Qed.

Lemma ok_set_in ex ex' F b s i f : ok ex F b s ->
  (ex' = ex \/ (ex = None /\ ex' = Some i) \/ (ex' = None /\ ex = Some i)) ->
  (forall c, g_clients s !! i = Some c ->
     cl_ok (bool_decide (ex' = Some i)) (f c) /\ fd (f c) = fd c /\ state (f c) = state c) ->
  ok ex' F b (set_in i f s).
Proof. apply ok_upd. Qed.

(** The index of the client whose length field may be illegal after a result. *)
Definition ex_of (i : nat) (r : option Z) : option nat := match r with Some _ => Some i | None => None end.

Lemma json_loop_wp F b s i : ok None F b s -> in_use F i -> JSON_BUF_SIZE < Z.of_nat fuel ->
  wp (json_loop g_cfg fuel i)
    (fun r s' => ok (ex_of i r) F b s' /\ engs s' = engs s /\ (r = None \/ r = Some (-1))) s.
Proof.
  intros Hok Hu Hf. set (E := engs s).
  apply (wp_loop (fun s => ok None F b s /\ engs s = E)
           (fun s => match g_clients s !! i with Some c => Z.to_nat (in_used c) | None => 0%nat end)).
  2:{ done. }
  2:{ destruct (in_use_client _ _ _ _ Hok Hu) as (c & Hc & (Hm & _) & _). rewrite Hc.
      destruct Hm as (_ & _ & _ & _ & _ & _ & ? & _). lia. }
  clearbody E. clear s Hok. intros s [Hok HE].
  destruct (in_use_client _ _ _ _ Hok Hu) as (c & Hc & Hcl & Hus & _). rewrite Hc.
  pose proof Hcl as (Hm & Hcu). destruct (Hcu Hus) as (_ & _ & Hexp). specialize (Hexp eq_refl).
  pose proof (json_body_eq i s c Hc Hm Hexp) as Eq.
  destruct (parse_step (pending c)) as [[m r]|] eqn:Ep.
  - destruct (sys_malloc (world s) (zlen m + 1)) as [w okm] eqn:Ew.
    apply os_malloc in Ew. pose proof (parse_step_shorter _ _ _ Ep) as (Hlen & Hmlen & _ & Hms).
    assert (ok None F b (s <| world := w |>)) as Hok1.
    { apply ok_world; [done|]. destruct Hok as (_ & _ & ?). lia. }
    destruct okm.
    + destruct (consume_spec c m r Hm Ep) as (Hm' & Hp' & He').
      assert (ok None F b (set_in i (consume (zlen m)) (s <| world := w |>))) as Hok2.
      { eapply ok_set_in; [done|by left|]. intros d Hd. assert (d = c) as -> by (cbn in Hd; congruence).
        split; [|done]. split; [done|]. intros Hus'. destruct (Hcu Hus) as (? & ? & _). done. }
      assert (Forall is_u8 m) as Hmb.
      { rewrite Hms. by apply Forall_zslice, pending_bytes. }
      destruct (on_json_wp None F b _ (fd c) m Hok2 Hmb) as (u & s2 & E2 & Hok3 & Hr2).
      apply (wp_intro _ _ _ None s2).
      { rewrite Eq. by rewrite (run_bind _ _ _ _ _ E2). }
      split; [split; [done|]|].
      * rewrite (engs_rcvs _ _ Hr2), engs_set_in by done. exact HE.
      * destruct (rcvs_client _ s2 i (consume (zlen m) c) Hr2) as (c2 & Hc2 & Hrc).
        { by apply (set_in_lookup (s <| world := w |>) i c). }
        rewrite Hc2. injection Hrc as _ _ Eu _. rewrite Eu.
        pose proof (zlen_pending _ Hm). pose proof (zlen_pending _ Hm') as Hl'. rewrite Hp' in Hl'. lia.
    + eapply wp_intro; [exact Eq|]. cbv beta iota. split; [|split; [by rewrite engs_set_in|by right]].
      eapply ok_set_in; [done|by right; left|]. intros d Hd. assert (d = c) as -> by (cbn in Hd; congruence).
      split; [|done]. apply announce_ok; [done|..]; rewrite bool_decide_true by done; auto.
  - eapply wp_intro; [exact Eq|]. destruct (bad_length (pending c)) eqn:Eb.
    + split; [|split; [by rewrite engs_set_in|by right]].
      eapply ok_set_in; [done|by right; left|]. intros d Hd. assert (d = c) as -> by congruence.
      split; [|done]. apply announce_ok; [done|..]; rewrite bool_decide_true by done; auto.
    + split; [|split; [by rewrite engs_set_in|by left]].
      eapply ok_set_in; [done|by left|]. intros d Hd. assert (d = c) as -> by congruence.
      split; [|done]. apply announce_ok; [done|..]; rewrite ?Eb; auto.
Qed.

(** *** Reading and writing application data *)

Lemma ok_weaken F b s i : ok None F b s -> ok (Some i) F b s.
Proof.
  intros ((Hl & Hc) & ? & ?). split; [|done]. split; [done|]. intros j c Hj.
  destruct (Hc j c Hj) as [Hm Hu]. split; [done|]. intros Hus. destruct (Hu Hus) as (? & ? & He).
  split; [done|split; [done|]]. intros _. by apply He.
Qed.

(** Appending received bytes. *)
Definition append_in (bs : list Z) (e : engine RI RO HS) c : client :=
  c <| in_buf := zblit (in_buf c) (in_used c) bs |> <| in_used := in_used c + zlen bs |> <| eng := e |>.

Lemma append_in_ok c bs e : cl_ok false c -> used c -> Forall is_u8 bs -> eng_inv client_layout e ->
  in_used c + zlen bs <= JSON_BUF_SIZE ->
  cl_ok false (append_in bs e c) /\ pending (append_in bs e c) = pending c ++ bs.
Proof.
  intros (Hm & Hu) Hus Hb He Hfit. destruct (Hu Hus) as (_ & Hfd & Hexp). specialize (Hexp eq_refl).
  pose proof (zlen_pending c Hm) as Lp. pose proof (layout_mem e He) as (Hml & Hmb & _).
  pose proof Hm as (_ & _ & Lb & Hbb & Ho1 & Ho2 & Hur & Ho3).
  assert (pending (append_in bs e c) = pending c ++ bs) as Hp.
  { unfold pending, append_in. cbn. unfold zblit.
    rewrite ztake_app_ge; unfold pending in Lp; [|lia]. rewrite Lp. f_equal.
    replace (in_used c + zlen bs - in_used c) with (zlen bs) by lia.
    rewrite ztake_app_le by lia. by apply ztake_ge. }
  assert (cl_mem (append_in bs e c)) as Hm'.
  { split; [done|split; [done|]]. unfold append_in. cbn. rewrite zlen_zblit by lia.
    split; [done|]. split; [by apply Forall_zblit|]. split; [done|]. split; [done|]. split; [lia|done]. }
  split; [|done]. split; [done|]. intros _. split; [done|split; [done|]]. intros _.
  destruct Hexp as [?|(H4 & Hx & ?)]; [by left|right].
  change (in_used (append_in bs e c)) with (in_used c + zlen bs).
  change (expected_len (append_in bs e c)) with (expected_len c).
  split; [lia|split; [|done]]. rewrite Hx.
  rewrite <- (dec32be_pending c), <- (dec32be_pending (append_in bs e c)), Hp, dec32be_app; try done; try lia.
  change (in_used (append_in bs e c)) with (in_used c + zlen bs). lia.
Qed.

Lemma has_recvapp (e : engine RI RO HS) p n : br_ssl_engine_recvapp_buf e = Some (p, n) ->
  has (br_ssl_engine_current_state e) BR_SSL_RECVAPP = true.
Proof.
  intros H. destruct (br_ssl_engine_closed e) eqn:Hc.
  { unfold br_ssl_engine_recvapp_buf in H. case_match; [done|]. unfold recvpld_buf in H.
    apply bool_decide_eq_true in Hc. by rewrite Hc in H. }
  destruct (state_flags e Hc) as (_ & _ & _ & _ & F). unfold has. unfold has_flag in F.
  rewrite F, H. done.
Qed.

Lemma recvapp_drained lay (e : engine RI RO HS) p n : eng_inv lay e ->
  br_ssl_engine_recvapp_buf e = Some (p, n) ->
  br_ssl_engine_recvapp_buf (br_ssl_engine_recvapp_ack e n) = None.
Proof.
  intros Hinv H. unfold br_ssl_engine_recvapp_buf in H |- *. destruct (_ || _) in H; [done|].
  case_match; [done|]. by eapply recvpld_ack_all.
Qed.

Lemma read_plain_wp F b s i : ok None F b s -> in_use F i -> JSON_BUF_SIZE < Z.of_nat fuel ->
  wp (tlsv2_engine_read_plain g_cfg fuel i)
    (fun r s' => ok (if r <? 0 then Some i else None) F b s') s.
Proof.
  intros Hok Hu Hf. unfold tlsv2_engine_read_plain.
  apply (wp_loop (ok None F b) (fun s => match g_clients s !! i with
    | Some c => if opened (br_ssl_engine_recvapp_buf (eng c)) then 1 else 0 | None => 0 end%nat)); [|done|].
  2:{ unfold JSON_BUF_SIZE, TLSV2_MAX_JSON_SIZE in *. repeat case_match; lia. }
  clear s Hok. intros s Hok. destruct (in_use_client _ _ _ _ Hok Hu) as (c & Hc & Hcl & Hus & Hinv).
  rewrite Hc. apply wp_bind, (wp_get_client i c); [done|].
  destruct (has _ _) eqn:Hst; simpl negb; cbv iota; [|by apply wp_ret].
  destruct (br_ssl_engine_recvapp_buf (eng c)) as [[p n]|] eqn:Hbuf; [|by apply wp_ret].
  assert (recvpld_buf (eng c) = Some (p, n)) as Hpld.
  { unfold br_ssl_engine_recvapp_buf in Hbuf. by destruct (_ || _) in Hbuf. }
  destruct (recvpld_buf_inv (eng c) p n Hinv Hpld) as (Hl & Hp & ? & ? & Hn & ?).
  pose proof (layout_mem _ Hinv) as (Hml & Hmb & Hib & Hil & _).
  pose proof Hcl as (Hm & _). pose proof Hm as (_ & _ & Lb & _ & _ & _ & Hur & _).
  unfold TLSV2_IOBUF_SIZE, TLSV2_PLAINTEXT_SIZE, JSON_BUF_SIZE, TLSV2_MAX_JSON_SIZE in *.
  rewrite szadd_small by lia. destruct (Z.ltb_spec (65536 + 4) (in_used c + n)) as [Hov|Hfit].
  { apply wp_ret. by apply ok_weaken. }
  apply wp_bind, wp_read_at; [lia|lia|lia|]. set (bs := zslice (mem (eng c)) p n).
  assert (zlen bs = n) as Lbs by (apply zlen_zslice; lia).
  assert (Forall is_u8 bs) as Hbs by (by apply Forall_zslice).
  apply wp_bind, wp_write_at; [lia|lia|].
  set (e := br_ssl_engine_recvapp_ack (eng c) n).
  assert (eng_inv client_layout e) as He by (eapply recvapp_ack_public; [done|done|lia]).
  apply wp_bind, wp_upd_client.
  match goal with |- wp _ _ ?x => set (s1 := x) end.
  assert (s1 = set_in i (append_in bs e) s) as Es1.
  { subst s1. apply set_in_ext. intros d Hd.
    assert (d = c) as -> by congruence. unfold append_in. rewrite Lbs. by rewrite szadd_small by lia. }
  destruct (append_in_ok c bs e Hcl Hus Hbs He) as [Hcl1 Hp1]; [unfold JSON_BUF_SIZE, TLSV2_MAX_JSON_SIZE; lia|].
  assert (ok None F b s1) as Hok1.
  { rewrite Es1. eapply ok_set_in; [done|by left|]. intros d Hd. assert (d = c) as -> by congruence. done. }
  eapply wp_mono; [by apply json_loop_wp|]. intros r s2 (Hok2 & Hengs & Hr).
  destruct Hr as [->| ->]; [|done]. split; [done|].
  destruct (in_use_client _ _ _ _ Hok2 Hu) as (c2 & Hc2 & _). rewrite Hc2.
  assert (eng c2 = e) as ->.
  { assert (engs s2 !! i = engs s1 !! i) as E by (by rewrite Hengs). unfold engs in E.
    rewrite !list_lookup_fmap, Hc2, Es1, (set_in_lookup s i c _ Hc) in E. by injection E. }
  subst e. rewrite (recvapp_drained client_layout _ p n) by done. simpl. lia.
Qed.

Lemma sendapp_filled lay (e : engine RI RO HS) p n bs : eng_inv lay e ->
  br_ssl_engine_sendapp_buf e = Some (p, n) -> Forall is_u8 bs -> zlen bs = n ->
  br_ssl_engine_sendapp_buf (br_ssl_engine_sendapp_ack (e <| mem := zblit (mem e) p bs |>) n) = None.
Proof.
  intros Hinv H Hbs Hn. unfold br_ssl_engine_sendapp_buf in H |- *. destruct (app_ok e); [|done].
  destruct (sendpld_buf_inv e p n Hinv H) as (Hl & -> & ? & ? & -> & ? & ?).
  pose proof (bufs_facts e (proj1 Hl)).
  assert (eng_inv lay (e <| mem := zblit (mem e) (obase e + oxa e) bs |>)) as Hinv1.
  { split; [apply bufs_blit; try done; try lia; apply Hl|]. intros _. exact (proj2 Hl). }
  unfold br_ssl_engine_sendapp_ack. rewrite (sendpld_ack_all _ _ _ Hinv1 H). by case_match.
Qed.

Lemma write_plain_wp F b s i : ok None F b s -> in_use F i -> JSON_BUF_SIZE < Z.of_nat fuel ->
  wp (tlsv2_engine_write_plain fuel i) (fun r s' => 0 <= r /\ ok None F b s') s.
Proof.
  intros Hok Hu Hf. unfold tlsv2_engine_write_plain.
  destruct (in_use_client _ _ _ _ Hok Hu) as (c & Hc & _).
  apply wp_bind, (wp_get_client i c); [done|].
  destruct (Z.leb_spec (out_used c) (out_sent c)) as [|Hlt]; [by apply wp_ret|].
  apply (wp_loop (fun s => ok None F b s /\ exists c, g_clients s !! i = Some c /\ out_sent c < out_used c)
     (fun s => match g_clients s !! i with
       | Some c => if opened (br_ssl_engine_sendapp_buf (eng c)) then 1 else 0 | None => 0 end%nat)).
  2:{ eauto. }
  2:{ unfold JSON_BUF_SIZE, TLSV2_MAX_JSON_SIZE in *. repeat case_match; lia. }
  clear s Hok c Hc Hlt. intros s [Hok (c & Hc & Hlt)]. rewrite Hc.
  destruct (in_use_fd _ _ _ _ _ Hok Hu Hc) as [Hcl Hinv].
  apply wp_bind, (wp_get_client i c); [done|].
  destruct (has _ _) eqn:Hst; simpl negb; cbv iota; [|by apply wp_ret].
  destruct (br_ssl_engine_sendapp_buf (eng c)) as [[p n]|] eqn:Hbuf; [|by apply wp_ret].
  assert (sendpld_buf (eng c) = Some (p, n)) as Hpld.
  { unfold br_ssl_engine_sendapp_buf in Hbuf. by destruct (app_ok _) in Hbuf. }
  destruct (sendpld_buf_inv (eng c) p n Hinv Hpld) as (Hl & Hp & ? & ? & Hn & ? & ?).
  pose proof (layout_mem _ Hinv) as (Hml & Hmb & _ & _ & Hob & Hol).
  pose proof Hcl as (Hm & _). pose proof Hm as (_ & _ & _ & _ & Lo & Hob' & _ & Ho1 & Ho2).
  unfold TLSV2_IOBUF_SIZE, TLSV2_PLAINTEXT_SIZE, JSON_BUF_SIZE, TLSV2_MAX_JSON_SIZE in *.
  rewrite szsub_small by lia.
  set (k := if n <? out_used c - out_sent c then n else out_used c - out_sent c).
  assert (0 < k <= n /\ k <= out_used c - out_sent c /\ (k < out_used c - out_sent c -> k = n)) as (Hk & Hk' & Hkn).
  { subst k. destruct (Z.ltb_spec n (out_used c - out_sent c)); lia. }
  clearbody k. apply wp_bind, wp_read_at; [lia|lia|lia|]. set (bs := zslice (out_buf c) (out_sent c) k).
  assert (zlen bs = k) as Lbs by (apply zlen_zslice; lia).
  assert (Forall is_u8 bs) as Hbs by (by apply Forall_zslice).
  apply wp_bind, wp_write_at; [lia|lia|].
  set (e := br_ssl_engine_sendapp_ack ((eng c) <| mem := zblit (mem (eng c)) p bs |>) k).
  assert (eng_inv client_layout e) as He.
  { subst e. rewrite <- Lbs. eapply sendapp_ack_public; [done|done|done|lia]. }
  apply wp_bind, wp_upd_client. match goal with |- wp _ _ ?x => set (s1 := x) end.
  set (c1 := c <| out_sent := out_sent c + k |> <| eng := e |>).
  assert (s1 = set_in i (fun _ => c1) s) as Es1.
  { subst s1. apply set_in_ext. intros d Hd. assert (d = c) as -> by congruence.
    subst c1. by rewrite szadd_small by lia. }
  assert (forall u t, 0 <= t <= u -> u <= 65540 ->
    cl_ok false (c <| out_used := u |> <| out_sent := t |> <| eng := e |>)) as Hcl1.
  { intros u t ? ?. apply cl_ok_eng; [|done].
    destruct Hcl as ((? & ? & ? & ? & ? & ? & ? & ?) & Hcu). split; [|exact Hcu].
    unfold cl_mem. cbn. unfold JSON_BUF_SIZE, TLSV2_MAX_JSON_SIZE. tauto. }
  assert (g_clients s1 !! i = Some c1) as Hc1 by (rewrite Es1; by apply (set_in_lookup s i c)).
  assert (forall u t, 0 <= t <= u -> u <= 65540 ->
    ok None F b (set_in i (fun _ => c <| out_used := u |> <| out_sent := t |> <| eng := e |>) s)) as Hok1.
  { intros u t ? ?. eapply ok_set_in; [done|by left|]. intros d Hd.
    assert (d = c) as -> by congruence. split; [by apply Hcl1|done]. }
  apply wp_bind, (wp_get_client i c1); [done|].
  change (out_used c1) with (out_used c). change (out_sent c1) with (out_sent c + k).
  destruct (Z.leb_spec (out_used c) (out_sent c + k)) as [Hdone|Hmore].
  - apply wp_bind, wp_upd_client, wp_ret. split; [lia|].
    match goal with |- ok _ _ _ ?x => assert (x =
      set_in i (fun _ => c <| out_used := 0 |> <| out_sent := 0 |> <| eng := e |>) s) as -> end.
    { rewrite Es1. apply (set_in_set_in i _ (fun _ => c1) _ s c Hc). done. }
    apply Hok1; lia.
  - apply wp_ret. split; [split|].
    + assert (s1 = set_in i (fun _ => c <| out_used := out_used c |>
        <| out_sent := out_sent c + k |> <| eng := e |>) s) as ->; [|apply Hok1; lia].
      rewrite Es1. apply set_in_ext. intros d _. subst c1. by destruct c.
    + exists c1. split; [done|]. cbn. lia.
    + rewrite Hc1. change (eng c1) with e. subst e. rewrite (Hkn ltac:(lia)).
      rewrite (sendapp_filled client_layout _ p n bs) by (done || lia). simpl. lia.
Qed.

(** *** One client, and one turn of the server *)

Lemma in_use_lt F b s i : ok None F b s -> in_use F i -> (i < TLSV2_MAX_CLIENTS)%nat.
Proof.
  intros Hok Hu. destruct (in_use_client _ _ _ _ Hok Hu) as (c & Hc & _).
  destruct Hok as ((Hl & _) & _). apply lookup_lt_Some in Hc. lia.
Qed.

Lemma handle_wp b s i : live b s -> (i < TLSV2_MAX_CLIENTS)%nat -> (b < fuel)%nat ->
  JSON_BUF_SIZE < Z.of_nat fuel ->
  wp (tlsv2_handle_client g_cfg fuel i) (fun _ => live b) s.
Proof.
  intros Hlive Hi Hf Hf'. pose proof (live_ok _ _ Hlive) as Hok. set (F := fds s) in *. clearbody F.
  destruct (ok_lookup _ _ _ _ _ Hok Hi) as [c Hc]. unfold tlsv2_handle_client.
  apply wp_bind, (wp_get_client i c); [done|]. destruct (is_unused c) eqn:Hun; [by apply wp_ret|].
  assert (in_use F i) as Hu.
  { exists (fd c), (state c). split; [by eapply ok_state|]. by apply is_unused_false in Hun. }
  clear c Hc Hun Hlive. apply wp_bind. eapply wp_mono; [by apply recv_wp|]. cbv beta.
  clear s Hok. intros r s Hok.
  apply wp_bind. apply (wp_mono _ (fun _ => ok None F b)).
  { destruct (r <? 0); [by apply wp_ret|by apply send_wp]. }
  clear r s Hok. intros r s Hok. destruct (r <? 0); [by eapply close_wp; [|left|]|].
  destruct (in_use_client _ _ _ _ Hok Hu) as (c & Hc & Hcl & Hus & Hinv).
  apply wp_bind, (wp_get_client i c); [done|].
  destruct (_ && has _ BR_SSL_CLOSED); [by eapply close_wp; [|left|]|].
  apply wp_bind. apply (wp_mono _ (fun _ s => exists F', ok None F' b s /\ in_use F' i)).
  { case_match eqn:Hopen; [|apply wp_ret; eauto]. apply wp_upd_client.
    eexists. split; [eapply live_ok, live_upd; [done|by left|]|].
    - intros d Hd. assert (d = c) as -> by congruence.
      destruct Hcl as [Hm Hcu]. split; [exact Hm|]. intros _. exact (Hcu Hus).
    - exists (fd c), TLSV2_STATE_OPEN. split; [|done]. unfold fds. cbn [setf g_clients]. simpl.
      by rewrite list_lookup_fmap, list_lookup_alter, decide_True, Hc. }
  clear r s F c Hok Hu Hc Hcl Hus Hinv. intros ? s (F & Hok & Hu).
  destruct (in_use_client _ _ _ _ Hok Hu) as (c & Hc & _).
  apply wp_bind, (wp_get_client i c); [done|].
  apply wp_bind. apply (wp_mono _ (fun r s => ok (if r <? 0 then Some i else None) F b s)).
  { case_match; [|by apply wp_ret]. apply wp_bind. eapply wp_mono; [by apply read_plain_wp|].
    cbv beta. intros r s1 Hok1. destruct (r <? 0) eqn:Hr; [apply wp_ret; by rewrite Hr|].
    eapply wp_mono; [by apply write_plain_wp|]. cbv beta. intros r2 s2 [Hr2 Hok2].
    by replace (r2 <? 0) with false by lia. }
  cbv beta. clear c Hc s Hok. intros r s Hok. destruct (r <? 0).
  { eapply close_wp; [done|by right|done]. }
  apply wp_bind. eapply wp_mono; [by apply send_wp|]. cbv beta. clear r s Hok. intros r s Hok.
  destruct (r <? 0); [by eapply close_wp; [|left|]|]. apply wp_ret. by eapply ok_live.
Qed.

(** *** What handling a client leaves alone *)

(** A relation that the world does not matter for, that changes inside a client keep,
    and that client [i] keeps when it is closed. *)
Class StoreRel (i : nat) (R : srv -> srv -> Prop) : Prop := {
  store_preorder :: PreOrder R;
  store_world : forall s w, R s (s <| world := w |>);
  store_inner : forall s k f, (forall c, fd (f c) = fd c /\ state (f c) = state c) -> R s (set_in k f s);
  store_client : forall s f, (forall c, fd (f c) = fd c \/ fd (f c) = GFNS_INVALID_SOCK) -> R s (set_in i f s) }.

Section store_rel.
Context (i : nat) (R : srv -> srv -> Prop) `{!StoreRel i R}.
Lemma keep_get k : respects R (get_client k).
Proof. intros s a s'. unfold get_client. destruct (_ !! _); [intros [= _ <-]; reflexivity|done]. Qed.
Lemma keep_find p : respects R (find_client p).
Proof. intros s a s' [= _ <-]. reflexivity. Qed.
Lemma keep_sys {A} (f : W -> W * A) : respects R (sys f).
Proof. intros s a s'. unfold sys. destruct (f (world s)) as [w b]. intros [= _ <-]. apply (store_world (i := i)). Qed.
Lemma keep_world w : respects R (mset (fun s => s <| world := w |>)).
Proof. intros s a s' [= _ <-]. apply (store_world (i := i)). Qed.
Lemma keep_would_block : respects R gfns_would_block.
Proof. intros s a s' [= _ <-]. reflexivity. Qed.
Lemma keep_inner k f : (forall c, fd (f c) = fd c /\ state (f c) = state c) -> respects R (upd_client k f).
Proof. intros Hf s a s' [= _ <-]. by apply (store_inner (i := i)). Qed.
Lemma keep_client f : (forall c, fd (f c) = fd c \/ fd (f c) = GFNS_INVALID_SOCK) -> respects R (upd_client i f).
Proof. intros Hf s a s' [= _ <-]. by apply store_client. Qed.

Ltac keep_step :=
  match goal with
  | |- respects _ (mbind' _ _) => apply respects_bind; [apply _| |intro]
  | |- respects _ (mret' _) => apply respects_ret, _
  | |- respects _ (mlift _) => apply respects_lift, _
  | |- respects _ mget => apply respects_mget, _
  | |- respects _ (get_client _) => apply keep_get
  | |- respects _ (find_client _) => apply keep_find
  | |- respects _ (sys _) => apply keep_sys
  | |- respects _ gfns_would_block => apply keep_would_block
  | |- respects _ (upd_client i _) => apply keep_client; intros; cbn; auto
  | |- respects _ (mloop _ _) => apply respects_loop; [apply _|]
  | |- respects _ (mset (fun s => setf _ s)) => apply keep_world
  | |- respects _ (match ?x with _ => _ end) => destruct x
  end.

Lemma keep_send_json id json : respects R (tlsv2_send_json id json).
Proof. unfold tlsv2_send_json. repeat keep_step. by apply keep_inner. Qed.
Lemma keep_prog (p : prog W) : respects R (run_prog p).
Proof.
  induction p as [w|w id json k IH]; cbn [run_prog]; [keep_step|].
  keep_step; [keep_step|]. keep_step; [apply keep_send_json|apply IH].
Qed.
Lemma keep_callback o : respects R (callback o).
Proof. unfold callback. repeat keep_step. apply keep_prog. Qed.
Lemma keep_handle : respects R (tlsv2_handle_client g_cfg fuel i).
Proof.
  assert (respects R (tlsv2_engine_send fuel i)) as Hsend by (unfold tlsv2_engine_send; repeat keep_step).
  assert (respects R (tlsv2_client_close g_cfg i)) as Hclose.
  { unfold tlsv2_client_close, on_client_disconnected'. repeat keep_step; apply keep_callback. }
  unfold tlsv2_handle_client, tlsv2_engine_recv, tlsv2_engine_read_plain, tlsv2_engine_write_plain, json_loop, json_loop_body, on_json_received'.
  repeat (keep_step || apply Hsend || apply Hclose || apply keep_callback).
Qed.
End store_rel.

(** The descriptors fit into an [fd_set]. *)
Definition small s : Prop := Forall (fun c => fd c < FD_SETSIZE) (g_clients s).
(** The open-file limit of the process is at most [FD_SETSIZE]. *)
Definition accepts_small : Prop := forall w f w' n, sys_accept w f = (w', Some n) -> n < FD_SETSIZE.
Definition keeps_small s s' : Prop := small s -> small s'.

#[export] Instance keeps_small_preorder : PreOrder keeps_small.
Proof. split; unfold keeps_small; [by intros s|by intros s t u; auto]. Qed.
Lemma small_set_in k f s : (forall c, fd c < FD_SETSIZE -> fd (f c) < FD_SETSIZE) -> keeps_small s (set_in k f s).
Proof. intros Hf Hs. unfold small. apply Forall_alter; [exact Hs|]. intros c _. apply Hf. Qed.
#[export] Instance keeps_small_rel i : StoreRel i keeps_small.
Proof.
  constructor.
  - apply _.
  - by intros s w H.
  - intros s k f Hf. apply small_set_in. intros c. by destruct (Hf c) as [-> _].
  - intros s f Hf. apply small_set_in. intros c. unfold GFNS_INVALID_SOCK, FD_SETSIZE in *. destruct (Hf c) as [->| ->]; lia.
Qed.

Lemma accept_small cs sk : accepts_small ->
  respects keeps_small (tlsv2_accept_new_client rin0 server_init_full_rsa init_main g_cfg g_listen_fd fuel cs sk).
Proof.
  intros Hacc. unfold tlsv2_accept_new_client. apply respects_loop; [apply _|].
  apply (respects_bind_if _ (fun o => forall n, o = Some n -> n < FD_SETSIZE)).
  { intros s o s'. unfold sys. destruct (sys_accept (world s) g_listen_fd) as [w r] eqn:E. intros [= <- <-].
    split; [by intros H|]. intros c ->. by apply (Hacc _ _ _ _ E). }
  intros [c|] Hc; [|by apply respects_ret, _]. specialize (Hc c eq_refl).
  assert (respects keeps_small (sys (fun w => (sys_close w c, tt)) ;;! mret' (@None unit))) as Hclose.
  { apply respects_bind; [apply _|apply (keep_sys 0 keeps_small)|intros _; apply respects_ret, _]. }
  apply respects_bind; [apply _|apply (keep_sys 0 keeps_small)|]. intros [|]; [|done]. cbn [negb].
  apply respects_bind; [apply _| |].
  - unfold tlsv2_client_alloc. apply respects_bind; [apply _|apply (keep_find 0 keeps_small)|]. intros [k|]; [|apply respects_ret, _].
    apply respects_bind; [apply _| |intros _].
    { intros s a s' [= _ <-]. by apply small_set_in. }
    apply respects_bind; [apply _|apply (keep_get 0 keeps_small)|intros d].
    apply respects_bind; [apply _|apply (keep_sys 0 keeps_small)|intros oe].
    apply respects_bind; [apply _|apply respects_lift, _|intros e].
    apply respects_bind; [apply _|by apply (keep_inner 0 keeps_small)|intros _]. apply respects_ret, _.
  - intros [k|]; [|done]. apply respects_bind; [apply _|apply (keep_callback 0 keeps_small)|intros _; apply respects_ret, _].
Qed.

(** *** One turn of the server *)

Lemma fd_sets_ok cl : forall rw, Forall (fun c => used c -> 0 <= fd c < FD_SETSIZE) cl ->
  fd_sets cl rw = Some (rw.1 ++ map fd (filter (fun c => is_unused c = false) cl), rw.2 ++ map fd (filter (fun c => is_unused c = false) cl)).
Proof.
  induction cl as [|c cl IH]; intros [r w] H; cbn [fd_sets fst snd]; [by rewrite !app_nil_r|].
  rewrite Forall_cons in H. destruct H as [Hc H]. destruct (is_unused c) eqn:Hu.
  - rewrite filter_cons_False by (by rewrite Hu). by rewrite IH.
  - rewrite filter_cons_True by done. apply is_unused_false, Hc in Hu as Hfd.
    unfold fd_set_add, fd_in_set. rewrite (proj2 (Z.leb_le 0 (fd c))), (proj2 (Z.ltb_lt (fd c) FD_SETSIZE)) by lia. cbn [andb mbind option_bind].
    rewrite IH by done. cbn [fst snd map]. by rewrite <- !app_assoc.
Qed.
Lemma fd_sets_over cl c : forall rw, c ∈ cl -> used c -> FD_SETSIZE <= fd c -> fd_sets cl rw = None.
Proof.
  induction cl as [|d cl IH]; intros rw Hin Hu Hfd; [by apply not_elem_of_nil in Hin|]. cbn [fd_sets].
  apply elem_of_cons in Hin as [<-|Hin].
  - apply is_unused_false in Hu. rewrite Hu. unfold fd_set_add, fd_in_set. by rewrite (proj2 (Z.ltb_ge (fd c) FD_SETSIZE)), andb_false_r by done.
  - destruct (is_unused d); [by apply IH|]. unfold fd_set_add. destruct (fd_in_set (fd d)); [|done]. cbn [mbind option_bind]. by apply IH.
Qed.
Lemma fd_isset_ok f l : 0 <= f < FD_SETSIZE -> fd_isset f l = Some (bool_decide (f ∈ l)).
Proof. intros. unfold fd_isset, fd_in_set. by rewrite (proj2 (Z.leb_le 0 f)), (proj2 (Z.ltb_lt f FD_SETSIZE)) by lia. Qed.

Lemma live_fd b s i c : live b s -> small s -> g_clients s !! i = Some c -> used c -> 0 <= fd c < FD_SETSIZE.
Proof.
  intros Hl Hs Hc Hu. split; [by eapply (ok_client _ _ _ _ _ _ (live_ok _ _ Hl) Hc)|].
  exact (Forall_lookup_1 _ _ _ _ Hs Hc).
Qed.
Lemma turn_wp b s cs sk : live b s -> small s -> 0 <= g_listen_fd < FD_SETSIZE -> accepts_small ->
  (b < fuel)%nat -> JSON_BUF_SIZE < Z.of_nat fuel ->
  wp (server_turn rin0 server_init_full_rsa init_main g_cfg g_listen_fd fuel cs sk) (fun _ s' => live b s' /\ small s') s.
Proof.
  intros Hlive Hs Hlfd Hacc Hf Hf'. apply wp_bind, wp_get, wp_bind.
  eapply wp_lift. { unfold fd_set_add, fd_in_set. by rewrite (proj2 (Z.leb_le 0 g_listen_fd)), (proj2 (Z.ltb_lt g_listen_fd FD_SETSIZE)) by lia. }
  apply wp_bind. eapply wp_lift.
  { apply fd_sets_ok. apply Forall_lookup_2. intros i c Hc Hu. by apply (live_fd b s i c). }
  apply wp_bind, wp_sys. intros w o E. apply os_select in E.
  assert (live b (s <| world := w |>)) as Hl by (destruct Hlive; split; [done|simpl; lia]).
  assert (small (s <| world := w |>)) as Hs1 by exact Hs.
  destruct o as [[rs ws]|]; [|by apply wp_ret].
  apply wp_bind. eapply wp_lift; [by apply fd_isset_ok|].
  apply wp_bind. apply (wp_mono _ (fun _ s' => live b s' /\ small s')).
  { case_match; [|by apply wp_ret]. eapply wp_mono; [apply wp_run, (accept_wp b); done|].
    intros a s' [Er H']. split; [done|]. by apply (accept_small cs sk Hacc _ _ _ Er). }
  intros ? s1 H1. apply wp_for; [|exact H1]. intros i s2 Hi [H2 Hs2].
  assert (i < TLSV2_MAX_CLIENTS)%nat as Hlt by (apply elem_of_seq in Hi; lia).
  destruct (ok_lookup _ _ _ _ i (live_ok _ _ H2) Hlt) as [c Hc].
  apply wp_bind, (wp_get_client i c); [done|]. destruct (is_unused c) eqn:Hu; [by apply wp_ret|].
  apply is_unused_false in Hu. pose proof (live_fd b s2 i c H2 Hs2 Hc Hu) as Hfd.
  apply wp_bind. eapply wp_lift; [by apply fd_isset_ok|].
  apply wp_bind. apply (wp_mono _ (fun _ s' => s' = s2)).
  { case_match; [by apply wp_ret|]. eapply wp_lift; [by apply fd_isset_ok|done]. }
  intros w' s' ->. destruct w'; [|by apply wp_ret]. eapply wp_mono; [apply wp_run, (handle_wp b); done|].
  intros ? s' [Er H']. split; [done|]. by apply (keep_handle i keeps_small _ _ _ Er).
Qed.

(** *** What the application sees *)

(** The messages handed to the callback, in order, each after its allocation; what is
    left of them when an allocation fails. *)
Fixpoint deliver (id : Z) (ms : list (list Z)) : M srv (list (list Z)) :=
  match ms with
  | [] => mret' []
  | m :: rest =>
      let! ok := sys (fun w => sys_malloc w (zlen m + 1)) in
      if ok then on_json_received' g_cfg id m ;;! deliver id rest else mret' ms
  end.

(** Replacing the receiving half of a client, which the callbacks neither read
    nor write. *)
Definition put_rcv (b : list Z) (u x : Z) (e : engine RI RO HS) c : client :=
  c <| in_buf := b |> <| in_used := u |> <| expected_len := x |> <| eng := e |>.

Lemma find_from_alter (p : client -> bool) f i l k : (forall c, p (f c) = p c) ->
  find_from p k (alter f i l) = find_from p k l.
Proof.
  intros Hp. revert i k. induction l as [|c l IH]; intros i k; [by destruct i|].
  destruct i as [|i]; simpl; [by rewrite Hp|]. change (list_alter f i l) with (alter f i l).
  by rewrite IH.
Qed.

(** Running from a state with another receiving half. *)
Definition commutes {A} (m : M srv A) : Prop := forall i b u x e s,
  m (set_in i (put_rcv b u x e) s) =
  match m s with Some (a, s') => Some (a, set_in i (put_rcv b u x e) s') | None => None end.

Lemma commutes_bind {A B} (m : M srv A) (k : A -> M srv B) :
  commutes m -> (forall a, commutes (k a)) -> commutes (mbind' m k).
Proof.
  intros Hm Hk i b u x e s. unfold mbind'. rewrite Hm. destruct (m s) as [[a s']|]; [|done]. apply Hk.
Qed.

Lemma send_json_commutes id json : commutes (tlsv2_send_json id json).
Proof.
  intros i b u x e s. unfold tlsv2_send_json. destruct (_ <? _); [done|].
  set (p := fun c => negb (is_unused c) && (fd c =? id)).
  assert (forall t : srv, find_client p t = Some (find_from p 0 (g_clients t), t)) as Hfc by done.
  rewrite !(run_bind _ _ _ _ _ (Hfc _)).
  change (g_clients (set_in i (put_rcv b u x e) s)) with (alter (put_rcv b u x e) i (g_clients s)).
  rewrite find_from_alter by done. destruct (find_from p 0 (g_clients s)) as [j|]; [|done].
  unfold mbind' at 1. unfold mbind' at 4. unfold get_client.
  change (g_clients (set_in i (put_rcv b u x e) s)) with (alter (put_rcv b u x e) i (g_clients s)).
  destruct (decide (i = j)) as [<-|Hij].
  - rewrite list_lookup_alter, decide_True by done.
    destruct (g_clients s !! i) as [c|] eqn:Hc; [|done]. simpl fmap. cbv iota.
    change (out_used (put_rcv b u x e c)) with (out_used c).
    change (out_sent (put_rcv b u x e c)) with (out_sent c).
    change (out_buf (put_rcv b u x e c)) with (out_buf c).
    destruct (negb _); [done|]. unfold mbind', mlift.
    destruct (write_at _ _ _) as [b1|]; [|done]. destruct (write_at b1 _ _) as [b2|]; [|done].
    unfold upd_client, mset, mret'. cbv beta iota. do 2 f_equal.
    etransitivity; [apply (set_in_set_in i _ _ (fun c => put_rcv b u x e (c <| out_buf := b2 |>
      <| out_used := 4 + zlen json |> <| out_sent := 0 |>)) s c Hc); done|].
    symmetry. by apply (set_in_set_in i _ _ _ s c Hc).
  - rewrite list_lookup_alter_ne by done.
    destruct (g_clients s !! j) as [c|] eqn:Hc; [|done].
    destruct (negb _); [done|]. unfold mbind', mlift.
    destruct (write_at _ _ _) as [b1|]; [|done]. destruct (write_at b1 _ _) as [b2|]; [|done].
    unfold upd_client, mset, mret'. cbv beta iota. do 2 f_equal.
    apply set_in_comm; done.
Qed.

Lemma run_prog_commutes p : commutes (run_prog p).
Proof.
  induction p as [w|w id json k IH]; simpl; [by intros i b u x e s|].
  apply commutes_bind; [by intros i b u x e s|intros _]. by apply commutes_bind; [apply send_json_commutes|].
Qed.

Lemma on_json_commutes id m : commutes (on_json_received' g_cfg id m).
Proof.
  unfold on_json_received', callback. destruct (on_json_received g_cfg); simpl; [|by intros i b u x e s].
  intros i b u x e s. apply run_prog_commutes.
Qed.

Lemma sys_commutes {A} (f : W -> W * A) : commutes (sys f).
Proof.
  intros i b u x e s. unfold sys. change (world (set_in i (put_rcv b u x e) s)) with (world s). by destruct (f (world s)).
Qed.
Lemma deliver_commutes id ms : commutes (deliver id ms).
Proof.
  induction ms as [|m ms IH]; cbn [deliver]; [by intros i b u x e s|].
  apply commutes_bind; [apply sys_commutes|]. intros [|]; [|by intros i b u x e s].
  apply commutes_bind; [apply on_json_commutes|done].
Qed.

Lemma deliver_wp F b s id ms : ok None F b s -> Forall (Forall is_u8) ms ->
  wp (deliver id ms) (fun _ s' => ok None F b s' /\ rcvs s' = rcvs s) s.
Proof.
  intros Hok Hms. revert s Hok. induction Hms as [|m ms Hm _ IH]; intros s Hok; [by apply wp_ret|].
  apply wp_bind, wp_sys. intros w okm E. apply os_malloc in E.
  assert (ok None F b (s <| world := w |>)) as Hok0 by (apply ok_world; [done|]; destruct Hok as (_ & _ & ?); lia).
  destruct okm; [|by apply wp_ret]. apply wp_bind. eapply wp_mono; [by apply on_json_wp|]. cbv beta. intros ? s1 [Hok1 E1].
  eapply wp_mono; [by apply IH|]. cbv beta. intros ? s2 [Hok2 E2]. split; [done|by rewrite E2].
Qed.

Lemma set_put_put i b u x e b' u' x' e' s :
  set_in i (put_rcv b' u' x' e') (set_in i (put_rcv b u x e) s) = set_in i (put_rcv b' u' x' e') s.
Proof.
  destruct (g_clients s !! i) as [c|] eqn:Hc; [by apply (set_in_set_in i _ _ _ s c Hc)|].
  assert (forall f, alter f i (g_clients s) = g_clients s) as H.
  { intros f. apply list_eq. intros j. destruct (decide (i = j)) as [<-|Hij].
    - by rewrite list_lookup_alter, decide_True, Hc.
    - by rewrite list_lookup_alter_ne. }
  unfold set_in.
  change (g_clients (s <| g_clients := alter (put_rcv b u x e) i (g_clients s) |>))
    with (alter (put_rcv b u x e) i (g_clients s)).
  by rewrite !H.
Qed.

Lemma same_client F b s s' i c : ok None F b s -> ok None F b s' -> rcvs s' = rcvs s ->
  g_clients s !! i = Some c ->
  exists c', g_clients s' !! i = Some c' /\ rcv c' = rcv c /\ fd c' = fd c /\ state c' = state c.
Proof.
  intros Hok Hok' E Hc. destruct (rcvs_client s s' i c E Hc) as (c' & Hc' & Hr).
  exists c'. split; [done|split; [done|]].
  pose proof (ok_state _ _ _ _ _ Hok Hc) as H1. pose proof (ok_state _ _ _ _ _ Hok' Hc') as H2.
  rewrite H1 in H2. by injection H2.
Qed.

(** How the loop ends: with the messages [rest] undelivered and the bytes [r] after them. *)
Definition loop_result (rest : list (list Z)) (r : list Z) : option Z :=
  match rest with [] => if bad_length r then Some (-1) else None | _ => Some (-1) end.
(** The first [u] bytes of the buffer [b] hold them. *)
Definition kept (b : list Z) (u : Z) (rest : list (list Z)) (r : list Z) : Prop :=
  zlen b = JSON_BUF_SIZE /\ 0 <= u <= JSON_BUF_SIZE /\ parse (ztake u b) = (rest, r).

Lemma json_loop_spec F b i : in_use F i -> forall k s c ms r,
  ok None F b s -> g_clients s !! i = Some c -> (length (pending c) < k)%nat ->
  parse (pending c) = (ms, r) ->
  exists rest s1 b' u' x', deliver (fd c) ms s = Some (rest, s1) /\
    mloop k (json_loop_body g_cfg i) s = Some (loop_result rest r, set_in i (put_rcv b' u' x' (eng c)) s1) /\
    kept b' u' rest r.
Proof.
  intros Hu. induction k as [|k IH]; intros s c ms r Hok Hc Hk Hp; [lia|].
  destruct (in_use_fd _ _ _ _ _ Hok Hu Hc) as [Hcl _].
  destruct (in_use_client _ _ _ _ Hok Hu) as (c0 & Hc0 & _ & Hus & _).
  assert (c0 = c) as -> by congruence. clear Hc0.
  pose proof Hcl as (Hm & Hcu). destruct (Hcu Hus) as (_ & _ & Hexp). specialize (Hexp eq_refl).
  pose proof Hm as (_ & _ & Lin & _ & _ & _ & Hin & _).
  assert (forall s' : srv, g_clients s' !! i = Some c -> set_in i (announce (pending c)) s' =
            set_in i (put_rcv (in_buf c) (in_used c) (announced (pending c)) (eng c)) s') as Hann.
  { intros s' Hc'. apply set_in_ext. intros d Hd. assert (d = c) as -> by congruence. by destruct c. }
  cbn [mloop]. unfold mbind' at 1. rewrite (json_body_eq i s c Hc Hm Hexp). pose proof Hp as Hp0.
  rewrite parse_unfold in Hp. destruct (parse_step (pending c)) as [[m p1]|] eqn:Ep.
  - destruct (parse p1) as [ms1 r1] eqn:Ep1. injection Hp as <- <-.
    destruct (sys_malloc (world s) (zlen m + 1)) as [w okm] eqn:Ew.
    assert (deliver (fd c) (m :: ms1) s = (if okm then on_json_received' g_cfg (fd c) m ;;! deliver (fd c) ms1 else mret' (m :: ms1))
      (s <| world := w |>)) as Hdel by (cbn [deliver]; unfold mbind' at 1, sys; by rewrite Ew).
    assert (ok None F b (s <| world := w |>)) as Hokw.
    { apply os_malloc in Ew. apply ok_world; [done|]. destruct Hok as (_ & _ & ?). lia. }
    destruct okm.
    2: { rewrite Hann by done. exists (m :: ms1), (s <| world := w |>), (in_buf c), (in_used c), (announced (pending c)).
         split; [exact Hdel|]. split; [done|]. by split. }
    set (sw := s <| world := w |>) in *. assert (g_clients sw !! i = Some c) as Hcw by done. clearbody sw.
    destruct (consume_spec c m p1 Hm Ep) as (Hm' & Hp' & He').
    pose proof (parse_step_shorter _ _ _ Ep) as (Hlen & Hmlen & _ & Hms).
    assert (Forall is_u8 m) as Hmb by (rewrite Hms; by apply Forall_zslice, pending_bytes).
    set (cc := consume (zlen m) c) in *.
    assert (set_in i (consume (zlen m)) sw = set_in i (put_rcv (in_buf cc) (in_used cc) 0 (eng c)) sw) as ->.
    { apply set_in_ext. intros d Hd. assert (d = c) as -> by congruence. by destruct c. }
    destruct (on_json_wp None F b sw (fd c) m Hokw Hmb) as (u & s2 & E2 & Hok2 & Hr2).
    destruct u. unfold mbind' at 1. rewrite on_json_commutes, E2. cbn [mret'].
    rewrite (run_bind _ _ _ _ _ E2) in Hdel.
    destruct (same_client _ _ _ _ _ _ Hokw Hok2 Hr2 Hcw) as (c2 & Hc2 & Hrc2 & Hfd2 & Hst2).
    set (s2' := set_in i (put_rcv (in_buf cc) (in_used cc) 0 (eng c)) s2).
    set (c2' := put_rcv (in_buf cc) (in_used cc) 0 (eng c) c2).
    assert (g_clients s2' !! i = Some c2') as Hc2' by (by apply (set_in_lookup s2 i c2)).
    destruct (ok_client _ _ _ _ _ _ Hok2 Hc2) as [Hcl2 _].
    change (bool_decide (None = Some i)) with false in Hcl2.
    assert (cl_ok false c2') as Hcl2'.
    { destruct Hcl2 as [(? & ? & _ & _ & ? & ? & _ & ?) Hcu2].
      destruct Hm' as (Hm1 & Hm2 & ? & ? & _ & _ & ? & _).
      split; [unfold cl_mem; cbn; tauto|]. intros _. destruct (Hcu Hus) as (? & ? & _).
      split; [done|]. split; [cbn; by rewrite Hfd2|]. intros _. by left. }
    assert (ok None F b s2') as Hok2'.
    { eapply ok_set_in; [done|by left|]. intros d Hd. assert (d = c2) as -> by congruence. done. }
    destruct (IH s2' c2' ms1 r1 Hok2' Hc2') as (rest & s3 & b' & u' & x' & Hd & Hl & Hk').
    { change (pending c2') with (pending cc). rewrite Hp'. lia. }
    { change (pending c2') with (pending cc). by rewrite Hp'. }
    change (fd c2') with (fd c2) in Hd. rewrite Hfd2 in Hd. unfold s2' in Hd. rewrite deliver_commutes in Hd.
    destruct (deliver (fd c) ms1 s2) as [[rest' s4]|] eqn:E4; [|done]. injection Hd as <- <-.
    exists rest', s4, b', u', x'. split; [exact Hdel|]. split; [|done]. rewrite Hl. do 2 f_equal. apply set_put_put.
  - injection Hp as <- <-. exists [], s, (in_buf c), (in_used c), (announced (pending c)).
    split; [done|]. split; [|done]. rewrite Hann by done. cbn [loop_result]. by destruct (bad_length (pending c)).
Qed.

(** A received record that fits. *)
Lemma read_plain_spec F b i s c p n ms r : JSON_BUF_SIZE < Z.of_nat fuel ->
  ok None F b s -> in_use F i -> g_clients s !! i = Some c ->
  br_ssl_engine_recvapp_buf (eng c) = Some (p, n) -> in_used c + n <= JSON_BUF_SIZE ->
  parse (pending c ++ zslice (mem (eng c)) p n) = (ms, r) ->
  exists rest s1 b' u' x', deliver (fd c) ms s = Some (rest, s1) /\
    tlsv2_engine_read_plain g_cfg fuel i s =
      Some (default 0 (loop_result rest r), set_in i (put_rcv b' u' x' (br_ssl_engine_recvapp_ack (eng c) n)) s1) /\
    kept b' u' rest r.
Proof.
  intros Hf Hok Hu Hc Hbuf Hfit Hparse.
  destruct (in_use_fd _ _ _ _ _ Hok Hu Hc) as [Hcl Hinv].
  destruct (in_use_client _ _ _ _ Hok Hu) as (c0 & Hc0 & _ & Hus & _).
  assert (c0 = c) as -> by congruence. clear Hc0.
  assert (recvpld_buf (eng c) = Some (p, n)) as Hpld.
  { unfold br_ssl_engine_recvapp_buf in Hbuf. by destruct (_ || _) in Hbuf. }
  destruct (recvpld_buf_inv (eng c) p n Hinv Hpld) as (Hl & Hp & ? & ? & Hn & ?).
  pose proof (layout_mem _ Hinv) as (Hml & Hmb & Hib & Hil & _).
  pose proof Hcl as (Hm & _). pose proof Hm as (_ & _ & Lb & _ & _ & _ & Hur & _).
  pose proof (zlen_pending c Hm) as Lp.
  unfold TLSV2_IOBUF_SIZE, TLSV2_PLAINTEXT_SIZE in *. unfold JSON_BUF_SIZE, TLSV2_MAX_JSON_SIZE in Hur, Hfit, Lb, Hf.
  set (bs := zslice (mem (eng c)) p n) in *.
  assert (zlen bs = n) as Lbs by (apply zlen_zslice; lia).
  assert (Forall is_u8 bs) as Hbs by (by apply Forall_zslice).
  set (e := br_ssl_engine_recvapp_ack (eng c) n).
  assert (eng_inv client_layout e) as He by (eapply recvapp_ack_public; [done|done|lia]).
  set (b1 := zblit (in_buf c) (in_used c) bs). set (x1 := expected_len c).
  set (s1 := set_in i (put_rcv b1 (in_used c + n) x1 e) s).
  set (c1 := put_rcv b1 (in_used c + n) x1 e c).
  assert (c1 = append_in bs e c) as Ec1 by (unfold append_in; rewrite Lbs; by destruct c).
  destruct (append_in_ok c bs e Hcl Hus Hbs He) as [Hcl1 Hp1];
    [unfold JSON_BUF_SIZE, TLSV2_MAX_JSON_SIZE; lia|]. rewrite <- Ec1 in Hcl1, Hp1.
  assert (g_clients s1 !! i = Some c1) as Hc1 by (by apply (set_in_lookup s i c)).
  assert (ok None F b s1) as Hok1.
  { eapply ok_set_in; [done|by left|]. intros d Hd. assert (d = c) as -> by congruence. done. }
  destruct (json_loop_spec F b i Hu fuel s1 c1 ms r Hok1 Hc1) as (rest & s2 & b' & u' & x' & Hd & Hj & Hk').
  { rewrite Hp1, length_app. lia. }
  { by rewrite Hp1. }
  change (fd c1) with (fd c) in Hd. change (eng c1) with e in Hj.
  unfold s1 in Hd. rewrite deliver_commutes in Hd.
  destruct (deliver (fd c) ms s) as [[rest' s3]|] eqn:E3; [|done]. injection Hd as <- <-.
  rewrite set_put_put in Hj. exists rest', s3, b', u', x'. split; [done|]. split; [|done].
  unfold tlsv2_engine_read_plain. destruct fuel as [|[|k]] eqn:Efuel; [lia|lia|]. rewrite <- Efuel in *.
  rewrite Efuel at 1. cbn [mloop].
  match goal with |- mbind' ?body _ s = _ => assert (body s = json_loop g_cfg fuel i s1) as Ebody end.
  { erewrite run_bind by (unfold get_client; by rewrite Hc).
    rewrite (has_recvapp (eng c) p n Hbuf). cbn [negb]. rewrite Hbuf. rewrite szadd_small by lia.
    rewrite (proj2 (Z.ltb_ge (TLSV2_MAX_JSON_SIZE + 4) (in_used c + n)))
      by (unfold TLSV2_MAX_JSON_SIZE; lia).
    rewrite (run_lift _ _ _ bs) by (apply read_at_ok; lia).
    rewrite (run_lift _ _ _ b1) by (apply write_at_ok; lia).
    unfold upd_client. erewrite run_bind by reflexivity. f_equal. subst s1. apply set_in_ext.
    intros d Hd. assert (d = c) as -> by congruence. rewrite szadd_small by lia. by destruct c. }
  unfold mbind' at 1. rewrite Ebody. unfold json_loop. rewrite Hj.
  destruct (loop_result rest' r) as [v|] eqn:Er; [done|].
  assert (Forall (Forall is_u8) ms) as Hmsb.
  { eapply parse_bytes; [|exact Hparse]. apply Forall_app. split; [by apply pending_bytes|done]. }
  pose proof (wp_elim _ _ _ _ _ (deliver_wp F b s (fd c) ms Hok Hmsb) E3) as [Hok3 Hr3].
  destruct (same_client _ _ _ _ _ _ Hok Hok3 Hr3 Hc) as (c3 & Hc3 & _).
  cbn [mloop].
  rewrite (run_bind _ _ _ (Some 0) (set_in i (put_rcv b' u' x' e) s3)); [done|].
  erewrite run_bind by (unfold get_client; by rewrite (set_in_lookup s3 i c3 _ Hc3)).
  change (eng (put_rcv b' u' x' e c3)) with e.
  rewrite (recvapp_drained client_layout (eng c) p n Hinv Hbuf : br_ssl_engine_recvapp_buf e = None).
  by destruct (negb _).
Qed.
(** A record that does not fit, and no record. *)
Lemma read_plain_full F b i s c p n : JSON_BUF_SIZE < Z.of_nat fuel ->
  ok None F b s -> in_use F i -> g_clients s !! i = Some c ->
  br_ssl_engine_recvapp_buf (eng c) = Some (p, n) -> JSON_BUF_SIZE < in_used c + n ->
  tlsv2_engine_read_plain g_cfg fuel i s = Some (-1, s).
Proof.
  intros Hf Hok Hu Hc Hbuf Hfull. destruct (in_use_fd _ _ _ _ _ Hok Hu Hc) as [Hcl Hinv].
  assert (recvpld_buf (eng c) = Some (p, n)) as Hpld.
  { unfold br_ssl_engine_recvapp_buf in Hbuf. by destruct (_ || _) in Hbuf. }
  destruct (recvpld_buf_inv (eng c) p n Hinv Hpld) as (Hl & Hp & ? & ? & Hn & ?).
  pose proof (layout_mem _ Hinv) as (Hml & Hmb & Hib & Hil & _). destruct Hcl as ((_ & _ & _ & _ & _ & _ & Hur & _) & _).
  unfold JSON_BUF_SIZE, TLSV2_MAX_JSON_SIZE, TLSV2_IOBUF_SIZE, TLSV2_PLAINTEXT_SIZE in *.
  unfold tlsv2_engine_read_plain. destruct fuel as [|k]; [lia|]. cbn [mloop].
  rewrite (run_bind _ _ s (Some (-1)) s); [done|]. erewrite run_bind by (unfold get_client; by rewrite Hc).
  rewrite (has_recvapp (eng c) p n Hbuf). cbn [negb]. rewrite Hbuf. rewrite szadd_small by lia.
  by rewrite (proj2 (Z.ltb_lt _ _)) by (unfold TLSV2_MAX_JSON_SIZE; lia).
Qed.
Lemma read_plain_none i s c : (0 < fuel)%nat -> g_clients s !! i = Some c ->
  br_ssl_engine_recvapp_buf (eng c) = None -> tlsv2_engine_read_plain g_cfg fuel i s = Some (0, s).
Proof.
  intros Hf Hc Hbuf. unfold tlsv2_engine_read_plain. destruct fuel as [|k]; [lia|]. cbn [mloop].
  rewrite (run_bind _ _ s (Some 0) s); [done|]. erewrite run_bind by (unfold get_client; by rewrite Hc).
  rewrite Hbuf. by destruct (negb _).
Qed.
End server_spec.
