(* ===== verification/TlsServerThms.v ===== *)
(** * TlsServerThms: the theorems about the server of [tls_wrapper_v3.c]

    Every run of the [select] loop keeps the store well formed and returns;
    incoming JSON is delivered frame by frame whatever the chunks; an outgoing
    message is stored as one frame; and three behaviours that differ from what
    the server is meant to do (a short message is never flushed, a closed engine
    keeps its slot, a full-size record is refused). *)
From S2P Require Import Prelude.
From S2P Require Import Words.
From S2P Require Import Effects.
From S2P Require Import JsonFrame.
From S2P Require Import Engine.
From S2P Require Import EngineSpec.
From S2P Require Import TlsServer.
From S2P Require Import TlsServerSpec.

Section theorems.
Context {RI RO HS : Type} `{!RecordIn RI} `{!RecordOut RO} `{!Handshake RI RO HS}.
Context `{!RecordInLaws RI} `{!RecordOutLaws RO} `{!HandshakeLaws RI RO HS}.
Context {W : Type} `{!OS W} (budget : W -> nat) `{!OSLaws W budget} {CERTS KEY : Type}.
Context (rin0 : RI) (server_init_full_rsa : CERTS -> KEY -> HS) (init_main : HS -> HS).
Context (g_cfg : tlsv2_server_config_t W) (g_listen_fd : Z) (fuel : nat).
Notation client := (client RI RO HS CERTS KEY).
Notation srv := (srv client W).
Implicit Types (c : client) (s : srv).

(** [g_clients] as the program starts: zeroed storage. *)
Definition bss_client (hs0 : HS) : client :=
  Client 0 (engine_zero (zeros (TLSV2_IOBUF_SIZE + TLSV2_PLAINTEXT_SIZE)) rin0 hs0) None None
    TLSV2_STATE_UNUSED (zeros JSON_BUF_SIZE) 0 0 (zeros JSON_BUF_SIZE) 0 0.

Lemma bss_inv hs0 w :
  live budget (budget w)
    (Srv (map (fun c => c <| fd := GFNS_INVALID_SOCK |> <| state := TLSV2_STATE_UNUSED |>
       <| in_used := 0 |> <| expected_len := 0 |> <| out_used := 0 |> <| out_sent := 0 |>
       <| certs := None |>) (replicate TLSV2_MAX_CLIENTS (bss_client hs0))) w : srv).
Proof.
  split; [split|done].
  - cbn [g_clients]. by rewrite length_map, length_replicate.
  - intros i c Hc. cbn [g_clients] in Hc. rewrite list_lookup_fmap in Hc.
    destruct (replicate _ _ !! i) as [d|] eqn:E; [|done].
    apply lookup_replicate in E as [-> _]. injection Hc as <-. split; [|by intros []].
    unfold cl_mem, JSON_BUF_SIZE, TLSV2_MAX_JSON_SIZE. 
    split; [by apply zlen_zeros|]. split; [apply Forall_zeros|].
    split; [by apply zlen_zeros|]. split; [apply Forall_zeros|].
    split; [by apply zlen_zeros|]. split; [apply Forall_zeros|]. cbn. lia.
Qed.

(** The end of [tlsv2_send_json]: the frame goes into [out_buf]. *)
Lemma send_json_store i s c json : g_clients s !! i = Some c -> zlen (out_buf c) = JSON_BUF_SIZE ->
  zlen json <= TLSV2_MAX_JSON_SIZE ->
  (let! b := mlift (write_at (out_buf c) 0 (br_enc32le (htonl (u32 (zlen json))))) in
   let! b := mlift (write_at b 4 json) in
   upd_client i (fun c => c <| out_buf := b |> <| out_used := 4 + zlen json |> <| out_sent := 0 |>) ;;!
   mret' 0) s =
  Some (0, set_in i (fun c => c <| out_buf := zblit (out_buf c) 0 (frame json) |>
                                <| out_used := zlen (frame json) |> <| out_sent := 0 |>) s).
Proof.
  intros Hc Lo Hlen. unfold JSON_BUF_SIZE, TLSV2_MAX_JSON_SIZE in *.
  assert (br_enc32le (htonl (u32 (zlen json))) = br_enc32be (zlen json)) as ->.
  { rewrite u32_small by lia. apply htonl_be. unfold is_u32. lia. }
  unfold frame. set (hd := br_enc32be (zlen json)). assert (zlen hd = 4) as Lhd by done.
  set (b1 := zblit (out_buf c) 0 hd). assert (zlen b1 = 65536 + 4) as Lb1 by (subst b1; rewrite zlen_zblit; lia).
  rewrite (run_lift _ _ _ b1) by (apply write_at_ok; lia).
  rewrite (run_lift _ _ _ (zblit b1 4 json)) by (apply write_at_ok; lia).
  unfold upd_client. erewrite run_bind by reflexivity. unfold mret'. do 2 f_equal. apply set_in_ext.
  intros d Hd. assert (d = c) as -> by congruence. rewrite zlen_app, Lhd.
  assert (zblit b1 4 json = zblit (out_buf c) 0 (hd ++ json)) as ->; [|done].
  subst b1. rewrite <- Lhd at 1. unfold zblit. rewrite !(ztake_le0 0) by lia. cbn [app]. rewrite zlen_app.
  rewrite ztake_app_le, ztake_ge by lia. rewrite zdrop_app_ge by lia. rewrite zdrop_zdrop by lia.
  rewrite <- app_assoc. do 3 f_equal. lia.
Qed.

(** C3: a server that starts from zeroed storage runs any number of turns of its
    [select] loop, in a process whose descriptors are below [FD_SETSIZE]: each turn
    returns (no loop needs more rounds than the socket calls that can succeed, plus the
    size of a JSON buffer), no memory access is out of bounds, those to the [fd_set]s
    included, and the client store satisfies its invariant afterwards.  The bound on the
    descriptors is needed: a turn with a client whose descriptor is [FD_SETSIZE] or more
    writes outside an [fd_set]. *)
Theorem server_runs_safely hs0 w cs sk n : config_ok budget g_cfg ->
  0 <= g_listen_fd < FD_SETSIZE -> accepts_small (W := W) ->
  (budget w < fuel)%nat -> JSON_BUF_SIZE < Z.of_nat fuel ->
  wp (tlsv2_clients_init ;;!
      mfor (seq 0 n) (fun _ =>
        server_turn rin0 server_init_full_rsa init_main g_cfg g_listen_fd fuel cs sk))
     (fun _ s => srv_inv None s /\ small s)
     (Srv (replicate TLSV2_MAX_CLIENTS (bss_client hs0)) w : srv) /\
  (forall s c, c ∈ g_clients s -> used c -> FD_SETSIZE <= fd c ->
     server_turn rin0 server_init_full_rsa init_main g_cfg g_listen_fd fuel cs sk s = None).
Proof.
  intros Hcfg Hlfd Hacc Hf Hf'. split.
  - apply wp_bind, wp_set. eapply wp_mono; [apply (wp_for (fun s => live budget (budget w) s /\ small s))|].
    + intros _ s _ [Hl Hs]. by apply turn_wp.
    + split; [apply bss_inv|]. unfold small. cbn [g_clients]. apply Forall_forall. intros c Hc.
      apply list_elem_of_fmap in Hc as (d & -> & _). done.
    + intros ? s [H Hs]. split; [apply H|exact Hs].
  - intros s c Hin Hu Hfd. unfold server_turn. rewrite (run_bind mget _ s s s) by done.
    unfold fd_set_add at 1, fd_in_set. rewrite (proj2 (Z.leb_le 0 g_listen_fd)), (proj2 (Z.ltb_lt g_listen_fd FD_SETSIZE)) by lia. cbn [andb].
    rewrite (run_lift _ _ s _ eq_refl). by rewrite (fd_sets_over (g_clients s) c).
Qed.

Lemma deliver_all id ms s rest s1 : (forall w k, (sys_malloc w k).2 = true) -> deliver g_cfg id ms s = Some (rest, s1) -> rest = [].
Proof.
  intros Hm. revert s. induction ms as [|m ms IH]; intros s; [by intros [= <- _]|]. cbn [deliver]. unfold mbind' at 1, sys.
  specialize (Hm (world s) (zlen m + 1)). destruct (sys_malloc (world s) (zlen m + 1)) as [w okm]. cbn [snd] in Hm. subst okm.
  unfold mbind'. destruct (on_json_received' g_cfg id m _) as [[u s2]|]; [apply IH|done].
Qed.

(** C1: incoming JSON.  [tlsv2_engine_read_plain] on an open client does nothing when the
    engine holds no application data, and asks for the connection to be closed (-1),
    touching nothing, when the data do not fit behind the bytes pending in [in_buf].
    Otherwise it appends them and hands to the callback the complete frames of the bytes
    pending and received, in order, up to the first whose buffer cannot be allocated
    ([deliver]): all of them when every allocation succeeds.  What is not delivered stays
    in [in_buf]; the result is -1 just when an allocation failed or the bytes after the
    complete frames announce a message above the maximum.  Bytes that arrive later
    continue the same stream, so the messages do not depend on how it was cut into
    records. *)
Theorem read_plain_delivers_frames F b i s c : config_ok budget g_cfg -> JSON_BUF_SIZE < Z.of_nat fuel ->
  ok budget None F b s -> in_use F i -> g_clients s !! i = Some c ->
  match br_ssl_engine_recvapp_buf (eng c) with
  | None => tlsv2_engine_read_plain g_cfg fuel i s = Some (0, s)
  | Some (p, n) =>
      let stream := pending c ++ zslice (mem (eng c)) p n in
      if decide (JSON_BUF_SIZE < in_used c + n) then tlsv2_engine_read_plain g_cfg fuel i s = Some (-1, s)
      else forall ms r, parse stream = (ms, r) ->
        (exists rest s1 b' u' x', deliver g_cfg (fd c) ms s = Some (rest, s1) /\
           tlsv2_engine_read_plain g_cfg fuel i s =
             Some (match rest with [] => if bad_length r then -1 else 0 | _ => -1 end,
                   set_in i (put_rcv b' u' x' (br_ssl_engine_recvapp_ack (eng c) n)) s1) /\
           kept b' u' rest r /\ ((forall w k, (sys_malloc w k).2 = true) -> rest = [])) /\
        (forall later ms' r', parse (r ++ later) = (ms', r') -> parse (stream ++ later) = (ms ++ ms', r'))
  end.
Proof.
  intros Hcfg Hf Hok Hu Hc. destruct (br_ssl_engine_recvapp_buf (eng c)) as [[p n]|] eqn:Hbuf.
  2: { apply (read_plain_none g_cfg fuel i s c); [unfold JSON_BUF_SIZE, TLSV2_MAX_JSON_SIZE in Hf; lia|done|done]. }
  cbv zeta. case_decide as Hfit; [by eapply read_plain_full|]. intros ms r Hp. split.
  - destruct (read_plain_spec budget g_cfg fuel Hcfg F b i s c p n ms r Hf Hok Hu Hc Hbuf ltac:(lia) Hp)
      as (rest & s1 & b' & u' & x' & Hd & Hr & Hk).
    exists rest, s1, b', u', x'. split; [done|]. split; [|split; [done|intros Hm; by eapply deliver_all]].
    rewrite Hr. destruct rest; [|done]. cbn [loop_result]. by destruct (bad_length r).
  - intros later ms' r'. by apply parse_app.
Qed.

(** C2: outgoing JSON.  [tlsv2_send_json] answers -1 for a text above 65536 bytes and for
    a descriptor no client has; for the first client that has it, -2 just when its
    previous message is not yet written; and then nothing changes.  Otherwise the answer
    is 0, and the only change is that the bytes the client has to send are the frame of
    the text, which the peer's parser reads back. *)
Theorem send_json_frames ex F b s id json : ok budget ex F b s -> Forall is_u8 json ->
  (TLSV2_MAX_JSON_SIZE < zlen json -> tlsv2_send_json id json s = Some (-1, s)) /\
  (zlen json <= TLSV2_MAX_JSON_SIZE ->
    ((forall i c, g_clients s !! i = Some c -> used c -> fd c <> id) -> tlsv2_send_json id json s = Some (-1, s)) /\
    (forall i c, g_clients s !! i = Some c -> used c -> fd c = id ->
       (forall j d, (j < i)%nat -> g_clients s !! j = Some d -> used d -> fd d <> id) ->
       tlsv2_send_json id json s =
         if out_used c =? out_sent c
         then Some (0, set_in i (fun c => c <| out_buf := zblit (out_buf c) 0 (frame json) |>
                                            <| out_used := zlen (frame json) |> <| out_sent := 0 |>) s)
         else Some (-2, s)) /\
    (json <> [] -> forall later, parse (frame json ++ later) = (json :: (parse later).1, (parse later).2))).
Proof.
  intros Hok Hj. split; [intros Hbig; unfold tlsv2_send_json; by rewrite (proj2 (Z.ltb_lt _ _)) by done|]. intros Hlen.
  assert (forall c, negb (is_unused c) && (fd c =? id) = true <-> used c /\ fd c = id) as Hp.
  { intros c. by rewrite andb_true_iff, negb_true_iff, is_unused_false, Z.eqb_eq. }
  assert (tlsv2_send_json id json s = tlsv2_send_json id json s) as E by done. unfold tlsv2_send_json in E at 2.
  rewrite (proj2 (Z.ltb_ge _ _)) in E by done.
  set (p := fun c => negb (is_unused c) && (fd c =? id)) in *. change (forall c, p c = true <-> used c /\ fd c = id) in Hp.
  assert (find_client p s = Some (find_from p 0 (g_clients s), s)) as Hfc by done.
  rewrite (run_bind _ _ _ _ _ Hfc) in E. pose proof (find_from_spec p 0 (g_clients s)) as Hff.
  split; [|split].
  - intros Hno. destruct (find_from p 0 (g_clients s)) as [i|]; [|done]. destruct Hff as (j & c & -> & Hc & Hpc & _).
    apply Hp in Hpc as [Hus Hid]. by destruct (Hno j c Hc Hus).
  - intros i c Hc Hus Hid Hfirst. destruct (find_from p 0 (g_clients s)) as [k|].
    2: { pose proof (Hff i c Hc) as H. by rewrite (proj2 (Hp c)) in H. }
    destruct Hff as (j & d & -> & Hd & Hpd & Hlt). change (0 + j)%nat with j in E. apply Hp in Hpd as [Hud Hidd].
    assert (j = i) as ->.
    { destruct (Nat.lt_trichotomy j i) as [H|[H|H]]; [by destruct (Hfirst j d H Hd Hud)|done|].
      pose proof (Hlt i c H Hc) as Hf0. by rewrite (proj2 (Hp c)) in Hf0. }
    assert (d = c) as -> by congruence. rewrite E. erewrite run_bind by (unfold get_client; by rewrite Hc).
    destruct (Z.eqb_spec (out_used c) (out_sent c)) as [Hidle|Hbusy]; cbn [negb]; [|done].
    destruct (ok_client _ _ _ _ _ _ _ Hok Hc) as [((_ & _ & _ & _ & Lo & _) & _) _].
    by apply (send_json_store i s c json).
  - intros Hne later. rewrite parse_unfold, parse_step_frame; [by destruct (parse later)|].
    split; [|done]. destruct json; [done|simpl; lia].
Qed.

(** a short message is accepted but never sent.  When the message to write
    is smaller than the room the engine offers, [tlsv2_engine_write_plain] copies
    it, marks it as written and returns 1, but it does not flush the engine: the
    socket is not touched, and the [tlsv2_engine_send] that follows finds no
    record to send. *)
Theorem short_message_not_flushed F b s i c p n :
  ok budget None F b s -> in_use F i -> g_clients s !! i = Some c ->
  br_ssl_engine_sendapp_buf (eng c) = Some (p, n) -> out_sent c < out_used c ->
  out_used c - out_sent c < n -> (0 < fuel)%nat ->
  exists s' c', tlsv2_engine_write_plain fuel i s = Some (1, s') /\ world s' = world s /\
    g_clients s' !! i = Some c' /\ out_used c' = 0 /\
    br_ssl_engine_sendrec_buf (eng c') = None /\ tlsv2_engine_send fuel i s' = Some (0, s').
Proof.
  intros Hok Hu Hc Hbuf Hlt Hshort Hf. destruct fuel as [|k]; [lia|].
  destruct (in_use_fd _ _ _ _ _ _ Hok Hu Hc) as [Hcl Hinv].
  assert (sendpld_buf (eng c) = Some (p, n)) as Hpld.
  { unfold br_ssl_engine_sendapp_buf in Hbuf. by destruct (app_ok _) in Hbuf. }
  destruct (sendpld_buf_inv (eng c) p n Hinv Hpld) as (Hl & Hp & ? & ? & Hn & ? & ?).
  pose proof (layout_mem _ Hinv) as (Hml & Hmb & _ & _ & Hob & Hol).
  pose proof Hcl as (Hm & _). pose proof Hm as (_ & _ & _ & _ & Lo & Hob' & _ & Ho1 & Ho2).
  unfold TLSV2_IOBUF_SIZE, TLSV2_PLAINTEXT_SIZE, JSON_BUF_SIZE, TLSV2_MAX_JSON_SIZE in *.
  set (len := out_used c - out_sent c) in *. set (bs := zslice (out_buf c) (out_sent c) len).
  assert (zlen bs = len) as Lbs by (apply zlen_zslice; lia).
  set (e0 := (eng c) <| mem := zblit (mem (eng c)) p bs |>).
  assert (eng_inv client_layout e0) as Hinv0.
  { pose proof (bufs_facts _ (proj1 Hinv)). split; [apply bufs_blit|].
    - apply Hinv.
    - by apply Forall_zslice.
    - lia.
    - lia.
    - exact (proj2 Hinv). }
  destruct (sendpld_partial e0 p n len Hinv0 Hpld) as [Hnone Hnf]; [lia|].
  set (e := br_ssl_engine_sendapp_ack e0 len).
  change (sendpld_ack e0 len) with e in Hnone, Hnf.
  set (c1 := c <| out_sent := out_sent c + len |> <| eng := e |>).
  set (c2 := c1 <| out_used := 0 |> <| out_sent := 0 |>).
  exists (set_in i (fun _ => c2) s), c2.
  assert (has (br_ssl_engine_current_state (eng c)) BR_SSL_SENDAPP = true) as Hst.
  { assert (br_ssl_engine_closed (eng c) = false) as Hcl'.
    { unfold br_ssl_engine_closed. apply bool_decide_eq_false. intros E.
      unfold sendpld_buf in Hpld. by rewrite E in Hpld. }
    destruct (state_flags _ Hcl') as (_ & _ & _ & Fl & _). unfold has. unfold has_flag in Fl.
    by rewrite Fl, Hbuf. }
  assert (g_clients (set_in i (fun _ => c2) s) !! i = Some c2) as Hc2 by (by apply (set_in_lookup s i c)).
  split; [|split; [done|split; [done|split; [done|split; [done|]]]]].
  - unfold tlsv2_engine_write_plain. erewrite run_bind by (unfold get_client; by rewrite Hc).
    rewrite (proj2 (Z.leb_gt (out_used c) (out_sent c))) by lia. cbn [mloop].
    rewrite (run_bind _ _ _ (Some 1) (set_in i (fun _ => c2) s)); [done|].
    erewrite run_bind by (unfold get_client; by rewrite Hc). rewrite Hst. cbn [negb]. rewrite Hbuf.
    rewrite szsub_small by lia. fold len. rewrite (proj2 (Z.ltb_ge n len)) by lia.
    rewrite (run_lift _ _ _ bs) by (apply read_at_ok; lia).
    rewrite (run_lift _ _ _ (zblit (mem (eng c)) p bs)) by (apply write_at_ok; lia).
    unfold upd_client. erewrite run_bind by reflexivity.
    match goal with |- mbind' _ _ ?x = _ => assert (x = set_in i (fun _ => c1) s) as -> end.
    { apply set_in_ext. intros d Hd. assert (d = c) as -> by congruence.
      rewrite szadd_small by lia. done. }
    erewrite run_bind by (unfold get_client; by rewrite (set_in_lookup s i c _ Hc)).
    rewrite (proj2 (Z.leb_le (out_used c1) (out_sent c1))) by (cbn; lia).
    erewrite run_bind by reflexivity. unfold mret'. do 2 f_equal.
    apply (set_in_set_in i _ (fun _ => c1) _ s c Hc). done.
  - unfold tlsv2_engine_send. cbn [mloop].
    rewrite (run_bind _ _ _ (Some 0) (set_in i (fun _ => c2) s)); [done|].
    erewrite run_bind by (unfold get_client; by rewrite Hc2).
    change (eng c2) with e.
    assert (br_ssl_engine_closed e = false) as Hce by (by apply bool_decide_eq_false).
    destruct (state_flags _ Hce) as (_ & Fl & _). unfold has. unfold has_flag in Fl.
    by rewrite Fl, Hnone.
Qed.

(** a client whose engine is closed is not released.  Once the engine of an
    open client has failed or finished, [tlsv2_handle_client] changes nothing: it
    neither closes the socket nor frees the slot, in this turn or in any other. *)
Theorem closed_client_keeps_slot s i c :
  g_clients s !! i = Some c -> state c = TLSV2_STATE_OPEN ->
  br_ssl_engine_closed (eng c) = true -> (0 < fuel)%nat ->
  tlsv2_handle_client g_cfg fuel i s = Some (tt, s).
Proof.
  intros Hc Ho Hcl Hf. destruct fuel as [|k]; [lia|].
  assert (br_ssl_engine_current_state (eng c) = BR_SSL_CLOSED) as Hst.
  { unfold br_ssl_engine_current_state. by rewrite Hcl. }
  assert (get_client i s = Some (c, s)) as Hg by (unfold get_client; by rewrite Hc).
  assert (forall flag, flag = BR_SSL_SENDREC \/ flag = BR_SSL_RECVREC \/ flag = BR_SSL_SENDAPP \/
            flag = BR_SSL_RECVAPP -> has BR_SSL_CLOSED flag = false) as Hno
    by (intros flag [->|[->|[->| ->]]]; done).
  assert (tlsv2_engine_recv (S k) i s = Some (0, s)) as Hr.
  { unfold tlsv2_engine_recv. cbn [mloop]. rewrite (run_bind _ _ _ (Some 0) s); [done|].
    rewrite (run_bind _ _ _ _ _ Hg), Hst, Hno by tauto. done. }
  assert (tlsv2_engine_send (S k) i s = Some (0, s)) as Hs.
  { unfold tlsv2_engine_send. cbn [mloop]. rewrite (run_bind _ _ _ (Some 0) s); [done|].
    rewrite (run_bind _ _ _ _ _ Hg), Hst, Hno by tauto. done. }
  assert (tlsv2_engine_read_plain g_cfg (S k) i s = Some (0, s)) as Hrp.
  { unfold tlsv2_engine_read_plain. cbn [mloop]. rewrite (run_bind _ _ _ (Some 0) s); [done|].
    rewrite (run_bind _ _ _ _ _ Hg), Hst, Hno by tauto. done. }
  assert (tlsv2_engine_write_plain (S k) i s = Some (0, s)) as Hw.
  { unfold tlsv2_engine_write_plain. rewrite (run_bind _ _ _ _ _ Hg). case_match; [done|].
    cbn [mloop]. rewrite (run_bind _ _ _ (Some 0) s); [done|].
    rewrite (run_bind _ _ _ _ _ Hg), Hst, Hno by tauto. done. }
  unfold tlsv2_handle_client. rewrite (run_bind _ _ _ _ _ Hg).
  unfold is_unused. rewrite Ho, bool_decide_false by done.
  rewrite (run_bind _ _ _ _ _ Hr). cbn [Z.ltb Z.compare].
  rewrite (run_bind _ _ _ _ _ Hs). cbn [Z.ltb Z.compare].
  rewrite (run_bind _ _ _ _ _ Hg), Ho, (bool_decide_false (TLSV2_STATE_OPEN = TLSV2_STATE_HANDSHAKE)) by done.
  cbn [andb]. erewrite run_bind by reflexivity.
  rewrite (run_bind _ _ _ _ _ Hg), Ho, bool_decide_true by done.
  rewrite (run_bind _ _ _ 0 s).
  - cbn [Z.ltb Z.compare]. by rewrite (run_bind _ _ _ _ _ Hs).
  - rewrite (run_bind _ _ _ _ _ Hrp). exact Hw.
Qed.

(** sizes.  With the 16 kB and 70 kB buffers the server installs, the engine
    it sets up cuts what it sends into records of at most 4096 bytes, and refuses
    with [BR_ERR_TOO_LARGE] every protected record longer than 16379 bytes: the
    peer's full-size records (16384 bytes of plaintext) among them. *)
Theorem full_size_records_refused arena hs (e : engine RI RO HS) v len :
  zlen arena = TLSV2_IOBUF_SIZE + TLSV2_PLAINTEXT_SIZE -> Forall is_u8 arena ->
  eng_inv client_layout e -> iomode e <> BR_IO_FAILED -> incrypt e = true ->
  check_length (rin e) len = true -> zslice (mem e) 0 5 = record_header 23 v len ->
  is_u16 v -> Z.shiftr v 8 = 3 -> version_in e = 0 \/ version_in e = v ->
  16379 < len < 65536 ->
  max_frag_len (br_ssl_engine_set_buffers_bidi (engine_zero arena rin0 hs : engine RI RO HS)
     (Some 0) TLSV2_IOBUF_SIZE (Some TLSV2_IOBUF_SIZE) TLSV2_PLAINTEXT_SIZE) = 4096 /\
  iomode (recvrec_header e) = BR_IO_FAILED /\ err (recvrec_header e) = BR_ERR_TOO_LARGE.
Proof.
  intros Hal Hab Hinv Hm Henc Hchk Hhd Hv Hv3 Hver Hlen.
  pose proof (alloc_buffers rin0 (fun h => h) arena hs Hal Hab) as (_ & Hfrag & _). split; [exact Hfrag|].
  pose proof (layout_mem e Hinv) as (Hml & _ & Hib & Hil & _).
  destruct (header_fields (mem e) 0 23 v len) as (_ & Hvv & Hll);
    [lia|unfold TLSV2_IOBUF_SIZE, TLSV2_PLAINTEXT_SIZE in *; lia|unfold is_u8; lia|done|unfold is_u16; lia|done|].
  unfold recvrec_header. eng_simpl. rewrite Hib, Hvv, Hll, Henc, Hv3, Hil.
  change (negb (3 =? 3)) with false. cbv iota.
  replace (negb (version_in e =? 0) && negb (version_in e =? v)) with false
    by (destruct Hver as [-> | ->]; rewrite Z.eqb_refl, ?andb_false_r; done).
  rewrite Hchk. cbn [negb]. replace (TLSV2_IOBUF_SIZE -! 5 <? len) with true
    by (symmetry; apply Z.ltb_lt; rewrite szsub_small; unfold TLSV2_IOBUF_SIZE; lia).
  unfold br_ssl_engine_fail. eng_simpl. by destruct (iomode e).
Qed.
End theorems.

(** ** A concrete server

    A world whose sockets succeed [quota] times and that logs what is written;
    the engines are those of [EngineSpec.Established]. *)

Record demo_world : Type := DemoWorld { quota : nat; log : list (Z * list Z) }.

Definition demo_use (w : demo_world) : demo_world := DemoWorld (pred (quota w)) (log w).

#[export] Instance demo_os : OS demo_world := {|
  sys_read w fd n :=
    (demo_use w, match quota w with O => None | S _ => Some [22] end);
  sys_write w fd bs :=
    match quota w with O => (w, -1) | S q => (DemoWorld q (log w ++ [(fd, bs)]), zlen bs) end;
  sys_accept w fd := (demo_use w, match quota w with O => None | S _ => Some 7 end);
  sys_nonblocking w fd := (w, true);
  sys_close w fd := w;
  sys_select w r o := (w, Some (r, o));
  would_block w := true;
  sys_malloc w n := (w, true);
  sys_seed w := (w, true) |}.

#[export] Instance demo_os_laws : OSLaws demo_world quota.
Proof.
  constructor; cbn.
  - intros [q l] fd n w' r Hn [= <- <-]. cbn. split; [lia|].
    destruct q; [done|]. intros bs [= <-] _. cbn. split; [lia|].
    split; [repeat constructor; unfold is_u8; lia|lia].
  - intros [[|q] l] fd bs w' n Hb [= <- <-]; cbn; try lia.
  - intros [q l] fd w' r [= <- <-]. cbn. split; [lia|]. destruct q; [done|].
    intros c [= <-]. lia.
  - repeat split; intros; cbn; lia.
Qed.

Section witnesses.
Import Established.
Notation client := (client unit unit unit unit unit).
Notation srv := (srv client demo_world).

(** A callback that logs the message and answers with it. *)
Definition demo_cfg : tlsv2_server_config_t demo_world :=
  Config None None
    (Some (fun w id json => SendJson (DemoWorld (quota w) (log w ++ [(id, json)])) id json
       (fun _ => Ret (DemoWorld (quota w) (log w ++ [(id, json)]))))).

Lemma demo_cfg_ok : config_ok quota demo_cfg.
Proof.
  split; [done|split; [done|]]. intros f [= <-] w id json Hj. cbn. auto.
Qed.

Definition demo_reset : option (engine unit unit unit) :=
  br_ssl_engine_hs_reset
    (br_ssl_engine_set_buffers_bidi
       (engine_zero (zeros (TLSV2_IOBUF_SIZE + TLSV2_PLAINTEXT_SIZE)) tt tt) (Some 0)
       TLSV2_IOBUF_SIZE (Some TLSV2_IOBUF_SIZE) TLSV2_PLAINTEXT_SIZE) tt.
(** An engine after its handshake, and after a record that carries [frame]. *)
Definition demo_ready : engine unit unit unit := default (fresh 0) demo_reset.
Definition demo_feed (e : engine unit unit unit) (p : Z) (bs : list Z) : engine unit unit unit :=
  default e (br_ssl_engine_recvrec_ack (e <| mem := zblit (mem e) p bs |>) (zlen bs)).
Definition demo_message : list Z := [123; 125].
Definition demo_talk : engine unit unit unit :=
  demo_feed (demo_feed demo_ready 0 [23; 3; 3; 0; 6]) 5 (frame demo_message).

Lemma demo_ready_inv : eng_inv client_layout demo_ready.
Proof.
  unfold demo_ready, demo_reset.
  destruct (alloc_buffers tt (fun h : unit => h)
              (zeros (TLSV2_IOBUF_SIZE + TLSV2_PLAINTEXT_SIZE)) tt) as (Hl & _ & _).
  { by apply zlen_zeros. }
  { apply Forall_zeros. }
  destruct (hs_reset_inv _ tt Hl) as (e & E & Hinv).
  { assert (bool_decide (iomode (br_ssl_engine_set_buffers_bidi
       (engine_zero (zeros (TLSV2_IOBUF_SIZE + TLSV2_PLAINTEXT_SIZE)) tt tt) (Some 0)
       TLSV2_IOBUF_SIZE (Some TLSV2_IOBUF_SIZE) TLSV2_PLAINTEXT_SIZE : engine unit unit unit)
         = BR_IO_FAILED) = false) as H by (vm_compute; reflexivity).
    exact (proj1 (bool_decide_eq_false _) H). }
  by rewrite E.
Qed.

Lemma demo_feed_inv e p n bs : eng_inv client_layout e -> br_ssl_engine_recvrec_buf e = Some (p, n) ->
  Forall is_u8 bs -> 0 < zlen bs <= n -> eng_inv client_layout (demo_feed e p bs).
Proof.
  intros He Hb Hbs Hn. unfold demo_feed.
  destruct (recvrec_ack_public e p n bs He Hb Hbs Hn) as (e' & -> & H). exact H.
Qed.

Lemma demo_talk_inv : eng_inv client_layout demo_talk.
Proof.
  apply (demo_feed_inv _ _ 6); [|vm_compute; reflexivity|by apply bytes_dec|done].
  apply (demo_feed_inv _ _ 5); [apply demo_ready_inv|vm_compute; reflexivity|by apply bytes_dec|done].
Qed.

(** The server with one client, in slot 0. *)
Definition demo_client (e : engine unit unit unit) (out : list Z) : client :=
  Client 7 e (Some tt) (Some tt) TLSV2_STATE_OPEN (zeros JSON_BUF_SIZE) 0 0
    (zblit (zeros JSON_BUF_SIZE) 0 out) (zlen out) 0.
Definition demo_idle : client := bss_client tt tt.
Definition demo_srv (c : client) : srv :=
  Srv (c :: replicate 63 demo_idle) (DemoWorld 3 []).

Lemma demo_client_ok e out : eng_inv client_layout e -> Forall is_u8 out ->
  zlen out <= JSON_BUF_SIZE -> cl_ok false (demo_client e out).
Proof.
  intros He Ho Hl. assert (0 <= zlen out) by lia.
  pose proof (layout_mem e He) as (Hm & Hb & _).
  split; [|intros _; split; [exact He|split; [done|by left]]].
  unfold cl_mem, demo_client, JSON_BUF_SIZE, TLSV2_MAX_JSON_SIZE in *.
  cbn [eng mem in_buf out_buf in_used out_used out_sent].
  split; [exact Hm|]. split; [exact Hb|].
  split; [by apply zlen_zeros|]. split; [apply Forall_zeros|].
  split; [rewrite zlen_zblit; rewrite ?zlen_zeros; lia|].
  split; [apply Forall_zblit; [apply Forall_zeros|exact Ho]|]. lia.
Qed.

Lemma demo_srv_ok c : cl_ok false c ->
  ok quota None (fds (demo_srv c)) 3 (demo_srv c).
Proof.
  intros Hc. split; [|done]. split; [done|]. intros [|i] d Hd.
  - injection Hd as <-. exact Hc.
  - destruct (bss_inv quota tt (CERTS := unit) (KEY := unit) tt (DemoWorld 3 [])) as ((_ & H) & _).
    apply lookup_replicate in Hd as [-> Hi].
    destruct (H (S i) (demo_idle <| fd := -1 |>)) as (Hm & _).
    { cbn [g_clients]. rewrite list_lookup_fmap, lookup_replicate_2 by (unfold TLSV2_MAX_CLIENTS; lia). done. }
    split; [exact Hm|by intros []].
Qed.

Lemma server_runs_safely_witness :
  wp (tlsv2_clients_init ;;!
      mfor (seq 0 2) (fun _ =>
        server_turn tt (fun _ _ => tt) (fun h => h) demo_cfg 3 (Z.to_nat (JSON_BUF_SIZE + 1)) tt tt))
     (fun _ s => srv_inv None s /\ small s)
     (Srv (replicate TLSV2_MAX_CLIENTS demo_idle) (DemoWorld 3 []) : srv).
Proof.
  apply (server_runs_safely quota tt (fun _ _ => tt) (fun h => h) demo_cfg 3 _ tt).
  - exact demo_cfg_ok.
  - unfold FD_SETSIZE. lia.
  - intros [[|q] l] f w' n E; cbn in E; [done|]. injection E as _ <-. done.
  - cbn [quota]. unfold JSON_BUF_SIZE, TLSV2_MAX_JSON_SIZE. lia.
  - unfold JSON_BUF_SIZE, TLSV2_MAX_JSON_SIZE. lia.
Defined.

Definition demo_server : srv := demo_srv (demo_client demo_talk []).
Lemma demo_server_ok : ok quota None (fds demo_server) 3 demo_server.
Proof. apply demo_srv_ok, demo_client_ok; [apply demo_talk_inv|done|done]. Qed.

(** The frame that arrived is delivered, and the callback's answer is stored. *)
Definition demo_talker : client := demo_client demo_talk [].
Lemma read_plain_delivers_frames_witness :
  exists s1 b' u' x', deliver demo_cfg (fd demo_talker) [demo_message] demo_server = Some ([], s1) /\
    tlsv2_engine_read_plain demo_cfg (Z.to_nat (JSON_BUF_SIZE + 1)) 0 demo_server =
      Some (0, set_in 0 (put_rcv b' u' x' (br_ssl_engine_recvapp_ack (eng demo_talker) 6)) s1) /\
    kept b' u' [] [].
Proof.
  assert (JSON_BUF_SIZE < Z.of_nat (Z.to_nat (JSON_BUF_SIZE + 1))) as Hf by (unfold JSON_BUF_SIZE, TLSV2_MAX_JSON_SIZE; lia).
  assert (in_use (fds demo_server) 0) as Hu. { exists 7, TLSV2_STATE_OPEN. split; [reflexivity|discriminate]. }
  assert (g_clients demo_server !! 0%nat = Some demo_talker) as Hc by reflexivity.
  pose proof (read_plain_delivers_frames quota demo_cfg (Z.to_nat (JSON_BUF_SIZE + 1)) (fds demo_server) 3 0 demo_server demo_talker
    demo_cfg_ok Hf demo_server_ok Hu Hc) as H.
  assert (br_ssl_engine_recvapp_buf (eng demo_talker) = Some (5, 6)) as E by (vm_compute; reflexivity). rewrite E in H. cbv zeta in H.
  assert (in_used demo_talker + 6 <= JSON_BUF_SIZE) as Hfit by (vm_compute; discriminate).
  rewrite decide_False in H by lia.
  destruct (H [demo_message] []) as ((rest & s1 & b' & u' & x' & Hd & Hr & Hk & Hall) & _); [vm_compute; reflexivity|].
  specialize (Hall (fun _ _ => eq_refl)). subst rest. exists s1, b', u', x'. split; [exact Hd|]. split; [exact Hr|exact Hk].
Defined.

Lemma send_json_frames_witness :
  tlsv2_send_json 7 demo_message demo_server =
    Some (0, set_in 0 (fun c => c <| out_buf := zblit (out_buf c) 0 (frame demo_message) |>
                                  <| out_used := zlen (frame demo_message) |> <| out_sent := 0 |>) demo_server).
Proof.
  destruct (send_json_frames quota None (fds demo_server) 3 demo_server 7 demo_message demo_server_ok ltac:(by apply bytes_dec)) as (_ & H).
  destruct H as (_ & H & _); [vm_compute; discriminate|].
  apply (H 0%nat demo_talker); [reflexivity|done|reflexivity|lia].
Defined.

(** A two-byte message: stored, copied to the engine, and left there. *)
Definition demo_sender : srv := demo_srv (demo_client demo_ready (frame demo_message)).
Lemma short_message_not_flushed_witness :
  exists s' c', tlsv2_engine_write_plain 1 0 demo_sender = Some (1, s') /\
    world s' = DemoWorld 3 [] /\ g_clients s' !! 0%nat = Some c' /\ out_used c' = 0 /\
    br_ssl_engine_sendrec_buf (eng c') = None /\ tlsv2_engine_send 1 0 s' = Some (0, s').
Proof.
  apply (short_message_not_flushed quota 1 (fds demo_sender) 3 demo_sender 0
           (demo_client demo_ready (frame demo_message)) 16389 4096).
  - apply demo_srv_ok, demo_client_ok; [apply demo_ready_inv|by apply bytes_dec|done].
  - exists 7, TLSV2_STATE_OPEN. done.
  - reflexivity.
  - vm_compute. reflexivity.
  - vm_compute. reflexivity.
  - vm_compute. reflexivity.
  - lia.
Defined.

(** A client whose engine failed. *)
Definition demo_failed : srv := demo_srv (demo_client (br_ssl_engine_fail demo_ready BR_ERR_BAD_MAC) []).
Lemma closed_client_keeps_slot_witness :
  tlsv2_handle_client demo_cfg 1 0 demo_failed = Some (tt, demo_failed).
Proof.
  apply (closed_client_keeps_slot demo_cfg 1 demo_failed 0
           (demo_client (br_ssl_engine_fail demo_ready BR_ERR_BAD_MAC) [])).
  - reflexivity.
  - reflexivity.
  - vm_compute. reflexivity.
  - lia.
Defined.

(** A full-size protected record: 16384 bytes of plaintext, 8 + 16 of overhead. *)
Definition with_header (e : engine unit unit unit) (h : list Z) : engine unit unit unit :=
  e <| mem := zblit (mem e) 0 h |> <| incrypt := true |>.
Lemma with_header_inv e h : eng_inv client_layout e -> Forall is_u8 h -> zlen h <= 5 ->
  ixa e = 0 -> ixb e = 0 -> ixc e = 5 -> eng_inv client_layout (with_header e h).
Proof.
  intros Hinv Hh Hl E1 E2 E3. pose proof (layout_mem e Hinv) as (Hm & _).
  assert (eng_bufs client_layout (e <| mem := zblit (mem e) 0 h |>)) as Hb.
  { apply bufs_blit; [apply Hinv|done|lia|]. unfold TLSV2_IOBUF_SIZE, TLSV2_PLAINTEXT_SIZE in Hm. lia. }
  split; [exact Hb|]. intros Hmode. destruct (proj2 Hinv Hmode) as (_ & Ho). split; [|exact Ho].
  unfold eng_in, with_header. eng_simpl. rewrite E1, E2, E3. by apply (in_header _ _ _ 0).
Qed.
Definition demo_record : engine unit unit unit := with_header demo_ready (record_header 23 771 16408).
Lemma full_size_records_refused_witness :
  iomode (recvrec_header demo_record) = BR_IO_FAILED /\ err (recvrec_header demo_record) = BR_ERR_TOO_LARGE.
Proof.
  refine (proj2 (full_size_records_refused tt
    (zeros (TLSV2_IOBUF_SIZE + TLSV2_PLAINTEXT_SIZE)) tt demo_record 771 16408
    _ _ _ _ _ _ _ _ _ _ _)).
  - by apply zlen_zeros.
  - apply Forall_zeros.
  - apply with_header_inv; [apply demo_ready_inv|by apply bytes_dec|done|vm_compute; done..].
  - vm_compute. discriminate.
  - reflexivity.
  - reflexivity.
  - vm_compute. reflexivity.
  - unfold is_u16. lia.
  - reflexivity.
  - left. vm_compute. reflexivity.
  - lia.
Defined.
End witnesses.
