(* ===== verification/Sslio.v ===== *)
(** * Sslio: the blocking I/O wrapper of [ssl_io.c]

    [br_sslio_context] is an engine and a transport; [run_until] pumps records
    until the engine reaches a target state.  [SslioSpec] proves that every call
    returns, and that the bytes moved are those of an abstract stream. *)
From S2P Require Import Prelude.
From S2P Require Import Words.
From S2P Require Import Effects.
From S2P Require Import Engine.
From S2P Require Import EngineSpec.

Definition BR_ERR_IO : Z := 31.

(** The callbacks [low_read] and [low_write] on a transport [T], with their
    contexts applied.  A read yields the count (negative for an error) and the
    bytes. *)
Class LowIO (T : Type) := {
  low_read : T -> Z -> T * Z * list Z;
  low_write : T -> list Z -> T * Z }.

(** What [br_sslio_init] asks of them: they move at most what they were asked,
    and only finitely many calls succeed before one reports an error. *)
Class LowIOLaws (T : Type) `{!LowIO T} (budget : T -> nat) := {
  low_read_law : forall t n t' r bs, 0 < n -> low_read t n = (t', r, bs) ->
    (budget t' <= budget t)%nat /\
    (0 <= r -> r = zlen bs /\ r <= n /\ Forall is_u8 bs /\ (budget t' < budget t)%nat);
  low_write_law : forall t bs t' r, bs <> [] -> low_write t bs = (t', r) ->
    (budget t' <= budget t)%nat /\
    (0 <= r -> r <= zlen bs /\ (budget t' < budget t)%nat) }.

(** [br_sslio_context], with the engine it points to. *)
Record br_sslio_context {E T : Type} : Type := Sslio { engine_of : E; io : T }.
Arguments br_sslio_context : clear implicits.
Arguments Sslio {E T}.
#[export] Instance eta_sslio {E T} : Eta (br_sslio_context E T) := fun c =>
  Sslio (engine_of c) (io c).

(** ** Definitions *)

Section sslio.
Context {RI RO HS : Type} `{!RecordIn RI} `{!RecordOut RO} `{!Handshake RI RO HS}.
Context {T : Type} `{!LowIO T} (fuel : nat).
Notation eng_t := (engine RI RO HS).
Notation ctx := (br_sslio_context eng_t T).
Notation M := (M ctx).

Definition get_eng : M eng_t := fun c => Some (engine_of c, c).
Definition set_eng (e : eng_t) : M unit := mset (fun c => c <| engine_of := e |>).
Definition transport {A} (f : T -> T * A) : M A := fun c =>
  let '(t, a) := f (io c) in Some (a, c <| io := t |>).

(** [state & flag]. *)
Definition hits (st flag : Z) : bool := negb (Z.land st flag =? 0).

(** One round of [run_until]: [Some r] returns [r]. *)
Definition run_until_body (target : Z) : M (option Z) :=
  let! e := get_eng in
  let st := br_ssl_engine_current_state e in
  if hits st BR_SSL_CLOSED then mret' (Some (-1))
  else if hits st BR_SSL_SENDREC then
    let! pl := mlift (br_ssl_engine_sendrec_buf e) in
    let! bs := mlift (read_at (mem e) pl.1 pl.2) in
    let! wlen := transport (fun t => low_write t bs) in
    if wlen <? 0 then
      (if negb (shutdown_recv e) then set_eng (br_ssl_engine_fail e BR_ERR_IO) else mret' tt) ;;!
      mret' (Some (-1))
    else if 0 <? wlen then
      let! e := mlift (br_ssl_engine_sendrec_ack e wlen) in
      set_eng e ;;! mret' None
    else mret' None
  else if hits st target then mret' (Some 0)
  else if hits st BR_SSL_RECVAPP then mret' (Some (-1))
  else if hits st BR_SSL_RECVREC then
    let! pl := mlift (br_ssl_engine_recvrec_buf e) in
    let! rb := transport (fun t => let '(t, r, bs) := low_read t pl.2 in (t, (r, bs))) in
    let '(rlen, bs) := rb in
    if rlen <? 0 then set_eng (br_ssl_engine_fail e BR_ERR_IO) ;;! mret' (Some (-1))
    else if 0 <? rlen then
      let! m := mlift (write_at (mem e) pl.1 bs) in
      let! e := mlift (br_ssl_engine_recvrec_ack (e <| mem := m |>) rlen) in
      set_eng e ;;! mret' None
    else mret' None
  else set_eng (br_ssl_engine_flush e false) ;;! mret' None.
Definition run_until (target : Z) : M Z := mloop fuel (run_until_body target).

(** The bytes read come with their count. *)
Definition br_sslio_read (len : Z) : M (Z * list Z) :=
  if len =? 0 then mret' (0, [])
  else
    let! r := run_until BR_SSL_RECVAPP in
    if r <? 0 then mret' (-1, [])
    else
      let! e := get_eng in
      let! pl := mlift (br_ssl_engine_recvapp_buf e) in
      let alen := if len <? pl.2 then len else pl.2 in
      let! bs := mlift (read_at (mem e) pl.1 alen) in
      set_eng (br_ssl_engine_recvapp_ack e alen) ;;!
      mret' (i32 alen, bs).

Definition br_sslio_write (src : list Z) : M Z :=
  let len := zlen src in
  if len =? 0 then mret' 0
  else
    let! r := run_until BR_SSL_SENDAPP in
    if r <? 0 then mret' (-1)
    else
      let! e := get_eng in
      let! pl := mlift (br_ssl_engine_sendapp_buf e) in
      let alen := if len <? pl.2 then len else pl.2 in
      let! m := mlift (write_at (mem e) pl.1 (ztake alen src)) in
      set_eng (br_ssl_engine_sendapp_ack (e <| mem := m |>) alen) ;;!
      mret' (i32 alen).

(** [while (len > 0)]: the loop is structural on a counter that the caller sets
    to [len], since every round moves at least one byte. *)
Fixpoint read_all_loop (n : nat) (len : Z) (got : list Z) : M (Z * list Z) :=
  if len <=? 0 then mret' (0, got)
  else match n with
  | O => fun _ => None
  | S n =>
      let! rb := br_sslio_read len in
      let '(rlen, bs) := rb in
      if rlen <? 0 then mret' (-1, got)
      else read_all_loop n (len -! rlen) (got ++ bs)
  end.
Definition br_sslio_read_all (len : Z) : M (Z * list Z) := read_all_loop (Z.to_nat len) len [].

Fixpoint write_all_loop (n : nat) (src : list Z) : M Z :=
  if zlen src <=? 0 then mret' 0
  else match n with
  | O => fun _ => None
  | S n =>
      let! wlen := br_sslio_write src in
      if wlen <? 0 then mret' (-1) else write_all_loop n (zdrop wlen src)
  end.
Definition br_sslio_write_all (src : list Z) : M Z := write_all_loop (length src) src.

Definition br_sslio_flush : M Z :=
  let! e := get_eng in
  set_eng (br_ssl_engine_flush e false) ;;!
  run_until (Z.lor BR_SSL_SENDAPP BR_SSL_RECVAPP).

Definition close_body : M (option unit) :=
  let! e := get_eng in
  if br_ssl_engine_current_state e =? BR_SSL_CLOSED then mret' (Some tt)
  else
    run_until BR_SSL_RECVAPP ;;!
    let! e := get_eng in
    match br_ssl_engine_recvapp_buf e with
    | Some (_, len) => set_eng (br_ssl_engine_recvapp_ack e len) ;;! mret' None
    | None => mret' None
    end.
Definition br_sslio_close : M bool :=
  let! e := get_eng in
  let! e := mlift (br_ssl_engine_close e) in
  set_eng e ;;!
  mloop fuel close_body ;;!
  let! e := get_eng in
  mret' (err e =? BR_ERR_OK).
End sslio.
