(* ===== verification/SslioSpec.v ===== *)
(** * SslioSpec: the blocking wrapper returns and moves a byte stream

    [Session] is what the wrapper needs of an engine; [io_steps] is the abstract
    stream it implements: the application bytes put into the engine and taken
    out of it along a run.  The theorems are about any session; the engine of
    [EngineSpec.Established] is one. *)
From S2P Require Import Prelude.
From S2P Require Import Words.
From S2P Require Import Effects.
From S2P Require Import Engine.
From S2P Require Import EngineSpec.
From S2P Require Import Sslio.

(** [J] is an invariant of the sessions of interest: kept by the operations the
    wrapper uses, and under which an open engine has records to send, room for
    incoming bytes or application data to read. *)
Class Session {RI RO HS : Type} `{!RecordIn RI} `{!RecordOut RO} `{!Handshake RI RO HS}
    (lay : layout) (J : engine RI RO HS -> Prop) : Prop := {
  sess_inv e : J e -> eng_inv lay e;
  session_open e : J e -> br_ssl_engine_closed e = false ->
    opened (br_ssl_engine_sendrec_buf e) || opened (br_ssl_engine_recvrec_buf e)
      || opened (br_ssl_engine_recvapp_buf e) = true;
  session_recvrec e p n bs e' : J e -> br_ssl_engine_recvrec_buf e = Some (p, n) ->
    Forall is_u8 bs -> 0 < zlen bs <= n ->
    br_ssl_engine_recvrec_ack (e <| mem := zblit (mem e) p bs |>) (zlen bs) = Some e' -> J e';
  session_sendrec e p n k e' : J e -> br_ssl_engine_sendrec_buf e = Some (p, n) ->
    0 < k <= n -> br_ssl_engine_sendrec_ack e k = Some e' -> J e';
  session_sendapp e p n bs : J e -> br_ssl_engine_sendapp_buf e = Some (p, n) ->
    Forall is_u8 bs -> 0 < zlen bs <= n ->
    J (br_ssl_engine_sendapp_ack (e <| mem := zblit (mem e) p bs |>) (zlen bs));
  session_recvapp e p n k : J e -> br_ssl_engine_recvapp_buf e = Some (p, n) ->
    0 < k <= n -> J (br_ssl_engine_recvapp_ack e k);
  session_flush e : J e -> J (br_ssl_engine_flush e false);
  session_fail e x : J e -> J (br_ssl_engine_fail e x) }.

Section spec.
Context {RI RO HS : Type} `{!RecordIn RI} `{!RecordOut RO} `{!Handshake RI RO HS}.
Context `{!RecordInLaws RI} `{!RecordOutLaws RO} `{!HandshakeLaws RI RO HS}.
Context {T : Type} `{!LowIO T} (budget : T -> nat) `{!LowIOLaws T budget}.
Context (lay : layout) (J : engine RI RO HS -> Prop) `{!Session lay J} (fuel : nat).
Notation eng_t := (engine RI RO HS).
Notation ctx := (br_sslio_context eng_t T).
Implicit Types (e : eng_t) (c : ctx).

(** The abstract stream: [io_steps c w r c'] is a run from [c] to [c'] in which
    the application bytes [w] were put into the engine and [r] taken out. *)
Inductive io_steps : ctx -> list Z -> list Z -> ctx -> Prop :=
| io_nil c : io_steps c [] [] c
| io_pump target o c c1 w r c' : run_until_body target c = Some (o, c1) ->
    io_steps c1 w r c' -> io_steps c w r c'
| io_flush c w r c' : io_steps (c <| engine_of := br_ssl_engine_flush (engine_of c) false |>) w r c' ->
    io_steps c w r c'
| io_put p n bs c w r c' : br_ssl_engine_sendapp_buf (engine_of c) = Some (p, n) ->
    0 < zlen bs <= n ->
    io_steps (c <| engine_of := br_ssl_engine_sendapp_ack
                ((engine_of c) <| mem := zblit (mem (engine_of c)) p bs |>) (zlen bs) |>) w r c' ->
    io_steps c (bs ++ w) r c'
| io_get p n k c w r c' : br_ssl_engine_recvapp_buf (engine_of c) = Some (p, n) ->
    0 < k <= n ->
    io_steps (c <| engine_of := br_ssl_engine_recvapp_ack (engine_of c) k |>) w r c' ->
    io_steps c w (zslice (mem (engine_of c)) p k ++ r) c'.

Lemma io_app c w r c1 w' r' c' : io_steps c w r c1 -> io_steps c1 w' r' c' ->
  io_steps c (w ++ w') (r ++ r') c'.
Proof.
  induction 1; intros H'; [exact H'|..]; rewrite <- ?(assoc_L (++)).
  - eapply io_pump; eauto.
  - apply io_flush. auto.
  - eapply io_put; eauto.
  - eapply io_get; eauto.
Qed.

(** Between two calls: the session invariant, and the transport has not been
    given more to do. *)
Definition io_ok (b : nat) c : Prop := J (engine_of c) /\ (budget (io c) <= b)%nat.

Lemma hits_flags e : br_ssl_engine_closed e = false ->
  let s := br_ssl_engine_current_state e in
  hits s BR_SSL_CLOSED = false /\
  hits s BR_SSL_SENDREC = opened (br_ssl_engine_sendrec_buf e) /\
  hits s BR_SSL_RECVREC = opened (br_ssl_engine_recvrec_buf e) /\
  hits s BR_SSL_SENDAPP = opened (br_ssl_engine_sendapp_buf e) /\
  hits s BR_SSL_RECVAPP = opened (br_ssl_engine_recvapp_buf e).
Proof. exact (state_flags e). Qed.

Lemma wp_get_eng {A} (k : eng_t -> M ctx A) Q c :
  wp (k (engine_of c)) Q c -> wp (mbind' get_eng k) Q c.
Proof. intros H. apply wp_bind, (wp_intro _ _ _ (engine_of c) c); [done|exact H]. Qed.
Lemma wp_set_eng {A} e (k : unit -> M ctx A) Q c :
  wp (k tt) Q (c <| engine_of := e |>) -> wp (mbind' (set_eng e) k) Q c.
Proof. intros H. apply wp_bind, wp_set. exact H. Qed.
Lemma wp_lift' {A B} (o : option A) a (k : A -> M ctx B) Q c :
  o = Some a -> wp (k a) Q c -> wp (mbind' (mlift o) k) Q c.
Proof. intros Ho H. apply wp_bind. eapply wp_lift; [exact Ho|exact H]. Qed.
Lemma wp_transport {A B} (f : T -> T * A) t a (k : A -> M ctx B) Q c :
  f (io c) = (t, a) -> wp (k a) Q (c <| io := t |>) -> wp (mbind' (transport f) k) Q c.
Proof.
  intros Hf H. apply wp_bind, (wp_intro _ _ _ a (c <| io := t |>)); [|exact H].
  unfold transport. by rewrite Hf.
Qed.

(** The range a [_buf] function offers can be read and written. *)
Lemma offered_send e p n : J e -> br_ssl_engine_sendrec_buf e = Some (p, n) ->
  0 <= p /\ 0 < n /\ p + n <= zlen (mem e).
Proof.
  intros HJ Hb. pose proof (sess_inv e HJ) as Hinv.
  destruct (sendrec_buf_inv e p n Hinv Hb) as ((Hbufs & _) & ? & ? & ? & ? & ? & _).
  pose proof (bufs_facts _ Hbufs). lia.
Qed.
Lemma offered_recv e p n : J e -> br_ssl_engine_recvrec_buf e = Some (p, n) ->
  0 <= p /\ 0 < n /\ p + n <= zlen (mem e).
Proof.
  intros HJ Hb. pose proof (sess_inv e HJ) as Hinv.
  destruct (recvrec_buf_inv e p n Hinv Hb) as ((Hbufs & _) & ? & ? & ? & ? & ?).
  pose proof (bufs_facts _ Hbufs). lia.
Qed.
Lemma offered_app e p n : J e -> br_ssl_engine_recvapp_buf e = Some (p, n) ->
  0 <= p /\ 0 < n /\ p + n <= zlen (mem e).
Proof.
  intros HJ Hb. pose proof (sess_inv e HJ) as Hinv.
  unfold br_ssl_engine_recvapp_buf in Hb. destruct (_ || _); [done|].
  destruct (recvpld_buf_inv e p n Hinv Hb) as ((Hbufs & _) & ? & ? & ? & ? & ?).
  pose proof (bufs_facts _ Hbufs). lia.
Qed.
Lemma offered_room e p n : J e -> br_ssl_engine_sendapp_buf e = Some (p, n) ->
  0 <= p /\ 0 < n < 2 ^ 62 /\ p + n <= zlen (mem e).
Proof.
  intros HJ Hb. pose proof (sess_inv e HJ) as Hinv.
  unfold br_ssl_engine_sendapp_buf in Hb. destruct (app_ok e); [|done].
  destruct (sendpld_buf_inv e p n Hinv Hb) as ((Hbufs & _) & ? & ? & ? & ? & ? & _).
  pose proof (bufs_facts _ Hbufs). lia.
Qed.

(** How a round of [run_until] ends: with the target reached and nothing left to
    send; with an error; or going round, after one more successful transport
    call. *)
Definition reached (target : Z) e : Prop :=
  hits (br_ssl_engine_current_state e) target = true /\
  hits (br_ssl_engine_current_state e) BR_SSL_SENDREC = false.
Definition round_post (target : Z) (b : nat) (o : option Z) c : Prop :=
  match o with
  | Some r => io_ok b c /\ (r = 0 /\ reached target (engine_of c) \/ r = -1)
  | None => J (engine_of c) /\ (budget (io c) < b)%nat
  end.

Lemma send_round target c : J (engine_of c) -> br_ssl_engine_closed (engine_of c) = false ->
  opened (br_ssl_engine_sendrec_buf (engine_of c)) = true ->
  wp (run_until_body target) (round_post target (budget (io c))) c.
Proof.
  intros HJ Hcl Hs. destruct (hits_flags _ Hcl) as (F0 & F1 & _). rewrite Hs in F1.
  apply wp_get_eng; cbv beta zeta. rewrite F0, F1.
  destruct (br_ssl_engine_sendrec_buf (engine_of c)) as [[p n]|] eqn:Hb; [|done].
  pose proof (offered_send _ _ _ HJ Hb) as (Hp & Hn & Hpn).
  apply (wp_lift' _ _ _ _ _ eq_refl). cbn [fst snd].
  eapply wp_lift'; [apply read_at_ok; lia|].
  set (bs := zslice _ p n). assert (zlen bs = n) as Lbs by (apply zlen_zslice; lia).
  destruct (low_write (io c) bs) as [t wlen] eqn:Hw.
  destruct (low_write_law (io c) bs t wlen) as [Hle Hok]; [by intros ->; simpl in Lbs; lia|done|].
  eapply wp_transport; [exact Hw|]. cbv beta.
  destruct (Z.ltb_spec wlen 0) as [Hneg|Hge].
  { destruct (shutdown_recv (engine_of c)); cbn [negb].
    - apply wp_bind, wp_ret, wp_ret. split; [split; [exact HJ|exact Hle]|by right].
    - apply wp_set_eng, wp_ret. split; [split; [by apply session_fail|exact Hle]|by right]. }
  destruct (Hok Hge) as [Hlen Hdec]. destruct (Z.ltb_spec 0 wlen) as [Hpos|Hz].
  - destruct (sendrec_ack_public _ p n wlen (sess_inv _ HJ) Hb) as (e' & He' & _); [lia|].
    eapply wp_lift'; [exact He'|]. apply wp_set_eng, wp_ret. split; [|exact Hdec].
    apply (session_sendrec _ p n wlen e' HJ Hb); [lia|done].
  - apply wp_ret. split; [exact HJ|exact Hdec].
Qed.

Lemma recv_round target c : J (engine_of c) -> br_ssl_engine_closed (engine_of c) = false ->
  opened (br_ssl_engine_sendrec_buf (engine_of c)) = false ->
  hits (br_ssl_engine_current_state (engine_of c)) target = false ->
  wp (run_until_body target) (round_post target (budget (io c))) c.
Proof.
  intros HJ Hcl Hs Ht. destruct (hits_flags _ Hcl) as (F0 & F1 & F2 & _ & F4).
  pose proof (session_open _ HJ Hcl) as Hopen. rewrite Hs in F1, Hopen.
  apply wp_get_eng; cbv beta zeta. rewrite F0, F1, Ht, F2, F4.
  destruct (opened (br_ssl_engine_recvapp_buf (engine_of c))).
  { apply wp_ret. split; [by split|by right]. }
  rewrite orb_false_r in Hopen. cbn [orb] in Hopen. rewrite Hopen.
  destruct (br_ssl_engine_recvrec_buf (engine_of c)) as [[p n]|] eqn:Hb; [|done].
  pose proof (offered_recv _ _ _ HJ Hb) as (Hp & Hn & Hpn).
  apply (wp_lift' _ _ _ _ _ eq_refl). cbn [fst snd].
  destruct (low_read (io c) n) as [[t rlen] bs] eqn:Hr.
  destruct (low_read_law (io c) n t rlen bs Hn Hr) as [Hle Hok].
  eapply wp_transport; [rewrite Hr; reflexivity|]. cbv beta iota.
  destruct (Z.ltb_spec rlen 0) as [Hneg|Hge].
  { apply wp_set_eng, wp_ret. split; [split; [by apply session_fail|exact Hle]|by right]. }
  destruct (Hok Hge) as (-> & Hlen & Hbs & Hdec). destruct (Z.ltb_spec 0 (zlen bs)) as [Hpos|Hz].
  - eapply wp_lift'; [apply write_at_ok; lia|].
    destruct (recvrec_ack_public _ p n bs (sess_inv _ HJ) Hb Hbs) as (e' & He' & _); [lia|].
    eapply wp_lift'; [exact He'|]. apply wp_set_eng, wp_ret. split; [|exact Hdec].
    apply (session_recvrec _ p n bs e' HJ Hb Hbs); [lia|done].
  - apply wp_ret. split; [exact HJ|exact Hdec].
Qed.

Lemma run_until_round target c : J (engine_of c) ->
  wp (run_until_body target) (round_post target (budget (io c))) c.
Proof.
  intros HJ. destruct (br_ssl_engine_closed (engine_of c)) eqn:Hcl.
  { apply wp_get_eng; cbv beta zeta. unfold br_ssl_engine_current_state. rewrite Hcl.
    apply wp_ret. split; [by split|by right]. }
  destruct (opened (br_ssl_engine_sendrec_buf (engine_of c))) eqn:Hs; [by apply send_round|].
  destruct (hits (br_ssl_engine_current_state (engine_of c)) target) eqn:Ht; [|by apply recv_round].
  destruct (hits_flags _ Hcl) as (F0 & F1 & _). rewrite Hs in F1.
  apply wp_get_eng; cbv beta zeta. rewrite F0, F1, Ht. apply wp_ret. split; [by split|]. left. by split.
Qed.

(** [run_until] returns: one round more than the transport calls that succeed. *)
Lemma run_until_wp target b c : (b < fuel)%nat -> io_ok b c ->
  wp (run_until fuel target) (fun r c' => io_ok b c' /\ io_steps c [] [] c' /\
       (r = 0 /\ reached target (engine_of c') \/ r = -1)) c.
Proof.
  intros Hf [HJ Hb]. unfold run_until.
  apply (wp_loop (fun c' => io_ok b c' /\ io_steps c [] [] c') (fun c' => budget (io c'))).
  - intros c1 [[HJ1 Hb1] Hst]. eapply wp_mono; [apply wp_run, run_until_round, HJ1|].
    intros o c2 [Hrun Hpost].
    assert (io_steps c [] [] c2) as Hst2.
    { apply (io_app _ [] [] c1 [] []); [exact Hst|]. eapply io_pump; [exact Hrun|apply io_nil]. }
    destruct o as [r|].
    + destruct Hpost as [[? ?] ?]. split; [split; [done|lia]|done].
    + destruct Hpost as [? ?]. split; [split; [split; [done|lia]|done]|lia].
  - split; [by split|apply io_nil].
  - lia.
Qed.

Lemma reached_open target e : reached target e -> target <> 0 ->
  Z.land BR_SSL_CLOSED target = 0 -> br_ssl_engine_closed e = false.
Proof.
  intros [Hr _] _ Hz. destruct (br_ssl_engine_closed e) eqn:Hc; [|done].
  unfold br_ssl_engine_current_state, hits in Hr. by rewrite Hc, Hz in Hr.
Qed.

(** *** One call

    The counts are returned as [int]s: the I/O buffers are smaller than 2 GiB. *)
Context (Hsmall : lay.1.1.1.1 < 2 ^ 31).
Lemma mem_small e : J e -> zlen (mem e) < 2 ^ 31.
Proof. intros HJ. destruct (sess_inv e HJ) as [(E & _) _]. rewrite E in Hsmall. exact Hsmall. Qed.

Definition read_post (b : nat) (len : Z) c (rb : Z * list Z) c' : Prop :=
  io_ok b c' /\
  (rb = (-1, []) /\ io_steps c [] [] c' \/
   rb.1 = zlen rb.2 /\ rb.1 <= len /\ (0 < len -> 0 < rb.1) /\ Forall is_u8 rb.2 /\
   io_steps c [] rb.2 c').

Lemma sslio_read_wp b len c : (b < fuel)%nat -> io_ok b c -> 0 <= len ->
  wp (br_sslio_read fuel len) (read_post b len c) c.
Proof.
  intros Hf Hok Hlen. unfold br_sslio_read. destruct (Z.eqb_spec len 0) as [->|Hne].
  { apply wp_ret. split; [done|]. right. split; [done|split; [done|split; [lia|split; [done|apply io_nil]]]]. }
  apply wp_bind. eapply wp_mono; [by apply (run_until_wp _ b)|].
  intros r c1 ([HJ1 Hb1] & Hst & [(-> & Hre)| ->]).
  2:{ apply wp_ret. split; [by split|]. by left. }
  assert (br_ssl_engine_closed (engine_of c1) = false) as Hcl by (by apply (reached_open _ _ Hre)).
  destruct (hits_flags _ Hcl) as (_ & _ & _ & _ & F4). destruct Hre as [Hre _]. rewrite Hre in F4.
  cbn [Z.ltb Z.compare]. apply wp_get_eng; cbv beta zeta.
  destruct (br_ssl_engine_recvapp_buf (engine_of c1)) as [[p n]|] eqn:Hbuf; [|done].
  pose proof (offered_app _ _ _ HJ1 Hbuf) as (Hp & Hn & Hpn).
  apply (wp_lift' _ _ _ _ _ eq_refl). cbn [fst snd].
  set (k := if len <? n then len else n).
  assert (0 < k <= n /\ k <= len) as [Hk Hk'] by (subst k; destruct (Z.ltb_spec len n); lia).
  pose proof (mem_small _ HJ1). rewrite i32_small by lia.
  eapply wp_lift'; [apply read_at_ok; lia|]. apply wp_set_eng, wp_ret. split.
  { split; [|exact Hb1]. by apply (session_recvapp _ p n k HJ1 Hbuf). }
  right. cbn [fst snd]. rewrite zlen_zslice by lia. split; [done|split; [done|split; [lia|]]].
  split; [apply Forall_zslice, (bufs_bytes (lay := lay)), (sess_inv _ HJ1)|].
  rewrite <- (app_nil_r (zslice _ _ _)). apply (io_app _ [] [] c1 []); [exact Hst|].
  eapply io_get; [exact Hbuf|exact Hk|apply io_nil].
Qed.

Definition write_post (b : nat) (src : list Z) c (r : Z) c' : Prop :=
  io_ok b c' /\
  (r = -1 /\ io_steps c [] [] c' \/
   0 <= r <= zlen src /\ (src <> [] -> 0 < r) /\ io_steps c (ztake r src) [] c').

Lemma sslio_write_wp b src c : (b < fuel)%nat -> io_ok b c -> Forall is_u8 src ->
  wp (br_sslio_write fuel src) (write_post b src c) c.
Proof.
  intros Hf Hok Hsrc. unfold br_sslio_write. destruct (Z.eqb_spec (zlen src) 0) as [Hz|Hne].
  { apply wp_ret. split; [done|]. right. split; [lia|]. split; [destruct src; done|]. apply io_nil. }
  apply wp_bind. eapply wp_mono; [by apply (run_until_wp _ b)|].
  intros r c1 ([HJ1 Hb1] & Hst & [(-> & Hre)| ->]).
  2:{ apply wp_ret. split; [by split|]. by left. }
  assert (br_ssl_engine_closed (engine_of c1) = false) as Hcl by (by apply (reached_open _ _ Hre)).
  destruct (hits_flags _ Hcl) as (_ & _ & _ & F3 & _). destruct Hre as [Hre _]. rewrite Hre in F3.
  cbn [Z.ltb Z.compare]. apply wp_get_eng; cbv beta zeta.
  destruct (br_ssl_engine_sendapp_buf (engine_of c1)) as [[p n]|] eqn:Hbuf; [|done].
  pose proof (offered_room _ _ _ HJ1 Hbuf) as (Hp & Hn & Hpn).
  apply (wp_lift' _ _ _ _ _ eq_refl). cbn [fst snd].
  set (k := if zlen src <? n then zlen src else n).
  assert (0 < k <= n /\ k <= zlen src) as [Hk Hk']
    by (subst k; destruct (Z.ltb_spec (zlen src) n); lia).
  pose proof (mem_small _ HJ1). rewrite i32_small by lia.
  assert (zlen (ztake k src) = k) as Lk by (apply zlen_ztake; lia).
  eapply wp_lift'; [apply write_at_ok; lia|]. apply wp_set_eng, wp_ret.
  pose proof (session_sendapp _ p n (ztake k src) HJ1 Hbuf) as HJ2. rewrite Lk in HJ2.
  pose proof (fun c' => io_put p n (ztake k src) c1 [] [] c' Hbuf) as Hput. setoid_rewrite Lk in Hput.
  split; [split; [|exact Hb1]|].
  - apply HJ2; [by apply Forall_ztake|lia].
  - right. split; [lia|split; [lia|]]. apply (io_app _ [] [] c1 _ []); [exact Hst|].
    rewrite <- (app_nil_r (ztake k src)) at 1. apply Hput; [lia|apply io_nil].
Qed.

(** *** Loops *)

Definition read_all_post (b : nat) (len : Z) c (got : list Z) (rb : Z * list Z) c' : Prop :=
  io_ok b c' /\ exists bs, rb.2 = got ++ bs /\ io_steps c [] bs c' /\
    (rb.1 = 0 /\ zlen bs = len \/ rb.1 = -1 /\ zlen bs < len).

Lemma read_all_loop_wp b n len got c : (b < fuel)%nat -> io_ok b c -> 0 <= len <= Z.of_nat n ->
  len < 2 ^ 62 -> wp (read_all_loop fuel n len got) (read_all_post b len c got) c.
Proof.
  intros Hf. revert len got c. induction n as [|n IH]; intros len got c Hok Hlen Hbig.
  { assert (len = 0) as -> by lia. apply wp_ret. split; [done|].
    exists []. rewrite app_nil_r. split; [done|split; [apply io_nil|by left]]. }
  cbn [read_all_loop]. destruct (Z.leb_spec len 0) as [Hz|Hpos].
  { assert (len = 0) as -> by lia. apply wp_ret. split; [done|].
    exists []. rewrite app_nil_r. split; [done|split; [apply io_nil|by left]]. }
  apply wp_bind. eapply wp_mono; [apply (sslio_read_wp b); [done|done|lia]|].
  intros [r bs] c1 [Hok1 [[[= -> ->] Hst]|(Hr & Hle & Hr0 & _ & Hst)]]; cbn [fst snd] in *.
  { apply wp_ret. split; [done|]. exists []. rewrite app_nil_r.
    split; [done|split; [exact Hst|right; split; [done|exact Hpos]]]. }
  specialize (Hr0 Hpos). rewrite (proj2 (Z.ltb_ge r 0)) by lia. rewrite szsub_small by lia.
  eapply wp_mono; [apply IH; [done|lia|lia]|].
  intros [x l] c2 (Hok2 & bs2 & E & Hst2 & Hres); cbn [fst snd] in *. split; [done|].
  exists (bs ++ bs2). rewrite E, (assoc_L (++)). split; [done|].
  split; [by apply (io_app _ [] _ c1 [] _)|]. rewrite zlen_app. cbn [fst snd]. lia.
Qed.

Definition write_all_post (b : nat) (src : list Z) c (r : Z) c' : Prop :=
  io_ok b c' /\ exists n, 0 <= n <= zlen src /\ io_steps c (ztake n src) [] c' /\
    (r = 0 /\ n = zlen src \/ r = -1 /\ n < zlen src).

Lemma write_all_loop_wp b n src c : (b < fuel)%nat -> io_ok b c -> (length src <= n)%nat ->
  Forall is_u8 src -> wp (write_all_loop fuel n src) (write_all_post b src c) c.
Proof.
  intros Hf. revert src c. induction n as [|n IH]; intros src c Hok Hlen Hsrc.
  { assert (src = []) as -> by (destruct src; simpl in *; [done|lia]). apply wp_ret. split; [done|].
    exists 0. split; [done|split; [apply io_nil|by left]]. }
  cbn [write_all_loop]. destruct (Z.leb_spec (zlen src) 0) as [Hz|Hpos].
  { assert (src = []) as -> by (destruct src; simpl in *; [done|lia]). apply wp_ret. split; [done|].
    exists 0. split; [done|split; [apply io_nil|by left]]. }
  apply wp_bind. eapply wp_mono; [by apply (sslio_write_wp b)|].
  intros r c1 [Hok1 [[-> Hst]|(Hr & Hr0 & Hst)]].
  { apply wp_ret. split; [done|]. exists 0. split; [lia|]. split; [by rewrite ztake_le0|].
    right. split; [done|exact Hpos]. }
  assert (0 < r) as Hr1 by (apply Hr0; intros ->; simpl in Hpos; lia).
  rewrite (proj2 (Z.ltb_ge r 0)) by lia.
  assert (zlen (zdrop r src) = zlen src - r) as Ld by (apply zlen_zdrop; lia).
  eapply wp_mono; [apply IH; [done|lia|by apply Forall_zdrop]|].
  intros x c2 (Hok2 & k & Hk & Hst2 & Hres). split; [done|]. exists (r + k).
  split; [lia|]. split; [|lia].
  replace (ztake (r + k) src) with (ztake r src ++ ztake k (zdrop r src)).
  { by apply (io_app _ _ [] c1 _ []). }
  exact (zslice_app src 0 r k ltac:(lia) ltac:(lia) ltac:(lia) ltac:(lia)).
Qed.

(** *** The calls *)

Lemma sslio_flush_wp b c : (b < fuel)%nat -> io_ok b c ->
  wp (br_sslio_flush fuel) (fun r c' => io_ok b c' /\ io_steps c [] [] c' /\
        (r = 0 /\ br_ssl_engine_sendrec_buf (engine_of c') = None \/ r = -1)) c.
Proof.
  intros Hf Hok. unfold br_sslio_flush. apply wp_get_eng, wp_set_eng. eapply wp_mono.
  - apply (run_until_wp _ b); [done|]. destruct Hok as [HJ Hb].
    split; [by apply session_flush|exact Hb].
  - intros r c' (? & Hst & Hres). split; [done|]. split; [by apply io_flush|].
    destruct Hres as [[-> Hre]|]; [left|by right]. split; [done|].
    assert (br_ssl_engine_closed (engine_of c') = false) as Hcl by (by apply (reached_open _ _ Hre)).
    destruct (hits_flags _ Hcl) as (_ & F1 & _). destruct Hre as [_ Hre]. rewrite Hre in F1.
    by destruct (br_ssl_engine_sendrec_buf (engine_of c')).
Qed.

(** C8: the calls of the blocking wrapper return when the transport ends by
    failing, and they implement a byte stream.  A [br_sslio_write_all] that
    succeeds puts exactly the bytes given into the engine, in order; one that
    fails puts a strict prefix.  A [br_sslio_read_all] that succeeds stores
    exactly as many bytes as asked, those taken out of the engine in order; one
    that fails took fewer.  [br_sslio_flush] moves no application byte, and when
    it succeeds no record is left to send. *)
Theorem sslio_stream b c src len : (b < fuel)%nat -> io_ok b c -> Forall is_u8 src ->
  0 <= len < 2 ^ 62 ->
  wp (br_sslio_write_all fuel src) (fun r c' => io_ok b c' /\
        exists n, io_steps c (ztake n src) [] c' /\
          (r = 0 /\ ztake n src = src \/ r = -1 /\ n < zlen src)) c /\
  wp (br_sslio_read_all fuel len) (fun rb c' => io_ok b c' /\ io_steps c [] rb.2 c' /\
        (rb.1 = 0 /\ zlen rb.2 = len \/ rb.1 = -1 /\ zlen rb.2 < len)) c /\
  wp (br_sslio_flush fuel) (fun r c' => io_ok b c' /\ io_steps c [] [] c' /\
        (r = 0 /\ br_ssl_engine_sendrec_buf (engine_of c') = None \/ r = -1)) c.
Proof.
  intros Hf Hok Hsrc Hlen. split; [|split].
  - eapply wp_mono; [by apply (write_all_loop_wp b)|].
    intros r c' (? & n & Hn & Hst & Hres). split; [done|]. exists n. split; [done|].
    destruct Hres as [[-> ->]|[-> Hlt]]; [left|right]; [|done]. by rewrite ztake_ge.
  - eapply wp_mono; [apply (read_all_loop_wp b); [done|done|lia|lia]|].
    intros [r l] c' (? & bs & E & Hst & Hres). cbn [fst snd] in *. subst l. done.
  - by apply sslio_flush_wp.
Qed.
End spec.

Section dispatch.
Context {RI RO HS : Type} `{!RecordIn RI} `{!RecordOut RO} `{!Handshake RI RO HS}.
Implicit Types e : engine RI RO HS.
(** What the engine does once the record layer has taken the bytes. *)
Definition dispatch e : option (engine RI RO HS) :=
  if br_ssl_engine_closed e then Some e
  else match recvpld_buf e with
  | None => Some e
  | Some (_, len) =>
      let t := record_type_in e in
      if (t =? BR_SSL_CHANGE_CIPHER_SPEC) || (t =? BR_SSL_ALERT) || (t =? BR_SSL_HANDSHAKE)
      then jump_handshake e 0
      else if (t =? BR_SSL_APPLICATION_DATA) && (application_data e =? 1) then Some e
      else if (t =? BR_SSL_APPLICATION_DATA) && (application_data e =? 2)
      then Some (recvpld_ack e len)
      else Some (br_ssl_engine_fail e BR_ERR_UNEXPECTED)
  end.
Lemma recvrec_ack_dispatch e n : br_ssl_engine_recvrec_ack e n = dispatch (recvrec_ack e n).
Proof. unfold br_ssl_engine_recvrec_ack, dispatch. generalize (recvrec_ack e n). reflexivity. Qed.

(** [br_ssl_engine_hs_reset] once the buffers are cleared. *)
Definition reset_state e (cpu0 : HS) : engine RI RO HS :=
  e <| cpu := cpu0 |> <| shutdown_recv := false |> <| application_data := 0 |> <| alert := 0 |>.
Lemma hs_reset_eq e cpu0 :
  br_ssl_engine_hs_reset e cpu0 = jump_handshake (reset_state (engine_clearbuf e) cpu0) 0.
Proof. unfold br_ssl_engine_hs_reset. generalize (engine_clearbuf e). reflexivity. Qed.
Lemma reset_state_live `{!RecordInLaws RI} `{!RecordOutLaws RO} lay e cpu0 : eng_live lay e ->
  iomode e = BR_IO_INOUT ->
  let e' := reset_state (engine_clearbuf e) cpu0 in
  eng_live lay e' /\ iomode e' = BR_IO_INOUT /\ shutdown_recv e' = false.
Proof.
  intros (Hb & Hi & Ho) Hm. destruct (make_ready_in_live e Hb Ho) as (Hb1 & Hi1 & _).
  pose proof (make_ready_out_live _ Hb1 Hi1) as Hl1.
  assert (iomode (engine_clearbuf e) = BR_IO_INOUT) as Hm1.
  { unfold engine_clearbuf, make_ready_in, make_ready_out. eng_simpl. rewrite Hm.
    destruct (out_max_plaintext _ _ _). eng_simpl. by rewrite Hm. }
  fold (engine_clearbuf e) in Hl1. generalize dependent (engine_clearbuf e). intros e2 Hl2 Hm2.
  unfold reset_state, eng_live, eng_bufs, eng_in, eng_out in *. eng_simpl. by split.
Qed.
End dispatch.

(** ** The established session is one *)

Section established.
Import Established.
Context (lay : layout) (Hlay : lay.1.1.1.2 <> lay.1.1.2).
Notation eng_t := (engine unit unit unit).
Implicit Types e : eng_t.

(** Full duplex, no [close_notify] received, payload is application data. *)
Definition calm e : Prop :=
  eng_inv lay e /\ (iomode e <> BR_IO_FAILED ->
    iomode e = BR_IO_INOUT /\ shutdown_recv e = false /\ application_data e = 1 /\
    (recvpld_buf e <> None -> record_type_in e = BR_SSL_APPLICATION_DATA)).

Lemma not_shared e : eng_inv lay e -> shared e = false.
Proof.
  intros ((E & _ & _ & (i & o & Ei & Eo & _) & _) & _). unfold shared.
  apply bool_decide_eq_false. intros Eio. apply Hlay. rewrite E. exact Eio.
Qed.

(** What the input side looks like. *)
Definition in_view e : io_mode * bool * Z * Z * Z * Z :=
  (iomode e, shutdown_recv e, application_data e, record_type_in e, ixa e, ixb e).

Lemma recvpld_view e e' : in_view e' = in_view e ->
  opened (recvpld_buf e') = opened (recvpld_buf e).
Proof.
  unfold in_view. intros [= E1 E2 E3 E4 E5 E6]. unfold recvpld_buf. rewrite E1, E5, E6.
  destruct (iomode e); try done; by destruct (_ =? 0).
Qed.
Lemma opened_none b : opened b = false <-> b = None.
Proof. by destruct b. Qed.

Lemma calm_view e e' : calm e -> in_view e' = in_view e -> eng_inv lay e' -> calm e'.
Proof.
  intros [_ H] E Hinv. pose proof (recvpld_view e e' E) as Ho. split; [exact Hinv|].
  unfold in_view in E. injection E as E1 E2 E3 E4 E5 E6. rewrite E1, E2, E3, E4.
  intros Hm. destruct (H Hm) as (? & ? & ? & Ht). split; [done|split; [done|split; [done|]]].
  intros Hp. apply Ht. intros Hn. apply Hp, opened_none. by rewrite Ho, Hn.
Qed.

Lemma make_ready_out_view e : iomode e = BR_IO_INOUT -> in_view (make_ready_out e) = in_view e.
Proof.
  intros Hm. unfold make_ready_out. destruct (out_max_plaintext _ _ _) as [a b].
  eng_simpl. by rewrite Hm.
Qed.
Lemma sendpld_flush_view e f : in_view (sendpld_flush e f) = in_view e.
Proof.
  unfold sendpld_flush. case_match; [done|]. case_match; [done|].
  destruct (out_encrypt _ _ _ _ _ _) as [[[??]?]?]. done.
Qed.
Lemma sendpld_ack_view e n : eng_inv lay e -> in_view (sendpld_ack e n) = in_view e.
Proof.
  intros Hinv. unfold sendpld_ack. rewrite (not_shared e Hinv), andb_false_r.
  case_match; [|done]. by rewrite sendpld_flush_view.
Qed.
Lemma sendrec_ack_view e n : iomode e = BR_IO_INOUT -> in_view (sendrec_ack e n) = in_view e.
Proof. intros Hm. unfold sendrec_ack. case_match; [|done]. by rewrite make_ready_out_view. Qed.

(** Consuming all the payload leaves none. *)
Lemma recvpld_ack_view e n : iomode e = BR_IO_INOUT ->
  let e' := recvpld_ack e n in
  iomode e' = BR_IO_INOUT /\ shutdown_recv e' = shutdown_recv e /\
  application_data e' = application_data e /\ record_type_in e' = record_type_in e /\
  hlen_in e' = hlen_in e.
Proof.
  intros Hm. unfold recvpld_ack. case_match; [|done]. case_match; [|done].
  unfold make_ready_in. eng_simpl. by rewrite !Hm.
Qed.

Lemma hs_publish_in e act p n : recvpld_buf e = Some (p, n) ->
  record_type_in e <> BR_SSL_APPLICATION_DATA -> hlen_in (hs_publish e act) = n.
Proof.
  intros Hb Ht. unfold hs_publish. eng_simpl. rewrite Hb.
  rewrite (proj2 (Z.eqb_neq _ _) Ht), andb_false_r. done.
Qed.
Lemma hs_publish_none e act : recvpld_buf e = None \/ record_type_in e = BR_SSL_APPLICATION_DATA ->
  hlen_in (hs_publish e act) = 0.
Proof.
  intros [H|H]; unfold hs_publish; eng_simpl; rewrite H.
  - by rewrite bool_decide_false by (by intros []).
  - rewrite Z.eqb_refl, andb_true_r. case_bool_decide as E; [done|].
    destruct (recvpld_buf e); [|done]. exfalso; eauto.
Qed.

(** A round of the loop: the coroutine takes all the payload it is given. *)
Definition after_hs e act : eng_t := hsrun (hs_publish e act).
Lemma after_hs_fields e act :
  iomode (after_hs e act) = iomode e /\ hlen_in (after_hs e act) = 0 /\
  hbuf_out (after_hs e act) = saved_hbuf_out (after_hs e act) /\
  shutdown_recv (after_hs e act) = shutdown_recv e /\ application_data (after_hs e act) = 1 /\
  record_type_in (after_hs e act) = record_type_in e /\
  recvpld_buf (after_hs e act) = recvpld_buf e.
Proof. repeat split. Qed.
Lemma jump_round_eq fuel e act : iomode e = BR_IO_INOUT -> 0 <= hlen_in (hs_publish e act) < 2 ^ 62 ->
  jump_loop (S fuel) e act =
    (if hlen_in (hs_publish e act) =? 0 then Some (after_hs e act)
     else let e' := recvpld_ack (after_hs e act) (hlen_in (hs_publish e act)) in
          if hlen_in e' =? 0 then jump_loop fuel e' 0 else Some e').
Proof.
  intros Hm Hn. cbn [jump_loop]. fold (after_hs e act).
  destruct (after_hs_fields e act) as (Em & Eh & Eo & _).
  generalize dependent (after_hs e act). intros e2 Em Eh Eo.
  unfold br_ssl_engine_closed. rewrite Em, Hm, Eo.
  rewrite (bool_decide_false (BR_IO_INOUT = BR_IO_FAILED)) by done.
  rewrite bool_decide_true by done. rewrite Eh, szsub_small by lia. by rewrite Z.sub_0_r.
Qed.

(** The handshake consumes the payload it is given. *)
Lemma jump_calm e act e' : eng_live lay e -> iomode e = BR_IO_INOUT -> shutdown_recv e = false ->
  jump_handshake e act = Some e' -> eng_inv lay e' -> calm e'.
Proof.
  intros Hl Hm Hs Hj Hinv'. split; [exact Hinv'|]. intros _. clear Hinv'. revert Hj.
  unfold jump_handshake.
  destruct (after_hs_fields e act) as (Em & Eh & Eo & Es & Ea & Et & Ep).
  destruct (recvpld_buf e) as [[p n]|] eqn:Hb.
  2:{ pose proof (hs_publish_none e act ltac:(auto)) as Hz.
      rewrite jump_round_eq, Hz by (rewrite ?Hz; done || lia). intros [= <-].
      rewrite Em, Es, Ea, Ep. done. }
  destruct (recvpld_buf_inv e p n (eng_live_inv _ Hl) Hb) as (_ & _ & ? & ? & Hn & Hn').
  pose proof (bufs_facts e (proj1 Hl)).
  destruct (decide (record_type_in e = BR_SSL_APPLICATION_DATA)) as [Ht|Ht].
  { pose proof (hs_publish_none e act ltac:(auto)) as Hz.
    rewrite jump_round_eq, Hz by (rewrite ?Hz; done || lia). intros [= <-].
    rewrite Em, Es, Ea, Et. done. }
  pose proof (hs_publish_in e act p n Hb Ht) as Hi.
  rewrite jump_round_eq, Hi by (rewrite ?Hi; done || lia).
  rewrite (proj2 (Z.eqb_neq n 0)) by lia. cbv zeta.
  assert (eng_inv lay (after_hs e act)) as Hinv2 by exact (eng_live_inv _ Hl).
  generalize dependent (after_hs e act). intros e2 Em Eh Eo Es Ea Et Ep Hinv2.
  pose proof (recvpld_ack_all e2 p n Hinv2 Ep) as Hnone.
  destruct (recvpld_ack_view e2 n) as (Fm & Fs & Fa & Ft & Fh); [congruence|].
  generalize dependent (recvpld_ack e2 n). intros e3 Hnone Fm Fs Fa Ft Fh.
  rewrite Fh, Eh. cbn [Z.eqb].
  pose proof (hs_publish_none e3 0 ltac:(auto)) as Hz.
  rewrite jump_round_eq, Hz by (rewrite ?Hz; congruence || lia). intros [= <-].
  destruct (after_hs_fields e3 0) as (-> & _ & _ & -> & -> & _ & ->).
  rewrite Hnone, Fs, Es. done.
Qed.

(** The record layer: full duplex is kept, or the engine fails. *)
Lemma fail_mode e x : iomode (br_ssl_engine_fail e x) = BR_IO_FAILED.
Proof. unfold br_ssl_engine_fail. destruct (iomode e) eqn:E; eng_simpl; by rewrite ?E. Qed.
Definition kept e e' : Prop :=
  iomode e' = BR_IO_FAILED \/
  (iomode e' = BR_IO_INOUT /\ shutdown_recv e' = shutdown_recv e /\
   application_data e' = application_data e).
Lemma make_ready_in_kept e0 e : kept e0 e -> kept e0 (make_ready_in e).
Proof.
  unfold kept, make_ready_in. eng_simpl.
  intros [E|(E & ? & ?)]; rewrite E; eng_simpl; [left|right]; rewrite ?E; done.
Qed.
Lemma recvrec_header_kept e : iomode e = BR_IO_INOUT -> kept e (recvrec_header e).
Proof.
  intros Hm. unfold recvrec_header. eng_simpl.
  repeat match goal with |- kept _ (if ?b then _ else _) => destruct b end;
    try (left; apply fail_mode); try (by right); apply make_ready_in_kept; by right.
Qed.
Lemma recvrec_decrypt_kept e : iomode e = BR_IO_INOUT -> kept e (recvrec_decrypt e).
Proof.
  intros Hm. unfold recvrec_decrypt. destruct (decrypt _ _ _ _) as [[s data] [[off n]|]].
  - case_match; [apply make_ready_in_kept|]; by right.
  - left. apply fail_mode.
Qed.
Lemma recvrec_ack_kept e n : eng_inv lay e -> iomode e = BR_IO_INOUT -> kept e (recvrec_ack e n).
Proof.
  intros Hinv Hm. unfold recvrec_ack. rewrite (not_shared e Hinv), andb_false_r. eng_simpl.
  repeat match goal with |- kept _ (if ?b then _ else _) => destruct b end; try (by right).
  - match goal with |- kept _ (recvrec_header ?x) => exact (recvrec_header_kept x Hm) end.
  - match goal with |- kept _ (recvrec_decrypt ?x) => exact (recvrec_decrypt_kept x Hm) end.
Qed.
Lemma kept_calm e e' : calm e -> kept e e' -> eng_inv lay e' ->
  (iomode e' <> BR_IO_FAILED -> recvpld_buf e' <> None -> record_type_in e' = BR_SSL_APPLICATION_DATA) ->
  iomode e <> BR_IO_FAILED -> calm e'.
Proof.
  intros [_ H] [Hk|(Hk & Hs & Ha)] Hinv Ht Hm; (split; [done|]); [done|].
  destruct (H Hm) as (_ & Hs0 & Ha0 & _). intros Hm'.
  split; [done|]. split; [by rewrite Hs|]. split; [by rewrite Ha|]. auto.
Qed.

Lemma closed_mode e : br_ssl_engine_closed e = true <-> iomode e = BR_IO_FAILED.
Proof. unfold br_ssl_engine_closed. apply bool_decide_eq_true. Qed.
Lemma calm_fail e x : calm e -> calm (br_ssl_engine_fail e x).
Proof.
  intros [Hinv _]. split; [by apply fail_inv, Hinv|]. intros Hm. by rewrite fail_mode in Hm.
Qed.

(** Bytes stored where the engine asked for them. *)
Lemma calm_mem e p bs : calm e -> iomode e <> BR_IO_FAILED -> Forall is_u8 bs -> 0 <= p ->
  p + zlen bs <= zlen (mem e) -> calm (e <| mem := zblit (mem e) p bs |>).
Proof.
  intros [Hinv Hc] Hm Hbs Hp Hl. destruct (eng_inv_live e Hinv Hm) as (Hb & Hi & Ho).
  pose proof (bufs_blit e p bs Hb Hbs Hp Hl) as Hb'.
  split; [split; [exact Hb'|]|].
  - intros _. unfold eng_in, eng_out in *. eng_simpl. by split.
  - unfold recvpld_buf, ibase in *. eng_simpl. exact Hc.
Qed.
Lemma calm_dispatch e0 e1 e' : calm e0 -> iomode e0 = BR_IO_INOUT -> kept e0 e1 -> eng_inv lay e1 ->
  eng_inv lay e' -> dispatch e1 = Some e' -> calm e'.
Proof.
  intros Hc Hio Hk Hinv1 Hinv' E. unfold dispatch in E.
  assert (iomode e0 <> BR_IO_FAILED) as Hm0 by (by rewrite Hio).
  pose proof (fun H => kept_calm e0 e1 Hc Hk Hinv1 H Hm0) as Hcalm.
  destruct (br_ssl_engine_closed e1) eqn:Hcl.
  { injection E as <-. apply Hcalm. intros Hm1. by apply closed_mode in Hcl. }
  assert (iomode e1 <> BR_IO_FAILED) as Hm1 by (by rewrite <- closed_mode, Hcl).
  destruct Hk as [?|(Hio1 & Hs1 & Ha1)]; [done|].
  destruct (proj2 Hc Hm0) as (_ & Hs0 & Ha0 & _). rewrite Hs0 in Hs1. rewrite Ha0 in Ha1.
  destruct (recvpld_buf e1) as [[q k]|] eqn:Hpld.
  2:{ injection E as <-. by apply Hcalm. }
  cbv zeta in E. destruct (_ || _ || _).
  { by apply (jump_calm e1 0); [apply eng_inv_live|..]. }
  rewrite Ha1 in E.
  destruct (Z.eqb_spec (record_type_in e1) BR_SSL_APPLICATION_DATA) as [Ht|Ht]; cbn [andb Z.eqb Pos.eqb] in E.
  - injection E as <-. by apply Hcalm.
  - injection E as <-. split; [exact Hinv'|]. intros Hf. by rewrite fail_mode in Hf.
Qed.
Lemma calm_recvrec_ack e n e' : calm e -> iomode e = BR_IO_INOUT -> eng_inv lay (recvrec_ack e n) ->
  eng_inv lay e' -> br_ssl_engine_recvrec_ack e n = Some e' -> calm e'.
Proof.
  intros Hc Hio Hinv1 Hinv' E. rewrite recvrec_ack_dispatch in E.
  exact (calm_dispatch e _ e' Hc Hio (recvrec_ack_kept e n (proj1 Hc) Hio) Hinv1 Hinv' E).
Qed.
Lemma calm_recvrec e p n bs e' : calm e -> br_ssl_engine_recvrec_buf e = Some (p, n) ->
  Forall is_u8 bs -> 0 < zlen bs <= n ->
  br_ssl_engine_recvrec_ack (e <| mem := zblit (mem e) p bs |>) (zlen bs) = Some e' -> calm e'.
Proof.
  intros Hc Hb Hbs Hn E. pose proof (proj1 Hc) as Hinv.
  destruct (recvrec_buf_inv e p n Hinv Hb) as (Hl & Hp & Hx & ? & ? & ?).
  destruct (recvrec_ack_public e p n bs Hinv Hb Hbs Hn) as (e1 & E1 & Hinv').
  rewrite E in E1. injection E1 as <-.
  assert (iomode e <> BR_IO_FAILED) as Hm by (intros Hm; unfold br_ssl_engine_recvrec_buf, recvrec_buf in Hb; rewrite Hm in Hb; by destruct (shutdown_recv e)).
  destruct (proj2 Hc Hm) as (Hio & _). pose proof (bufs_facts e (proj1 Hl)).
  pose proof (calm_mem e p bs Hc Hm Hbs ltac:(lia) ltac:(lia)) as Hc0.
  refine (calm_recvrec_ack _ _ _ Hc0 _ _ Hinv' E); [eng_simpl; exact Hio|].
  apply recvrec_ack_inv; [apply eng_inv_live; [apply Hc0|eng_simpl; exact Hm]|..]; eng_simpl; lia.
Qed.

Lemma calm_sendrec e p n k e' : calm e -> br_ssl_engine_sendrec_buf e = Some (p, n) ->
  0 < k <= n -> br_ssl_engine_sendrec_ack e k = Some e' -> calm e'.
Proof.
  intros Hc Hb Hk E. pose proof (proj1 Hc) as Hinv.
  destruct (sendrec_buf_inv e p n Hinv Hb) as (Hl & _ & ? & ? & ? & ? & Hx).
  assert (iomode e <> BR_IO_FAILED) as Hm
    by (intros Hm; unfold br_ssl_engine_sendrec_buf, sendrec_buf in Hb; rewrite Hm in Hb; done).
  destruct (sendrec_ack_public e p n k Hinv Hb Hk) as (e1 & E1 & Hinv').
  rewrite E in E1. injection E1 as <-.
  destruct (proj2 Hc Hm) as (Hio & Hs & Ha & Ht).
  pose proof (sendrec_ack_view e k Hio) as Hv.
  assert (eng_live lay (sendrec_ack e k)) as Hl1 by (apply sendrec_ack_live; [done|lia]).
  pose proof (calm_view e _ Hc Hv (eng_live_inv _ Hl1)) as Hc1.
  unfold br_ssl_engine_sendrec_ack in E. destruct (_ && _).
  - unfold in_view in Hv. injection Hv as Ei Es _ _ _ _.
    apply (jump_calm (sendrec_ack e k) 0); [done|congruence|congruence|done|done].
  - by injection E as <-.
Qed.

Lemma calm_sendapp e p n bs : calm e -> br_ssl_engine_sendapp_buf e = Some (p, n) ->
  Forall is_u8 bs -> 0 < zlen bs <= n ->
  calm (br_ssl_engine_sendapp_ack (e <| mem := zblit (mem e) p bs |>) (zlen bs)).
Proof.
  intros Hc Hb Hbs Hn. pose proof (sendapp_ack_public e p n bs (proj1 Hc) Hb Hbs Hn) as Hinv'.
  pose proof Hb as Hb'. unfold br_ssl_engine_sendapp_buf in Hb'. destruct (app_ok e); [|done].
  destruct (sendpld_buf_inv e p n (proj1 Hc) Hb') as (Hl & ? & ? & ? & ? & ? & ?).
  pose proof (bufs_facts e (proj1 Hl)).
  assert (iomode e <> BR_IO_FAILED) as Hm by (intros Hm; unfold sendpld_buf in Hb'; by rewrite Hm in Hb').
  pose proof (calm_mem e p bs Hc Hm Hbs ltac:(lia) ltac:(lia)) as Hc0.
  apply (calm_view _ _ Hc0); [|exact Hinv']. apply sendpld_ack_view, Hc0.
Qed.

Lemma calm_recvapp e p n k : calm e -> br_ssl_engine_recvapp_buf e = Some (p, n) ->
  0 < k <= n -> calm (br_ssl_engine_recvapp_ack e k).
Proof.
  intros Hc Hb Hk. pose proof (recvapp_ack_public e p n k (proj1 Hc) Hb Hk) as Hinv'.
  split; [exact Hinv'|]. intros _.
  assert (iomode e <> BR_IO_FAILED) as Hm.
  { intros Hm. unfold br_ssl_engine_recvapp_buf, recvpld_buf in Hb. rewrite Hm in Hb. by destruct (_ || _). }
  destruct (proj2 Hc Hm) as (Hio & Hs & Ha & Ht).
  destruct (recvpld_ack_view e k Hio) as (Fm & Fs & Fa & Ft & _).
  unfold br_ssl_engine_recvapp_ack. rewrite Fm, Fs, Fa, Ft.
  do 3 (split; [done|]). intros _. apply Ht.
  unfold br_ssl_engine_recvapp_buf in Hb. destruct (_ || _); [done|]. by rewrite Hb.
Qed.

Lemma calm_flush e : calm e -> calm (br_ssl_engine_flush e false).
Proof.
  intros Hc. apply (calm_view e); [done| |apply flush_public, Hc].
  unfold br_ssl_engine_flush. destruct (_ && _); [apply sendpld_flush_view|done].
Qed.

Lemma calm_open e : calm e -> br_ssl_engine_closed e = false ->
  opened (br_ssl_engine_sendrec_buf e) || opened (br_ssl_engine_recvrec_buf e)
    || opened (br_ssl_engine_recvapp_buf e) = true.
Proof.
  intros Hc Hcl. assert (iomode e <> BR_IO_FAILED) as Hm by (by rewrite <- closed_mode, Hcl).
  destruct (proj2 Hc Hm) as (Hio & Hs & Ha & Ht).
  pose proof (input_exclusive e (proj1 Hc) Hm ltac:(by rewrite Hio) Hs) as Hx.
  unfold br_ssl_engine_recvrec_buf, br_ssl_engine_recvapp_buf, app_ok. rewrite Ha. cbn [Z.testbit Pos.testbit].
  destruct (recvpld_buf e) eqn:Hp.
  - rewrite (Ht ltac:(done)), Z.eqb_refl. cbn. apply orb_true_r.
  - rewrite Hx. cbn. by rewrite orb_true_r.
Qed.

#[export] Instance established_session : Session lay calm.
Proof.
  split.
  - by intros e [].
  - exact calm_open.
  - exact calm_recvrec.
  - exact calm_sendrec.
  - exact calm_sendapp.
  - exact calm_recvapp.
  - exact calm_flush.
  - exact calm_fail.
Qed.
End established.

(** ** A concrete transport *)

(** Bytes to come, and bytes sent; writes succeed [writes_left] times. *)
Record pipe : Type := Pipe { incoming : list Z; outgoing : list Z; writes_left : nat }.
#[export] Instance pipe_io : LowIO pipe := {|
  low_read t n :=
    let k := Z.min n (zlen (incoming t)) in
    let bs := filter (fun x => 0 <= x < 256) (ztake k (incoming t)) in
    match incoming t with
    | [] => (t, -1, [])
    | _ => (Pipe (zdrop k (incoming t)) (outgoing t) (writes_left t), zlen bs, bs)
    end;
  low_write t bs :=
    match writes_left t with
    | O => (t, -1)
    | S q => (Pipe (incoming t) (outgoing t ++ bs) q, zlen bs)
    end |}.
Definition pipe_budget (t : pipe) : nat := length (incoming t) + writes_left t.
#[export] Instance pipe_laws : LowIOLaws pipe pipe_budget.
Proof.
  constructor.
  - intros [[|x l] o q] n t' r bs Hn; cbn [low_read pipe_io incoming outgoing writes_left]; [intros [= <- <- <-]; split; [done|lia]|].
    intros [= <- <- <-]. unfold pipe_budget; cbn [incoming outgoing writes_left].
    set (k := Z.min n (Z.of_nat (S (length l)))).
    assert (zlen (x :: l) = Z.of_nat (S (length l))) as Hl by done.
    assert (0 < k <= n /\ k <= zlen (x :: l)) as [Hk Hk'] by (subst k; lia).
    pose proof (zlen_zdrop k (x :: l) ltac:(lia)). pose proof (zlen_ztake k (x :: l) ltac:(lia)).
    pose proof (length_filter (fun x => 0 <= x < 256) (ztake k (x :: l))) as Hf.
    split; [lia|]. intros _. split; [done|]. split; [lia|split; [|lia]].
    apply Forall_forall. intros y Hy. apply list_elem_of_filter in Hy as [Hy _]. exact Hy.
  - intros [i o [|q]] bs t' r Hb; cbn [low_write pipe_io incoming outgoing writes_left]; intros [= <- <-]; unfold pipe_budget;
      cbn [incoming writes_left]; split; lia.
Qed.

Section witnesses.
Import Established.

Lemma session_calm : calm session_layout session.
Proof.
  split; [exact session_inv|]. intros _. split; [vm_compute; reflexivity|].
  split; [vm_compute; reflexivity|]. split; [vm_compute; reflexivity|].
  assert (recvpld_buf session = None) as -> by (vm_compute; reflexivity). done.
Qed.

Lemma sslio_stream_witness :
  wp (br_sslio_write_all 10 [1; 2; 3]) (fun r c' => io_ok pipe_budget (calm session_layout) 4 c' /\
        exists n, io_steps (Sslio session (Pipe [22] [] 3)) (ztake n [1; 2; 3]) [] c' /\
          (r = 0 /\ ztake n [1; 2; 3] = [1; 2; 3] \/ r = -1 /\ n < zlen [1; 2; 3]))
     (Sslio session (Pipe [22] [] 3)).
Proof.
  refine (proj1 (sslio_stream pipe_budget session_layout (calm session_layout) 10 eq_refl 4
           (Sslio session (Pipe [22] [] 3)) [1; 2; 3] 0 _ _ _ _)).
  - by apply established_session.
  - lia.
  - split; [exact session_calm|done].
  - by apply bytes_dec.
  - lia.
Defined.
End witnesses.
