(* ===== verification/TlsClient.v ===== *)
(** * TlsClient: the blocking client of [tls_wrapper_v3.c]

    [g_client_conns] is a table of 64 pointers to connections; a connection has
    its own engine, pumped through the blocking wrapper of [Sslio].  Memory that
    is allocated and never registered (or freed) is not part of the state. *)
From S2P Require Import Prelude.
From S2P Require Import Words.
From S2P Require Import Effects.
From S2P Require Import JsonFrame.
From S2P Require Import Engine.
From S2P Require Import TlsServer.
From S2P Require Import Sslio.

Definition TLSV2_MAX_CLIENT_CONNS : nat := 64.
Definition BR_TLS10 : Z := 769.
(** [sizeof eng.server_name]. *)
Definition SERVER_NAME_SIZE : Z := 256.

(** The calls that open a socket; [in_progress] is the test of [errno] that
    follows a failed [connect]. *)
Class Net (W : Type) := {
  gfns_net_init : W -> W * bool;
  sys_socket : W -> W * option Z;
  inet_pton : list Z -> option Z;
  sys_connect : W -> Z -> Z -> Z -> W * bool;
  in_progress : W -> bool }.

Class NetLaws (W : Type) `{!Net W} (budget : W -> nat) := {
  net_init_law : forall w, (budget (gfns_net_init w).1 <= budget w)%nat;
  sys_socket_law : forall w w' r, sys_socket w = (w', r) ->
    (budget w' <= budget w)%nat /\ forall s, r = Some s -> 0 <= s;
  sys_connect_law : forall w s a p, (budget (sys_connect w s a p).1 <= budget w)%nat }.

(** [tlsv2_client_conn_t]; [iobuf] and [plainbuf] are the engine's memory. *)
Record conn {E : Type} : Type := Conn { sock : Z; ceng : E }.
Arguments conn : clear implicits.
Arguments Conn {E}.
#[export] Instance eta_conn {E} : Eta (conn E) := fun c => Conn (sock c) (ceng c).

Record clients {E W : Type} : Type := Clients { g_client_conns : list (option (conn E)); wld : W }.
Arguments clients : clear implicits.
Arguments Clients {E W}.
#[export] Instance eta_clients {E W} : Eta (clients E W) := fun s =>
  Clients (g_client_conns s) (wld s).

(** The callbacks given to [br_sslio_init]. *)
Definition sock_io {W} `{!OS W} (s : Z) : LowIO W := {|
  low_read w n := tls_low_read w s n;
  low_write w bs := tls_low_write w s bs |}.

(** What [tlsv2_client_recv_json] returns: a count with the buffer, or a write
    outside the buffer. *)
Inductive recv_result := Received (r : Z) (buf : list Z) | Overflow.

Section client.
Context {RI RO HS : Type} `{!RecordIn RI} `{!RecordOut RO} `{!Handshake RI RO HS}.
Context {W : Type} `{!OS W} `{!Net W} (fuel : nat).
(** A zeroed input protection context; what [br_ssl_client_init_full] stores for
    the handshake code; the entry point of the client coroutine for a server
    name. *)
Context (rin0 : RI) (client_hs : HS) (client_main : list Z -> HS -> HS).
(** [sizeof(tlsv2_client_conn_t)]. *)
Context (sizeof_conn : Z).
Notation eng_t := (engine RI RO HS).
Notation conn := (conn eng_t).
Notation clients := (clients eng_t W).
Notation M := (M clients).

(** *** The table *)

Fixpoint set_first_free (c : conn) (l : list (option conn)) : list (option conn) :=
  match l with
  | [] => []
  | None :: l => Some c :: l
  | Some d :: l => Some d :: set_first_free c l
  end.
Definition tlsv2_register_client_conn (c : conn) : M unit :=
  mset (fun s => s <| g_client_conns := set_first_free c (g_client_conns s) |>).

Fixpoint lookup_from (k : Z) (i : nat) (l : list (option conn)) : option nat :=
  match l with
  | [] => None
  | Some c :: l => if sock c =? k then Some i else lookup_from k (S i) l
  | None :: l => lookup_from k (S i) l
  end.
Definition tlsv2_lookup_client_conn (k : Z) : M (option nat) := fun s =>
  Some (lookup_from k 0 (g_client_conns s), s).

Definition tlsv2_unregister_client_conn (k : Z) : M unit :=
  let! o := tlsv2_lookup_client_conn k in
  match o with
  | Some i => mset (fun s => s <| g_client_conns := <[i := None]> (g_client_conns s) |>)
  | None => mret' tt
  end.

(** *** Sockets *)

Definition gfns_connect_blocking (w : W) (host : list Z) (port : Z) : W * option Z :=
  let '(w, ok) := gfns_net_init w in
  if negb ok then (w, None)
  else match sys_socket w with
  | (w, None) => (w, None)
  | (w, Some s) =>
      match inet_pton host with
      | None => (sys_close w s, None)
      | Some addr =>
          let '(w, ok) := sys_connect w s addr (u16 port) in
          if negb ok && negb (in_progress w) then (sys_close w s, None) else (w, Some s)
      end
  end.

(** *** Connecting *)

(** [br_ssl_client_reset] with [resume_session] 0 on the context that
    [br_ssl_client_init_full] has just set up. *)
Definition br_ssl_client_reset (server_name : list Z) (w : W) (e : eng_t) : W * option eng_t :=
  let e := br_ssl_engine_set_buffer e None 0 false in
  let e := e <| version_out := BR_TLS10 |> in
  let '(w, e, ok) := br_ssl_engine_init_rand w e in
  if negb ok then (w, Some e)
  else
    let e := e <| reneg := 0 |> in
    if SERVER_NAME_SIZE <? zlen server_name + 1
    then (w, Some (br_ssl_engine_fail e BR_ERR_BAD_PARAM))
    else (w, br_ssl_engine_hs_reset e (client_main server_name (cpu e))).

Definition wsys {A} (f : W -> W * A) : M A := fun s =>
  let '(w, a) := f (wld s) in Some (a, s <| wld := w |>).

Definition tlsv2_client_init : M Z :=
  wsys gfns_net_init ;;! mret' 0.

(** Running the blocking wrapper of a connection that is not in the table. *)
Definition with_new (c : conn) {A} (m : LowIO W -> Effects.M (br_sslio_context eng_t W) A) :
    M (A * conn) := fun s =>
  match m (sock_io (sock c)) (Sslio (ceng c) (wld s)) with
  | Some (a, x) => Some ((a, c <| ceng := engine_of x |>), s <| wld := io x |>)
  | None => None
  end.

(** The engine of a new connection, up to [br_ssl_engine_set_buffers_bidi]. *)
Definition connect_engine : eng_t :=
  br_ssl_engine_set_buffers_bidi
    (engine_zero (zeros (TLSV2_IOBUF_SIZE + TLSV2_PLAINTEXT_SIZE)) rin0 client_hs)
    (Some 0) TLSV2_IOBUF_SIZE (Some TLSV2_IOBUF_SIZE) TLSV2_PLAINTEXT_SIZE.

Definition tlsv2_client_connect (host : list Z) (port : Z) : M Z :=
  let! ok := wsys (fun w => sys_malloc w sizeof_conn) in
  if negb ok then mret' (-1)
  else
    let! o := wsys (fun w => gfns_connect_blocking w host port) in
    match o with
    | None => mret' (-1)
    | Some s =>
        let! oe := wsys (fun w => br_ssl_client_reset host w connect_engine) in
        let! e := mlift oe in
        let! rc := with_new (Conn s e) (fun _ => br_sslio_flush fuel) in
        let '(r, c) := rc in
        if r <? 0 then wsys (fun w => (sys_close w (sock c), tt)) ;;! mret' (-2)
        else tlsv2_register_client_conn c ;;! mret' (sock c)
    end.

(** *** Messages *)

(** Running the blocking wrapper of the connection at index [i]. *)
Definition with_ioc (i : nat) {A} (m : LowIO W -> Effects.M (br_sslio_context eng_t W) A) : M A := fun s =>
  match g_client_conns s !! i with
  | Some (Some c) =>
      match m (sock_io (sock c)) (Sslio (ceng c) (wld s)) with
      | Some (a, x) =>
          Some (a, Clients (<[i := Some (c <| ceng := engine_of x |>)]> (g_client_conns s)) (io x))
      | None => None
      end
  | _ => None
  end.

Definition send_body (json : list Z) (L : LowIO W) : Effects.M (br_sslio_context eng_t W) Z :=
  let len := zlen json in
  if TLSV2_MAX_JSON_SIZE <? len then mret' (-2)
  else
    let nlen := htonl (u32 len) in
    let! r := br_sslio_write_all fuel (br_enc32le nlen) in
    if r <? 0 then mret' (-3)
    else
      let! r := br_sslio_write_all fuel json in
      if r <? 0 then mret' (-4)
      else
        let! r := br_sslio_flush fuel in
        if r <? 0 then mret' (-5) else mret' 0.
Definition tlsv2_client_send_json (k : Z) (json : list Z) : M Z :=
  let! o := tlsv2_lookup_client_conn k in
  match o with
  | None => mret' (-1)
  | Some i => with_ioc i (send_body json)
  end.

(** [while (total < nlen)]; the counter bounds the rounds, each of which reads
    at least one byte. *)
Fixpoint recv_loop (n : nat) (L : LowIO W) (nlen total : Z) (buf : list Z) :
    Effects.M (br_sslio_context eng_t W) recv_result :=
  if nlen <=? total then
    match write_at buf nlen [0] with
    | Some b => mret' (Received (i32 nlen) b)
    | None => mret' Overflow
    end
  else match n with
  | O => fun _ => None
  | S n =>
      let! rb := br_sslio_read fuel (nlen -! total) in
      let '(rr, bs) := rb in
      if rr <=? 0 then mret' (Received (-4) buf)
      else match write_at buf total bs with
      | Some b => recv_loop n L nlen (total +! rr) b
      | None => mret' Overflow
      end
  end.

(** [buf] is the caller's buffer, of [maxlen] bytes. *)
Definition recv_body (buf : list Z) (L : LowIO W) : Effects.M (br_sslio_context eng_t W) recv_result :=
  let maxlen := zlen buf in
  let! rb := br_sslio_read fuel 4 in
  let '(r, bs) := rb in
  if negb (r =? 4) then mret' (Received (-2) buf)
  else
    let nlen := ntohl (br_dec32le bs) in
    if maxlen <? u32 (nlen + 1) then mret' (Received (-3) buf)
    else recv_loop (Z.to_nat nlen) L nlen 0 buf.
Definition tlsv2_client_recv_json (k : Z) (buf : list Z) : M recv_result :=
  let! o := tlsv2_lookup_client_conn k in
  match o with
  | None => mret' (Received (-1) buf)
  | Some i => with_ioc i (recv_body buf)
  end.

Definition tlsv2_client_close_fd (k : Z) : M unit :=
  let! o := tlsv2_lookup_client_conn k in
  match o with
  | None => mret' tt
  | Some i =>
      let! s := mget in
      match g_client_conns s !! i with
      | Some (Some c) =>
          wsys (fun w => (sys_close w (sock c), tt)) ;;! tlsv2_unregister_client_conn k
      | _ => mret' tt
      end
  end.
End client.
