(* ===== verification/TlsClientSpec.v ===== *)
(** * TlsClientSpec: what the blocking client of [tls_wrapper_v3.c] does

    A message sent is one frame of the stream that the server parses; a message
    received is one frame of the stream, unless its length field is 2^32 - 1,
    for which the length check wraps around and the buffer is overrun; and the
    table of connections, full, drops a new connection without a word. *)
From S2P Require Import Prelude.
From S2P Require Import Words.
From S2P Require Import Effects.
From S2P Require Import JsonFrame.
From S2P Require Import Engine.
From S2P Require Import EngineSpec.
From S2P Require Import TlsServer.
From S2P Require Import TlsServerSpec.
From S2P Require Import TlsServerThms.
From S2P Require Import Sslio.
From S2P Require Import SslioSpec.
From S2P Require Import TlsClient.

Lemma closed_mode' {RI RO HS} (e : engine RI RO HS) :
  br_ssl_engine_closed e = true -> iomode e = BR_IO_FAILED.
Proof. unfold br_ssl_engine_closed. apply bool_decide_eq_true. Qed.

(** A socket is a transport for the blocking wrapper. *)
Section sock.
Context {W : Type} `{!OS W} (budget : W -> nat) `{!OSLaws W budget}.
Lemma sock_io_laws (k : Z) : LowIOLaws W (LowIO0 := sock_io k) budget.
Proof.
  split; cbn [low_read low_write sock_io]; unfold tls_low_read, tls_low_write.
  - intros w n w' r bs Hn. destruct (sys_read w k n) as [w1 o] eqn:E.
    destruct (sys_read_law w k n w1 o Hn E) as [Hle Hok].
    destruct o as [l|]; [|intros [= <- <- <-]; split; [done|lia]].
    destruct (Z.leb_spec (zlen l) 0) as [Hz|Hz]; intros [= <- <- <-]; (split; [done|]); [lia|].
    intros _. destruct (Hok l eq_refl) as (? & ? & ?); [by intros ->; simpl in Hz; lia|done].
  - intros w bs w' r Hbs. destruct (sys_write w k bs) as [w1 n] eqn:E.
    destruct (sys_write_law w k bs w1 n Hbs E) as (Hle & Hn & Hd).
    destruct (Z.leb_spec n 0) as [Hz|Hz]; intros [= <- <-]; (split; [done|]); [lia|].
    intros _. split; [done|]. by apply Hd.
Qed.
End sock.

Lemma zblit_app (b m x : list Z) : zlen m + zlen x <= zlen b ->
  zblit (zblit b 0 m) (zlen m) x = zblit b 0 (m ++ x).
Proof.
  intros H. unfold zblit. rewrite !(ztake_le0 0) by lia. cbn [app]. rewrite !Z.add_0_l, zlen_app.
  rewrite ztake_app_le, ztake_ge by lia. rewrite <- (assoc_L (++)). do 2 f_equal.
  rewrite zdrop_app_ge by lia. rewrite zdrop_zdrop by lia. f_equal. lia.
Qed.

Section client.
Context {RI RO HS : Type} `{!RecordIn RI} `{!RecordOut RO} `{!Handshake RI RO HS}.
Context `{!RecordInLaws RI} `{!RecordOutLaws RO} `{!HandshakeLaws RI RO HS}.
Context {W : Type} `{!OS W} `{!Net W} (budget : W -> nat) `{!OSLaws W budget}.
Context (lay : layout) (J : engine RI RO HS -> Prop) `{!Session lay J} (fuel : nat).
Context (Hsmall : lay.1.1.1.1 < 2 ^ 31).
Notation eng_t := (engine RI RO HS).
Notation conn := (conn eng_t).
Notation clients := (clients eng_t W).
Notation ctx := (br_sslio_context eng_t W).
Implicit Types (c : conn) (s : clients).

(** *** The body of a message call, on one connection *)

Section body.
Context (k : Z).
Notation L := (sock_io k : LowIO W).
Notation io_ok := (@io_ok RI RO HS W budget J).
Notation io_steps := (@io_steps RI RO HS _ _ _ W L).

Let laws : LowIOLaws W (LowIO0 := L) budget := sock_io_laws budget k.
#[local] Existing Instance laws.

Definition sent_prefix json (x : ctx) (r : Z) (x' : ctx) : Prop :=
  exists sent, io_steps x sent [] x' /\
    (r = 0 /\ sent = frame json /\ zlen json <= TLSV2_MAX_JSON_SIZE /\
       br_ssl_engine_sendrec_buf (engine_of x') = None \/
     r = -2 /\ x' = x /\ TLSV2_MAX_JSON_SIZE < zlen json \/
     (r = -3 \/ r = -4 \/ r = -5) /\ exists n, sent = ztake n (frame json)).

Lemma send_body_wp b json x : (b < fuel)%nat -> io_ok b x -> Forall is_u8 json ->
  wp (send_body fuel json L) (fun r x' => io_ok b x' /\ sent_prefix json x r x') x.
Proof.
  intros Hf Hok Hj. unfold send_body. destruct (Z.ltb_spec TLSV2_MAX_JSON_SIZE (zlen json)) as [Hbig|Hlen].
  { apply wp_ret. split; [done|]. exists []. split; [apply io_nil|]. right; left. done. }
  unfold TLSV2_MAX_JSON_SIZE in *. rewrite u32_small by lia. rewrite htonl_be by (unfold is_u32; lia).
  set (hd := br_enc32be (zlen json)). assert (zlen hd = 4) as Lhd by done.
  assert (Forall is_u8 hd) as Hhd by (pose proof (Forall_frame json Hj) as Hfr; by apply Forall_app in Hfr as [? _]).
  apply wp_bind. eapply wp_mono; [by apply (write_all_loop_wp budget lay J fuel Hsmall b)|].
  intros r x1 (Hok1 & n & Hn & Hst & [[-> ->]|[-> Hlt]]).
  2:{ apply wp_ret. split; [done|]. exists (ztake n hd). split; [done|]. right; right.
      split; [by left|]. exists n. unfold frame. fold hd. by rewrite ztake_app_le by lia. }
  cbn [Z.ltb Z.compare]. rewrite ztake_ge in Hst by lia.
  apply wp_bind. eapply wp_mono; [by apply (write_all_loop_wp budget lay J fuel Hsmall b)|].
  intros r x2 (Hok2 & m & Hm & Hst2 & [[-> ->]|[-> Hlt]]).
  2:{ apply wp_ret. split; [done|]. exists (hd ++ ztake m json). split.
      { by apply (io_app _ hd [] x1 _ []). }
      right; right. split; [by right; left|]. exists (4 + m). unfold frame. fold hd.
      rewrite ztake_app_ge by lia. do 2 f_equal. lia. }
  cbn [Z.ltb Z.compare]. rewrite ztake_ge in Hst2 by lia.
  assert (io_steps x (frame json) [] x2) as Hst' by by apply (io_app _ hd [] x1 _ []).
  apply wp_bind. eapply wp_mono; [by apply (sslio_flush_wp budget lay J fuel b)|].
  intros r x3 (Hok3 & Hst3 & [[-> Hnone]| ->]); cbn [Z.ltb Z.compare]; apply wp_ret; (split; [done|]).
  - exists (frame json). rewrite <- (app_nil_r (frame json)) at 1. rewrite <- (app_nil_r []).
    split; [by apply (io_app _ _ [] x2)|]. by left.
  - exists (frame json). rewrite <- (app_nil_r (frame json)) at 1. rewrite <- (app_nil_r []).
    split; [by apply (io_app _ _ [] x2)|]. right; right. split; [auto|].
    exists (zlen (frame json)). by rewrite ztake_ge by lia.
Qed.

(** What the receiver did with the bytes [got]. *)
Definition received (buf got : list Z) (o : recv_result) : Prop :=
  match o with
  | Received r buf' =>
      r = -2 /\ buf' = buf /\ zlen got < 4 \/
      r = -3 /\ buf' = buf /\ zlen got = 4 /\ zlen buf < br_dec32be got + 1 \/
      r = -4 /\ 4 <= zlen got < 4 + br_dec32be got /\ buf' = zblit buf 0 (zdrop 4 got) \/
      exists msg, 4 <= zlen got /\ zdrop 4 got = msg /\ br_dec32be got = zlen msg /\
        zlen msg < zlen buf /\ r = i32 (zlen msg) /\ buf' = zblit buf 0 (msg ++ [0])
  | Overflow => 4 <= zlen got /\ br_dec32be got = 2 ^ 32 - 1
  end.

(** [got] holds the length and [total] bytes of the message. *)
Lemma recv_loop_wp b n nlen total buf0 hd msg x0 x : (b < fuel)%nat -> io_ok b x ->
  io_steps x0 [] (hd ++ msg) x -> zlen hd = 4 -> br_dec32be hd = nlen -> zlen msg = total ->
  0 <= total <= nlen -> nlen - total <= Z.of_nat n -> total <= zlen buf0 ->
  (nlen = 2 ^ 32 - 1 \/ nlen < zlen buf0) -> nlen < 2 ^ 32 ->
  wp (recv_loop fuel n L nlen total (zblit buf0 0 msg))
     (fun o x' => io_ok b x' /\ exists got, io_steps x0 [] got x' /\ received buf0 got o) x.
Proof.
  intros Hf. revert total msg x. induction n as [|n IH]; intros total msg x Hok Hst Lh Hd Lm Ht Hn Hfit Hover Hbig.
  all: cbn [recv_loop]; destruct (Z.leb_spec nlen total) as [Hdone|Hmore]; [|try lia].
  1, 2: assert (nlen = total) as -> by lia; unfold write_at;
    assert (zlen (zblit buf0 0 msg) = zlen buf0) as -> by (apply zlen_zblit; lia).
  1, 2: assert (4 <= zlen (hd ++ msg) /\ zdrop 4 (hd ++ msg) = msg /\ br_dec32be (hd ++ msg) = total)
    as (G1 & G2 & G3) by (rewrite zlen_app, dec32be_app, zdrop_app_ge, Lh by lia; done || (split; [lia|by rewrite zdrop_0])).
  1, 2: destruct (Z.leb_spec (total + zlen [0]) (zlen buf0)) as [Hw|Hw]; cbn [andb];
    rewrite ?andb_true_r, ?andb_false_r; [rewrite (proj2 (Z.leb_le 0 total)) by lia|].
  1, 3: apply wp_ret; (split; [done|]); exists (hd ++ msg); (split; [done|]); right; right; right;
    exists msg; change (zlen [0]) with 1 in Hw; rewrite Lm;
    rewrite <- Lm, zblit_app by (change (zlen [0]) with 1; lia); repeat split; lia || done.
  1, 2: apply wp_ret; (split; [done|]); exists (hd ++ msg); (split; [done|]); split; [done|];
    change (zlen [0]) with 1 in Hw; lia.
  apply wp_bind. rewrite szsub_small by lia.
  eapply wp_mono; [apply (sslio_read_wp budget lay J fuel Hsmall b); [done|done|lia]|].
  intros [r bs] x1 (Hok1 & [[[= -> ->] Hst1]|(Hr & Hle & Hr0 & _ & Hst1)]); cbn [fst snd] in *.
  { apply wp_ret. split; [done|]. exists (hd ++ msg). split.
    { rewrite <- (app_nil_r (hd ++ msg)). by apply (io_app _ [] _ x [] []). }
    right; right; left. rewrite dec32be_app, zlen_app, zdrop_app_ge, Lh by lia.
    replace (4 - 4) with 0 by lia. rewrite zdrop_0, Hd. split; [done|split; [lia|done]]. }
  specialize (Hr0 ltac:(lia)). rewrite (proj2 (Z.leb_gt r 0)) by lia.
  assert (io_steps x0 [] (hd ++ (msg ++ bs)) x1) as Hst'.
  { rewrite (assoc_L (++)). by apply (io_app _ [] _ x [] bs). }
  assert (zlen (zblit buf0 0 msg) = zlen buf0) as Lb by (apply zlen_zblit; lia).
  unfold write_at. rewrite (proj2 (Z.leb_le 0 total)) by lia. rewrite Lb. cbn [andb].
  destruct (Z.leb_spec (total + zlen bs) (zlen buf0)) as [Hw|Hw].
  - pose proof (zblit_app buf0 msg bs ltac:(lia)) as Hz. rewrite Lm in Hz. rewrite Hz, szadd_small by lia.
    apply IH; try done; rewrite ?zlen_app; lia.
  - apply wp_ret. split; [done|]. exists (hd ++ msg ++ bs). split; [done|].
    cbn [received]. rewrite dec32be_app, !zlen_app by lia. split; [lia|]. rewrite Hd. lia.
Qed.

Lemma recv_body_wp b buf x : (b < fuel)%nat -> io_ok b x -> zlen buf < 2 ^ 62 ->
  wp (recv_body fuel buf L)
     (fun o x' => io_ok b x' /\ exists got, io_steps x [] got x' /\ received buf got o) x.
Proof.
  intros Hf Hok Hbuf. unfold recv_body. apply wp_bind.
  eapply wp_mono; [apply (sslio_read_wp budget lay J fuel Hsmall b); [done|done|lia]|].
  intros [r bs] x1 (Hok1 & [[[= -> ->] Hst1]|(Hr & Hle & Hr0 & Hbs & Hst1)]); cbn [fst snd] in *.
  { apply wp_ret. split; [done|]. exists []. split; [done|]. by left. }
  destruct (Z.eqb_spec r 4) as [E4|Hne]; cbn [negb].
  2:{ apply wp_ret. split; [done|]. exists bs. split; [done|]. left. split; [done|split; [done|lia]]. }
  rewrite ntohl_be by done. pose proof (dec32be_range bs Hbs) as Hrng. unfold is_u32 in Hrng.
  destruct (Z.ltb_spec (zlen buf) (u32 (br_dec32be bs + 1))) as [Hbig|Hfit].
  { apply wp_ret. split; [done|]. exists bs. split; [done|]. right; left.
    split; [done|split; [done|split; [lia|]]]. revert Hbig. unfold u32.
    pose proof (Z.mod_le (br_dec32be bs + 1) (2 ^ 32)). lia. }
  assert (buf = zblit buf 0 []) as Eb by (unfold zblit; by rewrite ztake_le0).
  rewrite Eb at 1. eapply (recv_loop_wp b _ _ 0 buf bs [] x x1); try done; try lia.
  - by rewrite app_nil_r.
  - destruct (decide (br_dec32be bs = 2 ^ 32 - 1)) as [?|Hne]; [by left|right].
    rewrite u32_small in Hfit by lia. lia.
Qed.
End body.

(** *** The table *)

Definition has_conn s (k : Z) : Prop := exists i c, g_client_conns s !! i = Some (Some c) /\ sock c = k.

(** Every connection of the table is a session. *)
Definition cl_inv (b : nat) s : Prop :=
  (forall i c, g_client_conns s !! i = Some (Some c) -> J (ceng c)) /\ (budget (wld s) <= b)%nat.

Lemma lookup_from_some k n (l : list (option conn)) i : lookup_from k n l = Some i ->
  exists j c, i = (n + j)%nat /\ l !! j = Some (Some c) /\ sock c = k.
Proof.
  revert n. induction l as [|[c|] l IH]; intros n; simpl; [done|destruct (Z.eqb_spec (sock c) k)|].
  - intros [= <-]. exists 0%nat, c. split; [lia|done].
  - intros H. destruct (IH _ H) as (j & d & -> & ? & ?). exists (S j), d. split; [lia|done].
  - intros H. destruct (IH _ H) as (j & d & -> & ? & ?). exists (S j), d. split; [lia|done].
Qed.
Lemma lookup_from_none k n (l : list (option conn)) : lookup_from k n l = None <->
  forall j c, l !! j = Some (Some c) -> sock c <> k.
Proof.
  revert n. induction l as [|[c|] l IH]; intros n; simpl.
  - split; [by intros _ []|done].
  - destruct (Z.eqb_spec (sock c) k) as [E|E].
    + split; [done|]. intros H. by destruct (H 0%nat c eq_refl).
    + rewrite IH. split; intros H; [intros [|j] d Hj; [by injection Hj as <-|by apply (H j)]|].
      intros j d Hj. by apply (H (S j)).
  - rewrite IH. split; intros H; [intros [|j] d Hj; [done|by apply (H j)]|].
    intros j d Hj. by apply (H (S j)).
Qed.

Lemma wp_lookup k (Q : option nat -> clients -> Prop) s :
  Q (lookup_from k 0 (g_client_conns s)) s -> wp (tlsv2_lookup_client_conn k) Q s.
Proof. intros H. by apply (wp_intro _ _ _ (lookup_from k 0 (g_client_conns s)) s). Qed.

(** A message call acts on one connection. *)
Definition acts_on (b : nat) s (k : Z) s' (P : ctx -> ctx -> Prop) : Prop :=
  exists i c c', g_client_conns s !! i = Some (Some c) /\ sock c = k /\ sock c' = k /\
    g_client_conns s' = <[i := Some c']> (g_client_conns s) /\ cl_inv b s' /\
    P (Sslio (ceng c) (wld s)) (Sslio (ceng c') (wld s')).

Lemma with_ioc_wp {A} b s i c (m : LowIO W -> Effects.M ctx A) (Q : A -> ctx -> ctx -> Prop) :
  cl_inv b s -> g_client_conns s !! i = Some (Some c) ->
  wp (m (sock_io (sock c))) (fun a x' => io_ok budget J b x' /\ Q a (Sslio (ceng c) (wld s)) x')
    (Sslio (ceng c) (wld s)) ->
  wp (with_ioc i m) (fun a s' => acts_on b s (sock c) s' (Q a)) s.
Proof.
  intros [HJ Hb] Hc Hm. pose proof (wp_returns _ _ _ Hm) as [[a x'] E].
  pose proof (wp_elim _ _ _ _ _ Hm E) as [[HJ' Hb'] HQ].
  eapply (wp_intro _ _ _ a). { unfold with_ioc. rewrite Hc, E. reflexivity. }
  exists i, c, (c <| ceng := engine_of x' |>). cbn [g_client_conns wld].
  do 4 (split; [done|]). destruct x' as [e' w']. split; [|exact HQ]. split; [|exact Hb'].
  cbn [g_client_conns]. intros j d Hd. destruct (decide (i = j)) as [<-|Hij].
  - rewrite list_lookup_insert_eq in Hd by (by eapply lookup_lt_Some). injection Hd as <-. exact HJ'.
  - rewrite list_lookup_insert_ne in Hd by done. by apply (HJ j).
Qed.

Lemma call_wp {A} b s k (none : A) (m : LowIO W -> Effects.M ctx A) (Q : A -> ctx -> ctx -> Prop) :
  cl_inv b s ->
  (forall e, io_ok budget J b (Sslio e (wld s)) -> wp (m (sock_io k))
     (fun a x' => io_ok budget J b x' /\ Q a (Sslio e (wld s)) x') (Sslio e (wld s))) ->
  wp (let! o := tlsv2_lookup_client_conn k in
      match o with None => mret' none | Some i => with_ioc i m end)
     (fun a s' => a = none /\ s' = s /\ ~ has_conn s k \/ acts_on b s k s' (Q a)) s.
Proof.
  intros Hinv Hm. apply wp_bind, wp_lookup.
  destruct (lookup_from k 0 (g_client_conns s)) as [i|] eqn:El.
  - destruct (lookup_from_some _ _ _ _ El) as (j & c & -> & Hc & <-).
    eapply wp_mono; [apply (with_ioc_wp b s _ c _ Q Hinv Hc)|intros; by right].
    apply Hm. split; [by apply (proj1 Hinv j)|apply Hinv].
  - apply wp_ret. left. split; [done|split; [done|]]. intros (i & c & Hc & Hk).
    by apply (proj1 (lookup_from_none _ _ _) El i c).
Qed.

(** C4: sending.  [tlsv2_client_send_json] returns; without a connection of that
    number it returns -1 and changes nothing; otherwise it acts on one
    connection, and returns 0 exactly with one frame of the message put into its
    stream and no record left to send, -2 for a text above 65536 bytes with
    nothing changed, and -3, -4 or -5, the stream holding a prefix of the
    frame, when the transport fails.  The server's parser reads the frame back. *)
Theorem client_sends_frames b s k json : (b < fuel)%nat -> cl_inv b s -> Forall is_u8 json ->
  wp (tlsv2_client_send_json fuel k json) (fun r s' =>
    r = -1 /\ s' = s /\ ~ has_conn s k \/ acts_on b s k s' (fun x x' => sent_prefix k json x r x')) s /\
  (0 < zlen json <= TLSV2_MAX_JSON_SIZE -> forall later,
     parse (frame json ++ later) = (json :: (parse later).1, (parse later).2)).
Proof.
  intros Hf Hinv Hj. split.
  - apply (call_wp b s k (-1) (send_body fuel json) (fun r x x' => sent_prefix k json x r x')); [done|].
    intros e Hok. by apply send_body_wp.
  - intros Hl later. rewrite parse_unfold, parse_step_frame by done. by destruct (parse later).
Qed.

(** What was received, when the peer's stream is that of one frame. *)
Lemma received_frame buf got r buf' json : received buf got (Received r buf') -> 0 <= r ->
  zlen json < 2 ^ 31 -> got = ztake (zlen got) (frame json) ->
  r = zlen json /\ buf' = zblit buf 0 (json ++ [0]).
Proof.
  intros [(-> & _)|[(-> & _)|[(-> & _)|(msg & Hg & Hmsg & Hd & Hfit & Hr & Hbuf)]]] Hr0 Hj Hpre; try lia.
  assert (zlen (br_enc32be (zlen json)) = 4) as L4 by done.
  assert (br_dec32be got = zlen json) as Hdj.
  { rewrite Hpre. unfold frame. rewrite ztake_app_ge by lia. apply dec_enc32be. unfold is_u32. lia. }
  assert (msg = json) as ->.
  { assert (zlen got = 4 + zlen msg) as Lg by (rewrite <- Hmsg, zlen_zdrop; lia).
    rewrite <- Hmsg, Hpre. unfold frame. rewrite ztake_app_ge, zdrop_app_ge, L4 by lia.
    replace (4 - 4) with 0 by lia. rewrite zdrop_0. apply ztake_ge. lia. }
  split; [|done]. rewrite Hr. apply i32_small. lia.
Qed.

(** What a receiving call did to its connection. *)
Definition recv_post (k : Z) (buf : list Z) (o : recv_result) (x x' : ctx) : Prop :=
  exists got, @io_steps RI RO HS _ _ _ W (sock_io k) x [] got x' /\ received buf got o /\
    forall json r buf', o = Received r buf' -> 0 <= r -> zlen json < 2 ^ 31 ->
      got = ztake (zlen got) (frame json) -> r = zlen json /\ buf' = zblit buf 0 (json ++ [0]).

(** C5: receiving.  [tlsv2_client_recv_json] returns.  It returns the length of a
    message with the message and a 0 byte in the buffer, having taken exactly
    one frame out of the stream; or -2, -3, -4 for a length that is incomplete,
    too large for the buffer, or not followed by the whole message.  It writes
    outside the buffer only when the length field is 2^32 - 1, where the test
    [nlen + 1 > maxlen] wraps around. *)
Theorem client_receives_frames b s k buf : (b < fuel)%nat -> cl_inv b s -> zlen buf < 2 ^ 62 ->
  wp (tlsv2_client_recv_json fuel k buf) (fun o s' =>
    o = Received (-1) buf /\ s' = s /\ ~ has_conn s k \/
    acts_on b s k s' (recv_post k buf o)) s.
Proof.
  intros Hf Hinv Hbuf.
  unfold tlsv2_client_recv_json.
  refine (call_wp b s k (Received (-1) buf) (recv_body fuel buf) (recv_post k buf) Hinv _).
  intros e Hok. eapply wp_mono; [by apply (recv_body_wp k b)|].
  intros o x' (Hok' & got & Hst & Hrec). split; [done|]. exists got. split; [done|split; [done|]].
  intros json r buf' -> Hr. by apply received_frame.
Qed.

(** *** The length check *)

(** Data that is already decrypted is read without touching the transport. *)
Lemma read_ready (k : Z) len (e : eng_t) (w : W) p n : J e -> (0 < fuel)%nat -> 0 < len ->
  br_ssl_engine_sendrec_buf e = None -> br_ssl_engine_recvapp_buf e = Some (p, n) ->
  let m := Z.min len n in
  br_sslio_read (LowIO0 := sock_io k) fuel len (Sslio e w) =
    Some ((m, zslice (mem e) p m), Sslio (br_ssl_engine_recvapp_ack e m) w).
Proof.
  intros HJ Hf Hlen Hs Hb m. pose proof (offered_app lay J e p n HJ Hb) as (Hp & Hn & Hpn).
  assert (zlen (mem e) < 2 ^ 31) as Hm by (by apply (mem_small lay J)).
  assert (br_ssl_engine_closed e = false) as Hcl.
  { destruct (br_ssl_engine_closed e) eqn:Hc; [|done]. exfalso. apply closed_mode' in Hc.
    unfold br_ssl_engine_recvapp_buf, recvpld_buf in Hb. rewrite Hc in Hb. by destruct (_ || _). }
  destruct (hits_flags e Hcl) as (F0 & F1 & _ & _ & F4). rewrite Hs in F1. rewrite Hb in F4.
  unfold br_sslio_read. rewrite (proj2 (Z.eqb_neq len 0)) by lia. destruct fuel as [|f]; [lia|].
  rewrite (run_bind _ _ _ 0 (Sslio e w)).
  2:{ unfold run_until. cbn [mloop]. rewrite (run_bind _ _ _ (Some 0) (Sslio e w)); [done|].
      unfold run_until_body. erewrite run_bind by reflexivity. cbv beta zeta.
      cbn [engine_of]. by rewrite F0, F1, F4. }
  cbn [Z.ltb Z.compare]. erewrite run_bind by reflexivity. cbn [engine_of].
  rewrite (run_lift _ _ _ (p, n)) by done. cbn [fst snd]. cbv zeta.
  assert ((if len <? n then len else n) = m) as -> by (subst m; destruct (Z.ltb_spec len n); lia).
  rewrite (run_lift _ _ _ (zslice (mem e) p m)) by (apply read_at_ok; lia).
  erewrite run_bind by reflexivity. rewrite i32_small by lia. reflexivity.
Qed.

Lemma recvapp_ack_partial (e : eng_t) p n k : eng_inv lay e -> br_ssl_engine_recvapp_buf e = Some (p, n) ->
  0 < k < n -> let e' := br_ssl_engine_recvapp_ack e k in
  br_ssl_engine_recvapp_buf e' = Some (p + k, n - k) /\ mem e' = mem e /\
  br_ssl_engine_sendrec_buf e' = br_ssl_engine_sendrec_buf e.
Proof.
  intros Hinv Hb Hk. unfold br_ssl_engine_recvapp_buf in Hb |- *.
  destruct (_ || _) eqn:Happ; [done|].
  destruct (recvpld_buf_inv e p n Hinv Hb) as (Hl & Hp & ? & ? & Hn & ?).
  pose proof (bufs_facts e (proj1 Hl)).
  assert (br_ssl_engine_recvapp_ack e k = e <| ixa := ixa e + k |>) as ->.
  { unfold br_ssl_engine_recvapp_ack, recvpld_ack. szsimp. eng_simpl.
    by rewrite (proj2 (Z.eqb_neq (ixa e + k) (ixb e))) by lia. }
  unfold recvpld_buf in Hb |- *. unfold app_ok in *. eng_simpl. rewrite Happ.
  split; [|done]. destruct (iomode e); try done; revert Hb; szsimp;
    rewrite !(proj2 (Z.eqb_neq _ 0)) by lia; intros _; unfold ibase in *; eng_simpl;
    do 2 f_equal; lia.
Qed.

(** C21: the length check of [tlsv2_client_recv_json] can be passed with any
    buffer: when the four bytes of the length are 255 and more bytes have
    arrived after them than the buffer holds, the call writes outside it. *)
Theorem recv_length_wraps s k i c p n buf : (0 < fuel)%nat -> J (ceng c) ->
  lookup_from k 0 (g_client_conns s) = Some i -> g_client_conns s !! i = Some (Some c) ->
  br_ssl_engine_sendrec_buf (ceng c) = None ->
  br_ssl_engine_recvapp_buf (ceng c) = Some (p, n) ->
  zslice (mem (ceng c)) p 4 = [255; 255; 255; 255] -> zlen buf + 4 < n ->
  exists s', tlsv2_client_recv_json fuel k buf s = Some (Overflow, s').
Proof.
  intros Hf HJ Hl Hc Hs Hb Hff Hbuf.
  destruct (lookup_from_some _ _ _ _ Hl) as (j & d & -> & Hd & Hk). change (0 + j)%nat with j in Hc, Hl.
  rewrite Hd in Hc. injection Hc as ->. set (e := ceng c) in *.
  pose proof (offered_app lay J e p n HJ Hb) as (Hp & Hn & Hpn).
  assert (zlen (mem e) < 2 ^ 31) as Hm by (by apply (mem_small lay J)).
  pose proof (read_ready k 4 e (wld s) p n HJ Hf ltac:(lia) Hs Hb) as R1. cbv zeta in R1.
  rewrite (Z.min_l 4 n), Hff in R1 by lia.
  pose proof (session_recvapp e p n 4 HJ Hb ltac:(lia)) as HJ1.
  destruct (recvapp_ack_partial e p n 4 (sess_inv e HJ) Hb) as (Hb1 & Hm1 & Hs1); [lia|].
  rewrite Hs in Hs1. generalize dependent (br_ssl_engine_recvapp_ack e 4). intros e1 R1 HJ1 Hb1 Hm1 Hs1.
  pose proof (read_ready k (2 ^ 32 - 1) e1 (wld s) (p + 4) (n - 4) HJ1 Hf ltac:(lia) Hs1 Hb1) as R2.
  cbv zeta in R2. rewrite Z.min_r in R2 by lia.
  assert (recv_body fuel buf (sock_io k) (Sslio e (wld s)) =
    Some (Overflow, Sslio (br_ssl_engine_recvapp_ack e1 (n - 4)) (wld s))) as Hbody.
  { unfold recv_body. rewrite (run_bind _ _ _ _ _ R1). cbn [Z.eqb Pos.eqb negb].
    change (ntohl (br_dec32le [255; 255; 255; 255])) with (2 ^ 32 - 1).
    change (u32 (2 ^ 32 - 1 + 1)) with 0. rewrite (proj2 (Z.ltb_ge (zlen buf) 0)) by lia.
    assert (exists f, Z.to_nat (2 ^ 32 - 1) = S f) as [f ->] by (exists (Z.to_nat (2 ^ 32 - 2)); lia).
    cbn [recv_loop]. rewrite (proj2 (Z.leb_gt (2 ^ 32 - 1) 0)) by lia.
    rewrite szsub_small by lia. replace (2 ^ 32 - 1 - 0) with (2 ^ 32 - 1) by lia.
    rewrite (run_bind _ _ _ _ _ R2). rewrite (proj2 (Z.leb_gt (n - 4) 0)) by lia.
    unfold write_at. rewrite zlen_zslice by (rewrite ?Hm1; lia).
    rewrite (proj2 (Z.leb_gt (0 + (n - 4)) (zlen buf))) by lia. by rewrite andb_false_r. }
  eexists. unfold tlsv2_client_recv_json.
  assert (tlsv2_lookup_client_conn k s = Some (Some j, s)) as Hlk
    by (unfold tlsv2_lookup_client_conn; by rewrite Hl).
  rewrite (run_bind _ _ _ _ _ Hlk). unfold with_ioc. rewrite Hd, Hk. fold e. by rewrite Hbody.
Qed.

(** *** Connecting and closing *)

Context `{!NetLaws W budget}.
Context (rin0 : RI) (client_hs : HS) (client_main : list Z -> HS -> HS) (sizeof_conn : Z).

Notation connect_engine := (connect_engine rin0 client_hs).



Lemma wp_wsys {A B} (f : W -> W * A) (k : A -> Effects.M clients B) Q s :
  (forall w a, f (wld s) = (w, a) -> wp (k a) Q (s <| wld := w |>)) -> wp (mbind' (wsys f) k) Q s.
Proof.
  intros H. destruct (f (wld s)) as [w a] eqn:E. apply wp_bind.
  apply (wp_intro _ _ _ a (s <| wld := w |>)); [unfold wsys; by rewrite E|by apply H].
Qed.



(** closing.  [tlsv2_client_close_fd] returns and frees the slot: of the
    connections of that number, the first is gone and nothing else changes; so
    the number is unknown afterwards when only one connection had it. *)
Theorem client_close_frees b s k : cl_inv b s ->
  wp (tlsv2_client_close_fd k : Effects.M clients unit) (fun _ s' => cl_inv b s' /\
    (~ has_conn s k -> s' = s) /\
    (has_conn s k -> exists i c, lookup_from k 0 (g_client_conns s) = Some i /\
       g_client_conns s !! i = Some (Some c) /\ sock c = k /\
       g_client_conns s' = <[i := None]> (g_client_conns s) /\
       ((forall j d, g_client_conns s !! j = Some (Some d) -> sock d = k -> j = i) -> ~ has_conn s' k))) s.
Proof.
  intros [HJ Hb]. unfold tlsv2_client_close_fd. apply wp_bind, wp_lookup.
  destruct (lookup_from k 0 (g_client_conns s)) as [i|] eqn:El.
  2:{ apply wp_ret. split; [by split|]. split; [done|]. intros (i & c & Hc & Hk).
      by destruct (proj1 (lookup_from_none _ _ _) El i c Hc). }
  destruct (lookup_from_some _ _ _ _ El) as (j & c & -> & Hc & Hk). change (0 + j)%nat with j in *.
  apply wp_bind, wp_get. rewrite Hc. apply wp_wsys. intros w [] [= <-].
  unfold tlsv2_unregister_client_conn. apply wp_bind, wp_lookup. cbn [setf g_client_conns wld]. rewrite El.
  apply wp_set. cbn [setf g_client_conns wld]. split; [split|].
  - intros i d Hd. cbn [setf g_client_conns wld] in Hd.
    apply list_lookup_insert_Some in Hd as [(_ & [=] & _)|(_ & Hd)]. by apply (HJ i).
  - pose proof (os_close budget (wld s) (sock c)). cbn. lia.
  - split; [intros Hno; destruct Hno; by exists j, c|]. intros _. exists j, c.
    do 4 (split; [done|]). intros Huniq (i & d & Hd & Hkd). cbn [setf g_client_conns wld] in Hd.
    apply list_lookup_insert_Some in Hd as [(_ & [=] & _)|(Hij & Hd)].
    by apply Hij, eq_sym, (Huniq i d).
Qed.
End client.

(** ** A concrete client *)

Section witnesses.
Import Established.

#[export] Instance demo_net : Net demo_world := {|
  gfns_net_init w := (w, true);
  sys_socket w := (w, Some 7);
  inet_pton host := Some 0;
  sys_connect w s a p := (w, true);
  in_progress w := false |}.
#[export] Instance demo_net_laws : NetLaws demo_world quota.
Proof. split; [done| |done]. intros w w' r [= <- <-]. split; [done|]. by intros s [= <-]. Qed.

Notation clients := (clients (engine unit unit unit) demo_world).

Lemma client_layout_distinct : client_layout.1.1.1.2 <> client_layout.1.1.2.
Proof. done. Qed.
#[local] Instance client_session : Session client_layout (calm client_layout) :=
  established_session client_layout client_layout_distinct.


(** The table with one connection, on an engine in a given state. *)
Definition demo_clients (e : engine unit unit unit) : clients :=
  Clients (Some (Conn 7 e) :: replicate 63 None) (DemoWorld 3 []).
Lemma demo_clients_inv e : calm client_layout e -> cl_inv quota (calm client_layout) 3 (demo_clients e).
Proof.
  intros He. split; [|done]. intros [|i] c Hc; [by injection Hc as <-|].
  cbn [demo_clients g_client_conns] in Hc.
  change ((Some (Conn 7 e) :: replicate 63 None) !! S i)
    with ((replicate 63 None : list (option (conn (engine unit unit unit)))) !! i) in Hc.
  by apply lookup_replicate in Hc as [[=] _].
Qed.

Lemma demo_ready_calm : calm client_layout demo_ready.
Proof.
  split; [exact demo_ready_inv|]. intros _. do 3 (split; [vm_compute; reflexivity|]).
  assert (recvpld_buf demo_ready = None) as -> by (vm_compute; reflexivity). done.
Qed.
Lemma demo_feed_calm e p n bs : calm client_layout e -> br_ssl_engine_recvrec_buf e = Some (p, n) ->
  Forall is_u8 bs -> 0 < zlen bs <= n -> calm client_layout (demo_feed e p bs).
Proof.
  intros He Hb Hbs Hn. unfold demo_feed.
  destruct (br_ssl_engine_recvrec_ack _ _) as [e'|] eqn:E; [|done].
  by apply (calm_recvrec client_layout client_layout_distinct e p n bs e').
Qed.
(** An engine that holds the payload of one record. *)
Definition demo_holds (m : list Z) : engine unit unit unit :=
  demo_feed (demo_feed demo_ready 0 [23; 3; 3; 0; zlen m]) 5 m.
Lemma demo_holds_calm m : Forall is_u8 m -> 0 < zlen m < 256 ->
  br_ssl_engine_recvrec_buf (demo_feed demo_ready 0 [23; 3; 3; 0; zlen m]) = Some (5, zlen m) ->
  calm client_layout (demo_holds m).
Proof.
  intros Hm Hl Hb. unfold demo_holds.
  assert (calm client_layout (demo_feed demo_ready 0 [23; 3; 3; 0; zlen m])) as Hc.
  { clear Hb. apply (demo_feed_calm demo_ready 0 5); [apply demo_ready_calm|vm_compute; reflexivity| |done].
    repeat constructor; unfold is_u8; lia. }
  revert Hc Hb. generalize (demo_feed demo_ready 0 [23; 3; 3; 0; zlen m]). intros e Hc Hb.
  apply (demo_feed_calm e 5 (zlen m)); [done|done|done|lia].
Qed.

Lemma client_sends_frames_witness :
  wp (tlsv2_client_send_json 10 7 demo_message) (fun r s' =>
    r = -1 /\ s' = demo_clients demo_ready /\ ~ has_conn (demo_clients demo_ready) 7 \/
    acts_on quota (calm client_layout) 3 (demo_clients demo_ready) 7 s'
      (fun x x' => sent_prefix 7 demo_message x r x')) (demo_clients demo_ready).
Proof.
  refine (proj1 (client_sends_frames quota client_layout (calm client_layout) 10 _ 3
    (demo_clients demo_ready) 7 demo_message _ _ _)).
  - done.
  - lia.
  - apply demo_clients_inv, demo_ready_calm.
  - by apply bytes_dec.
Defined.

Definition demo_frame_engine : engine unit unit unit := demo_holds (frame demo_message).
Lemma demo_frame_calm : calm client_layout demo_frame_engine.
Proof. exact (demo_holds_calm (frame demo_message) ltac:(by apply bytes_dec) ltac:(done) ltac:(vm_compute; reflexivity)). Qed.
Lemma client_receives_frames_witness :
  wp (tlsv2_client_recv_json 10 7 (zeros 16)) (fun o s' =>
    o = Received (-1) (zeros 16) /\ s' = demo_clients demo_frame_engine /\
      ~ has_conn (demo_clients demo_frame_engine) 7 \/
    acts_on quota (calm client_layout) 3 (demo_clients demo_frame_engine) 7 s'
      (recv_post 7 (zeros 16) o)) (demo_clients demo_frame_engine).
Proof.
  refine (client_receives_frames quota client_layout (calm client_layout) 10 _ 3
    (demo_clients demo_frame_engine) 7 (zeros 16) _ _ _).
  - done.
  - lia.
  - apply demo_clients_inv, demo_frame_calm.
  - done.
Defined.

(** Six bytes of data, a buffer of one byte. *)
Definition demo_wrap_engine : engine unit unit unit := demo_holds [255; 255; 255; 255; 1; 2].
Lemma demo_wrap_calm : calm client_layout demo_wrap_engine.
Proof. exact (demo_holds_calm [255; 255; 255; 255; 1; 2] ltac:(by apply bytes_dec) ltac:(done) ltac:(vm_compute; reflexivity)). Qed.
Lemma recv_length_wraps_witness :
  exists s', tlsv2_client_recv_json 1 7 [0] (demo_clients demo_wrap_engine) = Some (Overflow, s').
Proof.
  apply (recv_length_wraps client_layout (calm client_layout) 1 ltac:(done)
    (demo_clients demo_wrap_engine) 7 0 (Conn 7 demo_wrap_engine) 5 6 [0]).
  - lia.
  - exact demo_wrap_calm.
  - reflexivity.
  - reflexivity.
  - vm_compute. reflexivity.
  - vm_compute. reflexivity.
  - vm_compute. reflexivity.
  - done.
Defined.


Lemma client_close_frees_witness : exists i c,
  lookup_from 7 0 (g_client_conns (demo_clients demo_ready)) = Some i /\
  g_client_conns (demo_clients demo_ready) !! i = Some (Some c).
Proof.
  pose proof (client_close_frees quota (calm client_layout) 3 (demo_clients demo_ready) 7
    (demo_clients_inv _ demo_ready_calm)) as Hw.
  destruct (wp_returns _ _ _ Hw) as [[u s'] E]. destruct (wp_elim _ _ _ _ _ Hw E) as (_ & _ & H).
  destruct H as (i & c & Hi & Hc & _); [by exists 0%nat, (Conn 7 demo_ready)|].
  by exists i, c.
Defined.
End witnesses.
