(* ===== verification/HashRounds.v ===== *)
(** * HashRounds: the compression functions of hash/md5.c, sha1.c, sha2small.c and sha2big.c

    Each compression function is translated with its unrolled loops and its
    macros; below it is the rolled one, one step per round with the state rotated,
    with the code's shifts, schedules and tables, and the proof that they are the same
    function.  HashStd compares the rolled one with the standards.  Words of w bits are
    integers in [0, 2^w). *)
From S2P Require Import Prelude.
From S2P Require Import Words.

(** ** Helpers *)

(** [for (i = from; i < to; i += step)]: [n] rounds. *)
Fixpoint for_by {S : Type} (n : nat) (i step : Z) (body : Z -> S -> S) (s : S) : S :=
  match n with
  | O => s
  | Datatypes.S n => for_by n (i + step) step body (body i s)
  end.

(** [w[n] = next(w, n)] for [n = from, ..., from + k - 1]. *)
Fixpoint expand (next : list Z -> Z -> Z) (k : nat) (n : Z) (w : list Z) : list Z :=
  match k with
  | O => w
  | Datatypes.S k => expand next k (n + 1) (w ++ [next w n])
  end.

Definition ROTL (x n : Z) : Z := Z.lor (u32 (Z.shiftl x n)) (Z.shiftr x (32 - n)).
Definition ROTR32 (x n : Z) : Z := Z.lor (u32 (Z.shiftl x (32 - n))) (Z.shiftr x n).
Definition ROTR64 (x n : Z) : Z := Z.lor (u64 (Z.shiftl x (64 - n))) (Z.shiftr x n).

(** ** SHA-2 (sha2small.c, sha2big.c) *)

Definition CH (x y z : Z) : Z := Z.lxor (Z.land (Z.lxor y z) x) z.
Definition MAJ (x y z : Z) : Z := Z.lor (Z.land y z) (Z.land (Z.lor y z) x).

Definition BSG2_0 (x : Z) : Z := Z.lxor (Z.lxor (ROTR32 x 2) (ROTR32 x 13)) (ROTR32 x 22).
Definition BSG2_1 (x : Z) : Z := Z.lxor (Z.lxor (ROTR32 x 6) (ROTR32 x 11)) (ROTR32 x 25).
Definition SSG2_0 (x : Z) : Z := Z.lxor (Z.lxor (ROTR32 x 7) (ROTR32 x 18)) (Z.shiftr x 3).
Definition SSG2_1 (x : Z) : Z := Z.lxor (Z.lxor (ROTR32 x 17) (ROTR32 x 19)) (Z.shiftr x 10).
Definition BSG5_0 (x : Z) : Z := Z.lxor (Z.lxor (ROTR64 x 28) (ROTR64 x 34)) (ROTR64 x 39).
Definition BSG5_1 (x : Z) : Z := Z.lxor (Z.lxor (ROTR64 x 14) (ROTR64 x 18)) (ROTR64 x 41).
Definition SSG5_0 (x : Z) : Z := Z.lxor (Z.lxor (ROTR64 x 1) (ROTR64 x 8)) (Z.shiftr x 7).
Definition SSG5_1 (x : Z) : Z := Z.lxor (Z.lxor (ROTR64 x 19) (ROTR64 x 61)) (Z.shiftr x 6).

Definition br_sha224_IV : list Z := [
   0xC1059ED8; 0x367CD507; 0x3070DD17; 0xF70E5939;
   0xFFC00B31; 0x68581511; 0x64F98FA7; 0xBEFA4FA4].

Definition br_sha256_IV : list Z := [
   0x6A09E667; 0xBB67AE85; 0x3C6EF372; 0xA54FF53A;
   0x510E527F; 0x9B05688C; 0x1F83D9AB; 0x5BE0CD19].

Definition sha2small_K : list Z := [
   0x428A2F98; 0x71374491; 0xB5C0FBCF; 0xE9B5DBA5;
   0x3956C25B; 0x59F111F1; 0x923F82A4; 0xAB1C5ED5;
   0xD807AA98; 0x12835B01; 0x243185BE; 0x550C7DC3;
   0x72BE5D74; 0x80DEB1FE; 0x9BDC06A7; 0xC19BF174;
   0xE49B69C1; 0xEFBE4786; 0x0FC19DC6; 0x240CA1CC;
   0x2DE92C6F; 0x4A7484AA; 0x5CB0A9DC; 0x76F988DA;
   0x983E5152; 0xA831C66D; 0xB00327C8; 0xBF597FC7;
   0xC6E00BF3; 0xD5A79147; 0x06CA6351; 0x14292967;
   0x27B70A85; 0x2E1B2138; 0x4D2C6DFC; 0x53380D13;
   0x650A7354; 0x766A0ABB; 0x81C2C92E; 0x92722C85;
   0xA2BFE8A1; 0xA81A664B; 0xC24B8B70; 0xC76C51A3;
   0xD192E819; 0xD6990624; 0xF40E3585; 0x106AA070;
   0x19A4C116; 0x1E376C08; 0x2748774C; 0x34B0BCB5;
   0x391C0CB3; 0x4ED8AA4A; 0x5B9CCA4F; 0x682E6FF3;
   0x748F82EE; 0x78A5636F; 0x84C87814; 0x8CC70208;
   0x90BEFFFA; 0xA4506CEB; 0xBEF9A3F7; 0xC67178F2].

Definition IV384 : list Z := [
   0xCBBB9D5DC1059ED8; 0x629A292A367CD507; 0x9159015A3070DD17; 0x152FECD8F70E5939;
   0x67332667FFC00B31; 0x8EB44A8768581511; 0xDB0C2E0D64F98FA7; 0x47B5481DBEFA4FA4].

Definition IV512 : list Z := [
   0x6A09E667F3BCC908; 0xBB67AE8584CAA73B; 0x3C6EF372FE94F82B; 0xA54FF53A5F1D36F1;
   0x510E527FADE682D1; 0x9B05688C2B3E6C1F; 0x1F83D9ABFB41BD6B; 0x5BE0CD19137E2179].

Definition sha2big_K : list Z := [
   0x428A2F98D728AE22; 0x7137449123EF65CD; 0xB5C0FBCFEC4D3B2F; 0xE9B5DBA58189DBBC;
   0x3956C25BF348B538; 0x59F111F1B605D019; 0x923F82A4AF194F9B; 0xAB1C5ED5DA6D8118;
   0xD807AA98A3030242; 0x12835B0145706FBE; 0x243185BE4EE4B28C; 0x550C7DC3D5FFB4E2;
   0x72BE5D74F27B896F; 0x80DEB1FE3B1696B1; 0x9BDC06A725C71235; 0xC19BF174CF692694;
   0xE49B69C19EF14AD2; 0xEFBE4786384F25E3; 0x0FC19DC68B8CD5B5; 0x240CA1CC77AC9C65;
   0x2DE92C6F592B0275; 0x4A7484AA6EA6E483; 0x5CB0A9DCBD41FBD4; 0x76F988DA831153B5;
   0x983E5152EE66DFAB; 0xA831C66D2DB43210; 0xB00327C898FB213F; 0xBF597FC7BEEF0EE4;
   0xC6E00BF33DA88FC2; 0xD5A79147930AA725; 0x06CA6351E003826F; 0x142929670A0E6E70;
   0x27B70A8546D22FFC; 0x2E1B21385C26C926; 0x4D2C6DFC5AC42AED; 0x53380D139D95B3DF;
   0x650A73548BAF63DE; 0x766A0ABB3C77B2A8; 0x81C2C92E47EDAEE6; 0x92722C851482353B;
   0xA2BFE8A14CF10364; 0xA81A664BBC423001; 0xC24B8B70D0F89791; 0xC76C51A30654BE30;
   0xD192E819D6EF5218; 0xD69906245565A910; 0xF40E35855771202A; 0x106AA07032BBD1B8;
   0x19A4C116B8D2D0C8; 0x1E376C085141AB53; 0x2748774CDF8EEB99; 0x34B0BCB5E19B48A8;
   0x391C0CB3C5C95A63; 0x4ED8AA4AE3418ACB; 0x5B9CCA4F7763E373; 0x682E6FF3D6B2B8A3;
   0x748F82EE5DEFB2FC; 0x78A5636F43172F60; 0x84C87814A1F0AB72; 0x8CC702081A6439EC;
   0x90BEFFFA23631E28; 0xA4506CEBDE82BDE9; 0xBEF9A3F7B2C67915; 0xC67178F2E372532B;
   0xCA273ECEEA26619C; 0xD186B8C721C0C207; 0xEADA7DD6CDE0EB1E; 0xF57D4F7FEE6ED178;
   0x06F067AA72176FBA; 0x0A637DC5A2C898A6; 0x113F9804BEF90DAE; 0x1B710B35131C471B;
   0x28DB77F523047D84; 0x32CAAB7B40C72493; 0x3C9EBE0A15C9BEBC; 0x431D67C49C100D4C;
   0x4CC5D4BECB3E42B6; 0x597F299CFC657E2A; 0x5FCB6FAB3AD6FAEC; 0x6C44198C4A475817].

(** The eight working variables. *)
Definition octet : Type := Z * Z * Z * Z * Z * Z * Z * Z.

Section sha2.
(** The wrap-around of a word, the four sigma functions, the constants. *)
Context (wrap : Z -> Z) (BSG_0 BSG_1 SSG_0 SSG_1 : Z -> Z) (K : list Z).

(** [SHA2_STEP]: the new values of [D] and [H]. *)
Definition SHA2_STEP (w : list Z) (A B C D E F G H j : Z) : Z * Z :=
  let T1 := wrap (H + BSG_1 E + CH E F G + zget K j + zget w j) in
  let T2 := wrap (BSG_0 A + MAJ A B C) in
  (wrap (D + T1), wrap (T1 + T2)).

Definition sha2_eight (w : list Z) (i : Z) (s : octet) : octet :=
  let '(a, b, c, d, e, f, g, h) := s in
  let '(d, h) := SHA2_STEP w a b c d e f g h (i + 0) in
  let '(c, g) := SHA2_STEP w h a b c d e f g (i + 1) in
  let '(b, f) := SHA2_STEP w g h a b c d e f (i + 2) in
  let '(a, e) := SHA2_STEP w f g h a b c d e (i + 3) in
  let '(h, d) := SHA2_STEP w e f g h a b c d (i + 4) in
  let '(g, c) := SHA2_STEP w d e f g h a b c (i + 5) in
  let '(f, b) := SHA2_STEP w c d e f g h a b (i + 6) in
  let '(e, a) := SHA2_STEP w b c d e f g h a (i + 7) in
  (a, b, c, d, e, f, g, h).

Definition sha2_next (w : list Z) (i : Z) : Z :=
  wrap (SSG_1 (zget w (i - 2)) + zget w (i - 7) + SSG_0 (zget w (i - 15)) + zget w (i - 16)).

(** [n] is the number of rounds divided by 8; [m] the 16 words of the block. *)
Definition sha2_round (n : nat) (m val : list Z) : list Z :=
  let w := expand sha2_next (8 * n - 16) 16 m in
  let '(a, b, c, d, e, f, g, h) :=
    for_by n 0 8 (sha2_eight w)
      (zget val 0, zget val 1, zget val 2, zget val 3,
       zget val 4, zget val 5, zget val 6, zget val 7) in
  [wrap (zget val 0 + a); wrap (zget val 1 + b); wrap (zget val 2 + c); wrap (zget val 3 + d);
   wrap (zget val 4 + e); wrap (zget val 5 + f); wrap (zget val 6 + g); wrap (zget val 7 + h)].
End sha2.

Definition br_sha2small_round (buf val : list Z) : list Z :=
  sha2_round u32 BSG2_0 BSG2_1 SSG2_0 SSG2_1 sha2small_K 8 (br_range_dec32be 16 buf) val.
Definition sha2big_round (buf val : list Z) : list Z :=
  sha2_round u64 BSG5_0 BSG5_1 SSG5_0 SSG5_1 sha2big_K 10 (br_range_dec64be 16 buf) val.

(** ** SHA-1 (sha1.c) *)

Definition br_sha1_IV : list Z := [
   0x67452301; 0xEFCDAB89; 0x98BADCFE; 0x10325476; 0xC3D2E1F0].

Definition sha1_F (B C D : Z) : Z := Z.lxor (Z.land (Z.lxor C D) B) D.
Definition sha1_G (B C D : Z) : Z := Z.lxor (Z.lxor B C) D.
Definition sha1_H (B C D : Z) : Z := Z.lor (Z.land D C) (Z.land (Z.lor D C) B).
Definition sha1_I (B C D : Z) : Z := sha1_G B C D.
Definition K1 : Z := 0x5A827999.
Definition K2 : Z := 0x6ED9EBA1.
Definition K3 : Z := 0x8F1BBCDC.
Definition K4 : Z := 0xCA62C1D6.

Definition sha1_next (m : list Z) (i : Z) : Z :=
  let x := Z.lxor (Z.lxor (Z.lxor (zget m (i - 3)) (zget m (i - 8))) (zget m (i - 14)))
             (zget m (i - 16)) in
  ROTL x 1.

Definition quint : Type := Z * Z * Z * Z * Z.

(** The five lines of a loop body, with the function and the constant of the
    loop. *)
Definition sha1_five (fn : Z -> Z -> Z -> Z) (K : Z) (m : list Z) (i : Z) (s : quint) : quint :=
  let '(a, b, c, d, e) := s in
  let e := u32 (e + (ROTL a 5 + fn b c d + K + zget m (i + 0))) in let b := ROTL b 30 in
  let d := u32 (d + (ROTL e 5 + fn a b c + K + zget m (i + 1))) in let a := ROTL a 30 in
  let c := u32 (c + (ROTL d 5 + fn e a b + K + zget m (i + 2))) in let e := ROTL e 30 in
  let b := u32 (b + (ROTL c 5 + fn d e a + K + zget m (i + 3))) in let d := ROTL d 30 in
  let a := u32 (a + (ROTL b 5 + fn c d e + K + zget m (i + 4))) in let c := ROTL c 30 in
  (a, b, c, d, e).

Definition br_sha1_round (buf val : list Z) : list Z :=
  let m := expand sha1_next 64 16 (br_range_dec32be 16 buf) in
  let s := (zget val 0, zget val 1, zget val 2, zget val 3, zget val 4) in
  let s := for_by 4 0 5 (sha1_five sha1_F K1 m) s in
  let s := for_by 4 20 5 (sha1_five sha1_G K2 m) s in
  let s := for_by 4 40 5 (sha1_five sha1_H K3 m) s in
  let '(a, b, c, d, e) := for_by 4 60 5 (sha1_five sha1_I K4 m) s in
  [u32 (zget val 0 + a); u32 (zget val 1 + b); u32 (zget val 2 + c); u32 (zget val 3 + d);
   u32 (zget val 4 + e)].

(** ** MD5 (md5.c) *)

Definition br_md5_IV : list Z := [
   0x67452301; 0xEFCDAB89; 0x98BADCFE; 0x10325476].

Definition md5_K : list Z := [
   0xD76AA478; 0xE8C7B756; 0x242070DB; 0xC1BDCEEE;
   0xF57C0FAF; 0x4787C62A; 0xA8304613; 0xFD469501;
   0x698098D8; 0x8B44F7AF; 0xFFFF5BB1; 0x895CD7BE;
   0x6B901122; 0xFD987193; 0xA679438E; 0x49B40821;
   0xF61E2562; 0xC040B340; 0x265E5A51; 0xE9B6C7AA;
   0xD62F105D; 0x02441453; 0xD8A1E681; 0xE7D3FBC8;
   0x21E1CDE6; 0xC33707D6; 0xF4D50D87; 0x455A14ED;
   0xA9E3E905; 0xFCEFA3F8; 0x676F02D9; 0x8D2A4C8A;
   0xFFFA3942; 0x8771F681; 0x6D9D6122; 0xFDE5380C;
   0xA4BEEA44; 0x4BDECFA9; 0xF6BB4B60; 0xBEBFBC70;
   0x289B7EC6; 0xEAA127FA; 0xD4EF3085; 0x04881D05;
   0xD9D4D039; 0xE6DB99E5; 0x1FA27CF8; 0xC4AC5665;
   0xF4292244; 0x432AFF97; 0xAB9423A7; 0xFC93A039;
   0x655B59C3; 0x8F0CCC92; 0xFFEFF47D; 0x85845DD1;
   0x6FA87E4F; 0xFE2CE6E0; 0xA3014314; 0x4E0811A1;
   0xF7537E82; 0xBD3AF235; 0x2AD7D2BB; 0xEB86D391].

Definition MP : list Z := [
   1; 6; 11; 0; 5; 10; 15; 4; 9; 14; 3; 8; 13; 2; 7; 12;
   5; 8; 11; 14; 1; 4; 7; 10; 13; 0; 3; 6; 9; 12; 15; 2;
   0; 7; 14; 5; 12; 3; 10; 1; 8; 15; 6; 13; 4; 11; 2; 9].

Definition md5_F (B C D : Z) : Z := Z.lxor (Z.land (Z.lxor C D) B) D.
Definition md5_G (B C D : Z) : Z := Z.lxor (Z.land (Z.lxor C B) D) C.
Definition md5_H (B C D : Z) : Z := Z.lxor (Z.lxor B C) D.
Definition md5_I (B C D : Z) : Z := Z.lxor C (Z.lor B (u32 (Z.lnot D))).

Definition quad : Type := Z * Z * Z * Z.

(** [b + ROTL(a + f + m + K, r)]. *)
Definition md5_line (b a f m k r : Z) : Z := u32 (b + ROTL (u32 (a + f + m + k)) r).

(** The four lines of a loop body: [idx i] is the message word of line [i]. *)
Definition md5_four (fn : Z -> Z -> Z -> Z) (idx : Z -> Z) (r0 r1 r2 r3 : Z) (m : list Z)
    (i : Z) (s : quad) : quad :=
  let '(a, b, c, d) := s in
  let a := md5_line b a (fn b c d) (zget m (idx (i + 0))) (zget md5_K (i + 0)) r0 in
  let d := md5_line a d (fn a b c) (zget m (idx (i + 1))) (zget md5_K (i + 1)) r1 in
  let c := md5_line d c (fn d a b) (zget m (idx (i + 2))) (zget md5_K (i + 2)) r2 in
  let b := md5_line c b (fn c d a) (zget m (idx (i + 3))) (zget md5_K (i + 3)) r3 in
  (a, b, c, d).

Definition br_md5_round (buf val : list Z) : list Z :=
  let m := br_range_dec32le 16 buf in
  let mp i := zget MP (i - 16) in
  let s := (zget val 0, zget val 1, zget val 2, zget val 3) in
  let s := for_by 4 0 4 (md5_four md5_F (fun i => i) 7 12 17 22 m) s in
  let s := for_by 4 16 4 (md5_four md5_G mp 5 9 14 20 m) s in
  let s := for_by 4 32 4 (md5_four md5_H mp 4 11 16 23 m) s in
  let '(a, b, c, d) := for_by 4 48 4 (md5_four md5_I mp 6 10 15 21 m) s in
  [u32 (zget val 0 + a); u32 (zget val 1 + b); u32 (zget val 2 + c); u32 (zget val 3 + d)].

(** ** The rolled functions *)

Definition Ch (x y z : Z) : Z := Z.lxor (Z.land x y) (Z.land (Z.lnot x) z).
Definition Parity (x y z : Z) : Z := Z.lxor (Z.lxor x y) z.
Definition Maj (x y z : Z) : Z := Z.lxor (Z.lxor (Z.land x y) (Z.land x z)) (Z.land y z).

(** FIPS 180-4, 6.2.2 and 6.4.2. *)
Section fips_sha2.
Context (wrap : Z -> Z) (Sigma0 Sigma1 sigma0 sigma1 : Z -> Z) (K : list Z).
Definition sha2_step (w : list Z) (t : Z) (s : octet) : octet :=
  let '(a, b, c, d, e, f, g, h) := s in
  let T1 := wrap (h + Sigma1 e + Ch e f g + zget K t + zget w t) in
  let T2 := wrap (Sigma0 a + Maj a b c) in
  (wrap (T1 + T2), a, b, c, wrap (d + T1), e, f, g).
Definition fips_sha2 (rounds : nat) (m val : list Z) : list Z :=
  let w := expand (sha2_next wrap sigma0 sigma1) (rounds - 16) 16 m in
  let '(a, b, c, d, e, f, g, h) :=
    for_by rounds 0 1 (sha2_step w)
      (zget val 0, zget val 1, zget val 2, zget val 3,
       zget val 4, zget val 5, zget val 6, zget val 7) in
  [wrap (zget val 0 + a); wrap (zget val 1 + b); wrap (zget val 2 + c); wrap (zget val 3 + d);
   wrap (zget val 4 + e); wrap (zget val 5 + f); wrap (zget val 6 + g); wrap (zget val 7 + h)].
End fips_sha2.

(** FIPS 180-4, 6.1.2. *)
Definition sha1_step (m : list Z) (t : Z) (s : quint) : quint :=
  let '(a, b, c, d, e) := s in
  let f := if t <? 20 then Ch b c d else if t <? 40 then Parity b c d
           else if t <? 60 then Maj b c d else Parity b c d in
  let k := if t <? 20 then K1 else if t <? 40 then K2 else if t <? 60 then K3 else K4 in
  (u32 (ROTL a 5 + f + e + k + zget m t), a, ROTL b 30, c, d).
Definition fips_sha1 (block val : list Z) : list Z :=
  let m := expand sha1_next 64 16 (br_range_dec32be 16 block) in
  let '(a, b, c, d, e) :=
    for_by 80 0 1 (sha1_step m) (zget val 0, zget val 1, zget val 2, zget val 3, zget val 4) in
  [u32 (zget val 0 + a); u32 (zget val 1 + b); u32 (zget val 2 + c); u32 (zget val 3 + d);
   u32 (zget val 4 + e)].

(** RFC 1321, 3.4: round functions, word indices and shift amounts. *)
Definition rfc1321_fn (t : Z) (x y z : Z) : Z :=
  if t <? 16 then Z.lor (Z.land x y) (Z.land (Z.lnot x) z)
  else if t <? 32 then Z.lor (Z.land x z) (Z.land y (Z.lnot z))
  else if t <? 48 then Z.lxor (Z.lxor x y) z
  else Z.lxor y (Z.lor x (u32 (Z.lnot z))).
Definition rfc1321_word (t : Z) : Z :=
  if t <? 16 then t else if t <? 32 then (5 * t + 1) mod 16
  else if t <? 48 then (3 * t + 5) mod 16 else (7 * t) mod 16.
Definition rfc1321_shift (t : Z) : Z :=
  zget [7; 12; 17; 22; 5; 9; 14; 20; 4; 11; 16; 23; 6; 10; 15; 21] (4 * (t / 16) + t mod 4).
Definition md5_step (m : list Z) (t : Z) (s : quad) : quad :=
  let '(a, b, c, d) := s in
  (d, u32 (b + ROTL (u32 (a + rfc1321_fn t b c d + zget m (rfc1321_word t) + zget md5_K t))
                 (rfc1321_shift t)), b, c).
Definition rfc1321_md5 (block val : list Z) : list Z :=
  let m := br_range_dec32le 16 block in
  let '(a, b, c, d) :=
    for_by 64 0 1 (md5_step m) (zget val 0, zget val 1, zget val 2, zget val 3) in
  [u32 (zget val 0 + a); u32 (zget val 1 + b); u32 (zget val 2 + c); u32 (zget val 3 + d)].

(** ** They are the same *)

(** Bitwise identities, by a truth table. *)
Ltac truth_table :=
  intros; apply Z.bits_inj'; intros ? ?;
  rewrite ?Z.lxor_spec, ?Z.lor_spec, ?Z.land_spec, ?Z.lxor_spec, ?Z.lor_spec, ?Z.land_spec,
    ?Z.lnot_spec by lia;
  repeat match goal with |- context [Z.testbit ?x ?n] => destruct (Z.testbit x n) end; done.
Lemma CH_Ch x y z : CH x y z = Ch x y z.
Proof. unfold CH, Ch. truth_table. Qed.
Lemma MAJ_Maj x y z : MAJ x y z = Maj x y z.
Proof. unfold MAJ, Maj. truth_table. Qed.
Lemma sha1_H_Maj x y z : sha1_H x y z = Maj x y z.
Proof. unfold sha1_H, Maj. truth_table. Qed.
Lemma md5_F_rfc x y z : md5_F x y z = Z.lor (Z.land x y) (Z.land (Z.lnot x) z).
Proof. unfold md5_F. truth_table. Qed.
Lemma md5_G_rfc x y z : md5_G x y z = Z.lor (Z.land x z) (Z.land y (Z.lnot z)).
Proof. unfold md5_G. truth_table. Qed.

(** Loops: unrolling, splitting, and changing the body. *)
Lemma for_by_ext {S} (f g : Z -> S -> S) n i st s :
  (forall j x, 0 <= j < Z.of_nat n -> f (i + st * j) x = g (i + st * j) x) ->
  for_by n i st f s = for_by n i st g s.
Proof.
  revert i s. induction n as [|n IH]; intros i s H; [done|]. cbn [for_by].
  replace (f i s) with (g i s) by (specialize (H 0 s); rewrite Z.mul_0_r, Z.add_0_r in H; rewrite H; [done|lia]).
  apply IH. intros j x Hj. specialize (H (j + 1) x ltac:(lia)).
  by replace (i + st * (j + 1)) with (i + st + st * j) in H by lia.
Qed.
Lemma for_by_app {S} (f : Z -> S -> S) n m i st s :
  for_by (n + m) i st f s = for_by m (i + st * Z.of_nat n) st f (for_by n i st f s).
Proof.
  revert i s. induction n as [|n IH]; intros i s; cbn [for_by Nat.add]; [f_equal; lia|].
  rewrite IH. f_equal. lia.
Qed.
Lemma for_by_unroll {S} (f : Z -> S -> S) k n i s :
  for_by (n * k) i 1 f s = for_by n i (Z.of_nat k) (fun i => for_by k i 1 f) s.
Proof.
  revert i s. induction n as [|n IH]; intros i s; cbn [for_by Nat.mul]; [done|].
  rewrite for_by_app, IH. f_equal. lia.
Qed.

Lemma sha2_step_eq wrap B0 B1 K w t a b c d e f g h :
  sha2_step wrap B0 B1 K w t (a, b, c, d, e, f, g, h) =
    let '(d, h) := SHA2_STEP wrap B0 B1 K w a b c d e f g h t in (h, a, b, c, d, e, f, g).
Proof. unfold sha2_step, SHA2_STEP. by rewrite CH_Ch, MAJ_Maj. Qed.

(** [for_steps] turns a loop of at most eight rounds into the list of its rounds. *)
Ltac for_steps i :=
  cbn [for_by];
  try replace (i + 1 + 1) with (i + 2) by lia; try replace (i + 2 + 1) with (i + 3) by lia;
  try replace (i + 3 + 1) with (i + 4) by lia; try replace (i + 4 + 1) with (i + 5) by lia;
  try replace (i + 5 + 1) with (i + 6) by lia; try replace (i + 6 + 1) with (i + 7) by lia.

Lemma sha2_eight_steps wrap B0 B1 K w i s :
  sha2_eight wrap B0 B1 K w i s = for_by 8 i 1 (sha2_step wrap B0 B1 K w) s.
Proof.
  destruct s as [[[[[[[a b] c] d] e] f] g] h]. unfold sha2_eight. for_steps i. rewrite Z.add_0_r.
  do 8 (rewrite sha2_step_eq;
    match goal with |- context [SHA2_STEP ?w0 ?x ?y ?k ?m ?a ?b ?c ?d ?e ?f ?g ?h ?j] =>
      destruct (SHA2_STEP w0 x y k m a b c d e f g h j) end).
  done.
Qed.
Lemma sha2_round_fips wrap B0 B1 S0 S1 K n m val :
  sha2_round wrap B0 B1 S0 S1 K n m val = fips_sha2 wrap B0 B1 S0 S1 K (n * 8) m val.
Proof.
  unfold sha2_round, fips_sha2. rewrite for_by_unroll, (Nat.mul_comm n 8).
  erewrite for_by_ext; [reflexivity|]. intros j x _. apply sha2_eight_steps.
Qed.

(** Deciding comparisons that [lia] can settle. *)
Ltac decide_ltb :=
  repeat match goal with |- context [?x <? ?y] =>
    first [rewrite (proj2 (Z.ltb_lt x y)) by lia | rewrite (proj2 (Z.ltb_ge x y)) by lia] end.

(** A group of rounds of SHA-1 or MD5, from [lo] on. *)
Lemma sha1_five_steps fn K m i s lo : (lo = 0 /\ fn = sha1_F /\ K = K1 \/
    lo = 20 /\ fn = sha1_G /\ K = K2 \/ lo = 40 /\ fn = sha1_H /\ K = K3 \/
    lo = 60 /\ fn = sha1_I /\ K = K4) -> lo <= i <= lo + 15 ->
  sha1_five fn K m i s = for_by 5 i 1 (sha1_step m) s.
Proof.
  intros Hg Hi.
  assert (forall j x, 0 <= j < Z.of_nat 5 -> sha1_step m (i + 1 * j) x =
    let '(a, b, c, d, e) := x in (u32 (e + (ROTL a 5 + fn b c d + K + zget m (i + 1 * j))), a, ROTL b 30, c, d)) as Hs.
  { intros j [[[[a b] c] d] e] Hj. unfold sha1_step.
    destruct Hg as [(-> & -> & ->)|[(-> & -> & ->)|[(-> & -> & ->)|(-> & -> & ->)]]].
    all: decide_ltb.
    - rewrite <- (CH_Ch b c d). do 5 f_equal. change (CH b c d) with (sha1_F b c d). lia.
    - do 5 f_equal. change (Parity b c d) with (sha1_G b c d). lia.
    - rewrite <- sha1_H_Maj. do 5 f_equal. lia.
    - do 5 f_equal. change (Parity b c d) with (sha1_I b c d). lia. }
  rewrite (for_by_ext (S := quint) _ (fun k x => let '(a, b, c, d, e) := x in
    (u32 (e + (ROTL a 5 + fn b c d + K + zget m k)), a, ROTL b 30, c, d)) 5 i 1 s Hs).
  destruct s as [[[[a b] c] d] e]. unfold sha1_five. for_steps i. rewrite Z.add_0_r. reflexivity.
Qed.
Lemma sha1_round_fips block val : br_sha1_round block val = fips_sha1 block val.
Proof.
  unfold br_sha1_round, fips_sha1. set (m := expand _ _ _ _). set (s := (_, _, _, _, _)).
  change 80%nat with ((4 + (4 + (4 + 4))) * 5)%nat. rewrite for_by_unroll, !for_by_app.
  change (Z.of_nat 5) with 5. change (Z.of_nat 4) with 4.
  rewrite (for_by_ext (sha1_five sha1_F K1 m) (fun i => for_by 5 i 1 (sha1_step m)) 4 0) by
    (intros; apply (sha1_five_steps _ _ _ _ _ 0); [tauto|lia]).
  rewrite (for_by_ext (sha1_five sha1_G K2 m) (fun i => for_by 5 i 1 (sha1_step m)) 4 20) by
    (intros; apply (sha1_five_steps _ _ _ _ _ 20); [tauto|lia]).
  rewrite (for_by_ext (sha1_five sha1_H K3 m) (fun i => for_by 5 i 1 (sha1_step m)) 4 40) by
    (intros; apply (sha1_five_steps _ _ _ _ _ 40); [tauto|lia]).
  rewrite (for_by_ext (sha1_five sha1_I K4 m) (fun i => for_by 5 i 1 (sha1_step m)) 4 60) by
    (intros; apply (sha1_five_steps _ _ _ _ _ 60); [tauto|lia]).
  reflexivity.
Qed.

(** The four groups of MD5. *)
Definition md5_group (lo : Z) : (Z -> Z -> Z -> Z) * (Z -> Z) * (Z * Z * Z * Z) :=
  let mp i := zget MP (i - 16) in
  if lo =? 0 then (md5_F, fun i => i, (7, 12, 17, 22))
  else if lo =? 16 then (md5_G, mp, (5, 9, 14, 20))
  else if lo =? 32 then (md5_H, mp, (4, 11, 16, 23)) else (md5_I, mp, (6, 10, 15, 21)).

(** The word indices and the shift amounts, checked for all 64 rounds. *)
Lemma md5_tables lo j r : lo ∈ [0; 16; 32; 48] -> 0 <= j < 4 -> 0 <= r < 4 ->
  let i := lo + 4 * j + r in
  let '(_, idx, (r0, r1, r2, r3)) := md5_group lo in
  idx i = rfc1321_word i /\ zget [r0; r1; r2; r3] r = rfc1321_shift i.
Proof.
  intros Hlo Hj Hr. rewrite !elem_of_cons, elem_of_nil in Hlo.
  assert (j = 0 \/ j = 1 \/ j = 2 \/ j = 3) as Hj' by lia.
  assert (r = 0 \/ r = 1 \/ r = 2 \/ r = 3) as Hr' by lia.
  destruct Hlo as [->|[->|[->|[->|[]]]]], Hj' as [->|[->|[->| ->]]], Hr' as [->|[->|[->| ->]]];
    split; vm_compute; reflexivity.
Qed.
Lemma md5_group_fn lo t x y z : lo ∈ [0; 16; 32; 48] -> lo <= t < lo + 16 ->
  (md5_group lo).1.1 x y z = rfc1321_fn t x y z.
Proof.
  intros Hlo Ht. rewrite !elem_of_cons, elem_of_nil in Hlo. unfold rfc1321_fn.
  destruct Hlo as [->|[->|[->|[->|[]]]]]; cbn [md5_group Z.eqb Pos.eqb fst]; decide_ltb;
    auto using md5_F_rfc, md5_G_rfc.
Qed.
Lemma md5_step_eq m t a b c d : md5_step m t (a, b, c, d) =
  (d, md5_line b a (rfc1321_fn t b c d) (zget m (rfc1321_word t)) (zget md5_K t) (rfc1321_shift t), b, c).
Proof. reflexivity. Qed.
Lemma md5_four_steps lo j m s : lo ∈ [0; 16; 32; 48] -> 0 <= j < 4 ->
  (let '(fn, idx, (r0, r1, r2, r3)) := md5_group lo in md5_four fn idx r0 r1 r2 r3 m (lo + 4 * j) s)
  = for_by 4 (lo + 4 * j) 1 (md5_step m) s.
Proof.
  intros Hlo Hj. pose proof (fun r => md5_tables lo j r Hlo Hj) as Ht.
  pose proof (fun t x y z => md5_group_fn lo t x y z Hlo) as Hf.
  destruct (md5_group lo) as [[fn idx] [[[r0 r1] r2] r3]]. cbn [fst] in Hf. cbv zeta in Ht.
  set (i := lo + 4 * j) in *. destruct s as [[[a b] c] d]. unfold md5_four. for_steps i.
  rewrite Z.add_0_r.
  destruct (Ht 0 ltac:(lia)) as [E0 F0], (Ht 1 ltac:(lia)) as [E1 F1], (Ht 2 ltac:(lia)) as [E2 F2],
    (Ht 3 ltac:(lia)) as [E3 F3]. rewrite Z.add_0_r in E0, F0.
  assert (lo <= i /\ i + 3 < lo + 16) as Hi by lia. clearbody i.
  change (zget _ 0) with r0 in F0. change (zget _ 1) with r1 in F1.
  change (zget _ 2) with r2 in F2. change (zget _ 3) with r3 in F3.
  rewrite E0, E1, E2, E3, F0, F1, F2, F3.
  do 4 (rewrite md5_step_eq, <- Hf by lia;
    match goal with |- _ = ?rhs => match rhs with context [md5_line ?b ?a (fn ?x ?y ?z) ?w ?k ?r] =>
      generalize (md5_line b a (fn x y z) w k r); intros end end).
  done.
Qed.
Lemma md5_round_rfc block val : br_md5_round block val = rfc1321_md5 block val.
Proof.
  unfold br_md5_round, rfc1321_md5. set (m := br_range_dec32le 16 block). set (s := (_, _, _, _)).
  change 64%nat with ((4 + (4 + (4 + 4))) * 4)%nat. rewrite for_by_unroll, !for_by_app.
  change (Z.of_nat 4) with 4. cbv zeta.
  assert (forall lo x, lo ∈ [0; 16; 32; 48] ->
    for_by 4 lo 4 (fun i s => let '(fn, idx, (r0, r1, r2, r3)) := md5_group lo in
      md5_four fn idx r0 r1 r2 r3 m i s) x = for_by 4 lo 4 (fun i => for_by 4 i 1 (md5_step m)) x) as H.
  { intros lo x Hlo. apply for_by_ext. intros j y Hj. by apply md5_four_steps. }
  rewrite <- (H 0), <- (H (0 + 4 * 4)), <- (H (0 + 4 * 4 + 4 * 4)), <- (H (0 + 4 * 4 + 4 * 4 + 4 * 4))
    by (rewrite !elem_of_cons; lia).
  reflexivity.
Qed.
