(* ===== verification/HashStd.v ===== *)
(** * HashStd: the compression functions as RFC 1321 and FIPS 180-4 write them

    A second, independent account of the four compression functions: circular shifts
    by division, message schedules and rounds as the standards number them, and the
    constants computed from their definitions (roots of primes, the sine).  The code's
    functions and tables, of HashRounds, agree with it. *)
From S2P Require Import Prelude.
From S2P Require Import Words.
From S2P Require Import HashRounds.

(** ** Numbers *)

(** The integer part of the [k]-th root of [n < 2^(k*bits)]: its bits, from the top. *)
Fixpoint root_from (bits : nat) (k n r : Z) : Z :=
  match bits with
  | O => r
  | S bits => let r' := r + 2 ^ Z.of_nat bits in root_from bits k n (if r' ^ k <=? n then r' else r)
  end.
Definition root (k n : Z) : Z := root_from 80 k n 0.
(** The first [w] bits of the fractional part of the [k]-th root of [n]. *)
Definition root_bits (w k n : Z) : Z := root k (n * 2 ^ (k * w)) mod 2 ^ w.

(** No number from 2 to the square root divides [n]. *)
Definition prime_test (n : Z) : bool := forallb (fun d => negb (n mod d =? 0)) (seqZ 2 (Z.sqrt n - 1)).
Definition primes : list Z := filter (fun n => prime_test n = true) (seqZ 2 420).

(** [2^256 sin(x)], by the Taylor series; [t] is the [k]-th term. *)
Fixpoint sine_series (n : nat) (x k t : Z) : Z :=
  match n with
  | O => 0
  | S n => t + sine_series n x (k + 2) (- (t * x * x) / ((k + 1) * (k + 2)))
  end.
Definition sine (x : Z) : Z := sine_series 128 x 1 (x * 2 ^ 256).

(** The number of big-endian or little-endian bytes; the words of a block. *)
Definition be_number (bs : list Z) : Z := fold_left (fun a b => 256 * a + b) bs 0.
Definition le_number (bs : list Z) : Z := be_number (rev bs).
Definition block_words (number : list Z -> Z) (size n : Z) (block : list Z) : list Z :=
  map (fun i => number (zslice block (size * i) size)) (seqZ 0 n).

(** ** FIPS 180-4 *)

(** 2.2.2, 3.2: the operations on words of [w] bits. *)
Definition ROTR (w n x : Z) : Z := x / 2 ^ n + (x mod 2 ^ n) * 2 ^ (w - n).
Definition rotl (w n x : Z) : Z := ROTR w (w - n) x.
Definition SHR (n x : Z) : Z := x / 2 ^ n.

(** [H_i + x_i] for the words of [xs]. *)
Definition add_words (w : Z) (H xs : list Z) : list Z :=
  imap (fun i x => (zget H (Z.of_nat i) + x) mod 2 ^ w) xs.

(** The parameters of 4.1.2 and 4.1.3. *)
Record sha2_sigmas : Type := Sigmas { Sig0 : Z * Z * Z; Sig1 : Z * Z * Z; sig0 : Z * Z * Z; sig1 : Z * Z * Z }.
Definition sigmas256 : sha2_sigmas := Sigmas (2, 13, 22) (6, 11, 25) (7, 18, 3) (17, 19, 10).
Definition sigmas512 : sha2_sigmas := Sigmas (28, 34, 39) (14, 18, 41) (1, 8, 7) (19, 61, 6).

Section sha2.
Context (w : Z) (p : sha2_sigmas).
Definition Sigma (abc : Z * Z * Z) (x : Z) : Z :=
  let '(a, b, c) := abc in Z.lxor (Z.lxor (ROTR w a x) (ROTR w b x)) (ROTR w c x).
Definition sigma (abc : Z * Z * Z) (x : Z) : Z :=
  let '(a, b, c) := abc in Z.lxor (Z.lxor (ROTR w a x) (ROTR w b x)) (SHR c x).
(** 4.2.2, 4.2.3. *)
Definition sha2_constant (t : Z) : Z := root_bits w 3 (zget primes t).
(** 6.2.2, step 1. *)
Fixpoint sha2_schedule (n : nat) (W : list Z) : list Z :=
  match n with
  | O => W
  | S n => let t := zlen W in
      sha2_schedule n (W ++ [(sigma (sig1 p) (zget W (t - 2)) + zget W (t - 7) +
                              sigma (sig0 p) (zget W (t - 15)) + zget W (t - 16)) mod 2 ^ w])
  end.
(** Step 3. *)
Definition sha2_update (W : list Z) (s : octet) (t : Z) : octet :=
  let '(a, b, c, d, e, f, g, h) := s in
  let T1 := (h + Sigma (Sig1 p) e + Ch e f g + sha2_constant t + zget W t) mod 2 ^ w in
  let T2 := (Sigma (Sig0 p) a + Maj a b c) mod 2 ^ w in
  ((T1 + T2) mod 2 ^ w, a, b, c, (d + T1) mod 2 ^ w, e, f, g).
Definition sha2_compress (rounds : Z) (block H : list Z) : list Z :=
  let W := sha2_schedule (Z.to_nat (rounds - 16)) (block_words be_number (w / 8) 16 block) in
  let '(a, b, c, d, e, f, g, h) := fold_left (sha2_update W) (seqZ 0 rounds)
    (zget H 0, zget H 1, zget H 2, zget H 3, zget H 4, zget H 5, zget H 6, zget H 7) in
  add_words w H [a; b; c; d; e; f; g; h].
End sha2.

(** 5.3: the initial values of SHA-2 are bits of square roots of primes. *)
Definition sha2_initial (w : Z) (from : nat) : list Z := map (root_bits w 2) (take 8 (drop from primes)).

(** 4.1.1, 4.2.1, 6.1.2. *)
Definition sha1_f (t : Z) : Z -> Z -> Z -> Z := if t <? 20 then Ch else if t <? 40 then Parity else if t <? 60 then Maj else Parity.
Definition sha1_K (t : Z) : Z :=
  root 2 ((if t <? 20 then 2 else if t <? 40 then 3 else if t <? 60 then 5 else 10) * 2 ^ 60).
Fixpoint sha1_schedule (n : nat) (W : list Z) : list Z :=
  match n with
  | O => W
  | S n => let t := zlen W in
      sha1_schedule n (W ++ [rotl 32 1 (Z.lxor (Z.lxor (Z.lxor (zget W (t - 3)) (zget W (t - 8))) (zget W (t - 14))) (zget W (t - 16)))])
  end.
Definition sha1_update (W : list Z) (s : quint) (t : Z) : quint :=
  let '(a, b, c, d, e) := s in
  ((rotl 32 5 a + sha1_f t b c d + e + sha1_K t + zget W t) mod 2 ^ 32, a, rotl 32 30 b, c, d).
Definition sha1_compress (block H : list Z) : list Z :=
  let W := sha1_schedule 64 (block_words be_number 4 16 block) in
  let '(a, b, c, d, e) := fold_left (sha1_update W) (seqZ 0 80) (zget H 0, zget H 1, zget H 2, zget H 3, zget H 4) in
  add_words 32 H [a; b; c; d; e].

(** ** RFC 1321, 3.4 *)

Definition md5_T (t : Z) : Z := 2 ^ 32 * Z.abs (sine (t + 1)) / 2 ^ 256.
Definition md5_update (X : list Z) (s : quad) (t : Z) : quad :=
  let '(a, b, c, d) := s in
  (d, (b + rotl 32 (rfc1321_shift t) ((a + rfc1321_fn t b c d + zget X (rfc1321_word t) + md5_T t) mod 2 ^ 32)) mod 2 ^ 32, b, c).
Definition md5_compress (block H : list Z) : list Z :=
  let X := block_words le_number 4 16 block in
  let '(a, b, c, d) := fold_left (md5_update X) (seqZ 0 64) (zget H 0, zget H 1, zget H 2, zget H 3) in
  add_words 32 H [a; b; c; d].
(** The initial values of MD5 and SHA-1: bytes that count up and down in hexadecimal. *)
Definition counting : list Z :=
  map (fun i => 16 * (2 * i) + (2 * i + 1)) (seqZ 0 8) ++ map (fun i => 16 * (15 - 2 * i) + (14 - 2 * i)) (seqZ 0 8) ++
  map (fun i => 16 * (15 - i) + i) (seqZ 0 4).

(** ** Shifts, words and loops *)

Lemma ROTR_eq w n x : 0 < n < w -> 0 <= x < 2 ^ w ->
  Z.lor (Z.shiftl x (w - n) mod 2 ^ w) (Z.shiftr x n) = ROTR w n x.
Proof.
  intros Hn Hx. rewrite Z.shiftl_mul_pow2, Z.shiftr_div_pow2 by lia.
  assert (2 ^ w = 2 ^ n * 2 ^ (w - n)) as E by (rewrite <- Z.pow_add_r by lia; f_equal; lia).
  assert (0 < 2 ^ n) by (apply Z.pow_pos_nonneg; lia). assert (0 < 2 ^ (w - n)) by (apply Z.pow_pos_nonneg; lia).
  rewrite E, Z.mul_mod_distr_r by lia. rewrite lor_add; [unfold ROTR; lia|lia|].
  split; [apply Z.div_pos; lia|]. apply Z.div_lt_upper_bound; lia.
Qed.
Lemma ROTR_range w n x : 0 < n < w -> 0 <= x < 2 ^ w -> 0 <= ROTR w n x < 2 ^ w.
Proof.
  intros Hn Hx. unfold ROTR. assert (2 ^ w = 2 ^ n * 2 ^ (w - n)) as E by (rewrite <- Z.pow_add_r by lia; f_equal; lia).
  assert (0 < 2 ^ n) by (apply Z.pow_pos_nonneg; lia). assert (0 < 2 ^ (w - n)) by (apply Z.pow_pos_nonneg; lia).
  pose proof (Z.mod_pos_bound x (2 ^ n) ltac:(lia)).
  assert (0 <= x / 2 ^ n < 2 ^ (w - n)) by (split; [apply Z.div_pos; lia|apply Z.div_lt_upper_bound; lia]). nia.
Qed.
Lemma ROTL_rotl n x : 0 < n < 32 -> is_u32 x -> ROTL x n = rotl 32 n x.
Proof.
  intros. unfold rotl. rewrite <- ROTR_eq by (done || lia). unfold ROTL, u32. by replace (32 - (32 - n)) with n by lia.
Qed.

Lemma range_dec_map width dec num k buf : 0 <= width -> 0 <= k ->
  range_dec width dec num (zdrop (width * k) buf) = map (fun i => dec (zdrop (width * i) buf)) (seqZ k (Z.of_nat num)).
Proof.
  intros Hw. revert k. induction num as [|num IH]; intros k Hk; [done|]. cbn [range_dec].
  rewrite Nat2Z.inj_succ, seqZ_cons, Z.pred_succ by lia. cbn [map]. f_equal. rewrite zdrop_zdrop by lia.
  replace (width * k + width) with (width * Z.succ k) by lia. apply IH. lia.
Qed.
Lemma block_words_dec size number dec n block : 0 <= size -> zlen block = size * Z.of_nat n -> Forall is_u8 block ->
  (forall b m, zlen b = size -> Forall is_u8 b -> dec (b ++ m) = number b) ->
  range_dec size dec n block = block_words number size (Z.of_nat n) block.
Proof.
  intros Hs Hl Hb Hd. unfold block_words. rewrite <- (zdrop_0 block) at 1. replace 0 with (size * 0) at 1 by lia.
  rewrite range_dec_map by lia. apply map_ext_in. intros i Hi. apply list_elem_of_In, elem_of_seqZ in Hi.
  rewrite <- (ztake_zdrop size (zdrop (size * i) block)). apply Hd; [|by apply Forall_ztake, Forall_zdrop].
  apply zlen_ztake. rewrite zlen_zdrop by nia. nia.
Qed.

(** The big-endian and little-endian readings. *)
Ltac four b := destruct b as [|b0 [|b1 [|b2 [|b3 [|? ?]]]]]; try (intros; cbn [length] in *; lia).
Lemma be_number32 b m : zlen b = 4 -> Forall is_u8 b -> br_dec32be (b ++ m) = be_number b.
Proof.
  four b. intros _ H. rewrite !Forall_cons in H. destruct H as (? & ? & ? & ? & _). cbn [app].
  rewrite dec32be_sum by done. unfold be_number. cbn [fold_left]. lia.
Qed.
Lemma le_number32 b m : zlen b = 4 -> Forall is_u8 b -> br_dec32le (b ++ m) = le_number b.
Proof.
  four b. intros _ H. rewrite !Forall_cons in H. destruct H as (? & ? & ? & ? & _). cbn [app].
  rewrite dec32le_sum by done. unfold le_number, be_number. cbn [rev app fold_left]. lia.
Qed.
Lemma be_number_app a b : be_number (a ++ b) = be_number a * 256 ^ zlen b + be_number b.
Proof.
  unfold be_number. rewrite fold_left_app. generalize (fold_left (fun a b => 256 * a + b) a 0). intros x. revert x.
  induction b as [|y b IH] using rev_ind; intros x; [cbn; lia|]. rewrite !fold_left_app. cbn [fold_left].
  rewrite IH, length_app. cbn [length]. rewrite Nat2Z.inj_add, Z.pow_add_r by lia. change (256 ^ Z.of_nat 1) with 256. lia.
Qed.
Lemma be_number_bound b : Forall is_u8 b -> 0 <= be_number b < 256 ^ zlen b.
Proof.
  induction b as [|y b IH] using rev_ind; intros H; [done|]. apply Forall_app in H as [H Hy]. rewrite Forall_singleton in Hy.
  specialize (IH H). rewrite be_number_app, length_app. cbn [length]. rewrite Nat2Z.inj_add, Z.pow_add_r by lia.
  change (256 ^ Z.of_nat 1) with 256. unfold is_u8 in Hy. assert (be_number [y] = y) as -> by (unfold be_number; cbn [fold_left]; lia).
  lia.
Qed.
Lemma be_number64 b m : zlen b = 8 -> Forall is_u8 b -> br_dec64be (b ++ m) = be_number b.
Proof.
  intros L H. assert (zlen (ztake 4 b) = 4) as L1 by (apply zlen_ztake; lia). assert (zlen (zdrop 4 b) = 4) as L2 by (rewrite zlen_zdrop; lia).
  assert (Forall is_u8 (ztake 4 b) /\ Forall is_u8 (zdrop 4 b)) as [H1 H2] by (split; [by apply Forall_ztake|by apply Forall_zdrop]).
  rewrite <- (ztake_zdrop 4 b). revert L1 L2 H1 H2. generalize (ztake 4 b) (zdrop 4 b). clear b L H. intros a b L1 L2 H1 H2.
  unfold br_dec64be. rewrite <- !app_assoc, be_number32 by done. rewrite zdrop_app_ge, L1, Z.sub_diag, zdrop_0, be_number32 by (done || lia).
  pose proof (be_number_bound _ H2). rewrite lor_shiftl_add by (rewrite L2 in *; lia). rewrite be_number_app, L2. lia.
Qed.

(** Loops that agree while an invariant holds. *)
Lemma for_by_fold {S} (f : Z -> S -> S) n i s : for_by n i 1 f s = fold_left (fun s t => f t s) (seqZ i (Z.of_nat n)) s.
Proof.
  revert i s. induction n as [|n IH]; intros i s; [done|]. cbn [for_by].
  rewrite Nat2Z.inj_succ, seqZ_cons, Z.pred_succ by lia. cbn [fold_left]. apply IH.
Qed.
Lemma fold_left_agree {A B} (I : A -> Prop) (f g : A -> B -> A) l s : I s ->
  (forall s x, x ∈ l -> I s -> f s x = g s x /\ I (g s x)) -> fold_left f l s = fold_left g l s.
Proof.
  revert s. induction l as [|x l IH]; intros s Hs H; [done|]. cbn [fold_left].
  destruct (H s x ltac:(by left) Hs) as [-> HI]. apply IH; [done|]. intros t y Hy. apply H. by right.
Qed.
Lemma zget_map f n t : 0 <= t < n -> zget (map f (seqZ 0 n)) t = f t.
Proof.
  intros Ht. unfold zget. rewrite (nth_indep _ 0 (f 0)) by (rewrite length_map, length_seqZ; lia).
  rewrite map_nth. f_equal. apply nth_lookup_Some with (d := 0). apply lookup_seqZ. lia.
Qed.
Lemma Forall_zget (P : Z -> Prop) l i : Forall P l -> P 0 -> P (zget l i).
Proof.
  intros H H0. unfold zget. destruct (nth_in_or_default (Z.to_nat i) l 0) as [Hin| ->]; [|done].
  rewrite Forall_forall in H. by apply H, list_elem_of_In.
Qed.

(** ** SHA-2 *)

Section sha2_agree.
Context (w : Z) (p : sha2_sigmas) (B0 B1 S0 S1 : Z -> Z) (K : list Z).
Notation is_word x := (0 <= x < 2 ^ w).
Context (Hw : 0 < w) (HB0 : forall x, is_word x -> B0 x = Sigma w (Sig0 p) x) (HB1 : forall x, is_word x -> B1 x = Sigma w (Sig1 p) x)
  (HS0 : forall x, is_word x -> S0 x = sigma w (sig0 p) x) (HS1 : forall x, is_word x -> S1 x = sigma w (sig1 p) x).
Notation wrap := (fun x => x mod 2 ^ w).

Lemma wrap_word x : is_word (x mod 2 ^ w).
Proof. apply Z.mod_pos_bound, Z.pow_pos_nonneg; lia. Qed.
Lemma zero_word : is_word 0.
Proof. split; [lia|apply Z.pow_pos_nonneg; lia]. Qed.
Lemma word_zget l i : Forall (fun x => is_word x) l -> is_word (zget l i).
Proof. intros H. apply (Forall_zget (fun x => is_word x)); [done|apply zero_word]. Qed.

Lemma schedule_agree k W : Forall (fun x => is_word x) W ->
  expand (sha2_next wrap S0 S1) k (zlen W) W = sha2_schedule w p k W.
Proof.
  revert W. induction k as [|k IH]; intros W H; [done|]. cbn [expand sha2_schedule].
  assert (sha2_next wrap S0 S1 W (zlen W) = (sigma w (sig1 p) (zget W (zlen W - 2)) + zget W (zlen W - 7) +
    sigma w (sig0 p) (zget W (zlen W - 15)) + zget W (zlen W - 16)) mod 2 ^ w) as ->.
  { unfold sha2_next. by rewrite HS0, HS1 by (by apply word_zget). }
  rewrite <- IH; [|apply Forall_app; split; [done|apply Forall_singleton, wrap_word]]. f_equal. rewrite length_app. cbn [length]. lia.
Qed.

Definition octet_words (s : octet) : Prop :=
  let '(a, b, c, d, e, f, g, h) := s in
  is_word a /\ is_word b /\ is_word c /\ is_word d /\ is_word e /\ is_word f /\ is_word g /\ is_word h.
Lemma update_agree W s t : octet_words s -> zget K t = sha2_constant w t ->
  sha2_step wrap B0 B1 K W t s = sha2_update w p W s t /\ octet_words (sha2_update w p W s t).
Proof.
  destruct s as [[[[[[[a b] c] d] e] f] g] h]. intros (Ha & Hb & Hc & Hd & He & Hf & Hg & Hh) Ek.
  unfold sha2_step, sha2_update. rewrite HB0, HB1, Ek by done. split; [done|]. unfold octet_words.
  pose proof wrap_word. eauto 10.
Qed.

Lemma sha2_agree n words block H : map (sha2_constant w) (seqZ 0 (Z.of_nat n)) = K ->
  Forall (fun x => is_word x) words -> zlen words = 16 -> words = block_words be_number (w / 8) 16 block ->
  Forall (fun x => is_word x) H ->
  fips_sha2 wrap B0 B1 S0 S1 K n words H = sha2_compress w p (Z.of_nat n) block H.
Proof.
  intros Ek Hwords L Eb HH. unfold fips_sha2, sha2_compress. rewrite <- Eb. rewrite <- L at 1. rewrite schedule_agree by done.
  replace (Z.to_nat (Z.of_nat n - 16)) with (n - 16)%nat by lia. set (W := sha2_schedule _ _ _ _). rewrite for_by_fold.
  rewrite (fold_left_agree octet_words (fun s t => sha2_step wrap B0 B1 K W t s) (sha2_update w p W)).
  - by destruct (fold_left _ _ _) as [[[[[[[a b] c] d] e] f] g] h].
  - unfold octet_words. auto 10 using word_zget.
  - intros s t Ht Hs. apply update_agree; [done|]. apply elem_of_seqZ in Ht. rewrite <- Ek. apply zget_map. lia.
Qed.
End sha2_agree.

Ltac sigma_eq := intros; unfold Sigma, sigma, SHR; rewrite <- !ROTR_eq by (done || lia); rewrite <- ?Z.shiftr_div_pow2 by lia; reflexivity.
Lemma BSG2_0_eq x : is_u32 x -> BSG2_0 x = Sigma 32 (2, 13, 22) x. Proof. sigma_eq. Qed.
Lemma BSG2_1_eq x : is_u32 x -> BSG2_1 x = Sigma 32 (6, 11, 25) x. Proof. sigma_eq. Qed.
Lemma SSG2_0_eq x : is_u32 x -> SSG2_0 x = sigma 32 (7, 18, 3) x. Proof. sigma_eq. Qed.
Lemma SSG2_1_eq x : is_u32 x -> SSG2_1 x = sigma 32 (17, 19, 10) x. Proof. sigma_eq. Qed.
Lemma BSG5_0_eq x : 0 <= x < 2 ^ 64 -> BSG5_0 x = Sigma 64 (28, 34, 39) x. Proof. sigma_eq. Qed.
Lemma BSG5_1_eq x : 0 <= x < 2 ^ 64 -> BSG5_1 x = Sigma 64 (14, 18, 41) x. Proof. sigma_eq. Qed.
Lemma SSG5_0_eq x : 0 <= x < 2 ^ 64 -> SSG5_0 x = sigma 64 (1, 8, 7) x. Proof. sigma_eq. Qed.
Lemma SSG5_1_eq x : 0 <= x < 2 ^ 64 -> SSG5_1 x = sigma 64 (19, 61, 6) x. Proof. sigma_eq. Qed.

Lemma sha2small_constants : map (sha2_constant 32) (seqZ 0 64) = sha2small_K.
Proof. vm_compute. reflexivity. Qed.
Lemma sha2big_constants : map (sha2_constant 64) (seqZ 0 80) = sha2big_K.
Proof. vm_compute. reflexivity. Qed.

Lemma be_words_range size n block : 0 <= size -> 0 <= n -> Forall is_u8 block -> zlen block = size * n ->
  Forall (fun x => 0 <= x < 2 ^ (8 * size)) (block_words be_number size n block).
Proof.
  intros Hs Hn Hb L. unfold block_words. apply Forall_forall. intros x Hx. apply list_elem_of_fmap in Hx as (i & -> & Hi).
  apply elem_of_seqZ in Hi. pose proof (be_number_bound (zslice block (size * i) size) ltac:(by apply Forall_zslice)) as H.
  rewrite zlen_zslice in H by nia. rewrite Z.pow_mul_r by lia. exact H.
Qed.
Lemma zlen_block_words number size n block : 0 <= n -> zlen (block_words number size n block) = n.
Proof. intros. unfold block_words. rewrite length_map, length_seqZ. lia. Qed.

Lemma sha2small_std block H : zlen block = 64 -> Forall is_u8 block -> Forall is_u32 H ->
  br_sha2small_round block H = sha2_compress 32 sigmas256 64 block H.
Proof.
  intros L B HH. unfold br_sha2small_round. rewrite sha2_round_fips. unfold br_range_dec32be.
  rewrite (block_words_dec 4 be_number) by (done || exact be_number32).
  apply (sha2_agree 32 sigmas256 BSG2_0 BSG2_1 SSG2_0 SSG2_1 sha2small_K ltac:(lia) BSG2_0_eq BSG2_1_eq SSG2_0_eq SSG2_1_eq 64).
  - exact sha2small_constants.
  - by apply (be_words_range 4 16).
  - by apply zlen_block_words.
  - reflexivity.
  - exact HH.
Qed.
Lemma sha2big_std block H : zlen block = 128 -> Forall is_u8 block -> Forall (fun x => 0 <= x < 2 ^ 64) H ->
  sha2big_round block H = sha2_compress 64 sigmas512 80 block H.
Proof.
  intros L B HH. unfold sha2big_round. rewrite sha2_round_fips. unfold br_range_dec64be.
  rewrite (block_words_dec 8 be_number) by (done || exact be_number64).
  apply (sha2_agree 64 sigmas512 BSG5_0 BSG5_1 SSG5_0 SSG5_1 sha2big_K ltac:(lia) BSG5_0_eq BSG5_1_eq SSG5_0_eq SSG5_1_eq 80).
  - exact sha2big_constants.
  - by apply (be_words_range 8 16).
  - by apply zlen_block_words.
  - reflexivity.
  - exact HH.
Qed.

(** ** SHA-1 *)

Lemma sha1_schedule_agree k W : Forall is_u32 W -> expand sha1_next k (zlen W) W = sha1_schedule k W.
Proof.
  revert W. induction k as [|k IH]; intros W H; [done|]. cbn [expand sha1_schedule].
  pose proof (fun i => Forall_zget is_u32 W i H ltac:(unfold is_u32; lia)) as G. set (t := zlen W).
  assert (is_u32 (Z.lxor (Z.lxor (Z.lxor (zget W (t - 3)) (zget W (t - 8))) (zget W (t - 14))) (zget W (t - 16)))) as Hx
    by (repeat apply (lxor_bound 32); (lia || apply G)).
  replace (sha1_next W t) with (rotl 32 1 (Z.lxor (Z.lxor (Z.lxor (zget W (t - 3)) (zget W (t - 8))) (zget W (t - 14))) (zget W (t - 16))))
    by (unfold sha1_next; by rewrite ROTL_rotl).
  rewrite <- IH; [f_equal; rewrite length_app; cbn [length]; lia|].
  apply Forall_app. split; [done|]. apply Forall_singleton. unfold is_u32, rotl. apply ROTR_range; [lia|exact Hx].
Qed.
Definition quint_words (s : quint) : Prop :=
  let '(a, b, c, d, e) := s in is_u32 a /\ is_u32 b /\ is_u32 c /\ is_u32 d /\ is_u32 e.
Lemma sha1_constant t : 0 <= t < 80 ->
  (if t <? 20 then K1 else if t <? 40 then K2 else if t <? 60 then K3 else K4) = sha1_K t.
Proof.
  intros Ht. unfold sha1_K. destruct (t <? 20); [vm_compute; reflexivity|].
  destruct (t <? 40); [vm_compute; reflexivity|]. destruct (t <? 60); vm_compute; reflexivity.
Qed.
Lemma sha1_update_agree W s t : quint_words s -> 0 <= t < 80 ->
  sha1_step W t s = sha1_update W s t /\ quint_words (sha1_update W s t).
Proof.
  destruct s as [[[[a b] c] d] e]. intros (Ha & Hb & Hc & Hd & He) Ht. unfold sha1_step, sha1_update.
  rewrite sha1_constant, !ROTL_rotl by (done || lia). split.
  - unfold sha1_f. repeat case_match; reflexivity.
  - assert (is_u32 (rotl 32 30 b)) by (apply ROTR_range; [lia|exact Hb]). pose proof (fun x => wrap_word 32 ltac:(lia) x) as Hwrap.
    unfold quint_words. split; [apply Hwrap|]. auto.
Qed.
Lemma sha1_std block H : zlen block = 64 -> Forall is_u8 block -> Forall is_u32 H ->
  br_sha1_round block H = sha1_compress block H.
Proof.
  intros L B HH. rewrite sha1_round_fips. unfold fips_sha1, sha1_compress, br_range_dec32be.
  rewrite (block_words_dec 4 be_number) by (done || exact be_number32). change (Z.of_nat 16) with 16.
  pose proof (zlen_block_words be_number 4 16 block ltac:(lia)) as Lw. rewrite <- Lw at 1.
  rewrite sha1_schedule_agree by (by apply (be_words_range 4 16)).
  set (W := sha1_schedule _ _). rewrite for_by_fold. change (Z.of_nat 80) with 80.
  rewrite (fold_left_agree quint_words (fun s t => sha1_step W t s) (sha1_update W)).
  - by destruct (fold_left _ _ _) as [[[[a b] c] d] e].
  - pose proof (fun i => Forall_zget is_u32 H i HH ltac:(unfold is_u32; lia)). unfold quint_words. auto.
  - intros s t Ht Hs. apply elem_of_seqZ in Ht. apply sha1_update_agree; [done|lia].
Qed.

(** ** MD5 *)

Lemma md5_constants : map md5_T (seqZ 0 64) = md5_K.
Proof. vm_compute. reflexivity. Qed.
Lemma md5_shifts t : 0 <= t < 64 -> 0 < rfc1321_shift t < 32.
Proof.
  intros Ht. assert (forallb (fun t => (0 <? rfc1321_shift t) && (rfc1321_shift t <? 32)) (seqZ 0 64) = true) as H by (vm_compute; reflexivity).
  rewrite forallb_seqZ in H. specialize (H t ltac:(lia)). cbv beta in H. lia.
Qed.
Lemma md5_std block H : zlen block = 64 -> Forall is_u8 block -> br_md5_round block H = md5_compress block H.
Proof.
  intros L B. rewrite md5_round_rfc. unfold rfc1321_md5, md5_compress, br_range_dec32le.
  rewrite (block_words_dec 4 le_number) by (done || exact le_number32). set (X := block_words _ _ _ _).
  rewrite for_by_fold. change (Z.of_nat 64) with 64.
  rewrite (fold_left_agree (fun _ => True) (fun s t => md5_step X t s) (md5_update X)).
  - by destruct (fold_left _ _ _) as [[[a b] c] d].
  - done.
  - intros [[[a b] c] d] t Ht _. split; [|done]. apply elem_of_seqZ in Ht. unfold md5_step, md5_update.
    rewrite <- md5_constants, zget_map by lia. rewrite ROTL_rotl by (apply md5_shifts || apply u32_range; lia). reflexivity.
Qed.

(** ** The property *)

(** C23: on blocks of bytes the compression functions, with their macros, their unrolled
    rounds and their tables, are those of RFC 1321 and FIPS 180-4: the schedules, the
    rounds, the circular shifts and the constants of the standards, which are computed
    here from their definitions (bits of the sine, of square and of cube roots); and the
    initial values are those of the standards. *)
Theorem compressions_are_standard block H : Forall is_u8 block ->
  (zlen block = 64 -> Forall is_u32 H ->
     br_md5_round block H = md5_compress block H /\ br_sha1_round block H = sha1_compress block H /\
     br_sha2small_round block H = sha2_compress 32 sigmas256 64 block H) /\
  (zlen block = 128 -> Forall (fun x => 0 <= x < 2 ^ 64) H -> sha2big_round block H = sha2_compress 64 sigmas512 80 block H) /\
  br_md5_IV = block_words le_number 4 4 counting /\ br_sha1_IV = block_words le_number 4 5 counting /\
  br_sha224_IV = map u32 (sha2_initial 64 8) /\ br_sha256_IV = sha2_initial 32 0 /\
  IV384 = sha2_initial 64 8 /\ IV512 = sha2_initial 64 0.
Proof.
  intros B. split; [auto using md5_std, sha1_std, sha2small_std|]. split; [auto using sha2big_std|].
  repeat split; vm_compute; reflexivity.
Qed.

(** The block of the empty message, from the initial value of SHA-256. *)
Lemma compressions_are_standard_witness :
  br_sha2small_round (128 :: zeros 63) br_sha256_IV = sha2_compress 32 sigmas256 64 (128 :: zeros 63) br_sha256_IV.
Proof.
  assert (Forall is_u8 (128 :: zeros 63)) as B by (by apply bytes_dec).
  assert (Forall is_u32 br_sha256_IV) as HI by (unfold br_sha256_IV, is_u32; repeat constructor; lia).
  exact (proj2 (proj2 (proj1 (compressions_are_standard (128 :: zeros 63) br_sha256_IV B) eq_refl HI))).
Defined.
