(* ===== verification/ChaCha20.v ===== *)
(** * ChaCha20: symcipher/chacha20_ct.c, and its equivalence with RFC 8439

    The state of 16 words is a list updated by index, as in the code; the
    reference works on the four rows of the 4x4 matrix and obtains the diagonal
    round by rotating the rows.  A stream cipher is used through the interface
    [StreamCipher], which is what AEAD and record protection rely on. *)
From S2P Require Import Prelude.
From S2P Require Import Words.
From S2P Require Import HashRounds.

(** [br_chacha20_run]: key, IV, block counter and data; the new counter and the
    data after the call. *)
Definition br_chacha20_run : Type := list Z -> list Z -> Z -> list Z -> Z * list Z.

(** ** The code *)

Definition CW : list Z := [0x61707865; 0x3320646e; 0x79622d32; 0x6b206574].

Definition QROUND (a b c d : nat) (state : list Z) : list Z :=
  let state := <[a := add32 (state !!! a) (state !!! b)]> state in
  let state := <[d := Z.lxor (state !!! d) (state !!! a)]> state in
  let state := <[d := ROTL (state !!! d) 16]> state in
  let state := <[c := add32 (state !!! c) (state !!! d)]> state in
  let state := <[b := Z.lxor (state !!! b) (state !!! c)]> state in
  let state := <[b := ROTL (state !!! b) 12]> state in
  let state := <[a := add32 (state !!! a) (state !!! b)]> state in
  let state := <[d := Z.lxor (state !!! d) (state !!! a)]> state in
  let state := <[d := ROTL (state !!! d) 8]> state in
  let state := <[c := add32 (state !!! c) (state !!! d)]> state in
  let state := <[b := Z.lxor (state !!! b) (state !!! c)]> state in
  <[b := ROTL (state !!! b) 7]> state.

(** The body of the loop [for (i = 0; i < 10; i ++)], and the loop. *)
Definition chacha20_round (state : list Z) : list Z :=
  let state := QROUND 0 4 8 12 state in
  let state := QROUND 1 5 9 13 state in
  let state := QROUND 2 6 10 14 state in
  let state := QROUND 3 7 11 15 state in
  let state := QROUND 0 5 10 15 state in
  let state := QROUND 1 6 11 12 state in
  let state := QROUND 2 7 8 13 state in
  QROUND 3 4 9 14 state.
Definition chacha20_rounds (state : list Z) : list Z := for_by 10 0 1 (fun _ => chacha20_round) state.

(** The contents of [tmp] for one block. *)
Definition chacha20_tmp (kw ivw : list Z) (cc : Z) : list Z :=
  let state := chacha20_rounds (CW ++ kw ++ [cc] ++ ivw) in
  br_range_enc32le (zip_with add32 state (CW ++ kw ++ [cc] ++ ivw)).

(** [while (len > 0)].  Each round takes at least one byte, so that the length
    of the data is enough fuel; without fuel the rest would be left as it is. *)
Fixpoint chacha20_loop (fuel : nat) (kw ivw : list Z) (cc : Z) (buf : list Z) : Z * list Z :=
  match fuel with
  | O => (cc, buf)
  | S fuel =>
      let len := zlen buf in
      if len <=? 0 then (cc, buf)
      else
        let tmp := chacha20_tmp kw ivw cc in
        let clen := if len <? 64 then len else 64 in
        let out := zxor (ztake clen buf) tmp in
        let '(cc, rest) := chacha20_loop fuel kw ivw (u32 (cc + 1)) (zdrop clen buf) in
        (cc, out ++ rest)
  end.

Definition br_chacha20_ct_run : br_chacha20_run := fun key iv cc data =>
  let kw := br_range_dec32le 8 key in
  let ivw := br_range_dec32le 3 iv in
  chacha20_loop (length data) kw ivw cc data.

(** ** RFC 8439, 2.1 to 2.4 *)

Definition quad : Type := Z * Z * Z * Z.

Definition quarter (q : quad) : quad :=
  let '(a, b, c, d) := q in
  let a := add32 a b in let d := ROTL (Z.lxor d a) 16 in
  let c := add32 c d in let b := ROTL (Z.lxor b c) 12 in
  let a := add32 a b in let d := ROTL (Z.lxor d a) 8 in
  let c := add32 c d in let b := ROTL (Z.lxor b c) 7 in
  (a, b, c, d).

(** A matrix is its four rows. *)
Definition matrix : Type := quad * quad * quad * quad.
Definition transpose (m : matrix) : matrix :=
  let '((a0, a1, a2, a3), (b0, b1, b2, b3), (c0, c1, c2, c3), (d0, d1, d2, d3)) := m in
  ((a0, b0, c0, d0), (a1, b1, c1, d1), (a2, b2, c2, d2), (a3, b3, c3, d3)).
Definition rot1 (q : quad) : quad := let '(a, b, c, d) := q in (b, c, d, a).
(** The diagonals become the columns, and back. *)
Definition shift_rows (m : matrix) : matrix :=
  let '(a, b, c, d) := m in (a, rot1 b, rot1 (rot1 c), rot1 (rot1 (rot1 d))).
Definition unshift_rows (m : matrix) : matrix :=
  let '(a, b, c, d) := m in (a, rot1 (rot1 (rot1 b)), rot1 (rot1 c), rot1 d).
Definition column_round (m : matrix) : matrix :=
  let '(a, b, c, d) := transpose m in transpose (quarter a, quarter b, quarter c, quarter d).
Definition double_round (m : matrix) : matrix :=
  unshift_rows (column_round (shift_rows (column_round m))).

Definition quad_list (q : quad) : list Z := let '(a, b, c, d) := q in [a; b; c; d].
Definition words (m : matrix) : list Z :=
  let '(a, b, c, d) := m in quad_list a ++ quad_list b ++ quad_list c ++ quad_list d.
Definition quad_at (l : list Z) (i : nat) : quad := (l !!! i, l !!! (i + 1)%nat, l !!! (i + 2)%nat, l !!! (i + 3)%nat).
Definition rows (l : list Z) : matrix := (quad_at l 0, quad_at l 4, quad_at l 8, quad_at l 12).

(** The key stream block of a counter, and the stream from a counter on. *)
Definition chacha20_block (key nonce : list Z) (counter : Z) : list Z :=
  let init := CW ++ br_range_dec32le 8 key ++ [counter] ++ br_range_dec32le 3 nonce in
  br_range_enc32le (zip_with add32 (words (Nat.iter 10 double_round (rows init))) init).

Fixpoint chacha20_stream (key nonce : list Z) (counter : Z) (blocks : nat) : list Z :=
  match blocks with
  | O => []
  | S n => chacha20_block key nonce counter ++ chacha20_stream key nonce (u32 (counter + 1)) n
  end.

(** ** The code computes it *)

Lemma rows_words m : rows (words m) = m.
Proof. by destruct m as [[[[[[? ?] ?] ?] [[[? ?] ?] ?]] [[[? ?] ?] ?]] [[[? ?] ?] ?]]. Qed.
Lemma words_rows l : length l = 16%nat -> words (rows l) = l.
Proof. intros H. do 17 (destruct l; try done). Qed.

Lemma double_round_code l : length l = 16%nat ->
  chacha20_round l = words (double_round (rows l)).
Proof. intros H. do 17 (destruct l; try done). Qed.
Lemma length_words m : length (words m) = 16%nat.
Proof. by destruct m as [[[[[[? ?] ?] ?] [[[? ?] ?] ?]] [[[? ?] ?] ?]] [[[? ?] ?] ?]]. Qed.

(** A loop on lists is an iteration on matrices when one round corresponds. *)
Lemma iter_rounds (f : list Z -> list Z) (g : matrix -> matrix) :
  (forall l, length l = 16%nat -> f l = words (g (rows l))) ->
  forall n i l, length l = 16%nat -> for_by n i 1 (fun _ => f) l = words (Nat.iter n g (rows l)).
Proof.
  intros Hf. induction n as [|n IH]; intros i l H; [symmetry; by apply words_rows|].
  cbn [for_by]. rewrite Hf, IH by (done || apply length_words). by rewrite rows_words, Nat.iter_succ_r.
Qed.
Lemma chacha20_rounds_iter l : length l = 16%nat ->
  chacha20_rounds l = words (Nat.iter 10 double_round (rows l)).
Proof. exact (iter_rounds chacha20_round double_round double_round_code 10 0 l). Qed.

Lemma length_range_dec32le n b : length (br_range_dec32le n b) = n.
Proof. unfold br_range_dec32le. revert b. induction n as [|n IH]; intros b; cbn; [done|by rewrite IH]. Qed.
Lemma zlen_range_enc32le v : zlen (br_range_enc32le v) = 4 * zlen v.
Proof. unfold br_range_enc32le. induction v as [|x v IH]; [done|]. cbn [range_enc]. rewrite zlen_app, IH. cbn. lia. Qed.
Lemma range_enc32le_bytes v : Forall is_u8 (br_range_enc32le v).
Proof.
  unfold br_range_enc32le. induction v as [|x v IH]; [constructor|]. cbn [range_enc].
  apply Forall_app. split; [|done]. repeat constructor; apply is_u8_u8.
Qed.

Section stream.
Context (key iv : list Z).
Notation kw := (br_range_dec32le 8 key).
Notation ivw := (br_range_dec32le 3 iv).

Lemma tmp_block cc : chacha20_tmp kw ivw cc = chacha20_block key iv cc.
Proof.
  unfold chacha20_tmp, chacha20_block. rewrite chacha20_rounds_iter; [done|].
  by rewrite !length_app, !length_range_dec32le.
Qed.
Lemma zlen_block cc : zlen (chacha20_block key iv cc) = 64.
Proof.
  unfold chacha20_block. rewrite zlen_range_enc32le, length_zip_with, length_words.
  by rewrite !length_app, !length_range_dec32le.
Qed.
Lemma block_bytes cc : Forall is_u8 (chacha20_block key iv cc).
Proof. apply range_enc32le_bytes. Qed.
#[local] Opaque chacha20_block.
Lemma zlen_stream n : forall cc, zlen (chacha20_stream key iv cc n) = 64 * Z.of_nat n.
Proof. induction n as [|n IH]; intros cc; [done|]. cbn [chacha20_stream]. rewrite zlen_app, zlen_block, IH. lia. Qed.
Lemma stream_bytes n : forall cc, Forall is_u8 (chacha20_stream key iv cc n).
Proof.
  induction n as [|n IH]; intros cc; [constructor|]. cbn [chacha20_stream].
  apply Forall_app. split; [apply block_bytes|apply IH].
Qed.

(** The number of blocks that [n] bytes take. *)
Definition nblocks (n : Z) : Z := (n + 63) / 64.
Lemma nblocks_step n : 64 <= n -> nblocks n = 1 + nblocks (n - 64).
Proof. intros. unfold nblocks. replace (n + 63) with (n - 64 + 63 + 1 * 64) by lia. rewrite Z.div_add; lia. Qed.
Lemma nblocks_last n : 0 < n <= 64 -> nblocks n = 1.
Proof. intros. symmetry. unfold nblocks. apply (Z.div_unique _ _ _ (n - 1)); lia. Qed.
Lemma nblocks_bound n : 0 <= n -> 0 <= nblocks n /\ n <= 64 * nblocks n.
Proof. unfold nblocks. intros. pose proof (Z.div_mod (n + 63) 64). pose proof (Z.mod_pos_bound (n + 63) 64). lia. Qed.

Lemma empty_data cc : is_u32 cc ->
  (cc, []) = (u32 (cc + nblocks (zlen (@nil Z))),
              zxor [] (chacha20_stream key iv cc (Z.to_nat (nblocks (zlen (@nil Z)))))).
Proof. intros. change (nblocks (zlen (@nil Z))) with 0. by rewrite Z.add_0_r, u32_small. Qed.

Lemma chacha20_loop_spec : forall fuel cc buf, (length buf <= fuel)%nat -> is_u32 cc ->
  chacha20_loop fuel kw ivw cc buf =
    (u32 (cc + nblocks (zlen buf)), zxor buf (chacha20_stream key iv cc (Z.to_nat (nblocks (zlen buf))))).
Proof.
  induction fuel as [|fuel IH]; intros cc buf Hf Hcc; cbn [chacha20_loop].
  { destruct buf; [by apply empty_data|cbn in *; lia]. }
  destruct (Z.leb_spec (zlen buf) 0) as [H0|H0].
  { destruct buf; [by apply empty_data|cbn in *; lia]. }
  rewrite tmp_block.
  destruct (Z.ltb_spec (zlen buf) 64) as [Hs|Hl].
  - rewrite zdrop_ge, ztake_ge by lia. rewrite IH by (apply u32_range || (cbn; lia)).
    rewrite (nblocks_last (zlen buf)) by lia. change (nblocks (zlen [])) with 0.
    change (zxor [] _) with (@nil Z). change (Z.to_nat 1) with 1%nat. cbn [chacha20_stream].
    rewrite !app_nil_r, Z.add_0_r. f_equal. apply u32_small, u32_range.
  - rewrite IH by (apply u32_range || (pose proof (zlen_zdrop 64 buf); lia)). rewrite zlen_zdrop by lia.
    rewrite (nblocks_step (zlen buf)) by lia. pose proof (nblocks_bound (zlen buf - 64)).
    f_equal; [unfold u32; rewrite Z.add_mod_idemp_l by lia; f_equal; lia|].
    rewrite Z2Nat.inj_add by lia. change (Z.to_nat 1 + ?n)%nat with (S n). cbn [chacha20_stream].
    rewrite <- zxor_app by (rewrite zlen_ztake, zlen_block; lia). by rewrite ztake_zdrop.
Qed.

Lemma ct_run_stream cc data : is_u32 cc ->
  br_chacha20_ct_run key iv cc data =
    (u32 (cc + nblocks (zlen data)),
     zxor data (chacha20_stream key iv cc (Z.to_nat (nblocks (zlen data))))).
Proof. intros. by apply chacha20_loop_spec. Qed.
End stream.

(** C38: the constant-time implementation is the ChaCha20 of RFC 8439, for every
    length and every counter: the data is masked with the key stream of the
    block counters from [cc] on, whose 4x4 matrix is transformed by ten double
    rounds, a partial last block included; the value returned is the next
    counter, modulo 2^32. *)
Theorem chacha20_rfc8439 key iv cc data : is_u32 cc ->
  br_chacha20_ct_run key iv cc data =
    (u32 (cc + nblocks (zlen data)),
     zxor data (chacha20_stream key iv cc (Z.to_nat (nblocks (zlen data))))).
Proof. apply ct_run_stream. Qed.

(** ** The interface of a stream cipher *)

Class StreamCipher (run : br_chacha20_run) := {
  keystream : list Z -> list Z -> Z -> Z -> list Z;
  keystream_len : forall k iv cc n, 0 <= n -> n <= zlen (keystream k iv cc n);
  keystream_bytes : forall k iv cc n, Forall is_u8 (keystream k iv cc n);
  run_xor : forall k iv cc data, is_u32 cc -> (run k iv cc data).2 = zxor data (keystream k iv cc (zlen data)) }.

#[export] Program Instance chacha20_cipher : StreamCipher br_chacha20_ct_run := {
  keystream := fun k iv cc n => chacha20_stream k iv cc (Z.to_nat (nblocks n)) }.
Next Obligation. intros. cbn. rewrite zlen_stream. pose proof (nblocks_bound n). lia. Qed.
Next Obligation. intros. apply stream_bytes. Qed.
Next Obligation. intros k iv cc data Hcc. by rewrite ct_run_stream. Qed.

(** RFC 8439, 2.4.2: the first bytes of the example. *)
Lemma chacha20_rfc8439_witness :
  is_u32 1 /\
  let data := [0x4c; 0x61; 0x64; 0x69; 0x65; 0x73; 0x20; 0x61] in
  br_chacha20_ct_run (map Z.of_nat (seq 0 32)) [0; 0; 0; 0; 0; 0; 0; 0x4a; 0; 0; 0; 0] 1 data =
    (2, [0x6e; 0x2e; 0x35; 0x9a; 0x25; 0x68; 0xf9; 0x80]).
Proof.
  split; [by split|]. cbv zeta. etransitivity; [apply chacha20_rfc8439; by split|]. vm_compute. reflexivity.
Defined.
