(* ===== verification/Poly1305.v ===== *)
(** * Poly1305: symcipher/poly1305_ctmul.c, and what it computes of RFC 8439

    The accumulator is five words of 26 bits.  The blocks, the multiplication and
    the partial reduction are those of RFC 8439; the last carry propagation folds
    the carry out of the top word with weight 1 where 2^130 = 5 asks for 5, so that
    the tag is the standard's for every message whose polynomial does not evaluate
    below 2^33 and differs from it for some of the others. *)
From S2P Require Import Prelude.
From S2P Require Import Words.
From S2P Require Import HashRounds.
From S2P Require Import ChaCha20.

(** ** The code *)

Definition MASK26 : Z := 0x03FFFFFF.

(** The body of the loop of [poly1305_inner], on a block of 16 bytes. *)
Definition poly1305_block (r acc buf : list Z) : list Z :=
  let r0 := r !!! 0%nat in let r1 := r !!! 1%nat in let r2 := r !!! 2%nat in
  let r3 := r !!! 3%nat in let r4 := r !!! 4%nat in
  let u1 := u32 (r1 * 5) in let u2 := u32 (r2 * 5) in
  let u3 := u32 (r3 * 5) in let u4 := u32 (r4 * 5) in
  let a0 := add32 (acc !!! 0%nat) (Z.land (br_dec32le buf) MASK26) in
  let a1 := add32 (acc !!! 1%nat) (Z.land (Z.shiftr (br_dec32le (zdrop 3 buf)) 2) MASK26) in
  let a2 := add32 (acc !!! 2%nat) (Z.land (Z.shiftr (br_dec32le (zdrop 6 buf)) 4) MASK26) in
  let a3 := add32 (acc !!! 3%nat) (Z.land (Z.shiftr (br_dec32le (zdrop 9 buf)) 6) MASK26) in
  let a4 := add32 (acc !!! 4%nat) (Z.lor (Z.shiftr (br_dec32le (zdrop 12 buf)) 8) 0x01000000) in
  let w0 := u64 (a0 * r0 + a1 * u4 + a2 * u3 + a3 * u2 + a4 * u1) in
  let w1 := u64 (a0 * r1 + a1 * r0 + a2 * u4 + a3 * u3 + a4 * u2) in
  let w2 := u64 (a0 * r2 + a1 * r1 + a2 * r0 + a3 * u4 + a4 * u3) in
  let w3 := u64 (a0 * r3 + a1 * r2 + a2 * r1 + a3 * r0 + a4 * u4) in
  let w4 := u64 (a0 * r4 + a1 * r3 + a2 * r2 + a3 * r1 + a4 * r0) in
  let c := Z.shiftr w0 26 in let a0 := Z.land (u32 w0) MASK26 in
  let w1 := u64 (w1 + c) in
  let c := Z.shiftr w1 26 in let a1 := Z.land (u32 w1) MASK26 in
  let w2 := u64 (w2 + c) in
  let c := Z.shiftr w2 26 in let a2 := Z.land (u32 w2) MASK26 in
  let w3 := u64 (w3 + c) in
  let c := Z.shiftr w3 26 in let a3 := Z.land (u32 w3) MASK26 in
  let w4 := u64 (w4 + c) in
  let c := Z.shiftr w4 26 in let a4 := Z.land (u32 w4) MASK26 in
  let a0 := add32 a0 (u32 (u32 c * 5)) in
  let a1 := add32 a1 (Z.shiftr a0 26) in
  let a0 := Z.land a0 MASK26 in
  [a0; a1; a2; a3; a4].

(** [while (len > 0)]; a partial block is padded with zeros.  The length of the
    data is enough fuel, as each round takes at least one byte. *)
Fixpoint poly1305_loop (fuel : nat) (r acc data : list Z) : list Z :=
  match fuel with
  | O => acc
  | S fuel =>
      let len := zlen data in
      if len <=? 0 then acc
      else
        let buf := if len <? 16 then data ++ zeros (16 - len) else data in
        poly1305_loop fuel r (poly1305_block r acc buf) (zdrop 16 data)
  end.
Definition poly1305_inner (acc r data : list Z) : list Z := poly1305_loop (length data) r acc data.

(** The [r] value in words of 26 bits, clamped. *)
Definition poly1305_r (pkey : list Z) : list Z :=
  [Z.land (br_dec32le pkey) 0x03FFFFFF;
   Z.land (Z.shiftr (br_dec32le (zdrop 3 pkey)) 2) 0x03FFFF03;
   Z.land (Z.shiftr (br_dec32le (zdrop 6 pkey)) 4) 0x03FFC0FF;
   Z.land (Z.shiftr (br_dec32le (zdrop 9 pkey)) 6) 0x03F03FFF;
   Z.land (Z.shiftr (br_dec32le (zdrop 12 pkey)) 8) 0x000FFFFF].

(** [for (i = 1; i <= 6; i ++)]: one carry into word [j]. *)
Definition poly1305_carry (s : list Z * Z) (j : nat) : list Z * Z :=
  let '(acc, cc) := s in
  let t := add32 (acc !!! j) cc in
  (<[j := Z.land t MASK26]> acc, Z.shiftr t 26).

(** [for (i = 0; i < 5; i ++)]: word [i] of [acc] or of [acc - p]. *)
Definition poly1305_select (ctl : Z) (s : list Z * Z) (i : nat) : list Z * Z :=
  let '(acc, cc) := s in
  let t := add32 (acc !!! i) cc in
  (<[i := MUX ctl (Z.land t MASK26) (acc !!! i)]> acc, Z.shiftr t 26).

Definition poly1305_finish (acc pkey : list Z) : list Z :=
  let '(acc, _) := fold_left poly1305_carry [1; 2; 3; 4; 0; 1]%nat (acc, 0) in
  let ctl := GT (acc !!! 0%nat) 0x03FFFFFA in
  let ctl := fold_left (fun ctl i => Z.land ctl (EQ (acc !!! i) 0x03FFFFFF)) [1; 2; 3; 4]%nat ctl in
  let '(acc, _) := fold_left (poly1305_select ctl) [0; 1; 2; 3; 4]%nat (acc, 5) in
  let w := u64 (acc !!! 0%nat + Z.shiftl (acc !!! 1%nat) 26 + br_dec32le (zdrop 16 pkey)) in
  let t0 := br_enc32le (u32 w) in
  let w := u64 (Z.shiftr w 32 + Z.shiftl (acc !!! 2%nat) 20 + br_dec32le (zdrop 20 pkey)) in
  let t1 := br_enc32le (u32 w) in
  let w := u64 (Z.shiftr w 32 + Z.shiftl (acc !!! 3%nat) 14 + br_dec32le (zdrop 24 pkey)) in
  let t2 := br_enc32le (u32 w) in
  let hi := u32 (u32 (Z.shiftr w 32) + u32 (Z.shiftl (acc !!! 4%nat) 8) + br_dec32le (zdrop 28 pkey)) in
  t0 ++ t1 ++ t2 ++ br_enc32le hi.

(** [br_poly1305_run]: key, IV, data, additional data, cipher, direction; the
    data after the call and the tag. *)
Definition br_poly1305_run : Type :=
  list Z -> list Z -> list Z -> list Z -> br_chacha20_run -> bool -> list Z * list Z.

Definition br_poly1305_ctmul_run : br_poly1305_run := fun key iv data aad ichacha encrypt =>
  let pkey := (ichacha key iv 0 (zeros 32)).2 in
  let data := if encrypt then (ichacha key iv 1 data).2 else data in
  let r := poly1305_r pkey in
  let acc := zeros 5 in
  let foot := br_enc64le (u64 (zlen aad)) ++ br_enc64le (u64 (zlen data)) in
  let acc := poly1305_inner acc r aad in
  let acc := poly1305_inner acc r data in
  let acc := poly1305_inner acc r foot in
  let tag := poly1305_finish acc pkey in
  let data := if encrypt then data else (ichacha key iv 1 data).2 in
  (data, tag).

(** ** RFC 8439, 2.5 and 2.8 *)

Definition P1305 : Z := 2 ^ 130 - 5.

Fixpoint le_num (l : list Z) : Z := match l with [] => 0 | x :: l => x + 2 ^ 8 * le_num l end.
Fixpoint le_bytes (n : nat) (x : Z) : list Z :=
  match n with O => [] | S n => x mod 2 ^ 8 :: le_bytes n (x / 2 ^ 8) end.

(** [n] blocks of 16 bytes, each with a byte 1 after it. *)
Fixpoint poly1305_eval (n : nat) (r h : Z) (m : list Z) : Z :=
  match n with
  | O => h
  | S n => poly1305_eval n r (((h + le_num (ztake 16 m ++ [1])) * r) mod P1305) (zdrop 16 m)
  end.
Definition blocks16 (m : list Z) : nat := Z.to_nat ((zlen m + 15) / 16).
Definition clamp (r : Z) : Z := Z.land r 0x0ffffffc0ffffffc0ffffffc0fffffff.
(** The value of the polynomial, before the second half of the key is added. *)
Definition poly1305_hash (key m : list Z) : Z := poly1305_eval (blocks16 m) (clamp (le_num (ztake 16 key))) 0 m.
Definition poly1305_mac (key m : list Z) : list Z :=
  le_bytes 16 (poly1305_hash key m + le_num (zslice key 16 16)).

Definition pad16 (m : list Z) : list Z := zeros ((- zlen m) mod 16).
Definition mac_data (aad data : list Z) : list Z :=
  aad ++ pad16 aad ++ data ++ pad16 data ++ le_bytes 8 (zlen aad) ++ le_bytes 8 (zlen data).

(** ** Numbers in bytes *)

Lemma le_num_app l m : le_num (l ++ m) = le_num l + 2 ^ (8 * zlen l) * le_num m.
Proof.
  induction l as [|x l IH]; [cbn; lia|]. cbn [app le_num length]. rewrite IH.
  replace (8 * Z.of_nat (S (length l))) with (8 + 8 * zlen l) by lia.
  rewrite Z.pow_add_r by lia. lia.
Qed.
Lemma le_num_bound l : Forall is_u8 l -> 0 <= le_num l < 2 ^ (8 * zlen l).
Proof.
  induction 1 as [|x l Hx Hl IH]; [done|]. cbn [le_num length].
  replace (8 * Z.of_nat (S (length l))) with (8 + 8 * zlen l) by lia.
  rewrite Z.pow_add_r by lia. unfold is_u8 in Hx. nia.
Qed.
Lemma le_num_zeros l n : le_num (l ++ zeros n) = le_num l.
Proof.
  rewrite le_num_app. assert (le_num (zeros n) = 0) as ->; [|lia].
  unfold zeros. induction (Z.to_nat n) as [|k IH]; [done|]. cbn [replicate le_num]. lia.
Qed.
Lemma le_num_zdrop k l : Forall is_u8 l -> 0 <= k <= zlen l -> le_num (zdrop k l) = le_num l / 2 ^ (8 * k).
Proof.
  intros Hl Hk. rewrite <- (ztake_zdrop k l) at 2. rewrite le_num_app, zlen_ztake by lia.
  pose proof (le_num_bound (ztake k l) (Forall_ztake _ _ _ Hl)) as B. rewrite zlen_ztake in B by lia.
  rewrite Z.mul_comm, Z.div_add, Z.div_small by lia. lia.
Qed.
Lemma dec32le_num m : Forall is_u8 m -> 4 <= zlen m -> br_dec32le m = le_num m mod 2 ^ 32.
Proof.
  intros Hm Hl. do 4 (destruct m as [|? m]; [done|]).
  repeat match goal with H : Forall _ (_ :: _) |- _ => inversion_clear H end.
  rewrite dec32le_sum by done. cbn [le_num]. unfold is_u8 in *.
  apply (Z.mod_unique _ _ (le_num m)); lia.
Qed.
Lemma dec32le_at k l : Forall is_u8 l -> 0 <= k -> k + 4 <= zlen l ->
  br_dec32le (zdrop k l) = (le_num l / 2 ^ (8 * k)) mod 2 ^ 32.
Proof.
  intros Hl Hk Hn. rewrite dec32le_num; [|by apply Forall_zdrop|rewrite zlen_zdrop; lia].
  by rewrite le_num_zdrop by (done || lia).
Qed.
(** A field of at most 32 - s bits of a number, read from four bytes. *)
Lemma field_at x k s m : 0 <= k -> 0 <= s < 32 -> 0 <= m < 2 ^ (32 - s) ->
  Z.land (Z.shiftr ((x / 2 ^ k) mod 2 ^ 32) s) m = Z.land (Z.shiftr x (k + s)) m.
Proof.
  intros Hk Hs Hm. apply Z.bits_inj'. intros i Hi. rewrite !Z.land_spec, !Z.shiftr_spec by lia.
  destruct (Z.lt_ge_cases i (32 - s)).
  - rewrite Z.mod_pow2_bits_low, Z.div_pow2_bits by lia. do 2 f_equal. lia.
  - by rewrite (bound_bits (32 - s) m i), !andb_false_r by lia.
Qed.
Lemma land_split k x m M : 0 <= k -> 0 <= x -> 0 <= m < 2 ^ k ->
  Z.land x (m + 2 ^ k * M) = Z.land x m + 2 ^ k * Z.land (Z.shiftr x k) M.
Proof.
  intros Hk Hx Hm.
  assert (0 <= Z.land x m < 2 ^ k) as Hxm by (rewrite Z.land_comm; by apply land_bound).
  rewrite (Z.add_comm m), (Z.mul_comm (2 ^ k) M), <- lor_add by lia.
  rewrite (Z.add_comm (Z.land x m)), (Z.mul_comm (2 ^ k)), <- lor_add by lia.
  rewrite Z.land_lor_distr_r, (Z.lor_comm _ (Z.land x m)), Z.lor_comm. f_equal.
  apply Z.bits_inj'. intros i Hi. rewrite Z.land_spec. destruct (Z.lt_ge_cases i k).
  - by rewrite !Z.mul_pow2_bits_low, andb_false_r by lia.
  - rewrite !Z.mul_pow2_bits, Z.land_spec, Z.shiftr_spec by lia. by rewrite Z.sub_add.
Qed.

(** ** The multiplication step *)

Definition limbs (l : list Z) : Z :=
  l !!! 0%nat + 2 ^ 26 * (l !!! 1%nat) + 2 ^ 52 * (l !!! 2%nat) + 2 ^ 78 * (l !!! 3%nat) + 2 ^ 104 * (l !!! 4%nat).

(** Between blocks all words have 26 bits, except the second which may exceed them a little. *)
Definition acc_ok (l : list Z) : Prop :=
  length l = 5%nat /\ 0 <= l !!! 0%nat < 2 ^ 26 /\ 0 <= l !!! 1%nat < 2 ^ 26 + 64 /\
  0 <= l !!! 2%nat < 2 ^ 26 /\ 0 <= l !!! 3%nat < 2 ^ 26 /\ 0 <= l !!! 4%nat < 2 ^ 26.
Definition r_ok (l : list Z) : Prop :=
  length l = 5%nat /\ 0 <= l !!! 0%nat < 2 ^ 26 /\ 0 <= l !!! 1%nat < 2 ^ 26 /\
  0 <= l !!! 2%nat < 2 ^ 26 /\ 0 <= l !!! 3%nat < 2 ^ 26 /\ 0 <= l !!! 4%nat < 2 ^ 20.

Lemma land_mask26 x : Z.land x MASK26 = x mod 2 ^ 26.
Proof. exact (Z.land_ones x 26 ltac:(lia)). Qed.
Lemma land_u32_mask26 x : Z.land (u32 x) MASK26 = x mod 2 ^ 26.
Proof. rewrite land_mask26. unfold u32. symmetry. apply Znumtheory.Zmod_div_mod; [lia|lia|by exists (2 ^ 6)]. Qed.

Lemma mul_bound x y X Y : 0 <= x <= X -> 0 <= y <= Y -> 0 <= x * y <= X * Y.
Proof. intros. nia. Qed.

Lemma div26_bound x B : 0 <= x < 2 ^ 26 * B -> 0 <= x / 2 ^ 26 < B.
Proof. intros. split; [apply Z.div_pos; lia|apply Z.div_lt_upper_bound; lia]. Qed.

Section mul.
Context (a0 a1 a2 a3 a4 r0 r1 r2 r3 r4 : Z).
Context (Ha0 : 0 <= a0 < 2 ^ 27 + 64) (Ha1 : 0 <= a1 < 2 ^ 27 + 64) (Ha2 : 0 <= a2 < 2 ^ 27 + 64)
  (Ha3 : 0 <= a3 < 2 ^ 27 + 64) (Ha4 : 0 <= a4 < 2 ^ 27 + 64).
Context (Hr0 : 0 <= r0 < 2 ^ 26) (Hr1 : 0 <= r1 < 2 ^ 26) (Hr2 : 0 <= r2 < 2 ^ 26)
  (Hr3 : 0 <= r3 < 2 ^ 26) (Hr4 : 0 <= r4 < 2 ^ 20).

Let w0 := a0 * r0 + a1 * (r4 * 5) + a2 * (r3 * 5) + a3 * (r2 * 5) + a4 * (r1 * 5).
Let w1 := a0 * r1 + a1 * r0 + a2 * (r4 * 5) + a3 * (r3 * 5) + a4 * (r2 * 5).
Let w2 := a0 * r2 + a1 * r1 + a2 * r0 + a3 * (r4 * 5) + a4 * (r3 * 5).
Let w3 := a0 * r3 + a1 * r2 + a2 * r1 + a3 * r0 + a4 * (r4 * 5).
Let w4 := a0 * r4 + a1 * r3 + a2 * r2 + a3 * r1 + a4 * r0.

Lemma products_bound :
  0 <= w0 < 2 ^ 59 /\ 0 <= w1 < 2 ^ 59 /\ 0 <= w2 < 2 ^ 58 /\ 0 <= w3 < 2 ^ 55 + 2 ^ 51 /\ 0 <= w4 < 2 ^ 55 + 2 ^ 48.
Proof.
  assert (forall x y, 0 <= x < 2 ^ 27 + 64 -> 0 <= y < 2 ^ 26 -> 0 <= x * y <= (2 ^ 27 + 63) * (2 ^ 26 - 1)) as B
    by (intros; apply mul_bound; lia).
  assert (forall x y, 0 <= x < 2 ^ 27 + 64 -> 0 <= y < 2 ^ 20 -> 0 <= x * y <= (2 ^ 27 + 63) * (2 ^ 20 - 1)) as B'
    by (intros; apply mul_bound; lia).
  subst w0 w1 w2 w3 w4. rewrite !Z.mul_assoc.
  repeat match goal with
  | |- context [?x * ?y] => lazymatch y with
      | r4 => generalize (x * y), (B' x y ltac:(assumption) ltac:(assumption))
      | 5 => fail
      | _ => generalize (x * y), (B x y ltac:(assumption) ltac:(assumption))
      end; intros ? ?
  end.
  clear B B' Ha0 Ha1 Ha2 Ha3 Ha4 Hr0 Hr1 Hr2 Hr3 Hr4. repeat split; lia.
Qed.

(** The carry chain, on the sums [w]. *)
Let v1 := w1 + w0 / 2 ^ 26.
Let v2 := w2 + v1 / 2 ^ 26.
Let v3 := w3 + v2 / 2 ^ 26.
Let v4 := w4 + v3 / 2 ^ 26.
Let t0 := w0 mod 2 ^ 26 + v4 / 2 ^ 26 * 5.

Lemma carries_bound : 0 <= v1 < 2 ^ 60 /\ 0 <= v2 < 2 ^ 59 /\ 0 <= v3 < 2 ^ 56 /\ 0 <= v4 < 2 ^ 55 + 2 ^ 49.
Proof.
  destruct products_bound as (B0 & B1 & B2 & B3 & B4).
  pose proof (div26_bound w0 (2 ^ 33) ltac:(lia)).
  assert (0 <= v1 < 2 ^ 60) as V1 by (subst v1; clearbody w0 w1; lia).
  pose proof (div26_bound v1 (2 ^ 34) ltac:(lia)).
  assert (0 <= v2 < 2 ^ 59) as V2 by (subst v2; clearbody v1 w2; lia).
  pose proof (div26_bound v2 (2 ^ 33) ltac:(lia)).
  assert (0 <= v3 < 2 ^ 56) as V3 by (subst v3; clearbody v2 w3; lia).
  pose proof (div26_bound v3 (2 ^ 30) ltac:(lia)).
  assert (0 <= v4 < 2 ^ 55 + 2 ^ 49) as V4 by (subst v4; clearbody v3 w4; lia). done.
Qed.
Lemma top_carry : 0 <= v4 / 2 ^ 26 * 5 < 2 ^ 32 - 2 ^ 26 /\ 0 <= t0 < 2 ^ 32.
Proof.
  destruct carries_bound as (_ & _ & _ & B). pose proof (div26_bound v4 (2 ^ 29 + 2 ^ 23) ltac:(lia)).
  pose proof (Z.mod_pos_bound w0 (2 ^ 26) ltac:(done)). subst t0. clearbody v4 w0. lia.
Qed.

Lemma mul_limbs :
  limbs [t0 mod 2 ^ 26; v1 mod 2 ^ 26 + t0 / 2 ^ 26; v2 mod 2 ^ 26; v3 mod 2 ^ 26; v4 mod 2 ^ 26] mod P1305 =
  (limbs [a0; a1; a2; a3; a4] * limbs [r0; r1; r2; r3; r4]) mod P1305.
Proof.
  set (k := a1 * r4 + a2 * r3 + a3 * r2 + a4 * r1 + 2 ^ 26 * (a2 * r4 + a3 * r3 + a4 * r2)
            + 2 ^ 52 * (a3 * r4 + a4 * r3) + 2 ^ 78 * (a4 * r4) + v4 / 2 ^ 26).
  rewrite <- (Z.mod_add _ k P1305) by done. f_equal. unfold limbs, P1305. cbn [lookup_total list_lookup_total].
  pose proof (Z.div_mod w0 (2 ^ 26) ltac:(done)). pose proof (Z.div_mod v1 (2 ^ 26) ltac:(done)).
  pose proof (Z.div_mod v2 (2 ^ 26) ltac:(done)). pose proof (Z.div_mod v3 (2 ^ 26) ltac:(done)).
  pose proof (Z.div_mod v4 (2 ^ 26) ltac:(done)). pose proof (Z.div_mod t0 (2 ^ 26) ltac:(done)).
  assert (t0 = w0 mod 2 ^ 26 + v4 / 2 ^ 26 * 5) by done. assert (v1 = w1 + w0 / 2 ^ 26) by done.
  assert (v2 = w2 + v1 / 2 ^ 26) by done. assert (v3 = w3 + v2 / 2 ^ 26) by done.
  assert (v4 = w4 + v3 / 2 ^ 26) by done. subst k. clearbody t0 v1 v2 v3 v4.
  generalize dependent (t0 mod 2 ^ 26). generalize dependent (t0 / 2 ^ 26).
  generalize dependent (v4 mod 2 ^ 26). generalize dependent (v4 / 2 ^ 26).
  generalize dependent (v3 mod 2 ^ 26). generalize dependent (v3 / 2 ^ 26).
  generalize dependent (v2 mod 2 ^ 26). generalize dependent (v2 / 2 ^ 26).
  generalize dependent (v1 mod 2 ^ 26). generalize dependent (v1 / 2 ^ 26).
  generalize dependent (w0 mod 2 ^ 26). generalize dependent (w0 / 2 ^ 26).
  intros. subst w0 w1 w2 w3 w4. clear Ha0 Ha1 Ha2 Ha3 Ha4 Hr0 Hr1 Hr2 Hr3 Hr4. lia.
Qed.
End mul.

(** ** The words of a block and of the key *)

Lemma limbs_split x :
  limbs [x mod 2 ^ 26; (x / 2 ^ 26) mod 2 ^ 26; (x / 2 ^ 52) mod 2 ^ 26; (x / 2 ^ 78) mod 2 ^ 26; x / 2 ^ 104] = x.
Proof.
  unfold limbs. cbn [lookup_total list_lookup_total].
  pose proof (Z.div_mod x (2 ^ 26) ltac:(done)). pose proof (Z.div_mod (x / 2 ^ 26) (2 ^ 26) ltac:(done)) as H1.
  pose proof (Z.div_mod (x / 2 ^ 52) (2 ^ 26) ltac:(done)) as H2.
  pose proof (Z.div_mod (x / 2 ^ 78) (2 ^ 26) ltac:(done)) as H3.
  rewrite Z.div_div in H1, H2, H3 by done.
  change (2 ^ 26 * 2 ^ 26) with (2 ^ 52) in H1. change (2 ^ 52 * 2 ^ 26) with (2 ^ 78) in H2.
  change (2 ^ 78 * 2 ^ 26) with (2 ^ 104) in H3. lia.
Qed.

Section block.
Context (buf : list Z) (Hbytes : Forall is_u8 buf) (Hlen : 16 <= zlen buf).
Let N := le_num (ztake 16 buf).

Lemma num16_bound : 0 <= N < 2 ^ 128.
Proof.
  pose proof (le_num_bound (ztake 16 buf) (Forall_ztake _ _ _ Hbytes)) as B.
  rewrite zlen_ztake in B by lia. done.
Qed.
Lemma dec32le_num16 k : 0 <= k <= 12 -> br_dec32le (zdrop k buf) = (N / 2 ^ (8 * k)) mod 2 ^ 32.
Proof.
  intros Hk. assert (zlen (ztake 16 buf) = 16) as L by (apply zlen_ztake; lia).
  unfold N. rewrite <- dec32le_at by (try apply Forall_ztake; done || lia).
  rewrite <- (ztake_zdrop 16 buf) at 1. rewrite zdrop_app_le by lia.
  unfold br_dec32le. rewrite !zget_app_l by (rewrite zlen_zdrop; lia). done.
Qed.
Lemma word26 k s m : 0 <= k <= 12 -> 0 <= s < 32 -> 0 <= m < 2 ^ (32 - s) ->
  Z.land (Z.shiftr (br_dec32le (zdrop k buf)) s) m = Z.land (Z.shiftr N (8 * k + s)) m.
Proof. intros. rewrite dec32le_num16 by done. apply field_at; lia. Qed.
Lemma word0 m : 0 <= m < 2 ^ 32 -> Z.land (br_dec32le buf) m = Z.land N m.
Proof.
  intros. rewrite <- (zdrop_0 buf), <- (Z.shiftr_0_r (br_dec32le _)).
  by rewrite word26, Z.shiftr_0_r by (rewrite ?Z.sub_0_r; lia).
Qed.
Lemma word26_mask k s : 0 <= k <= 12 -> 0 <= s <= 6 ->
  Z.land (Z.shiftr (br_dec32le (zdrop k buf)) s) MASK26 = (N / 2 ^ (8 * k + s)) mod 2 ^ 26.
Proof.
  intros. assert (2 ^ 26 <= 2 ^ (32 - s)) by (apply Z.pow_le_mono_r; lia).
  assert (0 <= MASK26 < 2 ^ 26) by done.
  by rewrite word26, land_mask26, Z.shiftr_div_pow2 by lia.
Qed.
Lemma top_word : Z.shiftr (br_dec32le (zdrop 12 buf)) 8 = N / 2 ^ 104 /\ 0 <= N / 2 ^ 104 < 2 ^ 24.
Proof.
  pose proof num16_bound. assert (0 <= N / 2 ^ 96 < 2 ^ 32) as B.
  { split; [apply Z.div_pos; lia|apply Z.div_lt_upper_bound; lia]. }
  rewrite dec32le_num16 by lia. change (8 * 12) with 96. rewrite Z.mod_small by done.
  rewrite Z.shiftr_div_pow2, Z.div_div by done. change (2 ^ 96 * 2 ^ 8) with (2 ^ 104). split; [done|].
  split; [apply Z.div_pos; lia|apply Z.div_lt_upper_bound; lia].
Qed.

(** One block: (accumulator + block + 2^128) * r modulo 2^130 - 5. *)
Lemma poly1305_block_spec r acc : acc_ok acc -> r_ok r ->
  acc_ok (poly1305_block r acc buf) /\
  limbs (poly1305_block r acc buf) mod P1305 = ((limbs acc + N + 2 ^ 128) * limbs r) mod P1305.
Proof.
  intros (La & A0 & A1 & A2 & A3 & A4) (Lr & R0 & R1 & R2 & R3 & R4).
  destruct acc as [|x0 [|x1 [|x2 [|x3 [|x4 [|]]]]]]; try done.
  destruct r as [|r0 [|r1 [|r2 [|r3 [|r4 [|]]]]]]; try done.
  cbn [lookup_total list_lookup_total] in *. clear La Lr.
  pose proof (limbs_split N) as Hsplit. destruct top_word as [Ht Bt].
  assert (forall i, 0 <= (N / 2 ^ i) mod 2 ^ 26 < 2 ^ 26) as Bn by (intros; by apply Z.mod_pos_bound).
  unfold poly1305_block. cbn [lookup_total list_lookup_total]. rewrite Ht.
  change 0x01000000 with (1 * 2 ^ 24). rewrite (Z.lor_comm (N / 2 ^ 104)), lor_add by lia.
  rewrite word0, (land_mask26 N) by done. rewrite (word26_mask 3 2), (word26_mask 6 4), (word26_mask 9 6) by lia.
  change (8 * 3 + 2) with 26. change (8 * 6 + 4) with 52. change (8 * 9 + 6) with 78.
  pose proof (Bn 0) as Bn0. change (2 ^ 0) with 1 in Bn0. rewrite Z.div_1_r in Bn0.
  assert (limbs [x0; x1; x2; x3; x4] + N + 2 ^ 128 =
    limbs [x0 + N mod 2 ^ 26; x1 + (N / 2 ^ 26) mod 2 ^ 26; x2 + (N / 2 ^ 52) mod 2 ^ 26;
           x3 + (N / 2 ^ 78) mod 2 ^ 26; x4 + (1 * 2 ^ 24 + N / 2 ^ 104)]) as ->.
  { rewrite <- Hsplit at 1. unfold limbs. cbn [lookup_total list_lookup_total]. lia. }
  unfold add32. pose proof (Bn 26). pose proof (Bn 52). pose proof (Bn 78). clear Bn Hsplit Ht.
  rewrite (u32_small (x0 + _)), (u32_small (x1 + _)), (u32_small (x2 + _)), (u32_small (x3 + _)),
    (u32_small (x4 + _)), (u32_small (r1 * 5)), (u32_small (r2 * 5)), (u32_small (r3 * 5)),
    (u32_small (r4 * 5)) by lia.
  set (a0 := x0 + _). set (a1 := x1 + _). set (a2 := x2 + _). set (a3 := x3 + _). set (a4 := x4 + _).
  assert (0 <= a0 < 2 ^ 27 + 64 /\ 0 <= a1 < 2 ^ 27 + 64 /\ 0 <= a2 < 2 ^ 27 + 64 /\
          0 <= a3 < 2 ^ 27 + 64 /\ 0 <= a4 < 2 ^ 27 + 64) as (B0 & B1 & B2 & B3 & B4) by (subst a0 a1 a2 a3 a4; lia).
  clearbody a0 a1 a2 a3 a4.
  destruct (products_bound a0 a1 a2 a3 a4 r0 r1 r2 r3 r4) as (W0 & W1 & W2 & W3 & W4); try done.
  destruct (carries_bound a0 a1 a2 a3 a4 r0 r1 r2 r3 r4) as (V1 & V2 & V3 & V4); try done.
  destruct (top_carry a0 a1 a2 a3 a4 r0 r1 r2 r3 r4) as (C4 & T0); try done.
  pose proof (mul_limbs a0 a1 a2 a3 a4 r0 r1 r2 r3 r4) as E.
  rewrite <- E. clear E.
  set (w0 := a0 * r0 + _ + _ + _ + _) in *. set (w1 := a0 * r1 + _ + _ + _ + _) in *.
  set (w2 := a0 * r2 + _ + _ + _ + _) in *. set (w3 := a0 * r3 + _ + _ + _ + _) in *.
  set (w4 := a0 * r4 + _ + _ + _ + _) in *. clearbody w0 w1 w2 w3 w4.
  rewrite !Z.shiftr_div_pow2 by done. rewrite (u64_small w0), (u64_small w1), (u64_small w2), (u64_small w3), (u64_small w4) by lia.
  set (v1 := w1 + w0 / 2 ^ 26) in *. rewrite (u64_small v1) by lia.
  set (v2 := w2 + v1 / 2 ^ 26) in *. rewrite (u64_small v2) by lia.
  set (v3 := w3 + v2 / 2 ^ 26) in *. rewrite (u64_small v3) by lia.
  set (v4 := w4 + v3 / 2 ^ 26) in *. rewrite (u64_small v4) by lia.
  rewrite !land_u32_mask26, (u32_small (v4 / 2 ^ 26)), (u32_small (v4 / 2 ^ 26 * 5)) by lia.
  set (t0 := w0 mod 2 ^ 26 + v4 / 2 ^ 26 * 5) in *. rewrite (u32_small t0) by lia.
  pose proof (div26_bound t0 64 ltac:(lia)).
  pose proof (fun x => Z.mod_pos_bound x (2 ^ 26) ltac:(done)) as Bm.
  pose proof (Bm v1). pose proof (Bm v2). pose proof (Bm v3). pose proof (Bm v4). pose proof (Bm t0).
  rewrite (u32_small (v1 mod 2 ^ 26 + _)) by lia. split; [|done].
  unfold acc_ok. cbn [lookup_total list_lookup_total length]. lia.
Qed.
End block.

(** ** Sequences of blocks *)

Lemma P1305_pos : 0 < P1305.
Proof. done. Qed.
Lemma poly1305_eval_mod n r h h' m : h mod P1305 = h' mod P1305 ->
  poly1305_eval n r h m mod P1305 = poly1305_eval n r h' m mod P1305.
Proof.
  destruct n as [|n]; cbn [poly1305_eval]; intros E; [done|]. do 2 f_equal.
  rewrite (Z.mul_mod _ r), (Z.mul_mod (h' + _) r), (Z.add_mod h), (Z.add_mod h'), E by done. done.
Qed.
Lemma poly1305_eval_app n k r h m m' : zlen m = 16 * Z.of_nat n ->
  poly1305_eval (n + k) r h (m ++ m') = poly1305_eval k r (poly1305_eval n r h m) m'.
Proof.
  revert h m. induction n as [|n IH]; intros h m Hl.
  { assert (m = []) as -> by (destruct m; [done|cbn in Hl; lia]). done. }
  cbn [Nat.add poly1305_eval]. rewrite ztake_app_le, zdrop_app_le by lia.
  apply IH. rewrite zlen_zdrop; lia.
Qed.

Lemma zlen_pad16 m : zlen (pad16 m) = (- zlen m) mod 16.
Proof. apply zlen_zeros. by apply Z.mod_pos_bound. Qed.
Lemma blocks16_padded m : zlen (m ++ pad16 m) = 16 * Z.of_nat (blocks16 m) /\ Z.of_nat (blocks16 m) = (zlen m + 15) / 16.
Proof.
  rewrite zlen_app, zlen_pad16. unfold blocks16. rewrite Z2Nat.id by (apply Z.div_pos; lia). split; [|done].
  pose proof (Z.div_mod (zlen m + 15) 16 ltac:(done)). pose proof (Z.mod_pos_bound (zlen m + 15) 16 ltac:(done)).
  pose proof (Z.div_mod (- zlen m) 16 ltac:(done)). pose proof (Z.mod_pos_bound (- zlen m) 16 ltac:(done)). lia.
Qed.
Lemma pad16_drop m : 16 <= zlen m ->
  zdrop 16 (m ++ pad16 m) = zdrop 16 m ++ pad16 (zdrop 16 m) /\ blocks16 m = S (blocks16 (zdrop 16 m)).
Proof.
  intros Hl. destruct (blocks16_padded m) as [_ E]. destruct (blocks16_padded (zdrop 16 m)) as [_ E'].
  rewrite zlen_zdrop in E' by lia. rewrite zdrop_app_le by lia. split.
  - unfold pad16. rewrite zlen_zdrop by lia. do 2 f_equal.
    replace (- (zlen m - 16)) with (- zlen m + 1 * 16) by lia. by rewrite Z.mod_add.
  - replace (zlen m + 15) with (zlen m - 16 + 15 + 1 * 16) in E by lia. rewrite Z.div_add in E by lia. lia.
Qed.
Lemma pad16_short m : 0 < zlen m < 16 -> pad16 m = zeros (16 - zlen m) /\ blocks16 m = 1%nat.
Proof.
  intros. unfold pad16, blocks16. split.
  - f_equal. symmetry. apply (Z.mod_unique _ _ (-1)); lia.
  - replace ((zlen m + 15) / 16) with 1; [done|]. apply (Z.div_unique _ _ _ (zlen m - 1)); lia.
Qed.
Lemma le_num_block m : 16 <= zlen m -> le_num (ztake 16 m ++ [1]) = le_num (ztake 16 m) + 2 ^ 128.
Proof. intros. rewrite le_num_app, zlen_ztake by lia. cbn [le_num]. lia. Qed.

Lemma poly1305_loop_spec r : r_ok r -> forall fuel acc data h, (length data <= fuel)%nat ->
  Forall is_u8 data -> acc_ok acc -> limbs acc mod P1305 = h mod P1305 ->
  acc_ok (poly1305_loop fuel r acc data) /\
  limbs (poly1305_loop fuel r acc data) mod P1305 =
    poly1305_eval (blocks16 data) (limbs r) h (data ++ pad16 data) mod P1305.
Proof.
  intros Hr. induction fuel as [|fuel IH]; intros acc data h Hf Hb Ha Hh; cbn [poly1305_loop].
  { assert (data = []) as -> by (destruct data; [done|cbn in Hf; lia]). done. }
  destruct (Z.leb_spec (zlen data) 0).
  { assert (data = []) as -> by (destruct data; [done|cbn in *; lia]). done. }
  set (buf := if zlen data <? 16 then _ else _).
  assert (Forall is_u8 buf /\ 16 <= zlen buf /\ ztake 16 buf = ztake 16 (data ++ pad16 data) /\
    blocks16 data = S (blocks16 (zdrop 16 data)) /\
    zdrop 16 (data ++ pad16 data) = zdrop 16 data ++ pad16 (zdrop 16 data)) as (Bb & Bl & Bt & Bn & Bd).
  { subst buf. destruct (Z.ltb_spec (zlen data) 16).
    - destruct (pad16_short data) as [-> ->]; [lia|]. rewrite zlen_app, zlen_zeros by lia.
      split; [apply Forall_app; split; [done|apply Forall_zeros]|]. split; [lia|]. split; [done|].
      rewrite (zdrop_ge 16 data) by lia. split; [done|]. rewrite zdrop_ge; [done|].
      rewrite zlen_app, zlen_zeros; lia.
    - destruct (pad16_drop data) as [E1 E2]; [lia|]. by rewrite ztake_app_le by lia. }
  destruct (poly1305_block_spec buf Bb Bl r acc Ha Hr) as [Ha' Hl'].
  rewrite Bn. cbn [poly1305_eval]. rewrite Bd.
  assert (16 <= zlen (data ++ pad16 data)) as Hpl.
  { destruct (blocks16_padded data) as [-> _]. lia. }
  apply IH; [pose proof (zlen_zdrop 16 data); destruct (Z.le_ge_cases 16 (zlen data)); [lia|rewrite zdrop_ge by lia; cbn; lia]
    |by apply Forall_zdrop|done|].
  rewrite Hl', le_num_block, Bt, Z.mod_mod by done.
  rewrite (Z.mul_mod _ (limbs r)), (Z.mul_mod (h + _)) by done. do 2 f_equal.
  rewrite <- Z.add_assoc, (Z.add_mod (limbs acc)), Hh, <- Z.add_mod by done. done.
Qed.

(** ** The final reduction and the tag *)

Definition reduced (l : list Z) : Prop :=
  length l = 5%nat /\ 0 <= l !!! 0%nat < 2 ^ 26 /\ 0 <= l !!! 1%nat < 2 ^ 26 /\
  0 <= l !!! 2%nat < 2 ^ 26 /\ 0 <= l !!! 3%nat < 2 ^ 26 /\ 0 <= l !!! 4%nat < 2 ^ 26.
Lemma reduced_bound l : reduced l -> 0 <= limbs l < 2 ^ 130.
Proof. unfold reduced, limbs. lia. Qed.
Lemma acc_bound l : acc_ok l -> 0 <= limbs l < 2 ^ 130 + 2 ^ 32.
Proof. unfold acc_ok, limbs. lia. Qed.

Lemma carry_step t : 0 <= t < 2 ^ 27 ->
  u32 t = t /\ Z.land t MASK26 = (if t <? 2 ^ 26 then t else t - 2 ^ 26) /\
  Z.shiftr t 26 = if t <? 2 ^ 26 then 0 else 1.
Proof.
  intros Ht. rewrite u32_small, land_mask26, Z.shiftr_div_pow2 by lia. split; [done|].
  destruct (Z.ltb_spec t (2 ^ 26)).
  - by rewrite Z.mod_small, Z.div_small by lia.
  - split; symmetry; [apply (Z.mod_unique _ _ 1)|apply (Z.div_unique _ _ _ (t - 2 ^ 26))]; lia.
Qed.

(** The carry out of the top word comes back with weight 1. *)
Lemma carry_spec acc : acc_ok acc ->
  exists b c, fold_left poly1305_carry [1; 2; 3; 4; 0; 1]%nat (acc, 0) = (b, c) /\ reduced b /\
    (limbs b = limbs acc \/ limbs b = limbs acc - 2 ^ 130 + 1 /\ 2 ^ 130 <= limbs acc).
Proof.
  intros (La & A0 & A1 & A2 & A3 & A4).
  destruct acc as [|a0 [|a1 [|a2 [|a3 [|a4 [|]]]]]]; try done. cbn [lookup_total list_lookup_total] in *.
  cbn [fold_left poly1305_carry lookup_total list_lookup_total insert list_insert alter].
  unfold add32. rewrite !Z.add_0_r.
  destruct (carry_step a1) as (-> & -> & ->); [lia|]. set (c1 := if a1 <? _ then 0 else 1).
  assert (0 <= c1 <= 1) by (subst c1; case_match; lia).
  destruct (carry_step (a2 + c1)) as (-> & -> & ->); [lia|]. set (c2 := if a2 + c1 <? _ then 0 else 1).
  assert (0 <= c2 <= 1) by (subst c2; case_match; lia).
  destruct (carry_step (a3 + c2)) as (-> & -> & ->); [lia|]. set (c3 := if a3 + c2 <? _ then 0 else 1).
  assert (0 <= c3 <= 1) by (subst c3; case_match; lia).
  destruct (carry_step (a4 + c3)) as (-> & -> & ->); [lia|]. set (c4 := if a4 + c3 <? _ then 0 else 1).
  assert (0 <= c4 <= 1) by (subst c4; case_match; lia).
  destruct (carry_step (a0 + c4)) as (-> & -> & ->); [lia|]. set (c0 := if a0 + c4 <? _ then 0 else 1).
  assert (0 <= c0 <= 1) by (subst c0; case_match; lia).
  match goal with |- context [u32 ?t] => destruct (carry_step t) as (-> & -> & ->) end; [case_match; lia|].
  eexists _, _. split; [done|]. unfold reduced, limbs. cbv [lookup_total list_lookup_total length].
  subst c0 c1 c2 c3 c4. repeat case_match; lia.
Qed.

(** The selection subtracts 2^130 - 5 exactly when the value is at least that. *)
Lemma select_step ctl b c : 0 <= b < 2 ^ 26 -> 0 <= c <= 5 ->
  MUX (b2z ctl) (Z.land (add32 b c) MASK26) b = (if ctl then (b + c) mod 2 ^ 26 else b) /\
  Z.shiftr (add32 b c) 26 = (b + c) / 2 ^ 26 /\ 0 <= (b + c) / 2 ^ 26 <= 1.
Proof.
  intros Hb Hc. unfold add32. rewrite u32_small, land_mask26, Z.shiftr_div_pow2 by lia.
  pose proof (Z.mod_pos_bound (b + c) (2 ^ 26) ltac:(done)).
  rewrite MUX_spec by lia. split; [done|]. split; [done|].
  pose proof (div26_bound (b + c) 2 ltac:(lia)). lia.
Qed.
Lemma b2z_land a b : Z.land (b2z a) (b2z b) = b2z (a && b).
Proof. by destruct a, b. Qed.

Lemma select_spec b : reduced b ->
  let ctl := fold_left (fun ctl i => Z.land ctl (EQ (b !!! i) 0x03FFFFFF)) [1; 2; 3; 4]%nat (GT (b !!! 0%nat) 0x03FFFFFA) in
  exists d c, fold_left (poly1305_select ctl) [0; 1; 2; 3; 4]%nat (b, 5) = (d, c) /\ reduced d /\
    limbs d = limbs b mod P1305.
Proof.
  intros (L & B0 & B1 & B2 & B3 & B4).
  destruct b as [|b0 [|b1 [|b2 [|b3 [|b4 [|]]]]]]; try done.
  cbn [fold_left]. cbv [lookup_total list_lookup_total] in *. rewrite GT_spec, !EQ_spec, !b2z_land by lia.
  set (big := _ && _). 
  cbv [poly1305_select lookup_total list_lookup_total insert list_insert alter].
  destruct (select_step big b0 5) as (-> & -> & ?); [lia|lia|]. set (c0 := (b0 + 5) / 2 ^ 26) in *.
  destruct (select_step big b1 c0) as (-> & -> & ?); [lia|lia|]. set (c1 := (b1 + c0) / 2 ^ 26) in *.
  destruct (select_step big b2 c1) as (-> & -> & ?); [lia|lia|]. set (c2 := (b2 + c1) / 2 ^ 26) in *.
  destruct (select_step big b3 c2) as (-> & -> & ?); [lia|lia|]. set (c3 := (b3 + c2) / 2 ^ 26) in *.
  destruct (select_step big b4 c3) as (-> & -> & ?); [lia|lia|].
  eexists _, _. split; [done|]. unfold reduced, limbs. cbv [lookup_total list_lookup_total length].
  destruct big eqn:Hbig.
  - subst big. repeat (apply andb_prop in Hbig as [Hbig ?]).
    assert (b1 = 0x03FFFFFF /\ b2 = 0x03FFFFFF /\ b3 = 0x03FFFFFF /\ b4 = 0x03FFFFFF /\ 0x03FFFFFA < b0)
      as (-> & -> & -> & -> & Hb0) by lia.
    assert (c0 = 1) as E0 by (subst c0; symmetry; apply (Z.div_unique _ _ _ (b0 + 5 - 2 ^ 26)); lia).
    assert (c1 = 1) as E1 by (subst c1; by rewrite E0). assert (c2 = 1) as E2 by (subst c2; by rewrite E1).
    assert (c3 = 1) as E3 by (subst c3; by rewrite E2).
    rewrite E0, E1, E2, E3. assert ((b0 + 5) mod 2 ^ 26 = b0 + 5 - 2 ^ 26) as ->
      by (symmetry; apply (Z.mod_unique _ _ 1); lia).
    change ((0x03FFFFFF + 1) mod 2 ^ 26) with 0. split; [lia|].
    apply (Z.mod_unique _ _ 1); unfold P1305; lia.
  - split; [lia|]. symmetry. apply Z.mod_small. unfold P1305. split; [lia|].
    subst big. clear - Hbig B0 B1 B2 B3 B4. repeat rewrite andb_false_iff in Hbig. lia.
Qed.

Lemma u8_field x k : 0 <= k <= 24 -> u8 (Z.shiftr (u32 x) k) = (x / 2 ^ k) mod 2 ^ 8.
Proof.
  intros. unfold u8, u32. apply Z.bits_inj'. intros i Hi. destruct (Z.lt_ge_cases i 8).
  - rewrite !Z.mod_pow2_bits_low, Z.shiftr_spec, Z.mod_pow2_bits_low, Z.div_pow2_bits by lia. done.
  - by rewrite !Z.mod_pow2_bits_high by lia.
Qed.
Lemma enc32le_num x : br_enc32le (u32 x) = le_bytes 4 x.
Proof.
  unfold br_enc32le. rewrite <- (Z.shiftr_0_r (u32 x)) at 1. rewrite !u8_field by lia.
  cbn [le_bytes]. by rewrite !Z.div_div, Z.div_1_r by done.
Qed.
Lemma le_bytes_app n k x : le_bytes (n + k) x = le_bytes n x ++ le_bytes k (x / 2 ^ (8 * Z.of_nat n)).
Proof.
  revert x. induction n as [|n IH]; intros x; [cbn; by rewrite Z.div_1_r|].
  cbn [Nat.add le_bytes app]. rewrite IH. do 3 f_equal. rewrite Z.div_div by lia.
  rewrite <- Z.pow_add_r by lia. do 2 f_equal. lia.
Qed.
Lemma le_bytes_mod n x y : le_bytes n (x + 2 ^ (8 * Z.of_nat n) * y) = le_bytes n x.
Proof.
  revert x y. induction n as [|n IH]; intros x y; [done|]. cbn [le_bytes].
  replace (8 * Z.of_nat (S n)) with (8 * Z.of_nat n + 8) by lia. rewrite Z.pow_add_r by lia.
  replace (x + 2 ^ (8 * Z.of_nat n) * 2 ^ 8 * y) with (x + 2 ^ (8 * Z.of_nat n) * y * 2 ^ 8) by lia.
  rewrite Z.mod_add, Z.div_add by done. by rewrite IH.
Qed.
Lemma le_bytes_step n x w y : x = w + 2 ^ 32 * y -> le_bytes (4 + n) x = le_bytes 4 w ++ le_bytes n (w / 2 ^ 32 + y).
Proof.
  intros ->. rewrite le_bytes_app. rewrite (le_bytes_mod 4 w y : le_bytes 4 (w + 2 ^ 32 * y) = _).
  change (8 * Z.of_nat 4) with 32. by rewrite Z.mul_comm, Z.div_add by done.
Qed.

Section key.
Context (pkey : list Z) (Hbytes : Forall is_u8 pkey) (Hlen : 32 <= zlen pkey).
Let S := le_num (zslice pkey 16 16).

Lemma key_word k : 0 <= k <= 12 -> br_dec32le (zdrop (16 + k) pkey) = (S / 2 ^ (8 * k)) mod 2 ^ 32.
Proof.
  intros. rewrite <- zdrop_zdrop by lia. apply dec32le_num16; [by apply Forall_zdrop|rewrite zlen_zdrop; lia|done].
Qed.
Lemma key_words : 0 <= S < 2 ^ 128 /\
  S = S mod 2 ^ 32 + 2 ^ 32 * ((S / 2 ^ 32) mod 2 ^ 32) + 2 ^ 64 * ((S / 2 ^ 64) mod 2 ^ 32) +
      2 ^ 96 * ((S / 2 ^ 96) mod 2 ^ 32).
Proof.
  assert (0 <= S < 2 ^ 128) as B.
  { apply (num16_bound (zdrop 16 pkey)); [by apply Forall_zdrop|rewrite zlen_zdrop; lia]. }
  split; [done|]. rewrite (Z.mod_small (S / 2 ^ 96)) by (split; [apply Z.div_pos; lia|apply Z.div_lt_upper_bound; lia]).
  pose proof (Z.div_mod S (2 ^ 32) ltac:(done)). pose proof (Z.div_mod (S / 2 ^ 32) (2 ^ 32) ltac:(done)) as H1.
  pose proof (Z.div_mod (S / 2 ^ 64) (2 ^ 32) ltac:(done)) as H2. rewrite Z.div_div in H1, H2 by done.
  change (2 ^ 32 * 2 ^ 32) with (2 ^ 64) in H1. change (2 ^ 64 * 2 ^ 32) with (2 ^ 96) in H2. lia.
Qed.

Lemma encode_spec d : reduced d ->
  (let w := u64 (d !!! 0%nat + Z.shiftl (d !!! 1%nat) 26 + br_dec32le (zdrop 16 pkey)) in
   let t0 := br_enc32le (u32 w) in
   let w := u64 (Z.shiftr w 32 + Z.shiftl (d !!! 2%nat) 20 + br_dec32le (zdrop 20 pkey)) in
   let t1 := br_enc32le (u32 w) in
   let w := u64 (Z.shiftr w 32 + Z.shiftl (d !!! 3%nat) 14 + br_dec32le (zdrop 24 pkey)) in
   let t2 := br_enc32le (u32 w) in
   let hi := u32 (u32 (Z.shiftr w 32) + u32 (Z.shiftl (d !!! 4%nat) 8) + br_dec32le (zdrop 28 pkey)) in
   t0 ++ t1 ++ t2 ++ br_enc32le hi) = le_bytes 16 (limbs d + S).
Proof.
  intros (_ & D0 & D1 & D2 & D3 & D4). unfold limbs. cbv zeta.
  rewrite (key_word 0 ltac:(lia) : br_dec32le (zdrop 16 pkey) = _).
  rewrite (key_word 4 ltac:(lia) : br_dec32le (zdrop 20 pkey) = _).
  rewrite (key_word 8 ltac:(lia) : br_dec32le (zdrop 24 pkey) = _).
  rewrite (key_word 12 ltac:(lia) : br_dec32le (zdrop 28 pkey) = _).
  change (8 * 0) with 0. change (8 * 4) with 32. change (8 * 8) with 64. change (8 * 12) with 96.
  change (2 ^ 0) with 1. rewrite Z.div_1_r.
  destruct key_words as [_ ES].
  clearbody S. assert (forall x, 0 <= x mod 2 ^ 32 < 2 ^ 32) as Bm by (intros; by apply Z.mod_pos_bound).
  pose proof (Bm S) as S0. pose proof (Bm (S / 2 ^ 32)) as S1. pose proof (Bm (S / 2 ^ 64)) as S2.
  pose proof (Bm (S / 2 ^ 96)) as S3. clear Bm.
  set (s0 := S mod 2 ^ 32) in *. set (s1 := (S / 2 ^ 32) mod 2 ^ 32) in *.
  set (s2 := (S / 2 ^ 64) mod 2 ^ 32) in *. set (s3 := (S / 2 ^ 96) mod 2 ^ 32) in *.
  clearbody s0 s1 s2 s3. subst S.
  generalize dependent (d !!! 0%nat). generalize dependent (d !!! 1%nat). generalize dependent (d !!! 2%nat).
  generalize dependent (d !!! 3%nat). generalize dependent (d !!! 4%nat).
  intros d4 D4 d3 D3 d2 D2 d1 D1 d0 D0. rewrite !Z.shiftl_mul_pow2, !Z.shiftr_div_pow2 by done.
  rewrite (u64_small (d0 + _ + _)) by lia. set (w0 := d0 + _ + s0).
  assert (0 <= w0 / 2 ^ 32 < 2 ^ 21) by (split; [apply Z.div_pos|apply Z.div_lt_upper_bound]; subst w0; lia).
  rewrite (u64_small (w0 / _ + _ + _)) by lia. set (w1 := w0 / 2 ^ 32 + _ + s1).
  assert (0 <= w1 / 2 ^ 32 < 2 ^ 15) by (split; [apply Z.div_pos|apply Z.div_lt_upper_bound]; subst w1; lia).
  rewrite (u64_small (w1 / _ + _ + _)) by lia. set (w2 := w1 / 2 ^ 32 + _ + s2).
  rewrite (le_bytes_step 12 _ w0 (2 ^ 20 * d2 + 2 ^ 46 * d3 + 2 ^ 72 * d4 + s1 + 2 ^ 32 * s2 + 2 ^ 64 * s3))
    by (subst w0; lia).
  rewrite (le_bytes_step 8 _ w1 (2 ^ 14 * d3 + 2 ^ 40 * d4 + s2 + 2 ^ 32 * s3)) by (subst w1; lia).
  rewrite (le_bytes_step 4 _ w2 (2 ^ 8 * d4 + s3)) by (subst w2; lia).
  assert (0 <= w2 / 2 ^ 32 < 2 ^ 15) by (split; [apply Z.div_pos|apply Z.div_lt_upper_bound]; subst w2; lia).
  rewrite !enc32le_num, (u32_small (w2 / _)) by lia. do 3 f_equal.
  rewrite <- (le_bytes_mod 4 _ (d4 * 2 ^ 8 / 2 ^ 32)). f_equal. change (8 * Z.of_nat 4) with 32.
  unfold u32. pose proof (Z.div_mod (d4 * 2 ^ 8) (2 ^ 32) ltac:(done)). lia.
Qed.
End key.

(** The clamped key. *)
Lemma poly1305_r_spec pkey : Forall is_u8 pkey -> 16 <= zlen pkey ->
  r_ok (poly1305_r pkey) /\ limbs (poly1305_r pkey) = clamp (le_num (ztake 16 pkey)).
Proof.
  intros Hb Hl. destruct (num16_bound pkey Hb Hl) as [N0 _]. unfold poly1305_r.
  rewrite (word0 pkey Hb Hl), (word26 pkey Hb Hl 3 2), (word26 pkey Hb Hl 6 4), (word26 pkey Hb Hl 9 6),
    (word26 pkey Hb Hl 12 8) by done.
  set (N := le_num (ztake 16 pkey)) in *. change (8 * 3 + 2) with 26. change (8 * 6 + 4) with 52.
  change (8 * 9 + 6) with 78. change (8 * 12 + 8) with 104.
  assert (forall x m k, 0 <= k -> 0 <= x -> 0 <= m < 2 ^ k -> 0 <= Z.land x m < 2 ^ k) as B
    by (intros; rewrite Z.land_comm; by apply land_bound).
  assert (forall k, 0 <= Z.shiftr N k) as Bs by (intros; by apply Z.shiftr_nonneg).
  split.
  - unfold r_ok. cbv [lookup_total list_lookup_total length]. split; [done|]. do 4 (split; [by apply B|]). by apply B.
  - unfold limbs, clamp. cbv [lookup_total list_lookup_total].
    change 0x0ffffffc0ffffffc0ffffffc0fffffff with
      (0x03FFFFFF + 2 ^ 26 * (0x03FFFF03 + 2 ^ 26 * (0x03FFC0FF + 2 ^ 26 * (0x03F03FFF + 2 ^ 26 * 0x000FFFFF)))).
    rewrite (land_split 26 N), (land_split 26 (Z.shiftr N 26)), (land_split 26 (Z.shiftr (Z.shiftr N 26) 26)),
      (land_split 26 (Z.shiftr (Z.shiftr (Z.shiftr N 26) 26) 26)) by (rewrite ?Z.shiftr_nonneg; lia).
    rewrite !Z.shiftr_shiftr by done. change (26 + 26) with 52. change (52 + 26) with 78.
    change (78 + 26) with 104. lia.
Qed.

Lemma poly1305_finish_spec acc pkey : acc_ok acc -> Forall is_u8 pkey -> 32 <= zlen pkey ->
  exists x, poly1305_finish acc pkey = le_bytes 16 (x + le_num (zslice pkey 16 16)) /\
    let h := limbs acc mod P1305 in x = h \/ x = h - 4 /\ h < 2 ^ 33.
Proof.
  intros Ha Hb Hl. pose proof (acc_bound acc Ha) as Ba. unfold poly1305_finish.
  destruct (carry_spec acc Ha) as (b & c & -> & Hred & Hcase). pose proof (reduced_bound b Hred) as Bb.
  destruct (select_spec b Hred) as (d & c' & -> & Hd & El).
  rewrite encode_spec by done. eexists. split; [done|]. rewrite El.
  destruct Hcase as [-> | [E Hge]]; [by left|right]. rewrite E.
  assert (limbs acc mod P1305 = limbs acc - P1305) as ->.
  { symmetry. apply (Z.mod_unique _ _ 1); unfold P1305 in *; lia. }
  rewrite Z.mod_small by (unfold P1305; lia). unfold P1305. lia.
Qed.

(** ** The function as the engine calls it *)

Lemma foot_bytes n m : 0 <= n < 2 ^ 64 -> 0 <= m < 2 ^ 64 ->
  br_enc64le (u64 n) ++ br_enc64le (u64 m) = le_bytes 8 n ++ le_bytes 8 m.
Proof.
  intros Hn Hm. rewrite !u64_small by lia. unfold br_enc64le. rewrite !enc32le_num.
  by rewrite !Z.shiftr_div_pow2, <- !(le_bytes_app 4 4) by done.
Qed.
Lemma zlen_le_bytes n x : zlen (le_bytes n x) = Z.of_nat n.
Proof. revert x. induction n as [|n IH]; intros x; [done|]. cbn [le_bytes length]. pose proof (IH (x / 2 ^ 8)). lia. Qed.
Lemma le_bytes_u8 n x : Forall is_u8 (le_bytes n x).
Proof. revert x. induction n as [|n IH]; intros x; constructor; [by apply Z.mod_pos_bound|apply IH]. Qed.

Lemma acc_zero : acc_ok (zeros 5) /\ limbs (zeros 5) = 0.
Proof. done. Qed.
Lemma poly1305_eval_range n r h m : 0 <= h < P1305 -> 0 <= poly1305_eval n r h m < P1305.
Proof.
  revert h m. induction n as [|n IH]; intros h m Hh; [done|]. cbn [poly1305_eval]. apply IH.
  by apply Z.mod_pos_bound.
Qed.

(** The three runs of [poly1305_inner] evaluate the polynomial of the whole message. *)
Lemma poly1305_inner_chain r aad data : r_ok r -> Forall is_u8 aad -> Forall is_u8 data ->
  zlen aad < 2 ^ 64 -> zlen data < 2 ^ 64 ->
  let foot := br_enc64le (u64 (zlen aad)) ++ br_enc64le (u64 (zlen data)) in
  let acc := poly1305_inner (poly1305_inner (poly1305_inner (zeros 5) r aad) r data) r foot in
  acc_ok acc /\
  limbs acc mod P1305 = poly1305_eval (blocks16 (mac_data aad data)) (limbs r) 0 (mac_data aad data).
Proof.
  intros Hr Ha Hd La Ld foot acc. unfold poly1305_inner in acc.
  assert (foot = le_bytes 8 (zlen aad) ++ le_bytes 8 (zlen data)) as Ef by (apply foot_bytes; lia).
  destruct (poly1305_loop_spec r Hr (length aad) (zeros 5) aad 0) as [A1 E1]; [done..|].
  destruct (poly1305_loop_spec r Hr (length data) _ data _ ltac:(done) Hd A1 E1) as [A2 E2].
  destruct (poly1305_loop_spec r Hr (length foot) _ foot _ ltac:(done)
    ltac:(rewrite Ef; apply Forall_app; split; apply le_bytes_u8) A2 E2) as [A3 E3].
  split; [exact A3|]. subst acc. rewrite E3. rewrite Ef.
  destruct (blocks16_padded aad) as [Pa _]. destruct (blocks16_padded data) as [Pd _].
  set (f := le_bytes 8 (zlen aad) ++ le_bytes 8 (zlen data)).
  assert (zlen f = 16) as Lf by (unfold f; by rewrite zlen_app, !zlen_le_bytes).
  assert (mac_data aad data = (aad ++ pad16 aad) ++ (data ++ pad16 data) ++ f) as Em
    by (unfold mac_data, f; by rewrite !app_assoc).
  assert (blocks16 (mac_data aad data) = (blocks16 aad + (blocks16 data + 1))%nat) as ->.
  { unfold blocks16 at 1. rewrite Em, (zlen_app (aad ++ _)), (zlen_app (data ++ _)), Pa, Pd, Lf.
    replace (16 * Z.of_nat (blocks16 aad) + (16 * Z.of_nat (blocks16 data) + 16) + 15)
      with (15 + (Z.of_nat (blocks16 aad) + (Z.of_nat (blocks16 data) + 1)) * 16) by lia.
    rewrite Z.div_add, (Z.div_small 15) by lia. lia. }
  rewrite Em, (poly1305_eval_app _ _ _ _ _ _ Pa), (poly1305_eval_app _ _ _ _ _ _ Pd).
  assert (pad16 f = []) as -> by (unfold pad16; by rewrite Lf).
  assert (blocks16 f = 1%nat) as -> by (unfold blocks16; by rewrite Lf).
  rewrite app_nil_r. apply Z.mod_small, poly1305_eval_range, poly1305_eval_range, poly1305_eval_range. done.
Qed.

Section run.
Context (ichacha : br_chacha20_run) `{!StreamCipher ichacha}.

Lemma run_length k iv cc data : is_u32 cc -> zlen (ichacha k iv cc data).2 = zlen data.
Proof. intros. rewrite run_xor by done. apply zlen_zxor, keystream_len. lia. Qed.
Lemma run_bytes k iv cc data : is_u32 cc -> Forall is_u8 data -> Forall is_u8 (ichacha k iv cc data).2.
Proof. intros. rewrite run_xor by done. apply zxor_bytes; [done|apply keystream_bytes]. Qed.
Lemma run_twice k iv cc data : is_u32 cc -> (ichacha k iv cc (ichacha k iv cc data).2).2 = data.
Proof.
  intros. rewrite !run_xor by done. rewrite zlen_zxor by (apply keystream_len; lia).
  apply zxor_involutive, keystream_len. lia.
Qed.

(** The tag depends on the key and the ciphertext only. *)
Definition ctmul_tag (pkey aad ct : list Z) : list Z :=
  let r := poly1305_r pkey in
  let foot := br_enc64le (u64 (zlen aad)) ++ br_enc64le (u64 (zlen ct)) in
  poly1305_finish (poly1305_inner (poly1305_inner (poly1305_inner (zeros 5) r aad) r ct) r foot) pkey.
Lemma ctmul_run_eq key iv data aad (encrypt : bool) :
  br_poly1305_ctmul_run key iv data aad ichacha encrypt =
    ((ichacha key iv 1 data).2,
     ctmul_tag (ichacha key iv 0 (zeros 32)).2 aad (if encrypt then (ichacha key iv 1 data).2 else data)).
Proof. unfold br_poly1305_ctmul_run, ctmul_tag. cbv zeta. destruct encrypt; reflexivity. Qed.

Lemma ctmul_run_spec key iv data aad (encrypt : bool) : Forall is_u8 data -> Forall is_u8 aad ->
  zlen data < 2 ^ 64 -> zlen aad < 2 ^ 64 ->
  let pkey := (ichacha key iv 0 (zeros 32)).2 in
  let out := (ichacha key iv 1 data).2 in
  let ct := if encrypt then out else data in
  exists x, br_poly1305_ctmul_run key iv data aad ichacha encrypt =
      (out, le_bytes 16 (x + le_num (zslice pkey 16 16))) /\
    let h := poly1305_hash pkey (mac_data aad ct) in x = h \/ x = h - 4 /\ h < 2 ^ 33.
Proof.
  intros Hd Ha Ld La pkey out ct. rewrite ctmul_run_eq. fold pkey out ct. unfold ctmul_tag.
  assert (Forall is_u8 pkey /\ zlen pkey = 32) as [Bk Lk].
  { split; [by apply run_bytes, Forall_zeros|]. unfold pkey. by rewrite run_length. }
  assert (Forall is_u8 ct /\ zlen ct < 2 ^ 64) as [Bc Lc].
  { unfold ct, out. destruct encrypt; [|done]. by rewrite run_length; [split; [apply run_bytes|]|]. }
  destruct (poly1305_r_spec pkey Bk) as [Hr Er]; [lia|].
  destruct (poly1305_inner_chain _ aad ct Hr Ha Bc La Lc) as [Hacc Eacc].
  destruct (poly1305_finish_spec _ pkey Hacc Bk) as (x & Ex & Hx); [lia|].
  exists x. rewrite Ex. split; [done|].
  cbv zeta in Hx. rewrite Eacc, Er in Hx. exact Hx.
Qed.
End run.

(** C39: the ChaCha20+Poly1305 of poly1305_ctmul.c, over any stream cipher.  The data
    is encrypted or decrypted in place; the tag is that of RFC 8439, 2.8, over the
    additional data, the ciphertext and their lengths, whenever the polynomial
    evaluates to at least 2^33; below it may be the tag of the value less 4. *)
Theorem poly1305_rfc8439 ichacha `{!StreamCipher ichacha} key iv data aad (encrypt : bool) :
  Forall is_u8 data -> Forall is_u8 aad -> zlen data < 2 ^ 64 -> zlen aad < 2 ^ 64 ->
  let pkey := (ichacha key iv 0 (zeros 32)).2 in
  let out := (ichacha key iv 1 data).2 in
  let m := mac_data aad (if encrypt then out else data) in
  let '(data', tag) := br_poly1305_ctmul_run key iv data aad ichacha encrypt in
  data' = out /\ (2 ^ 33 <= poly1305_hash pkey m -> tag = poly1305_mac pkey m) /\
  (tag = poly1305_mac pkey m \/ tag = le_bytes 16 (poly1305_hash pkey m - 4 + le_num (zslice pkey 16 16))).
Proof.
  intros Hd Ha Ld La pkey out m.
  destruct (ctmul_run_spec ichacha key iv data aad encrypt Hd Ha Ld La) as (x & -> & Hx).
  fold pkey out m in Hx |- *. cbv zeta in Hx. split; [done|]. unfold poly1305_mac.
  destruct Hx as [-> | [-> Hlt]]; [by auto|]. split; [lia|]. by right.
Qed.

(** the last carry propagation is wrong: with the all-zero key and IV, the
    16 bytes below, taken as a ciphertext, get a tag that is not the one of
    RFC 8439: the carry out of the top word of the accumulator is added to the
    lowest word as 1 and not as 5. *)
Theorem poly1305_tag_differs :
  let key := zeros 32 in let iv := zeros 12 in
  let ct := [205; 78; 6; 142; 38; 160; 190; 5; 210; 45; 43; 194; 192; 37; 171; 255] in
  let pkey := (br_chacha20_ct_run key iv 0 (zeros 32)).2 in
  poly1305_hash pkey (mac_data [] ct) = 6 /\
  (br_poly1305_ctmul_run key iv ct [] br_chacha20_ct_run false).2 <> poly1305_mac pkey (mac_data [] ct).
Proof. split; [vm_compute; reflexivity|]. vm_compute. discriminate. Qed.

(** RFC 8439, 2.8.2. *)
Definition rfc_key : list Z := map (fun x => 0x80 + Z.of_nat x) (seq 0 32).
Definition rfc_iv : list Z := [7; 0; 0; 0; 0x40; 0x41; 0x42; 0x43; 0x44; 0x45; 0x46; 0x47].
Definition rfc_aad : list Z := [0x50; 0x51; 0x52; 0x53; 0xc0; 0xc1; 0xc2; 0xc3; 0xc4; 0xc5; 0xc6; 0xc7].
Definition rfc_text : list Z := [76; 97; 100; 105; 101; 115; 32; 97; 110; 100; 32; 71; 101; 110; 116; 108; 101; 109; 101; 110].
Lemma poly1305_rfc8439_witness :
  (Forall is_u8 rfc_text /\ Forall is_u8 rfc_aad) /\
  (br_poly1305_ctmul_run rfc_key rfc_iv rfc_text rfc_aad br_chacha20_ct_run true).2 =
    poly1305_mac (br_chacha20_ct_run rfc_key rfc_iv 0 (zeros 32)).2
      (mac_data rfc_aad (br_chacha20_ct_run rfc_key rfc_iv 1 rfc_text).2).
Proof.
  assert (Forall is_u8 rfc_text /\ Forall is_u8 rfc_aad) as [Bt Ba] by (split; repeat constructor; done).
  split; [done|]. pose proof (poly1305_rfc8439 br_chacha20_ct_run rfc_key rfc_iv rfc_text rfc_aad true Bt Ba
    ltac:(done) ltac:(done)) as H. cbv zeta in H. destruct (br_poly1305_ctmul_run _ _ _ _ _ _).
  apply H. vm_compute. discriminate.
Defined.
