(* ===== verification/RecordLink.v ===== *)
(** * RecordLink: protected records between two engines

    [RecordLink] says that what the output side of a record protection produces,
    the input side accepts and opens, when their contexts are linked (same keys and
    sequence number).  For every linked pair, bytes written at one engine and
    flushed are one record, and that record, received in any pieces, gives the same
    bytes to the application at the other; a record that does not open closes the
    engine and gives nothing. *)
From S2P Require Import Prelude.
From S2P Require Import Words.
From S2P Require Import Engine.
From S2P Require Import EngineSpec.

Class RecordLink {RI RO : Type} `{!RecordIn RI} `{!RecordOut RO} (linked : RO -> RI -> Prop) : Prop :=
  link_law : forall so si t v buf a b len, linked so si -> Forall is_u8 buf -> 597 <= zlen buf < 2 ^ 62 ->
    max_plaintext so 5 (zlen buf - 5) = (a, b) -> 0 < len -> a + len <= b -> is_u8 t -> is_u16 v ->
    exists so' buf' p body si' data' off,
      encrypt so t v buf a len = (so', buf', p, 5 + zlen body) /\ zlen body < 2 ^ 16 /\ Forall is_u8 body /\
      zslice buf' p (5 + zlen body) = record_header t v (zlen body) ++ body /\
      check_length si (zlen body) = true /\ decrypt si t v body = (si', data', Some (off, len)) /\
      zslice data' off len = zslice buf a len /\ linked so' si'.

(** The additional data of a record: what is authenticated besides its content. *)
Definition record_ad (seq record_type version len : Z) : list Z :=
  br_enc64be seq ++ [u8 record_type] ++ br_enc16be version ++ br_enc16be len.
Lemma record_ad_bytes q t v len : Forall is_u8 (record_ad q t v len).
Proof. repeat constructor; apply is_u8_u8. Qed.

(** A record laid out in a buffer: body first, then the five bytes in front of it. *)
Definition put_record (buf : list Z) (p t v n : Z) (body : list Z) : list Z :=
  let buf := zblit buf (p + 5) body in
  let buf := zblit buf p (u8 t :: br_enc16be v) in
  zblit buf (p + 3) (br_enc16be n).
Lemma put_record_spec buf p t v n body : Forall is_u8 buf -> Forall is_u8 body ->
  0 <= p -> p + 5 + zlen body <= zlen buf ->
  zlen (put_record buf p t v n body) = zlen buf /\ Forall is_u8 (put_record buf p t v n body) /\
  zslice (put_record buf p t v n body) p (5 + zlen body) = record_header t v n ++ body.
Proof.
  intros Hb Hd Hp Hl. unfold put_record. set (b1 := zblit buf (p + 5) body).
  assert (zlen b1 = zlen buf) as L1 by (apply zlen_zblit; lia).
  set (b2 := zblit b1 p (u8 t :: br_enc16be v)).
  assert (zlen b2 = zlen buf) as L2 by (rewrite <- L1; apply zlen_zblit; simpl length; lia).
  set (b3 := zblit b2 (p + 3) (br_enc16be n)).
  assert (zlen b3 = zlen buf) as L3 by (rewrite <- L2; apply zlen_zblit; simpl length; lia).
  split; [done|]. split.
  { unfold b3, b2, b1. repeat apply Forall_zblit; try done; repeat constructor; apply is_u8_u8. }
  replace (5 + zlen body) with (3 + (2 + zlen body)) by lia.
  rewrite <- (zslice_app b3 p 3), <- (zslice_app b3 (p + 3) 2) by lia.
  assert (zslice b3 p 3 = u8 t :: br_enc16be v) as ->.
  { unfold b3. rewrite zslice_zblit_before by (simpl length; lia).
    apply (zslice_zblit_same b1 p (u8 t :: br_enc16be v)); simpl length; lia. }
  assert (zslice b3 (p + 3) 2 = br_enc16be n) as ->.
  { apply (zslice_zblit_same b2 (p + 3) (br_enc16be n)); simpl length; lia. }
  assert (zslice b3 (p + 3 + 2) (zlen body) = body) as ->; [|done].
  unfold b3. rewrite zslice_zblit_after by (simpl length; lia).
  unfold b2. rewrite zslice_zblit_after by (simpl length; lia).
  replace (p + 3 + 2) with (p + 5) by lia. apply zslice_zblit_same; lia.
Qed.

Section receive.
Context {RI RO HS : Type}.
Context `{!RecordIn RI} `{!RecordOut RO} `{!Handshake RI RO HS}.
Context `{!RecordInLaws RI} `{!RecordOutLaws RO} `{!HandshakeLaws RI RO HS}.
Notation eng := (engine RI RO HS).
Implicit Types e : eng.
Context {lay : layout}.
Notation eng_live := (eng_live lay).
Notation eng_inv := (eng_inv lay).
Notation eng_bufs := (eng_bufs lay).

(** A record on its way into an engine with a protected input. *)
Context (v : Z) (si : RI) (body : list Z) (ib : option Z) (il : Z).
Context (Hv : is_u16 v) (Hv3 : Z.shiftr v 8 = 3) (Hbody : Forall is_u8 body).
Context (Hpos : 0 < zlen body < 2 ^ 16) (Hchk : check_length si (zlen body) = true) (Hfit : 5 + zlen body <= il).
Notation wire := (record_header BR_SSL_APPLICATION_DATA v (zlen body) ++ body).
Notation total := (5 + zlen body).

(** [k] bytes of the record have arrived. *)
Definition receiving e (k : Z) : Prop :=
  eng_live e /\ (iomode e = BR_IO_IN \/ iomode e = BR_IO_INOUT) /\ shutdown_recv e = false /\
  incrypt e = true /\ application_data e = 1 /\ rin e = si /\ ibuf e = ib /\ ibuf_len e = il /\
  ixa e = k /\ ixb e = k /\ ixc e = (if k <? 5 then 5 - k else total - k) /\
  zslice (mem e) (ibase e) k = ztake k wire /\
  (if k <? 5 then version_in e = 0 \/ version_in e = v
   else record_type_in e = BR_SSL_APPLICATION_DATA /\ version_in e = v).

(** What the engine makes of the whole record. *)
Definition received e : Prop :=
  let '(s', data', r) := decrypt si BR_SSL_APPLICATION_DATA v body in
  match r with
  | None => br_ssl_engine_closed e = true /\ err e = BR_ERR_BAD_MAC /\ br_ssl_engine_recvapp_buf e = None
  | Some (off, n) => 0 < n ->
      eng_live e /\ rin e = s' /\ br_ssl_engine_recvapp_buf e = Some (default 0 ib + (5 + off), n) /\
      zslice (mem e) (default 0 ib + (5 + off)) n = zslice data' off n
  end.

Lemma zlen_wire : zlen wire = total.
Proof. rewrite zlen_app. cbn [length record_header app br_enc16be]. lia. Qed.
Lemma wire_bytes : Forall is_u8 wire.
Proof. apply Forall_app. split; [repeat constructor; apply u8_range|done]. Qed.

Lemma receiving_offer e k : receiving e k -> 0 <= k < total ->
  br_ssl_engine_recvrec_buf e = Some (ibase e + k, if k <? 5 then 5 - k else total - k).
Proof.
  intros (Hl & Hm & Hs & _ & _ & _ & _ & Hil & Ha & Hb & Hc & _) Hk.
  pose proof (bufs_facts e (proj1 Hl)). unfold br_ssl_engine_recvrec_buf, recvrec_buf.
  rewrite Hs, Ha, Hb, Hc, Hil. rewrite Z.eqb_refl. szsimp.
  replace (il - k <? (if k <? 5 then 5 - k else total - k)) with false by (symmetry; case_match; lia).
  by destruct Hm as [-> | ->].
Qed.

(** One piece of the record, written where the engine asked for it. *)
Definition piece e (k m : Z) : eng := e <| mem := zblit (mem e) (ibase e + k) (zslice wire k m) |>.

Lemma piece_facts e k m : receiving e k -> 0 <= k < total -> 0 < m <= (if k <? 5 then 5 - k else total - k) ->
  eng_live (piece e k m) /\ zlen (zslice wire k m) = m /\
  zslice (mem (piece e k m)) (ibase e) (k + m) = ztake (k + m) wire.
Proof.
  intros Hr Hk Hm. pose proof Hr as (Hl & _ & _ & _ & _ & _ & Hib & Hil & Ha & Hb & Hc & Hmem & _).
  pose proof Hl as (Hbufs & Hi & Ho). pose proof (bufs_facts e Hbufs). pose proof zlen_wire as Lw.
  assert (k + m <= total) by (case_match; lia).
  assert (zlen (zslice wire k m) = m) as Lp by (apply zlen_zslice; lia).
  pose proof (bufs_blit e (ibase e + k) (zslice wire k m) Hbufs (Forall_zslice _ _ _ _ wire_bytes)
    ltac:(lia) ltac:(lia)) as Hb1.
  split; [split; [exact Hb1|split; [exact Hi|exact Ho]]|]. split; [done|].
  unfold piece. eng_simpl. rewrite <- (zslice_app _ _ k m) by (rewrite ?zlen_zblit; lia).
  rewrite zslice_zblit_before by lia.
  pose proof (zslice_zblit_same (mem e) (ibase e + k) (zslice wire k m) ltac:(lia) ltac:(lia)) as Hs.
  rewrite Lp in Hs. rewrite Hs.
  rewrite Hmem. change (ztake k wire) with (zslice wire 0 k). replace k with (0 + k) at 2 by lia.
  rewrite zslice_app by lia. done.
Qed.

(** The engine after [recvrec_ack] is live as long as it has not failed. *)
Lemma piece_live e k m : receiving e k -> 0 <= k < total -> 0 < m <= (if k <? 5 then 5 - k else total - k) ->
  eng_inv (recvrec_ack (piece e k m) m).
Proof.
  intros Hr Hk Hm. destruct (piece_facts e k m Hr Hk Hm) as (Hl & _ & _).
  destruct Hr as (_ & _ & _ & _ & _ & _ & _ & Hil & Ha & Hb & Hc & _).
  apply recvrec_ack_inv; unfold piece; eng_simpl; [exact Hl|congruence|rewrite Hc; lia|].
  rewrite Hil, Ha. case_match; lia.
Qed.

(** A shared buffer turns to input. *)
Lemma input_mode e : iomode e = BR_IO_IN \/ iomode e = BR_IO_INOUT ->
  exists md, (if bool_decide (iomode e = BR_IO_INOUT) && shared e then e <| iomode := BR_IO_IN |> else e) =
    e <| iomode := md |> /\ (md = BR_IO_IN \/ md = BR_IO_INOUT).
Proof. intros Hm. case_match; [eauto|]. exists (iomode e). by destruct e. Qed.

(** [br_ssl_engine_recvrec_ack] after [recvrec_ack]. *)
Definition ack_rest e : option eng :=
  if br_ssl_engine_closed e then Some e
  else match recvpld_buf e with
  | None => Some e
  | Some (_, len) =>
      let t := record_type_in e in
      if (t =? BR_SSL_CHANGE_CIPHER_SPEC) || (t =? BR_SSL_ALERT) || (t =? BR_SSL_HANDSHAKE)
      then jump_handshake e 0
      else if (t =? BR_SSL_APPLICATION_DATA) && (application_data e =? 1) then Some e
      else if (t =? BR_SSL_APPLICATION_DATA) && (application_data e =? 2)
      then Some (recvpld_ack e len)
      else Some (br_ssl_engine_fail e BR_ERR_UNEXPECTED)
  end.
Lemma ack_split e n : br_ssl_engine_recvrec_ack e n = ack_rest (recvrec_ack e n).
Proof. unfold br_ssl_engine_recvrec_ack. cbv zeta. generalize (recvrec_ack e n). intros e1. unfold ack_rest. reflexivity. Qed.
Lemma open_mode e : iomode e = BR_IO_IN \/ iomode e = BR_IO_INOUT -> br_ssl_engine_closed e = false.
Proof. intros Hm. unfold br_ssl_engine_closed. apply bool_decide_eq_false. by destruct Hm as [-> | ->]. Qed.
Lemma ack_rest_idle e : iomode e = BR_IO_IN \/ iomode e = BR_IO_INOUT -> ixa e = ixb e -> ack_rest e = Some e.
Proof.
  intros Hm E. unfold ack_rest. rewrite open_mode by done. unfold recvpld_buf. rewrite E.
  assert (ixb e -! ixb e = 0) as -> by (unfold szsub; by rewrite Z.sub_diag).
  by destruct Hm as [-> | ->].
Qed.

(** A complete header is accepted. *)
Lemma header_step e : eng_bufs e -> zslice (mem e) (ibase e) 5 = ztake 5 wire ->
  incrypt e = true -> rin e = si -> ibuf_len e = il -> version_in e = 0 \/ version_in e = v ->
  recvrec_header e = e <| record_type_in := BR_SSL_APPLICATION_DATA |> <| version_in := v |>
    <| ixa := 5 |> <| ixb := 5 |> <| ixc := zlen body |>.
Proof.
  intros Hb Hmem Henc Hrin Hil Hver. pose proof (bufs_facts e Hb).
  assert (ztake 5 wire = record_header BR_SSL_APPLICATION_DATA v (zlen body)) as E.
  { rewrite ztake_app_le by (simpl length; lia). by apply ztake_ge. }
  rewrite E in Hmem.
  destruct (header_fields (mem e) (ibase e) BR_SSL_APPLICATION_DATA v (zlen body)) as (Ht & Hvv & Hll);
    [lia|lia|done|done|split; [lia|apply Hpos]|done|].
  unfold recvrec_header. eng_simpl. rewrite Ht, Hvv, Hll, Henc, Hv3, Hrin, Hchk, Hil. szsimp.
  change (negb (3 =? 3)) with false. cbv iota.
  replace (negb (version_in e =? 0) && negb (version_in e =? v)) with false
    by (destruct Hver as [-> | ->]; rewrite Z.eqb_refl, ?andb_false_r; done).
  replace (il - 5 <? zlen body) with false by lia. by replace (zlen body =? 0) with false by lia.
Qed.

(** Acknowledging a piece that does not complete the record. *)
Lemma ack_more e k m : receiving e k -> 0 <= k < total -> 0 < m <= (if k <? 5 then 5 - k else total - k) ->
  k + m < total ->
  exists e', br_ssl_engine_recvrec_ack (piece e k m) m = Some e' /\ receiving e' (k + m).
Proof.
  intros Hr Hk Hm Hlt. destruct (piece_facts e k m Hr Hk Hm) as (Hl1 & _ & Hmem).
  pose proof (piece_live e k m Hr Hk Hm) as Hinv.
  destruct Hr as (Hl & Hmode & Hs & Henc & Happ & Hrin & Hib & Hil & Ha & Hb & Hc & _ & Hh).
  pose proof (bufs_facts e (proj1 Hl)). rewrite ack_split. revert Hinv. unfold recvrec_ack.
  destruct (input_mode (piece e k m) Hmode) as (md & -> & Hmd).
  unfold piece in *. eng_simpl. eng_simpl_in Hmem. rewrite Ha, Hc. szsimp.
  assert ((if k <? 5 then 5 - k else total - k) -! m = (if k <? 5 then 5 - k else total - k) - m) as ->
    by (apply szsub_small; case_match; lia).
  set (e1 := e <| mem := _ |>) in *.
  destruct (Z.ltb_spec (k + m) 5) as [H5|H5]; [|destruct (Z.eqb_spec (k + m) 5) as [E5|E5]].
  - replace (k <? 5) with true in * by lia. set (e2 := e1 <| iomode := md |> <| ixa := _ |> <| ixb := _ |> <| ixc := _ |>).
    intros Hinv. exists e2. rewrite ack_rest_idle by done. split; [done|].
    assert (eng_live e2) as Hl2 by (apply eng_inv_live; [done|subst e2; eng_simpl; by destruct Hmd as [-> | ->]]).
    unfold receiving. replace (k + m <? 5) with true by lia. subst e2. eng_simpl.
    repeat (split; [done|]). split; [lia|]. split; [exact Hmem|exact Hh].
  - replace (k <? 5) with true in * by lia.
    rewrite header_step; [|exact (proj1 Hl1)|subst e1; eng_simpl; rewrite <- E5; exact Hmem|done|done|done|exact Hh].
    set (e2 := e1 <| iomode := md |> <| ixa := _ |> <| ixb := _ |> <| ixc := _ |> <| record_type_in := _ |>
      <| version_in := _ |> <| ixa := _ |> <| ixb := _ |> <| ixc := _ |>).
    intros Hinv. exists e2. rewrite ack_rest_idle by done. split; [done|].
    assert (eng_live e2) as Hl2 by (apply eng_inv_live; [done|subst e2; eng_simpl; by destruct Hmd as [-> | ->]]).
    unfold receiving. rewrite E5 in *. change (5 <? 5) with false. subst e2. eng_simpl.
    repeat (split; [done|]). split; [lia|]. split; [exact Hmem|done].
  - replace (k <? 5) with false in * by (case_match; lia). rewrite Henc. cbn [negb].
    replace (negb (total - k - m =? 0)) with true by lia.
    set (e2 := e1 <| iomode := md |> <| ixa := _ |> <| ixb := _ |> <| ixc := _ |>).
    intros Hinv. exists e2. rewrite ack_rest_idle by done. split; [done|].
    assert (eng_live e2) as Hl2 by (apply eng_inv_live; [done|subst e2; eng_simpl; by destruct Hmd as [-> | ->]]).
    unfold receiving. replace (k + m <? 5) with false by lia. subst e2. eng_simpl.
    repeat (split; [done|]). split; [lia|]. split; [exact Hmem|exact Hh].
Qed.

(** Acknowledging the piece that completes it. *)
Lemma ack_last e k m : receiving e k -> 5 <= k -> 0 < m -> k + m = total ->
  exists e', br_ssl_engine_recvrec_ack (piece e k m) m = Some e' /\ received e'.
Proof.
  intros Hr Hk Hm Heq. assert (0 <= k < total) as Hk' by lia.
  assert (0 < m <= (if k <? 5 then 5 - k else total - k)) as Hm' by (case_match; lia).
  destruct (piece_facts e k m Hr Hk' Hm') as (Hl1 & Lp & Hmem).
  pose proof (piece_live e k m Hr Hk' Hm') as Hinv.
  destruct Hr as (Hl & Hmode & Hs & Henc & Happ & Hrin & Hib & Hil & Ha & Hb & Hc & _ & Hh).
  pose proof (bufs_facts e (proj1 Hl)). rewrite ack_split. revert Hinv. unfold recvrec_ack.
  destruct (input_mode (piece e k m) Hmode) as (md & -> & Hmd).
  unfold piece in *. eng_simpl. eng_simpl_in Hmem. rewrite Ha, Hc. szsimp.
  replace (k <? 5) with false in * by (case_match; lia). destruct Hh as [Ht Hver]. szsimp.
  replace (k + m <? 5) with false by lia. replace (k + m =? 5) with false by lia. rewrite Henc. cbn [negb].
  replace (negb (total - k - m =? 0)) with false by lia.
  set (e1 := e <| mem := _ |>) in *. rewrite Heq in *.
  set (e2 := e1 <| iomode := md |> <| ixa := _ |> <| ixb := _ |> <| ixc := _ |>).
  assert (zslice (mem e2) (ibase e2 + 5) (ixa e2 -! 5) = body) as Hdata.
  { subst e2 e1. eng_simpl. szsimp. replace (total - 5) with (zlen body) by lia.
    rewrite <- (zslice_zslice _ (ibase e) total 5 (zlen body)) by (rewrite ?zlen_zblit by lia; lia).
    rewrite Hmem, ztake_ge by (rewrite zlen_wire; lia).
    rewrite (zslice_app_r (record_header _ _ _)) by done. apply zslice_all. }
  unfold recvrec_decrypt. rewrite Hdata.
  change (rin e2) with (rin e). change (record_type_in e2) with (record_type_in e).
  change (version_in e2) with (version_in e). rewrite Hrin, Ht, Hver. unfold received.
  destruct (decrypt si BR_SSL_APPLICATION_DATA v body) as [[s' data'] [[off n]|]] eqn:Hdec.
  - destruct (decrypt_law _ _ _ _ _ _ _ Hbody Hchk Hdec) as (Ld & _ & Hr). destruct (Hr off n eq_refl) as (? & ? & ?).
    change (ibase e2) with (ibase e). szsimp. subst e2 e1. eng_simpl.
    assert (5 + off <= total) by lia.
    destruct (Z.eqb_spec (5 + off) (5 + off + n)) as [E|E].
    { intros _. eexists. split; [|lia]. apply ack_rest_idle. 2:{ unfold make_ready_in. eng_simpl. by destruct Hmd as [-> | ->]. }
      unfold make_ready_in. eng_simpl. destruct Hmd as [-> | ->]; eng_simpl; auto. }
    match goal with |- eng_inv ?x -> _ => set (e3 := x) end. intros Hinv.
    assert (iomode e3 = BR_IO_IN \/ iomode e3 = BR_IO_INOUT) as Hm3 by done.
    assert (recvpld_buf e3 = Some (default 0 ib + (5 + off), n)) as Hbuf.
    { unfold recvpld_buf. subst e3. eng_simpl. szsimp. replace (5 + off + n - (5 + off)) with n by lia.
      replace (n =? 0) with false by lia. rewrite Hib. by destruct Hmd as [-> | ->]. }
    exists e3. split.
    { unfold ack_rest. rewrite open_mode, Hbuf by done. subst e3. eng_simpl. by rewrite Ht, Happ. }
    intros _. split; [apply eng_inv_live; [done|by destruct Hm3 as [-> | ->]]|]. split; [done|]. split.
    { unfold br_ssl_engine_recvapp_buf, app_ok. rewrite Hbuf. subst e3. eng_simpl. by rewrite Ht, Happ. }
    subst e3. eng_simpl. rewrite <- Hib.
    replace (ibase e + (5 + off)) with (ibase e + 5 + off) by lia.
    rewrite <- (zslice_zslice _ (ibase e + 5) (zlen data') off n) by (rewrite ?zlen_zblit; rewrite ?zlen_zblit; lia).
    by rewrite zslice_zblit_same by (rewrite ?zlen_zblit; lia).
  - intros _. unfold br_ssl_engine_fail. subst e2 e1. eng_simpl.
    eexists. split.
    { unfold ack_rest, br_ssl_engine_closed. destruct Hmd as [-> | ->]; eng_simpl; reflexivity. }
    unfold br_ssl_engine_closed, br_ssl_engine_recvapp_buf, recvpld_buf.
    destruct Hmd as [-> | ->]; eng_simpl; (split; [done|split; [done|by case_match]]).
Qed.

(** A transport: each read takes at least one byte, and at most what the engine
    asked for; [sizes] is how much each read brings. *)
Fixpoint feed (sizes : list nat) e (w : list Z) : option eng :=
  match w with
  | [] => Some e
  | _ =>
      match sizes, br_ssl_engine_recvrec_buf e with
      | s :: sizes, Some (p, n) =>
          let m := Z.min (1 + Z.of_nat s) (Z.min n (zlen w)) in
          e ← br_ssl_engine_recvrec_ack (e <| mem := zblit (mem e) p (ztake m w) |>) m;
          feed sizes e (zdrop m w)
      | _, _ => None
      end
  end.

Lemma feed_record : forall sizes e k, receiving e k -> 0 <= k < total -> total - k <= zlen sizes ->
  exists e', feed sizes e (zdrop k wire) = Some e' /\ received e'.
Proof.
  induction sizes as [|s sizes IH]; intros e k Hr Hk Hs; [cbn in Hs; lia|].
  pose proof zlen_wire as Lw. assert (zlen (zdrop k wire) = total - k) as Ld by (rewrite zlen_zdrop; lia).
  cbn [feed]. destruct (zdrop k wire) as [|x w] eqn:Ew; [cbn in Ld; lia|]. rewrite <- Ew in *.
  rewrite (receiving_offer e k Hr Hk). set (m := Z.min _ _).
  assert (0 < m <= (if k <? 5 then 5 - k else total - k) /\ m <= total - k) as [Hm Hm']
    by (subst m; rewrite Ld; case_match; lia).
  change (ztake m (zdrop k wire)) with (zslice wire k m). fold (piece e k m).
  rewrite zdrop_zdrop by lia.
  destruct (decide (k + m < total)) as [Hlt|Hge].
  - destruct (ack_more e k m Hr Hk Hm Hlt) as (e1 & -> & Hr1). cbn [mbind option_bind].
    apply IH; [done|lia|cbn in Hs; lia].
  - assert (5 <= k) by (case_match; lia).
    destruct (ack_last e k m Hr) as (e1 & -> & Hr1); [lia|lia|lia|]. cbn [mbind option_bind].
    exists e1. split; [|done]. rewrite zdrop_ge by lia. by destruct sizes.
Qed.
End receive.

(** ** A record from one engine to another *)

Section cross.
Context {RI RO HS HS' : Type} `{!RecordIn RI} `{!RecordOut RO} `{!Handshake RI RO HS} `{!Handshake RI RO HS'}.
Context `{!RecordInLaws RI} `{!RecordOutLaws RO} `{!HandshakeLaws RI RO HS} `{!HandshakeLaws RI RO HS'}.
Context (linked : RO -> RI -> Prop) `{!RecordLink linked}.
Context {lay lay' : layout}.

(** Flushing the gathered bytes of a protected output. *)
Lemma flush_enc_emit (e : engine RI RO HS) force so si a b len :
  eng_bufs lay e -> iomode e = BR_IO_OUT \/ iomode e = BR_IO_INOUT ->
  rout e = OutEnc so -> max_plaintext so 5 (obuf_len e - 5) = (a, b) -> linked so si ->
  oxc e = a -> oxa e = a + len -> oxb e <> oxa e -> 0 < len -> a + len <= b ->
  is_u8 (record_type_out e) -> is_u16 (version_out e) ->
  let e' := sendpld_flush e force in
  oxa e' = oxb e' /\ exists so' p body si' data' off,
    rout e' = OutEnc so' /\ linked so' si' /\ zlen body < 2 ^ 16 /\ Forall is_u8 body /\
    br_ssl_engine_sendrec_buf e' = Some (obase e + p, 5 + zlen body) /\
    zslice (mem e') (obase e + p) (5 + zlen body) =
      record_header (record_type_out e) (version_out e) (zlen body) ++ body /\
    check_length si (zlen body) = true /\
    decrypt si (record_type_out e) (version_out e) body = (si', data', Some (off, len)) /\
    zslice data' off len = zslice (mem e) (obase e + a) len.
Proof.
  intros Hb Hm Ho Hmax Hlk Hc Hx Hy Hlen Hfit Ht Hv. pose proof (bufs_facts e Hb).
  set (ob := zslice (mem e) (obase e) (obuf_len e)).
  assert (zlen ob = obuf_len e) as Lo by (apply zlen_zslice; lia).
  pose proof (max_plaintext_law so (obuf_len e - 5) a b ltac:(lia) Hmax) as [Ha Hb'].
  rewrite <- Lo in Hmax. assert (Forall is_u8 ob) as Bo by (apply Forall_zslice, (bufs_bytes e Hb)).
  destruct (link_law so si (record_type_out e) (version_out e) ob a b len Hlk Bo ltac:(lia) Hmax Hlen Hfit Ht Hv)
    as (so' & buf' & p & body & si' & data' & off & Henc & H16 & Hbb & Hw & Hchk & Hdec & Hdata & Hlk').
  destruct (encrypt_law so _ _ ob len a b _ _ _ _ Bo ltac:(lia) Hmax ltac:(lia) Hfit Henc) as (L' & _ & ? & _ & ?).
  unfold sendpld_flush. replace (oxa e =? oxb e) with false by lia. rewrite Hx, Hc. szsimp.
  replace (a + len - a) with len by lia. replace (len =? 0) with false by lia.
  rewrite Ho. unfold out_encrypt. cbn [andb negb]. fold ob. rewrite Henc.
  eng_simpl. szsimp. split; [done|]. exists so', p, body, si', data', off.
  do 4 (split; [done|]). split.
  { unfold br_ssl_engine_sendrec_buf, sendrec_buf. eng_simpl. szsimp.
    replace (p <? p + (5 + zlen body)) with true by lia.
    replace (p + (5 + zlen body) - p) with (5 + zlen body) by lia. by destruct Hm as [-> | ->]. }
  split.
  { rewrite <- Hw. rewrite <- (zslice_zslice _ (obase e) (zlen buf') p) by (rewrite ?zlen_zblit; lia).
    by rewrite zslice_zblit_same by lia. }
  split; [done|]. split; [done|]. rewrite Hdata. unfold ob. by rewrite zslice_zslice by lia.
Qed.

(** Bytes handed to [sendapp], then flushed, are on offer as one protected record. *)
Lemma app_record_protected (e : engine RI RO HS) so si p n bs :
  eng_live lay e -> rout e = OutEnc so -> oxa e = oxc e -> linked so si ->
  is_u8 (record_type_out e) -> is_u16 (version_out e) ->
  br_ssl_engine_sendapp_buf e = Some (p, n) -> Forall is_u8 bs -> 0 < zlen bs <= n ->
  let e' := br_ssl_engine_flush (br_ssl_engine_sendapp_ack (e <| mem := zblit (mem e) p bs |>) (zlen bs)) false in
  exists so' q body si' data' off,
    rout e' = OutEnc so' /\ linked so' si' /\ zlen body < 2 ^ 16 /\ Forall is_u8 body /\
    br_ssl_engine_sendrec_buf e' = Some (q, 5 + zlen body) /\
    zslice (mem e') q (5 + zlen body) = record_header (record_type_out e) (version_out e) (zlen body) ++ body /\
    check_length si (zlen body) = true /\
    decrypt si (record_type_out e) (version_out e) body = (si', data', Some (off, zlen bs)) /\
    zslice data' off (zlen bs) = bs.
Proof.
  intros Hl Ho Hxc Hlk Ht Hv Hbuf Hbs Hn e'. unfold br_ssl_engine_sendapp_buf in Hbuf.
  destruct (app_ok e) eqn:Hok; [|done].
  destruct (sendpld_buf_inv e p n (eng_live_inv _ Hl) Hbuf) as (_ & -> & _ & ? & -> & Hpos & _).
  pose proof Hl as (Hb & _ & Hout). pose proof (bufs_facts e Hb).
  assert (exists a b, max_plaintext so 5 (obuf_len e - 5) = (a, b) /\ oxc e = a /\ 5 <= a /\ oxb e <= b)
    as (a & b & Hmax & Hca & Ha5 & Hyb).
  { unfold eng_out in Hout. rewrite Ho in Hout. cbn [out_max_plaintext] in Hout.
    inversion Hout as [a b x y Hr|]; [|lia]. exists (oxc e), b. split; [exact Hr|]. lia. }
  pose proof (bufs_blit e (obase e + oxa e) bs Hb Hbs ltac:(lia) ltac:(lia)) as Hb1.
  assert (zslice (zblit (mem e) (obase e + a) bs) (obase e + a) (zlen bs) = bs) as Hrd
    by (apply zslice_zblit_same; lia).
  subst e'. unfold br_ssl_engine_sendapp_ack, sendpld_ack.
  set (e0 := if _ && _ then _ else _).
  assert (eng_bufs lay e0 /\ rout e0 = OutEnc so /\ oxa e0 = a /\ oxb e0 = oxb e /\ oxc e0 = a /\
          obase e0 = obase e /\ obuf_len e0 = obuf_len e /\
          (iomode e0 = BR_IO_OUT \/ iomode e0 = BR_IO_INOUT) /\
          app_ok e0 = true /\ mem e0 = zblit (mem e) (obase e + a) bs /\
          record_type_out e0 = record_type_out e /\ version_out e0 = version_out e)
    as (Hb0 & Ho0 & Hx0 & Hy0 & Hc0 & Hp0 & Hl0 & Hm0 & Ha0 & Hmem & Ht0 & Hv0).
  { assert (iomode e = BR_IO_OUT \/ iomode e = BR_IO_INOUT) as Hm
      by (unfold sendpld_buf in Hbuf; destruct (iomode e); auto; done).
    subst e0. rewrite Hxc, Hca in *. case_match; (split; [exact Hb1|]); eng_simpl; repeat split; auto; lia. }
  clearbody e0. rewrite <- Hmem, <- Hp0 in Hrd. rewrite <- Ht0, <- Hv0 in *. rewrite Hx0. szsimp.
  eng_simpl. rewrite Hy0. case_match eqn:Hfull; szsimp.
  - set (e3 := e0 <| oxa := _ |> <| oxb := _ |>).
    destruct (flush_enc_emit e3 false so si a b (zlen bs)) as (Hab & so' & p' & body & si' & data' & off & R);
      subst e3; eng_simpl; try done; try lia; try congruence.
    rewrite (flush_idle _ _ Hab). eng_simpl_in R. rewrite Hrd in R.
    exists so', (obase e0 + p'), body, si', data', off. exact R.
  - set (e3 := e0 <| oxa := _ |>).
    destruct (flush_enc_emit e3 false so si a b (zlen bs)) as (Hab & so' & p' & body & si' & data' & off & R);
      subst e3; eng_simpl; try done; try lia; try congruence.
    rewrite flush_open by (eng_simpl; destruct Hm0; congruence || exact Ha0).
    eng_simpl_in R. rewrite Hrd in R.
    exists so', (obase e0 + p'), body, si', data', off. exact R.
Qed.

(** An engine that waits for a protected record, open for application data. *)
Definition awaiting_protected (r : engine RI RO HS') (v : Z) : Prop :=
  eng_live lay' r /\ (iomode r = BR_IO_IN \/ iomode r = BR_IO_INOUT) /\ shutdown_recv r = false /\
  incrypt r = true /\ ixa r = 0 /\ ixb r = 0 /\ application_data r = 1 /\
  is_u16 v /\ Z.shiftr v 8 = 3 /\ (version_in r = 0 \/ version_in r = v).

Lemma awaiting_receiving r v body : awaiting_protected r v ->
  receiving (lay := lay') v (rin r) body (ibuf r) (ibuf_len r) r 0.
Proof.
  intros (Hl & Hm & Hs & He & Hx & Hy & Ha & _ & _ & Hv). pose proof Hl as (Hb & Hi & _).
  assert (ixc r = 5) as Hc. { unfold eng_in in Hi. rewrite Hx, Hy in Hi. apply in_regs_waiting in Hi. lia. }
  unfold receiving. repeat (split; [done|]). exact Hv.
Qed.
Lemma feed_awaiting r v body sizes : awaiting_protected r v -> Forall is_u8 body -> 0 < zlen body < 2 ^ 16 ->
  check_length (rin r) (zlen body) = true -> 5 + zlen body <= ibuf_len r -> 5 + zlen body <= zlen sizes ->
  exists r', feed sizes r (record_header BR_SSL_APPLICATION_DATA v (zlen body) ++ body) = Some r' /\
    received (lay := lay') v (rin r) body (ibuf r) r'.
Proof.
  intros Hr Hb Hp Hc Hf Hs. pose proof (awaiting_receiving r v body Hr) as H0.
  destruct Hr as (_ & _ & _ & _ & _ & _ & _ & Hv & Hv3 & _).
  destruct (feed_record v (rin r) body (ibuf r) (ibuf_len r) Hv Hv3 Hb Hp Hc Hf sizes r 0 H0) as (r' & E & R); [lia|lia|].
  rewrite zdrop_0 in E. eauto.
Qed.

(** C9: end to end through two engines with linked record protections.  Bytes
    written to the sender's [sendapp] buffer and flushed are on offer to the
    transport as one protected record; a transport that brings this record to a
    waiting receiver in any pieces puts the same bytes in its [recvapp] buffer, and
    leaves the two protections linked for the next record. *)
Theorem protected_data_crosses (e : engine RI RO HS) (r : engine RI RO HS') so p n bs :
  eng_live lay e -> rout e = OutEnc so -> oxa e = oxc e ->
  record_type_out e = BR_SSL_APPLICATION_DATA -> linked so (rin r) ->
  br_ssl_engine_sendapp_buf e = Some (p, n) -> Forall is_u8 bs -> 0 < zlen bs <= n ->
  awaiting_protected r (version_out e) ->
  exists e' q wire,
    br_ssl_engine_flush
      (br_ssl_engine_sendapp_ack (e <| mem := zblit (mem e) p bs |>) (zlen bs)) false = e' /\
    br_ssl_engine_sendrec_buf e' = Some (q, zlen wire) /\ zslice (mem e') q (zlen wire) = wire /\
    (zlen wire <= ibuf_len r -> forall sizes, zlen wire <= zlen sizes -> exists r' q' so',
      feed sizes r wire = Some r' /\
      br_ssl_engine_recvapp_buf r' = Some (q', zlen bs) /\ zslice (mem r') q' (zlen bs) = bs /\
      rout e' = OutEnc so' /\ linked so' (rin r') /\ eng_live lay' r').
Proof.
  intros Hl Ho Hx Ht Hlk Hbuf Hbs Hn Hr. pose proof Hr as (_ & _ & _ & _ & _ & _ & _ & Hv & _).
  destruct (app_record_protected e so (rin r) p n bs) as
    (so' & q & body & si' & data' & off & Hro & Hlk' & H16 & Hbb & Hsr & Hw & Hchk & Hdec & Hdata); try done.
  { by rewrite Ht. }
  set (e' := br_ssl_engine_flush _ _) in *. rewrite Ht in Hw, Hdec.
  set (wire := record_header BR_SSL_APPLICATION_DATA (version_out e) (zlen body) ++ body) in Hw.
  assert (zlen wire = 5 + zlen body) as Lw by (unfold wire; rewrite zlen_app; simpl length; lia).
  destruct (decrypt_law _ _ _ _ _ _ _ Hbb Hchk Hdec) as (_ & _ & Hr'). destruct (Hr' off (zlen bs) eq_refl) as (? & _ & ?).
  exists e', q, wire. rewrite Lw. repeat (split; [done|]). intros Hfit sizes Hs.
  destruct (feed_awaiting r (version_out e) body sizes Hr Hbb ltac:(lia) Hchk Hfit Hs) as (r' & Hfeed & Hrec).
  unfold received in Hrec. rewrite Hdec in Hrec. destruct Hrec as (Hl' & Hrin & Happ & Hd); [lia|].
  eexists r', _, so'. split; [exact Hfeed|]. split; [exact Happ|]. rewrite Hd, Hrin. done.
Qed.
End cross.
