(* ===== verification/RecChapol.v ===== *)
(** * RecChapol: ssl_rec_chapol.c, record protection with ChaCha20+Poly1305

    The context of a direction; the pointers to the cipher and to the MAC are the
    parameters [ichacha] and [ipoly].  [AeadRun] is what the record layer relies on,
    [poly1305_ctmul.c] over any stream cipher has it; with it the record protection
    satisfies the engine's laws, and two contexts with the same keys are linked. *)
From S2P Require Import Prelude.
From S2P Require Import Words.
From S2P Require Import Engine.
From S2P Require Import EngineSpec.
From S2P Require Import ChaCha20.
From S2P Require Import Poly1305.
From S2P Require Import RecordLink.

(** ** The code *)

Section code.
Context (ichacha : br_chacha20_run) (ipoly : br_poly1305_run).

Record br_sslrec_chapol_context : Type := Chapol { rec_seq : Z; rec_key : list Z; rec_iv : list Z }.

Definition gen_chapol_init (key iv : list Z) : br_sslrec_chapol_context :=
  Chapol 0 (ztake 32 key) (ztake 12 iv).
Definition in_chapol_init := gen_chapol_init.
Definition out_chapol_init := gen_chapol_init.

(** [for (u = 0; u < 8; u ++) { nonce[11 - u] ^= (unsigned char)seq; seq >>= 8; }] *)
Definition chapol_nonce (iv : list Z) (seq : Z) : list Z :=
  ztake 4 iv ++ zxor (zdrop 4 iv) (map (fun u => u8 (Z.shiftr seq (8 * u))) [7; 6; 5; 4; 3; 2; 1; 0]).

(** The new context, the data and the tag. *)
Definition gen_chapol_process (cc : br_sslrec_chapol_context) (record_type version : Z) (data : list Z)
    (encrypt : bool) : br_sslrec_chapol_context * list Z * list Z :=
  let header := record_ad (rec_seq cc) record_type version (zlen data) in
  let nonce := chapol_nonce (rec_iv cc) (rec_seq cc) in
  let '(data, tag) := ipoly (rec_key cc) nonce data header ichacha encrypt in
  (Chapol (u64 (rec_seq cc + 1)) (rec_key cc) (rec_iv cc), data, tag).

Definition chapol_check_length (cc : br_sslrec_chapol_context) (rlen : Z) : bool :=
  (16 <=? rlen) && (rlen <=? 16384 + 16).

(** [bad |= tag[u] ^ buf[len + u]]. *)
Definition tag_differs (tag buf : list Z) : bool :=
  negb (fold_left Z.lor (zxor tag buf) 0 =? 0).

Definition chapol_decrypt (cc : br_sslrec_chapol_context) (record_type version : Z) (data : list Z)
    : br_sslrec_chapol_context * list Z * option (Z * Z) :=
  let len := zlen data -! 16 in
  let '(cc, plain, tag) := gen_chapol_process cc record_type version (ztake len data) false in
  (cc, plain ++ zdrop len data, if tag_differs tag (zdrop len data) then None else Some (0, len)).

Definition chapol_max_plaintext (cc : br_sslrec_chapol_context) (start end_ : Z) : Z * Z :=
  let len := end_ -! start -! 16 in
  let len := if 16384 <? len then 16384 else len in
  (start, start +! len).

(** The data is at [off] of [buf]; the tag is written behind it, the header in
    front of it. *)
Definition chapol_encrypt (cc : br_sslrec_chapol_context) (record_type version : Z) (buf : list Z) (off len : Z)
    : br_sslrec_chapol_context * list Z * Z * Z :=
  let '(cc, data, tag) := gen_chapol_process cc record_type version (zslice buf off len) true in
  (cc, put_record buf (off - 5) record_type version (len +! 16) (data ++ tag), off - 5, len +! 21).

#[export] Instance chapol_in : RecordIn br_sslrec_chapol_context :=
  { check_length := chapol_check_length; decrypt := chapol_decrypt }.
#[export] Instance chapol_out : RecordOut br_sslrec_chapol_context :=
  { max_plaintext := chapol_max_plaintext; encrypt := chapol_encrypt }.
End code.

(** ** The interface of the AEAD function *)

Class AeadRun (ichacha : br_chacha20_run) (ipoly : br_poly1305_run) : Prop := {
  aead_run : forall k iv data aad enc d t,
    Forall is_u8 data -> Forall is_u8 aad -> zlen data < 2 ^ 64 -> zlen aad < 2 ^ 64 ->
    ipoly k iv data aad ichacha enc = (d, t) ->
    zlen d = zlen data /\ Forall is_u8 d /\ zlen t = 16 /\ Forall is_u8 t;
  aead_open : forall k iv data aad d t, ipoly k iv data aad ichacha true = (d, t) ->
    ipoly k iv d aad ichacha false = (data, t) }.

#[export] Instance ctmul_aead ichacha `{!StreamCipher ichacha} : AeadRun ichacha br_poly1305_ctmul_run.
Proof.
  split.
  - assert (is_u32 1) as H1 by (unfold is_u32; lia). intros k iv data aad enc d t Hd Ha Ld La E.
    destruct (ctmul_run_spec ichacha k iv data aad enc Hd Ha Ld La) as (x & E' & _).
    pose proof (run_length ichacha k iv 1 data H1) as L.
    pose proof (run_bytes ichacha k iv 1 data H1 Hd) as B.
    rewrite E in E'. apply pair_equal_spec in E' as [E1 E2]. rewrite E1, E2.
    exact (conj L (conj B (conj (zlen_le_bytes 16 _) (le_bytes_u8 16 _)))).
  - intros k iv data aad d t. rewrite !ctmul_run_eq. intros E. apply pair_equal_spec in E as [<- <-].
    by rewrite run_twice.
Qed.

(** ** Lemmas *)

Lemma lor_fold_zero l a : fold_left Z.lor l a = 0 <-> a = 0 /\ Forall (eq 0) l.
Proof.
  revert a. induction l as [|x l IH]; intros a; cbn [fold_left]; [by intuition|].
  rewrite IH, Z.lor_eq_0_iff, Forall_cons. intuition.
Qed.
Lemma tag_differs_false t b : zlen t = zlen b -> tag_differs t b = false <-> t = b.
Proof.
  intros L. unfold tag_differs. rewrite negb_false_iff, Z.eqb_eq, lor_fold_zero. unfold zxor.
  assert (length t = length b) as L' by lia. clear L. revert b L'.
  induction t as [|x t IH]; intros [|y b] L; try done. cbn [zip_with].
  rewrite Forall_cons. split.
  - intros (_ & E & F). symmetry in E. apply Z.lxor_eq in E as ->. f_equal. apply IH; [by injection L|]. done.
  - intros [= -> ->]. split; [done|]. split; [by rewrite Z.lxor_nilpotent|]. by apply IH.
Qed.

Section laws.
Context {ichacha : br_chacha20_run} {ipoly : br_poly1305_run} `{!AeadRun ichacha ipoly}.
#[local] Existing Instance chapol_in.
#[local] Existing Instance chapol_out.
Notation ctx := (br_sslrec_chapol_context).
Implicit Types cc : ctx.


Lemma process_spec cc t v data enc cc' d tag : Forall is_u8 data -> zlen data < 2 ^ 62 ->
  gen_chapol_process ichacha ipoly cc t v data enc = (cc', d, tag) ->
  cc' = Chapol (u64 (rec_seq cc + 1)) (rec_key cc) (rec_iv cc) /\
  zlen d = zlen data /\ Forall is_u8 d /\ zlen tag = 16 /\ Forall is_u8 tag.
Proof.
  intros Hd Hl. unfold gen_chapol_process. destruct (ipoly _ _ _ _ _ _) as [d0 t0] eqn:E.
  intros [= <- <- <-]. split; [done|]. eapply aead_run; [exact Hd|apply record_ad_bytes|lia|done|exact E].
Qed.
Lemma process_open cc t v data cc' d tag : Forall is_u8 data -> zlen data < 2 ^ 62 ->
  gen_chapol_process ichacha ipoly cc t v data true = (cc', d, tag) ->
  gen_chapol_process ichacha ipoly cc t v d false = (cc', data, tag).
Proof.
  intros Hd Hl E. destruct (process_spec _ _ _ _ _ _ _ _ Hd Hl E) as (-> & L & _). revert E.
  unfold gen_chapol_process. rewrite L. destruct (ipoly _ _ data _ _ _) as [d0 t0] eqn:E0.
  intros [= <- <-]. by rewrite (aead_open _ _ _ _ _ _ E0).
Qed.

Lemma chapol_max_plaintext_law cc b a' b' :
  592 <= b < 2 ^ 62 -> chapol_max_plaintext cc 5 b = (a', b') -> a' = 5 /\ 5 < b' /\ b' + 16 <= b /\ b' <= 16389.
Proof.
  unfold chapol_max_plaintext. intros Hb. rewrite (szsub_small b 5), (szsub_small (b - 5) 16) by lia.
  destruct (Z.ltb_spec 16384 (b - 5 - 16)); intros [= <- <-]; szsimp; lia.
Qed.

#[export] Instance chapol_in_laws : @RecordInLaws ctx (chapol_in ichacha ipoly).
Proof.
  split. intros cc t v data cc' data' r Hd. cbn. unfold chapol_check_length. intros Hc.
  apply andb_prop in Hc as [H1 H2]. unfold chapol_decrypt. szsimp.
  destruct (gen_chapol_process _ _ _ _ _ _ _) as [[c1 d] tag] eqn:E. intros [= <- <- <-].
  assert (zlen (ztake (zlen data - 16) data) = zlen data - 16) as L by (apply zlen_ztake; lia).
  apply process_spec in E as (_ & Ld & Hbd & _); [|by apply Forall_ztake|lia].
  split; [apply Nat2Z.inj; rewrite zlen_app, zlen_zdrop; lia|]. split.
  { apply Forall_app. split; [done|by apply Forall_zdrop]. }
  intros off n. case_match; [done|]. intros [= <- <-]. lia.
Qed.

(** The wire form of an encrypted record. *)
Lemma chapol_encrypt_spec cc t v buf len a b : Forall is_u8 buf -> 597 <= zlen buf < 2 ^ 62 ->
  chapol_max_plaintext cc 5 (zlen buf - 5) = (a, b) -> 0 <= len -> a + len <= b ->
  exists d tag buf', a = 5 /\ len <= 16384 /\
    gen_chapol_process ichacha ipoly cc t v (zslice buf 5 len) true =
      (Chapol (u64 (rec_seq cc + 1)) (rec_key cc) (rec_iv cc), d, tag) /\
    zlen d = len /\ zlen tag = 16 /\ Forall is_u8 (d ++ tag) /\
    chapol_encrypt ichacha ipoly cc t v buf a len =
      (Chapol (u64 (rec_seq cc + 1)) (rec_key cc) (rec_iv cc), buf', 0, 5 + (len + 16)) /\
    length buf' = length buf /\ Forall is_u8 buf' /\
    zslice buf' 0 (5 + (len + 16)) = record_header t v (len + 16) ++ d ++ tag.
Proof.
  intros Hb Hl Hm Hlen Hab. destruct (chapol_max_plaintext_law cc (zlen buf - 5) a b ltac:(lia) Hm) as (-> & _ & Hb' & H16).
  unfold chapol_encrypt.
  destruct (gen_chapol_process ichacha ipoly cc t v (zslice buf 5 len) true) as [[c1 d] tag] eqn:E.
  assert (zlen (zslice buf 5 len) = len) as L5 by (apply zlen_zslice; lia).
  destruct (process_spec cc t v (zslice buf 5 len) true c1 d tag (Forall_zslice _ _ _ _ Hb) ltac:(lia) E) as (-> & Ld & Hd & Lt & Ht).
  change (5 - 5) with 0. szsimp. assert (zlen (d ++ tag) = len + 16) as Ldt by (rewrite zlen_app; lia).
  assert (Forall is_u8 (d ++ tag)) as Bdt by by apply Forall_app.
  destruct (put_record_spec buf 0 t v (len + 16) (d ++ tag) Hb Bdt) as (L & B & W); [lia|lia|].
  rewrite Ldt in W. exists d, tag, (put_record buf 0 t v (len + 16) (d ++ tag)).
  split; [done|]. split; [lia|]. split; [done|]. split; [lia|]. do 2 (split; [done|]).
  replace (len + 21) with (5 + (len + 16)) by lia. split; [done|]. split; [lia|]. done.
Qed.

#[export] Instance chapol_out_laws : @RecordOutLaws ctx (chapol_out ichacha ipoly).
Proof.
  split.
  - cbn. intros cc b a' b' Hb E. apply chapol_max_plaintext_law in E; lia.
  - cbn. intros cc t v buf len a b s' buf' p n Hb Hl Hm Hlen Hab E.
    destruct (chapol_encrypt_spec cc t v buf len a b Hb Hl Hm Hlen Hab) as
      (d & tag & buf2 & -> & H16 & _ & _ & _ & _ & E' & L & B & _).
    pose proof (chapol_max_plaintext_law cc (zlen buf - 5) _ b ltac:(lia) Hm).
    rewrite E in E'. injection E' as -> -> -> ->. repeat split; try done; lia.
Qed.

(** Two contexts with the same key, IV and sequence number. *)
#[export] Instance chapol_link : @RecordLink ctx ctx (chapol_in ichacha ipoly) (chapol_out ichacha ipoly) eq.
Proof.
  intros so si t v buf a b len <- Hb Hl Hm Hpos Hab Ht Hv.
  destruct (chapol_encrypt_spec so t v buf len a b Hb Hl Hm ltac:(lia) Hab) as
    (d & tag & buf' & -> & H16 & Ep & Ld & Lt & Bdt & E & _ & _ & Hw).
  assert (zlen (d ++ tag) = len + 16) as Ldt by (rewrite zlen_app; lia).
  pose proof (chapol_max_plaintext_law so (zlen buf - 5) _ b ltac:(lia) Hm).
  pose proof (process_open so t v (zslice buf 5 len) _ d tag (Forall_zslice _ _ _ _ Hb) ltac:(rewrite zlen_zslice; lia) Ep) as Eo.
  eexists _, buf', 0, (d ++ tag), _, (zslice buf 5 len ++ tag), 0. rewrite Ldt. cbn. split; [exact E|].
  split; [lia|]. split; [done|]. split; [exact Hw|]. split; [unfold chapol_check_length; lia|].
  unfold chapol_decrypt. rewrite Ldt. szsimp. replace (len + 16 - 16) with len by lia.
  rewrite ztake_app_le, (ztake_ge len d) by lia. rewrite zdrop_app_ge by lia.
  replace (len - zlen d) with 0 by lia. rewrite zdrop_0, Eo.
  rewrite (proj2 (tag_differs_false tag tag eq_refl) eq_refl). split; [done|]. split; [|done].
  rewrite zslice_app_l by (rewrite ?zlen_zslice; lia).
  rewrite <- (zlen_zslice buf 5 len) at 2 by lia. apply zslice_all.
Qed.
End laws.

(** ** What the receiver makes of a record *)

Section claims.
Context {ichacha : br_chacha20_run} {ipoly : br_poly1305_run} `{!AeadRun ichacha ipoly} {HS : Type}.
#[local] Existing Instance chapol_in.
#[local] Existing Instance chapol_out.
Notation ctx := (br_sslrec_chapol_context).
Notation rx := (chapol_in ichacha ipoly).
Notation tx := (chapol_out ichacha ipoly).
Context `{HSI : !@Handshake ctx ctx HS} `{!@HandshakeLaws ctx ctx HS rx tx HSI} {lay : layout}.

(** C10: a record is opened exactly when its last 16 bytes are the tag of what is
    before them under the receiver's key, IV and sequence number, the record type
    and the version.  A record that carries another tag, received in any pieces,
    closes the engine with BR_ERR_BAD_MAC and gives the application nothing; one
    that carries the tag gives the decrypted bytes. *)
Theorem chapol_authenticates (r : engine ctx ctx HS) v ct tag sizes :
  awaiting_protected (lay' := lay) (RecordIn0 := rx) (RecordOut0 := tx) r v ->
  Forall is_u8 ct -> Forall is_u8 tag -> zlen tag = 16 -> 0 < zlen ct <= 16384 ->
  5 + zlen (ct ++ tag) <= ibuf_len r -> 5 + zlen (ct ++ tag) <= zlen sizes ->
  let record := record_header BR_SSL_APPLICATION_DATA v (zlen (ct ++ tag)) ++ ct ++ tag in
  let '(k', plain, good) := gen_chapol_process ichacha ipoly (rin r) BR_SSL_APPLICATION_DATA v ct false in
  exists r', feed (RecordIn0 := rx) (RecordOut0 := tx) sizes r record = Some r' /\
    if decide (tag = good)
    then rin r' = k' /\ exists q, br_ssl_engine_recvapp_buf r' = Some (q, zlen ct) /\ zslice (mem r') q (zlen ct) = plain
    else br_ssl_engine_closed r' = true /\ err r' = BR_ERR_BAD_MAC /\ br_ssl_engine_recvapp_buf r' = None.
Proof.
  intros Hr Hct Htag Lt Lct Hfit Hs record.
  destruct (gen_chapol_process _ _ _ _ _ _ _) as [[k' plain] good] eqn:E.
  destruct (process_spec (rin r) BR_SSL_APPLICATION_DATA v ct false k' plain good Hct ltac:(lia) E) as (_ & Lp & _ & Lg & _).
  assert (zlen (ct ++ tag) = zlen ct + 16) as Lb by (rewrite zlen_app; lia).
  destruct (feed_awaiting (RecordInLaws0 := chapol_in_laws) r v (ct ++ tag) sizes Hr
    ltac:(by apply Forall_app) ltac:(lia) ltac:(cbn; unfold chapol_check_length; lia) Hfit Hs) as (r' & Hf & Hrec).
  exists r'. split; [exact Hf|]. unfold received in Hrec. cbn [decrypt chapol_in] in Hrec. unfold chapol_decrypt in Hrec.
  rewrite Lb in Hrec. revert Hrec. szsimp. replace (zlen ct + 16 - 16) with (zlen ct) by lia.
  rewrite ztake_app_le, ztake_ge, zdrop_app_ge, Z.sub_diag, zdrop_0 by lia. rewrite E.
  pose proof (tag_differs_false good tag ltac:(lia)) as Hd.
  destruct (decide (tag = good)) as [->|Hne].
  - rewrite (proj2 Hd eq_refl). intros Hrec. destruct Hrec as (_ & Hk & Happ & Hm); [lia|].
    split; [done|]. eexists. split; [exact Happ|]. rewrite Hm, zslice_app_l by lia. rewrite <- Lp. apply zslice_all.
  - destruct (tag_differs good tag) eqn:Hdt; [done|]. by rewrite (proj1 Hd eq_refl) in Hne.
Qed.
End claims.

(** ** Witnesses: a session keyed with ChaCha20+Poly1305 *)

Module Keyed.
Notation ctx := (br_sslrec_chapol_context).
#[export] Instance rx : RecordIn ctx := chapol_in br_chacha20_ct_run br_poly1305_ctmul_run.
#[export] Instance tx : RecordOut ctx := chapol_out br_chacha20_ct_run br_poly1305_ctmul_run.
#[export] Instance rx_laws : RecordInLaws ctx := chapol_in_laws.
#[export] Instance tx_laws : RecordOutLaws ctx := chapol_out_laws.
#[export] Instance link : RecordLink (RI := ctx) (RO := ctx) eq := chapol_link.

(** The handshake is over. *)
#[export] Instance handshake : Handshake ctx ctx unit := fun e =>
  e <| application_data := 1 |> <| record_type_out := BR_SSL_APPLICATION_DATA |>
    <| version_out := 771 |> <| hlen_in := 0 |>.
#[export] Instance handshake_laws : HandshakeLaws ctx ctx unit.
Proof.
  intros lay e (Hinv & Hm & Hin & Hout & Hs & _).
  split; [exact Hinv|]. intros _. unfold hsrun, handshake. eng_simpl.
  do 3 (split; [done|]). split; [lia|]. by left.
Qed.

Definition key : ctx := gen_chapol_init rfc_key rfc_iv.
Definition fresh (n : Z) : engine ctx ctx unit :=
  Engine (zeros n) 0 None None 0 0 0 0 0 0 0 0 0 0 0 BR_IO_FAILED false false
    0 0 0 0 key OutClear 0 0 0 tt None None None 0 0 0 0.
Definition clear_session : engine ctx ctx unit :=
  default (fresh 4096)
    (br_ssl_engine_hs_reset (br_ssl_engine_set_buffers_bidi (fresh 4096) (Some 0) 2048 (Some 2048) 2048) tt).
Definition session : engine ctx ctx unit :=
  clear_session <| incrypt := true |> <| rin := key |> <| rout := OutEnc key |>.
Definition session_layout : layout := (4096, Some 0, Some 2048, 2048, 2048).

Lemma clear_ready :
  br_ssl_engine_hs_reset (br_ssl_engine_set_buffers_bidi (fresh 4096) (Some 0) 2048 (Some 2048) 2048) tt
  = Some clear_session.
Proof.
  assert (forall o : option (engine ctx ctx unit), bool_decide (is_Some o) = true -> o = Some (default (fresh 4096) o)) as H.
  { intros o Ho. apply bool_decide_eq_true in Ho as [x ->]. done. }
  apply H. vm_compute. reflexivity.
Qed.
Lemma keyed_buffers : good_buffers (fresh 4096) (Some 0) 2048 (Some 2048) 2048.
Proof.
  split; [apply Forall_zeros|]. assert (zlen (mem (fresh 4096)) = 4096) as -> by done.
  split; [done|]. exists 0. do 3 (split; [done|]). split; [lia|]. right. exists 2048. split; [done|lia].
Qed.
Lemma clear_inv : eng_inv session_layout clear_session.
Proof.
  exact (reset_inv (lay := session_layout) (fresh 4096) (Some 0) 2048 (Some 2048) 2048 tt clear_session
           keyed_buffers eq_refl eq_refl clear_ready).
Qed.
Lemma clear_live : eng_live session_layout clear_session.
Proof. apply (eng_inv_live clear_session clear_inv). vm_compute. discriminate. Qed.
(** Switching the keys on between two records. *)
Lemma keyed_live (e : engine ctx ctx unit) k : eng_live session_layout e ->
  ixa e = 0 -> ixb e = 0 -> ixc e = 5 -> obuf_len e = 2048 -> oxa e = 5 -> oxc e = 5 -> 5 < oxb e <= 2022 ->
  eng_live session_layout (e <| incrypt := true |> <| rin := k |> <| rout := OutEnc k |>).
Proof.
  intros (Hb & _ & _) Ha Hb' Hc Hl Hx Hz Hy. split; [exact Hb|]. unfold eng_in, eng_out. eng_simpl.
  rewrite Ha, Hb', Hc, Hl, Hx, Hz. split; [apply (in_header _ _ _ 0); lia|].
  apply (out_gather _ _ 5 2027); [vm_compute; reflexivity|lia..].
Qed.
Lemma keyed_session_live : eng_live session_layout session.
Proof. apply (keyed_live clear_session key clear_live); vm_compute; (reflexivity || (split; (reflexivity || discriminate))). Qed.
Lemma session_awaiting : awaiting_protected (lay' := session_layout) session 771.
Proof.
  split; [exact keyed_session_live|]. split; [right; vm_compute; done|].
  do 5 (split; [vm_compute; done|]). split; [done|]. split; [done|]. left. vm_compute; done.
Qed.
End Keyed.

Section witnesses.
Import Keyed.

(** Three bytes in a record of 24 bytes, received in pieces of 2, 3 and the rest. *)
Lemma protected_data_crosses_witness : exists e' q wire,
    br_ssl_engine_flush (br_ssl_engine_sendapp_ack (session <| mem := zblit (mem session) 2053 [1; 2; 3] |>) 3) false = e' /\
    br_ssl_engine_sendrec_buf e' = Some (q, zlen wire) /\ zslice (mem e') q (zlen wire) = wire /\
    (zlen wire <= 2048 -> forall sizes, zlen wire <= zlen sizes -> exists r' q' so',
      feed sizes session wire = Some r' /\
      br_ssl_engine_recvapp_buf r' = Some (q', 3) /\ zslice (mem r') q' 3 = [1; 2; 3] /\
      rout e' = OutEnc so' /\ so' = rin r' /\ eng_live session_layout r').
Proof.
  apply (protected_data_crosses eq (lay := session_layout) (lay' := session_layout) session session key 2053 1024 [1; 2; 3]).
  - exact keyed_session_live.
  - reflexivity.
  - vm_compute; done.
  - vm_compute; done.
  - reflexivity.
  - vm_compute; done.
  - by apply bytes_dec.
  - vm_compute; done.
  - exact session_awaiting.
Defined.

Lemma chapol_authenticates_witness : exists r',
  feed (replicate 24 0%nat) session (record_header BR_SSL_APPLICATION_DATA 771 19 ++ [7; 7; 7] ++ zeros 16) = Some r' /\
  br_ssl_engine_closed r' = true /\ err r' = BR_ERR_BAD_MAC /\ br_ssl_engine_recvapp_buf r' = None.
Proof.
  pose proof (chapol_authenticates (lay := session_layout) session 771 [7; 7; 7] (zeros 16) (replicate 24 0%nat)
    session_awaiting ltac:(by apply bytes_dec) ltac:(by apply bytes_dec) eq_refl ltac:(done) ltac:(done) ltac:(done)) as H.
  cbv zeta in H.
  assert (exists k p g, gen_chapol_process br_chacha20_ct_run br_poly1305_ctmul_run (rin session) BR_SSL_APPLICATION_DATA
    771 [7; 7; 7] false = (k, p, g) /\ bool_decide (g = zeros 16) = false) as (k & p & g & E & Hg).
  { eexists _, _, _. split; [vm_compute; reflexivity|]. vm_compute. reflexivity. }
  rewrite E in H. destruct H as (r' & Hf & H). exists r'. split; [exact Hf|].
  destruct (decide (zeros 16 = g)) as [Eg|]; [|exact H]. by rewrite <- Eg in Hg.
Defined.
End witnesses.
