(* ===== verification/RecGcm.v ===== *)
(** * RecGcm: ssl_rec_gcm.c, record protection with a block cipher in GCM mode

    The block cipher in CTR mode ([br_block_ctr_class], a key schedule and a run
    function) and GHASH are reached through pointers: they are the parameters of
    the code, and [GcmPrimitives] is what the record layer relies on: a run masks the
    data with a key stream and GHASH gives 16 bytes. *)
From S2P Require Import Prelude.
From S2P Require Import Words.
From S2P Require Import Engine.
From S2P Require Import EngineSpec.
From S2P Require Import ChaCha20.
From S2P Require Import Poly1305.
From S2P Require Import RecordLink.
From S2P Require Import RecChapol.

(** ** The code *)

Section code.
(** The subkeys [bc], [init] and [run] of the vtable; [gh tag h data] is the new tag. *)
Context {bc : Type} (bc_init : list Z -> bc) (bc_run : bc -> list Z -> Z -> list Z -> Z * list Z).
Context (gh : list Z -> list Z -> list Z -> list Z).

Record br_sslrec_gcm_context : Type := Gcm { gcm_seq : Z; gcm_bc : bc; gcm_iv : list Z; gcm_h : list Z }.

Definition gen_gcm_init (key iv : list Z) : br_sslrec_gcm_context :=
  let c := bc_init key in
  Gcm 0 c (ztake 4 iv) (bc_run c (zeros 12) 0 (zeros 16)).2.

Definition gcm_check_length (cc : br_sslrec_gcm_context) (rlen : Z) : bool :=
  (24 <=? rlen) && (rlen <=? 16384 + 24).

(** The new context and the tag, before CTR encryption. *)
Definition do_tag (cc : br_sslrec_gcm_context) (record_type version : Z) (data : list Z)
    : br_sslrec_gcm_context * list Z :=
  let header := record_ad (gcm_seq cc) record_type version (zlen data) in
  let footer := br_enc64be (u64 (Z.shiftl 13 3)) ++ br_enc64be (u64 (Z.shiftl (zlen data) 3)) in
  let tag := zeros 16 in
  let tag := gh tag (gcm_h cc) header in
  let tag := gh tag (gcm_h cc) data in
  let tag := gh tag (gcm_h cc) footer in
  (Gcm (u64 (gcm_seq cc + 1)) (gcm_bc cc) (gcm_iv cc) (gcm_h cc), tag).

(** The data and the tag block. *)
Definition do_ctr (cc : br_sslrec_gcm_context) (nonce data xortag : list Z) : list Z * list Z :=
  let iv := ztake 4 (gcm_iv cc) ++ ztake 8 nonce in
  ((bc_run (gcm_bc cc) iv 2 data).2, (bc_run (gcm_bc cc) iv 1 xortag).2).

Definition gcm_decrypt (cc : br_sslrec_gcm_context) (record_type version : Z) (data : list Z)
    : br_sslrec_gcm_context * list Z * option (Z * Z) :=
  let len := zlen data -! 24 in
  let buf := zslice data 8 len in
  let '(cc, tag) := do_tag cc record_type version buf in
  let '(buf, tag) := do_ctr cc (ztake 8 data) buf tag in
  let rest := zdrop (8 + len) data in
  (cc, ztake 8 data ++ buf ++ rest, if tag_differs tag rest then None else Some (8, len)).

Definition gcm_max_plaintext (cc : br_sslrec_gcm_context) (start end_ : Z) : Z * Z :=
  let start := start +! 8 in
  let len := end_ -! start -! 16 in
  let len := if 16384 <? len then 16384 else len in
  (start, start +! len).

(** The explicit nonce is written in front of the data, the tag behind it. *)
Definition gcm_encrypt (cc : br_sslrec_gcm_context) (record_type version : Z) (buf : list Z) (off len : Z)
    : br_sslrec_gcm_context * list Z * Z * Z :=
  let nonce := br_enc64be (gcm_seq cc) in
  let '(data, tmp) := do_ctr cc nonce (zslice buf off len) (zeros 16) in
  let '(cc, tag) := do_tag cc record_type version data in
  let tag := zxor tag tmp in
  let len := len +! 24 in
  (cc, put_record buf (off - 13) record_type version len (nonce ++ data ++ tag), off - 13, len +! 5).

#[export] Instance gcm_in : RecordIn br_sslrec_gcm_context :=
  { check_length := gcm_check_length; decrypt := gcm_decrypt }.
#[export] Instance gcm_out : RecordOut br_sslrec_gcm_context :=
  { max_plaintext := gcm_max_plaintext; encrypt := gcm_encrypt }.
End code.
Arguments br_sslrec_gcm_context : clear implicits.

(** ** The interface of the primitives *)

Class GcmPrimitives {bc : Type} (bc_run : bc -> list Z -> Z -> list Z -> Z * list Z)
    (gh : list Z -> list Z -> list Z -> list Z) := {
  ctr_stream : bc -> list Z -> Z -> Z -> list Z;
  ctr_len : forall k iv cc n, 0 <= n -> n <= zlen (ctr_stream k iv cc n);
  ctr_bytes : forall k iv cc n, Forall is_u8 (ctr_stream k iv cc n);
  ctr_run : forall k iv cc data, is_u32 cc -> (bc_run k iv cc data).2 = zxor data (ctr_stream k iv cc (zlen data));
  ghash_tag : forall y h data, zlen y = 16 -> Forall is_u8 y ->
    zlen (gh y h data) = 16 /\ Forall is_u8 (gh y h data) }.

Section laws.
Context {bc : Type} {bc_run : bc -> list Z -> Z -> list Z -> Z * list Z} {gh : list Z -> list Z -> list Z -> list Z}.
Context `{!GcmPrimitives bc_run gh}.
Notation ctx := (br_sslrec_gcm_context bc).
Implicit Types cc : ctx.

Lemma bc_run_spec k iv c data : is_u32 c -> Forall is_u8 data ->
  zlen (bc_run k iv c data).2 = zlen data /\ Forall is_u8 (bc_run k iv c data).2 /\
  (bc_run k iv c (bc_run k iv c data).2).2 = data.
Proof.
  intros Hc Hd. rewrite !ctr_run by done. assert (zlen data <= zlen (ctr_stream k iv c (zlen data))) by (apply ctr_len; lia).
  rewrite zlen_zxor by done. split; [done|]. split; [by apply zxor_bytes, ctr_bytes|by apply zxor_involutive].
Qed.
Lemma do_tag_spec cc t v data cc' tag : do_tag gh cc t v data = (cc', tag) ->
  cc' = Gcm (u64 (gcm_seq cc + 1)) (gcm_bc cc) (gcm_iv cc) (gcm_h cc) /\ zlen tag = 16 /\ Forall is_u8 tag.
Proof.
  intros [= <- <-]. split; [done|].
  destruct (ghash_tag (zeros 16) (gcm_h cc) (record_ad (gcm_seq cc) t v (zlen data))) as [L1 B1];
    [done|apply Forall_zeros|].
  destruct (ghash_tag _ (gcm_h cc) data L1 B1) as [L2 B2]. by apply ghash_tag.
Qed.
(** Two passes of CTR with the same nonce give the data back; on a tag it is a mask. *)
Lemma do_ctr_spec cc nonce data tag d x : Forall is_u8 data -> Forall is_u8 tag -> zlen tag = 16 ->
  do_ctr bc_run cc nonce data tag = (d, x) ->
  zlen d = zlen data /\ Forall is_u8 d /\ zlen x = 16 /\ Forall is_u8 x /\
  forall y, do_ctr bc_run cc nonce d y = (data, (do_ctr bc_run cc nonce data y).2).
Proof.
  intros Hd Ht Lt. unfold do_ctr. set (iv := _ ++ _). intros E. apply pair_equal_spec in E as [<- <-].
  assert (is_u32 1 /\ is_u32 2) as [U1 U2] by (unfold is_u32; lia).
  destruct (bc_run_spec (gcm_bc cc) iv 2 data U2 Hd) as (Ld & Bd & Id).
  destruct (bc_run_spec (gcm_bc cc) iv 1 tag U1 Ht) as (Lx & Bx & _).
  split; [done|]. split; [done|]. split; [congruence|]. split; [done|]. intros y. by rewrite Id.
Qed.
Lemma do_ctr_mask cc nonce data tag : zlen tag = 16 -> Forall is_u8 tag ->
  (do_ctr bc_run cc nonce data tag).2 = zxor tag (do_ctr bc_run cc nonce data (zeros 16)).2.
Proof.
  intros Lt Bt. unfold do_ctr. cbn [snd]. set (iv := _ ++ _).
  rewrite !ctr_run by (unfold is_u32; lia). rewrite Lt. change (zlen (zeros 16)) with 16.
  assert (16 <= zlen (ctr_stream (gcm_bc cc) iv 1 16)) by (apply ctr_len; lia).
  rewrite zxor_zeros by lia. rewrite <- Lt at 2. by rewrite zxor_take.
Qed.

Lemma gcm_max_plaintext_law cc b a' b' :
  592 <= b < 2 ^ 62 -> gcm_max_plaintext cc 5 b = (a', b') -> a' = 13 /\ 13 < b' /\ b' + 16 <= b /\ b' <= 16397.
Proof.
  unfold gcm_max_plaintext. intros Hb. change (5 +! 8) with 13.
  rewrite (szsub_small b 13), (szsub_small (b - 13) 16) by lia.
  destruct (Z.ltb_spec 16384 (b - 13 - 16)); intros [= <- <-]; szsimp; lia.
Qed.

#[export] Instance gcm_in_laws : @RecordInLaws ctx (gcm_in bc_run gh).
Proof.
  split. intros cc t v data cc' data' r Hd. cbn [check_length decrypt gcm_in]. unfold gcm_check_length. intros Hc.
  apply andb_prop in Hc as [H1 H2]. unfold gcm_decrypt. szsimp. set (len := zlen data - 24).
  assert (zlen (zslice data 8 len) = len) as L by (apply zlen_zslice; lia).
  destruct (do_tag gh cc t v (zslice data 8 len)) as [c1 tag] eqn:Et.
  apply do_tag_spec in Et as (_ & Lt & Bt).
  destruct (do_ctr bc_run c1 (ztake 8 data) (zslice data 8 len) tag) as [d x] eqn:Ec.
  destruct (do_ctr_spec _ _ _ _ _ _ (Forall_zslice _ _ _ _ Hd) Bt Lt Ec) as (Ld & Bd & _).
  intros [= <- <- <-]. split.
  { apply Nat2Z.inj. rewrite !zlen_app, zlen_ztake, zlen_zdrop by (subst len; lia). subst len. lia. }
  split.
  { repeat (apply Forall_app; split); [by apply Forall_ztake|done|by apply Forall_zdrop]. }
  intros off n. case_match; [done|]. intros [= <- <-]. lia.
Qed.

(** The wire form of an encrypted record. *)
Lemma gcm_encrypt_spec cc t v buf len a b : Forall is_u8 buf -> 597 <= zlen buf < 2 ^ 62 ->
  gcm_max_plaintext cc 5 (zlen buf - 5) = (a, b) -> 0 <= len -> a + len <= b ->
  exists d x tag buf', a = 13 /\ len <= 16384 /\
    do_ctr bc_run cc (br_enc64be (gcm_seq cc)) (zslice buf 13 len) (zeros 16) = (d, x) /\
    do_tag gh cc t v d = (Gcm (u64 (gcm_seq cc + 1)) (gcm_bc cc) (gcm_iv cc) (gcm_h cc), tag) /\
    zlen d = len /\ zlen tag = 16 /\ Forall is_u8 tag /\ zlen x = 16 /\
    let body := br_enc64be (gcm_seq cc) ++ d ++ zxor tag x in
    zlen body = len + 24 /\ Forall is_u8 body /\
    gcm_encrypt bc_run gh cc t v buf a len =
      (Gcm (u64 (gcm_seq cc + 1)) (gcm_bc cc) (gcm_iv cc) (gcm_h cc), buf', 0, 5 + (len + 24)) /\
    zlen buf' = zlen buf /\ Forall is_u8 buf' /\
    zslice buf' 0 (5 + (len + 24)) = record_header t v (len + 24) ++ body.
Proof.
  intros Hb Hl Hm Hlen Hab. destruct (gcm_max_plaintext_law cc (zlen buf - 5) a b ltac:(lia) Hm) as (-> & _ & Hb' & H16).
  unfold gcm_encrypt.
  assert (zlen (zslice buf 13 len) = len) as L13 by (apply zlen_zslice; lia).
  destruct (do_ctr bc_run cc (br_enc64be (gcm_seq cc)) (zslice buf 13 len) (zeros 16)) as [d x] eqn:Ec.
  destruct (do_ctr_spec _ _ _ _ _ _ (Forall_zslice _ _ _ _ Hb) (Forall_zeros 16) eq_refl Ec) as (Ld & Bd & Lx & Bx & _).
  destruct (do_tag gh cc t v d) as [c1 tag] eqn:Et. destruct (do_tag_spec _ _ _ _ _ _ Et) as (-> & Lt & Bt).
  set (body := br_enc64be (gcm_seq cc) ++ d ++ zxor tag x).
  assert (zlen body = len + 24) as Lbody.
  { unfold body. rewrite !zlen_app, zlen_zxor by lia. change (zlen (br_enc64be _)) with 8. lia. }
  assert (Forall is_u8 body) as Bbody.
  { unfold body. repeat (apply Forall_app; split); [repeat constructor; apply is_u8_u8..|done|by apply zxor_bytes]. }
  change (13 - 13) with 0. szsimp. rewrite <- Lbody.
  destruct (put_record_spec buf 0 t v (zlen body) body Hb Bbody) as (L & B & W); [lia|lia|].
  exists d, x, tag, (put_record buf 0 t v (zlen body) body). split; [done|]. split; [lia|].
  split; [done|]. split; [done|]. split; [lia|]. do 3 (split; [done|]). cbv zeta. split; [done|].
  split; [done|]. split; [by replace (zlen body + 5) with (5 + zlen body) by lia|]. done.
Qed.

#[export] Instance gcm_out_laws : @RecordOutLaws ctx (gcm_out bc_run gh).
Proof.
  split.
  - cbn. intros cc b a' b' Hb E. apply gcm_max_plaintext_law in E; lia.
  - cbn [max_plaintext encrypt gcm_out]. intros cc t v buf len a b s' buf' p n Hb Hl Hm Hlen Hab E.
    destruct (gcm_encrypt_spec cc t v buf len a b Hb Hl Hm Hlen Hab) as
      (d & x & tag & buf2 & -> & H16 & _ & _ & _ & _ & _ & _ & _ & _ & E' & L & B & _).
    pose proof (gcm_max_plaintext_law cc (zlen buf - 5) _ b ltac:(lia) Hm).
    rewrite E in E'. injection E' as -> -> -> ->. split; [by apply Nat2Z.inj|]. split; [done|]. lia.
Qed.

(** Two contexts with the same subkeys, IV, hash key and sequence number. *)
#[export] Instance gcm_link : @RecordLink ctx ctx (gcm_in bc_run gh) (gcm_out bc_run gh) eq.
Proof.
  intros so si t v buf a b len <- Hb Hl Hm Hpos Hab Ht Hv.
  destruct (gcm_encrypt_spec so t v buf len a b Hb Hl Hm ltac:(lia) Hab) as
    (d & x & tag & buf' & -> & H16 & Ec & Et & Ld & Lt & Bt & Lx & Lb & Bb & E & _ & _ & Hw).
  pose proof (gcm_max_plaintext_law so (zlen buf - 5) _ b ltac:(lia) Hm).
  destruct (do_ctr_spec _ _ _ _ _ _ (Forall_zslice _ _ _ _ Hb) (Forall_zeros 16) eq_refl Ec) as (_ & _ & _ & _ & Hopen).
  set (nonce := br_enc64be (gcm_seq so)) in *. set (body := nonce ++ d ++ zxor tag x) in *.
  eexists _, buf', 0, body, _, (nonce ++ zslice buf 13 len ++ zxor tag x), 8. rewrite Lb. cbn [check_length decrypt encrypt gcm_in gcm_out].
  split; [exact E|]. split; [lia|]. split; [done|]. split; [exact Hw|]. split; [unfold gcm_check_length; lia|].
  assert (ztake 8 body = nonce) as E8 by (unfold body; rewrite ztake_app_le by done; by apply ztake_ge).
  assert (zslice body 8 len = d) as Ed.
  { unfold body. rewrite zslice_app_r by done. change (8 - zlen nonce) with 0. rewrite zslice_app_l by lia.
    rewrite <- Ld. apply zslice_all. }
  assert (zdrop (8 + len) body = zxor tag x) as Er.
  { unfold body. rewrite zdrop_app_ge by (change (zlen nonce) with 8; lia). change (zlen nonce) with 8.
    rewrite zdrop_app_ge by lia. by replace (8 + len - 8 - zlen d) with 0 by lia. }
  unfold gcm_decrypt. rewrite Lb. szsimp. replace (len + 24 - 24) with len by lia. rewrite Ed, Et, E8, Er.
  set (so' := Gcm _ _ _ _). change (do_ctr bc_run so' nonce d tag) with (do_ctr bc_run so nonce d tag).
  rewrite (Hopen tag). rewrite do_ctr_mask by done. rewrite Ec. cbn [snd].
  rewrite (proj2 (tag_differs_false (zxor tag x) (zxor tag x) eq_refl) eq_refl). split; [done|]. split; [|done].
  rewrite zslice_app_r by done. change (8 - zlen nonce) with 0. rewrite zslice_app_l by (rewrite ?zlen_zslice; lia).
  rewrite <- (zlen_zslice buf 13 len) at 2 by lia. apply zslice_all.
Qed.
End laws.
