(* ===== verification/Hash.v ===== *)
(** * Hash: the hash functions of hash/ and their common interface

    A context is the block buffer, the chaining value and the byte count; the
    vtable pointer at its head is the [br_hash_class] it is used with.  The loop
    of every [update] function and the padding of every [out] function are the
    same code up to the block length, the compression function and the encoding
    of the length; they are written once, in the section [md].  What the clients
    (HMAC, and through it HKDF, the TLS PRF and the DRBG) rely on is the class
    [HashLaws] of [HashSpec]. *)
From S2P Require Import Prelude.
From S2P Require Import Words.
From S2P Require Import HashRounds.

Record md_context {V : Type} : Type := MdContext { mbuf : list Z; mval : V; count : Z }.
Arguments md_context : clear implicits.
Arguments MdContext {V}.
#[export] Instance eta_md {V} : Eta (md_context V) := fun c => MdContext (mbuf c) (mval c) (count c).

Section md.
Context {V : Type} (blen : Z) (round : list Z -> V -> V).

(** [while (len > 0)]; [tick] tells whether [count] grows with each chunk.  Each
    round takes at least one byte: [fuel] is the number of bytes. *)
Fixpoint md_absorb (tick : bool) (fuel : nat) (ptr : Z) (data : list Z) (c : md_context V) : md_context V :=
  match fuel with
  | O => c
  | S fuel =>
      if zlen data <=? 0 then c
      else
        let clen := blen - ptr in
        let clen := if zlen data <? clen then zlen data else clen in
        let c := c <| mbuf := zblit (mbuf c) ptr (ztake clen data) |> in
        let ptr := ptr + clen in
        let data := zdrop clen data in
        let c := if tick then c <| count := u64 (count c + clen) |> else c in
        if ptr =? blen
        then md_absorb tick fuel 0 data (c <| mval := round (mbuf c) (mval c) |>)
        else md_absorb tick fuel ptr data c
  end.

(** MD5, SHA-1, MD5+SHA-1: the count grows in the loop. *)
Definition md_update (c : md_context V) (data : list Z) : md_context V :=
  md_absorb true (length data) (Z.land (count c) (blen - 1)) data c.
(** SHA-2: the count grows first. *)
Definition md_update' (c : md_context V) (data : list Z) : md_context V :=
  let ptr := Z.land (count c) (blen - 1) in
  let c := c <| count := u64 (count c + zlen data) |> in
  md_absorb false (length data) ptr data c.

(** The end of every [out] function: the chaining value after the padding.  The
    length takes [lb] bytes; [lenc] encodes it from the count. *)
Definition md_close (lb : Z) (lenc : Z -> list Z) (c : md_context V) : V :=
  let ptr := Z.land (count c) (blen - 1) in
  let buf := ztake ptr (mbuf c) ++ [0x80] in
  let ptr := ptr + 1 in
  let '(buf, v) :=
    if blen - lb <? ptr
    then (zeros (blen - lb), round (buf ++ zeros (blen - ptr)) (mval c))
    else (buf ++ zeros (blen - lb - ptr), mval c) in
  round (buf ++ lenc (count c)) v.
End md.

Definition len64be (n : Z) : list Z := br_enc64be (u64 (Z.shiftl n 3)).
Definition len64le (n : Z) : list Z := br_enc64le (u64 (Z.shiftl n 3)).
Definition len128be (n : Z) : list Z := br_enc64be (Z.shiftr n 61) ++ br_enc64be (u64 (Z.shiftl n 3)).

(** ** MD5 *)

Definition br_md5_context : Type := md_context (list Z).
Definition br_md5_init (c : br_md5_context) : br_md5_context := c <| mval := br_md5_IV |> <| count := 0 |>.
Definition br_md5_update : br_md5_context -> list Z -> br_md5_context := md_update 64 br_md5_round.
Definition br_md5_out (c : br_md5_context) : list Z :=
  br_range_enc32le (take 4 (md_close 64 br_md5_round 8 len64le c)).
Definition br_md5_state (c : br_md5_context) : list Z * Z := (br_range_enc32le (take 4 (mval c)), count c).
Definition br_md5_set_state (c : br_md5_context) (stb : list Z) (n : Z) : br_md5_context :=
  c <| mval := br_range_dec32le 4 stb |> <| count := n |>.

(** ** SHA-1 *)

Definition br_sha1_context : Type := md_context (list Z).
Definition br_sha1_init (c : br_sha1_context) : br_sha1_context := c <| mval := br_sha1_IV |> <| count := 0 |>.
Definition br_sha1_update : br_sha1_context -> list Z -> br_sha1_context := md_update 64 br_sha1_round.
Definition br_sha1_out (c : br_sha1_context) : list Z :=
  br_range_enc32be (take 5 (md_close 64 br_sha1_round 8 len64be c)).
Definition br_sha1_state (c : br_sha1_context) : list Z * Z := (br_range_enc32be (take 5 (mval c)), count c).
Definition br_sha1_set_state (c : br_sha1_context) (stb : list Z) (n : Z) : br_sha1_context :=
  c <| mval := br_range_dec32be 5 stb |> <| count := n |>.

(** ** SHA-224 and SHA-256 *)

Definition br_sha224_context : Type := md_context (list Z).
Definition br_sha256_context : Type := br_sha224_context.
Definition sha2small_update : br_sha224_context -> list Z -> br_sha224_context :=
  md_update' 64 br_sha2small_round.
Definition sha2small_out (c : br_sha224_context) (num : nat) : list Z :=
  br_range_enc32be (take num (md_close 64 br_sha2small_round 8 len64be c)).
Definition br_sha224_init (c : br_sha224_context) : br_sha224_context :=
  c <| mval := br_sha224_IV |> <| count := 0 |>.
Definition br_sha224_update (c : br_sha224_context) (data : list Z) : br_sha224_context :=
  sha2small_update c data.
Definition br_sha224_out (c : br_sha224_context) : list Z := sha2small_out c 7.
Definition br_sha224_state (c : br_sha224_context) : list Z * Z :=
  (br_range_enc32be (take 8 (mval c)), count c).
Definition br_sha224_set_state (c : br_sha224_context) (stb : list Z) (n : Z) : br_sha224_context :=
  c <| mval := br_range_dec32be 8 stb |> <| count := n |>.
Definition br_sha256_init (c : br_sha256_context) : br_sha256_context :=
  c <| mval := br_sha256_IV |> <| count := 0 |>.
Definition br_sha256_out (c : br_sha256_context) : list Z := sha2small_out c 8.

(** ** SHA-384 and SHA-512 *)

Definition br_sha384_context : Type := md_context (list Z).
Definition br_sha512_context : Type := br_sha384_context.
Definition sha2big_update : br_sha384_context -> list Z -> br_sha384_context := md_update' 128 sha2big_round.
Definition sha2big_out (c : br_sha384_context) (num : nat) : list Z :=
  br_range_enc64be (take num (md_close 128 sha2big_round 16 len128be c)).
Definition br_sha384_init (c : br_sha384_context) : br_sha384_context :=
  c <| mval := IV384 |> <| count := 0 |>.
Definition br_sha384_update (c : br_sha384_context) (data : list Z) : br_sha384_context :=
  sha2big_update c data.
Definition br_sha384_out (c : br_sha384_context) : list Z := sha2big_out c 6.
Definition br_sha384_state (c : br_sha384_context) : list Z * Z :=
  (br_range_enc64be (take 8 (mval c)), count c).
Definition br_sha384_set_state (c : br_sha384_context) (stb : list Z) (n : Z) : br_sha384_context :=
  c <| mval := br_range_dec64be 8 stb |> <| count := n |>.
Definition br_sha512_init (c : br_sha512_context) : br_sha512_context :=
  c <| mval := IV512 |> <| count := 0 |>.
Definition br_sha512_out (c : br_sha512_context) : list Z := sha2big_out c 8.

(** ** MD5 and SHA-1 together *)

(** [val_md5] and [val_sha1]. *)
Definition br_md5sha1_context : Type := md_context (list Z * list Z).
Definition md5sha1_round (buf : list Z) (v : list Z * list Z) : list Z * list Z :=
  (br_md5_round buf v.1, br_sha1_round buf v.2).
Definition br_md5sha1_init (c : br_md5sha1_context) : br_md5sha1_context :=
  c <| mval := (br_md5_IV, br_sha1_IV) |> <| count := 0 |>.
Definition br_md5sha1_update : br_md5sha1_context -> list Z -> br_md5sha1_context :=
  md_update 64 md5sha1_round.
(** The last block is closed twice, with either encoding of the length. *)
Definition br_md5sha1_out (c : br_md5sha1_context) : list Z :=
  let ptr := Z.land (count c) 63 in
  let buf := ztake ptr (mbuf c) ++ [0x80] in
  let ptr := ptr + 1 in
  let '(buf, v) :=
    if 56 <? ptr then (zeros 56, md5sha1_round (buf ++ zeros (64 - ptr)) (mval c))
    else (buf ++ zeros (56 - ptr), mval c) in
  br_range_enc32le (take 4 (br_md5_round (buf ++ len64le (count c)) v.1)) ++
  br_range_enc32be (take 5 (br_sha1_round (buf ++ len64be (count c)) v.2)).
Definition br_md5sha1_state (c : br_md5sha1_context) : list Z * Z :=
  (br_range_enc32le (take 4 (mval c).1) ++ br_range_enc32be (take 5 (mval c).2), count c).
Definition br_md5sha1_set_state (c : br_md5sha1_context) (stb : list Z) (n : Z) : br_md5sha1_context :=
  c <| mval := (br_range_dec32le 4 stb, br_range_dec32be 5 (zdrop 16 stb)) |> <| count := n |>.

(** ** The vtables *)

Definition BR_HASHDESC_ID (id : Z) : Z := Z.shiftl id 0.
Definition BR_HASHDESC_OUT (size : Z) : Z := Z.shiftl size 8.
Definition BR_HASHDESC_STATE (size : Z) : Z := Z.shiftl size 15.
Definition BR_HASHDESC_LBLEN (ls : Z) : Z := Z.shiftl ls 23.
Definition BR_HASHDESC_MD_PADDING : Z := Z.shiftl 1 28.
Definition BR_HASHDESC_MD_PADDING_128 : Z := Z.shiftl 1 29.
Definition BR_HASHDESC_MD_PADDING_BE : Z := Z.shiftl 1 30.

(** [br_hash_class]: [hctx] is the type of the contexts. *)
Record br_hash_class : Type := HashClass {
  hctx : Type;
  desc : Z;
  hinit : hctx -> hctx;
  hupdate : hctx -> list Z -> hctx;
  hout : hctx -> list Z;
  hstate : hctx -> list Z * Z;
  hset_state : hctx -> list Z -> Z -> hctx }.

Definition br_digest_size (dig : br_hash_class) : Z := Z.land (Z.shiftr (desc dig) 8) 0x7F.
Definition block_size (dig : br_hash_class) : Z :=
  Z.shiftl 1 (Z.land (Z.shiftr (desc dig) 23) 0x0F).

Definition md_desc (id out state lblen : Z) (flags : Z) : Z :=
  Z.lor (Z.lor (Z.lor (Z.lor (BR_HASHDESC_ID id) (BR_HASHDESC_OUT out)) (BR_HASHDESC_STATE state))
    (BR_HASHDESC_LBLEN lblen)) flags.

Definition br_md5_vtable : br_hash_class :=
  HashClass br_md5_context (md_desc 1 16 16 6 BR_HASHDESC_MD_PADDING)
    br_md5_init br_md5_update br_md5_out br_md5_state br_md5_set_state.
Definition br_sha1_vtable : br_hash_class :=
  HashClass br_sha1_context
    (md_desc 2 20 20 6 (Z.lor BR_HASHDESC_MD_PADDING BR_HASHDESC_MD_PADDING_BE))
    br_sha1_init br_sha1_update br_sha1_out br_sha1_state br_sha1_set_state.
Definition br_sha224_vtable : br_hash_class :=
  HashClass br_sha224_context
    (md_desc 3 28 32 6 (Z.lor BR_HASHDESC_MD_PADDING BR_HASHDESC_MD_PADDING_BE))
    br_sha224_init br_sha224_update br_sha224_out br_sha224_state br_sha224_set_state.
(** [br_sha256_update] and its state functions are macros for those of SHA-224. *)
Definition br_sha256_vtable : br_hash_class :=
  HashClass br_sha256_context
    (md_desc 4 32 32 6 (Z.lor BR_HASHDESC_MD_PADDING BR_HASHDESC_MD_PADDING_BE))
    br_sha256_init br_sha224_update br_sha256_out br_sha224_state br_sha224_set_state.
Definition br_sha384_vtable : br_hash_class :=
  HashClass br_sha384_context
    (md_desc 5 48 64 7 (Z.lor (Z.lor BR_HASHDESC_MD_PADDING BR_HASHDESC_MD_PADDING_BE)
                          BR_HASHDESC_MD_PADDING_128))
    br_sha384_init br_sha384_update br_sha384_out br_sha384_state br_sha384_set_state.
Definition br_sha512_vtable : br_hash_class :=
  HashClass br_sha512_context
    (md_desc 6 64 64 7 (Z.lor (Z.lor BR_HASHDESC_MD_PADDING BR_HASHDESC_MD_PADDING_BE)
                          BR_HASHDESC_MD_PADDING_128))
    br_sha512_init br_sha384_update br_sha512_out br_sha384_state br_sha384_set_state.
Definition br_md5sha1_vtable : br_hash_class :=
  HashClass br_md5sha1_context (md_desc 0 36 36 6 0)
    br_md5sha1_init br_md5sha1_update br_md5sha1_out br_md5sha1_state br_md5sha1_set_state.
