(* ===== verification/HashSpec.v ===== *)
(** * HashSpec: the hash functions compute their one-shot definitions

    The reference is Merkle-Damgard hashing of the whole message: pad, cut into
    blocks, fold the compression function.  [absorbed c m] says that a context
    has been fed the message [m]; the [update] and [out] functions are shown to
    respect it, however the message is cut, and so are [state] and [set_state].
    [HashLaws] is the interface the keyed constructions are proved against. *)
From S2P Require Import Prelude.
From S2P Require Import Words.
From S2P Require Import HashRounds.
From S2P Require Import Hash.

(** ** Generic lemmas *)

Lemma div_mod_eq b q r n : 0 <= r < b -> n = b * q + r -> n / b = q /\ n mod b = r.
Proof. intros Hr ->. split; [symmetry; by apply (Z.div_unique _ _ _ r); [left|]|symmetry; by apply (Z.mod_unique _ _ q); [left|]]. Qed.

Lemma u64_add_l x y : u64 (u64 x + y) = u64 (x + y).
Proof. unfold u64. apply Z.add_mod_idemp_l. lia. Qed.

Lemma ztake_zblit (l m : list Z) o : 0 <= o -> o + zlen m <= zlen l ->
  ztake (o + zlen m) (zblit l o m) = ztake o l ++ m.
Proof.
  intros. unfold zblit. assert (zlen (ztake o l) = o) as L by (apply zlen_ztake; lia).
  rewrite ztake_app_ge, L by lia. f_equal. replace (o + zlen m - o) with (zlen m) by lia.
  rewrite ztake_app_le by lia. apply ztake_ge. lia.
Qed.

(** ** The Merkle-Damgard construction *)

Section md.
Context {V : Type} (blen : Z) (round : list Z -> V -> V).
Context (Hblen : 0 < blen) (Hmask : forall x, Z.land x (blen - 1) = x mod blen).
Implicit Types (m x : list Z) (v : V) (c : md_context V).

Fixpoint compress (n : nat) m v : V :=
  match n with
  | O => v
  | S n => compress n (zdrop blen m) (round (ztake blen m) v)
  end.
(** The chaining value after the full blocks of [m]. *)
Definition chain m v : V := compress (Z.to_nat (zlen m / blen)) m v.
(** What is left of [m] after its full blocks. *)
Definition tail m : list Z := zdrop (blen * (zlen m / blen)) m.

Lemma compress_app n m x v : blen * Z.of_nat n <= zlen m -> compress n (m ++ x) v = compress n m v.
Proof.
  revert m v. induction n as [|n IH]; intros m v H; [done|]. cbn [compress].
  assert (blen <= zlen m) by nia.
  rewrite ztake_app_le, zdrop_app_le by lia. apply IH. rewrite zlen_zdrop by lia. lia.
Qed.
Lemma compress_snoc n m v : blen * Z.of_nat (S n) <= zlen m ->
  compress (S n) m v = round (zslice m (blen * Z.of_nat n) blen) (compress n m v).
Proof.
  revert m v. induction n as [|n IH]; intros m v H.
  { cbn [compress]. by rewrite Z.mul_0_r. }
  change (compress (S (S n)) m v) with (compress (S n) (zdrop blen m) (round (ztake blen m) v)).
  rewrite IH by (rewrite zlen_zdrop; nia). cbn [compress]. f_equal. unfold zslice.
  rewrite zdrop_zdrop by lia. do 2 f_equal. lia.
Qed.

Lemma len_split m : exists q, 0 <= q /\ zlen m = blen * q + zlen m mod blen /\ zlen m / blen = q /\
  0 <= zlen m mod blen < blen.
Proof.
  exists (zlen m / blen). pose proof (Z.div_mod (zlen m) blen). pose proof (Z.mod_pos_bound (zlen m) blen Hblen).
  split; [apply Z.div_pos; lia|]. split; [lia|done].
Qed.
Lemma zlen_tail m : zlen (tail m) = zlen m mod blen.
Proof. destruct (len_split m) as (q & ? & ? & E & ?). unfold tail. rewrite zlen_zdrop; rewrite E; lia. Qed.

(** Adding less than a block, and completing a block. *)
Lemma chain_short m x v : zlen m mod blen + zlen x < blen ->
  chain (m ++ x) v = chain m v /\ tail (m ++ x) = tail m ++ x /\
  zlen (m ++ x) mod blen = zlen m mod blen + zlen x.
Proof.
  intros H. destruct (len_split m) as (q & Hq & Hl & E & Hr).
  destruct (div_mod_eq blen q (zlen m mod blen + zlen x) (zlen (m ++ x))) as [Ed Em];
    [lia|rewrite zlen_app; lia|].
  unfold chain, tail. rewrite Ed, E, Em. split; [apply compress_app; nia|].
  split; [|done]. apply zdrop_app_le. nia.
Qed.
Lemma chain_block m x v : zlen m mod blen + zlen x = blen ->
  chain (m ++ x) v = round (tail m ++ x) (chain m v) /\ tail (m ++ x) = [] /\
  zlen (m ++ x) mod blen = 0.
Proof.
  intros H. destruct (len_split m) as (q & Hq & Hl & E & Hr).
  destruct (div_mod_eq blen (q + 1) 0 (zlen (m ++ x))) as [Ed Em]; [lia|rewrite zlen_app; lia|].
  unfold chain, tail. rewrite Ed, E, Em. split; [|split; [|done]].
  - replace (Z.to_nat (q + 1)) with (S (Z.to_nat q)) by lia.
    rewrite compress_snoc by (rewrite zlen_app; lia). rewrite compress_app by lia.
    f_equal. rewrite Z2Nat.id by lia. unfold zslice. rewrite zdrop_app_le by lia.
    apply ztake_ge. rewrite zlen_app, zlen_zdrop by lia. lia.
  - apply zdrop_ge. rewrite zlen_app. lia.
Qed.

(** A context that has been fed [m], starting from [iv]. *)
Definition fed (iv : V) c m : Prop :=
  zlen (mbuf c) = blen /\ mval c = chain m iv /\ ztake (zlen m mod blen) (mbuf c) = tail m.
Definition absorbed (iv : V) c m : Prop := fed iv c m /\ count c = zlen m /\ zlen m < 2 ^ 61.

(** One chunk copied into the block buffer. *)
Lemma fed_chunk iv c m d n : fed iv c m -> zlen m mod blen + zlen d <= blen ->
  let ptr := zlen m mod blen in
  let buf := zblit (mbuf c) ptr d in
  (ptr + zlen d = blen -> fed iv (MdContext buf (round buf (mval c)) n) (m ++ d) /\
     zlen (m ++ d) mod blen = 0) /\
  (ptr + zlen d <> blen -> fed iv (MdContext buf (mval c) n) (m ++ d) /\
     zlen (m ++ d) mod blen = ptr + zlen d).
Proof.
  intros (Hb & Hv & Ht) Hd ptr buf. destruct (len_split m) as (q & Hq & Hl & E & Hr). fold ptr in Hl, Hr, Ht.
  assert (zlen buf = blen) as Lb by (subst buf; rewrite zlen_zblit; lia).
  assert (ztake (ptr + zlen d) buf = tail m ++ d) as Htk
    by (subst buf; rewrite ztake_zblit by lia; by rewrite Ht).
  clearbody buf. split; intros Hcase.
  - destruct (chain_block m d iv) as (Hch & Htl & Hmod); [fold ptr; lia|]. split; [|done].
    split; [done|]. cbn [mbuf mval]. split; [|by rewrite Hmod, ztake_le0, Htl by lia].
    rewrite Hch, Hv. f_equal. rewrite <- Htk, Hcase. symmetry. apply ztake_ge. lia.
  - destruct (chain_short m d iv) as (Hch & Htl & Hmod); [fold ptr; lia|]. fold ptr in Hmod. split; [|done].
    split; [done|]. cbn [mbuf mval]. split; [by rewrite Hch|by rewrite Hmod, Htk].
Qed.

Lemma absorb_nil tick fuel ptr c : md_absorb blen round tick fuel ptr [] c = c.
Proof. by destruct fuel. Qed.

Lemma absorb_fed iv tick fuel data c m : (length data <= fuel)%nat -> fed iv c m ->
  let c' := md_absorb blen round tick fuel (zlen m mod blen) data c in
  fed iv c' (m ++ data) /\ (count c = u64 (count c) ->
    count c' = if tick then u64 (count c + zlen data) else count c).
Proof.
  revert data c m. induction fuel as [|fuel IH]; intros data c m Hf Hfed.
  all: destruct (decide (data = [])) as [->|Hne];
    [cbv zeta; rewrite absorb_nil, app_nil_r, Z.add_0_r; split; [done|by destruct tick]|].
  { destruct data; [done|]. simpl in Hf. lia. }
  assert (0 < zlen data) by (destruct data; [done|simpl; lia]).
  cbn [md_absorb]. rewrite (proj2 (Z.leb_gt (zlen data) 0)) by lia.
  pose proof (Z.mod_pos_bound (zlen m) blen Hblen) as Hr.
  set (ptr := zlen m mod blen) in *. set (clen := if _ <? _ then _ else _).
  assert (0 < clen <= zlen data /\ ptr + clen <= blen) as [Hc Hc']
    by (subst clen; destruct (Z.ltb_spec (zlen data) (blen - ptr)); lia).
  set (d := ztake clen data). assert (zlen d = clen) as Ld by (apply zlen_ztake; lia).
  assert (m ++ data = (m ++ d) ++ zdrop clen data) as -> by (subst d; rewrite <- (assoc_L (++)); by rewrite ztake_zdrop).
  assert (zlen data = clen + zlen (zdrop clen data)) as -> by (rewrite zlen_zdrop; lia).
  set (data' := zdrop clen data) in *. assert (length data' <= fuel)%nat as Hf'
    by (subst data'; pose proof (zlen_zdrop clen data); lia).
  set (n' := if tick then u64 (count c + clen) else count c).
  destruct (fed_chunk iv c m d n' Hfed) as [Hfull Hpart]; [fold ptr; lia|]. fold ptr in Hfull, Hpart.
  rewrite Ld in Hfull, Hpart. set (buf := zblit (mbuf c) ptr d) in *.
  assert ((if tick then c <| mbuf := buf |> <| count := u64 (count (c <| mbuf := buf |>) + clen) |>
           else c <| mbuf := buf |>) = MdContext buf (mval c) n') as -> by (subst n'; destruct c; by destruct tick).
  assert (count c = u64 (count c) -> n' = u64 n') as Hn64.
  { intros Hcc. subst n'. destruct tick; [|done]. symmetry. unfold u64. apply Z.mod_mod. lia. }
  assert (forall y, (if tick then u64 (n' + y) else n') = if tick then u64 (count c + (clen + y)) else count c) as Hcnt.
  { intros y. subst n'. destruct tick; [|done]. by rewrite u64_add_l, Z.add_assoc. }
  clearbody n' buf. cbv zeta. destruct (Z.eqb_spec (ptr + clen) blen) as [He|He].
  - destruct (Hfull He) as [Hfed' Hmod]. pose proof (IH data' _ _ Hf' Hfed') as IH'. rewrite Hmod in IH'.
    destruct IH' as [H1 H2]. split; [exact H1|]. intros Hcc. etransitivity; [apply H2; auto|apply Hcnt].
  - destruct (Hpart He) as [Hfed' Hmod]. pose proof (IH data' _ _ Hf' Hfed') as IH'. rewrite Hmod in IH'.
    destruct IH' as [H1 H2]. split; [exact H1|]. intros Hcc. etransitivity; [apply H2; auto|apply Hcnt].
Qed.

Lemma count_u64 iv c m : absorbed iv c m -> count c = u64 (count c).
Proof. intros (_ & -> & ?). symmetry. apply u64_small. lia. Qed.

Lemma update_absorbed iv c m data : absorbed iv c m -> zlen (m ++ data) < 2 ^ 61 ->
  absorbed iv (md_update blen round c data) (m ++ data).
Proof.
  intros Ha Hl. pose proof (count_u64 _ _ _ Ha) as Hc. destruct Ha as (Hfed & Hcount & Hm).
  unfold md_update. rewrite Hmask, Hcount.
  destruct (absorb_fed iv true (length data) data c m (le_n _) Hfed) as [H1 H2].
  split; [exact H1|]. split; [|done]. rewrite H2 by done. rewrite Hcount, zlen_app in *.
  apply u64_small. lia.
Qed.
Lemma update'_absorbed iv c m data : absorbed iv c m -> zlen (m ++ data) < 2 ^ 61 ->
  absorbed iv (md_update' blen round c data) (m ++ data).
Proof.
  intros Ha Hl. destruct Ha as (Hfed & Hcount & Hm). rewrite zlen_app in Hl.
  assert (u64 (zlen m + zlen data) = zlen m + zlen data) as Eu by (apply u64_small; lia).
  unfold md_update'. rewrite Hmask, Hcount, Eu.
  set (c' := setf (zlen m + zlen data) c). assert (fed iv c' m) as Hfed' by exact Hfed.
  destruct (absorb_fed iv false (length data) data c' m (le_n _) Hfed') as [H1 H2].
  split; [exact H1|]. rewrite zlen_app. split; [|done]. rewrite H2; [done|]. subst c'. cbn [count setf].
  by rewrite Eu.
Qed.

(** *** Padding *)

Context (lb : Z) (Hlb : 0 < lb < blen) (lenc : Z -> list Z) (Hlenc : forall n, zlen (lenc n) = lb).

(** The padded message: a 1 bit, zeros up to the length field, the length. *)
Definition padding (n : Z) : list Z :=
  [0x80] ++ zeros ((blen - lb - 1 - n) mod blen) ++ lenc n.

Lemma close_chain iv c m : absorbed iv c m ->
  md_close blen round lb lenc c = chain (m ++ padding (zlen m)) iv.
Proof.
  intros ((Hb & Hv & Ht) & Hcount & Hm). unfold md_close, padding. rewrite Hmask, Hcount.
  destruct (len_split m) as (q & Hq & Hl & E & Hr). set (ptr := zlen m mod blen) in *.
  rewrite Ht, Hv. assert (zlen (tail m) = ptr) as Lt by apply zlen_tail.
  assert (forall l n, zlen (tail m ++ [0x80] ++ zeros n ++ l) = ptr + 1 + Z.max 0 n + zlen l) as Lz.
  { intros l n. rewrite !zlen_app, Lt. unfold zeros at 1. rewrite length_replicate. cbn [length]. lia. }
  destruct (Z.ltb_spec (blen - lb) (ptr + 1)) as [Hlong|Hshort].
  - set (x := [0x80] ++ zeros (blen - (ptr + 1))).
    assert (zlen x = blen - ptr) as Lx by (subst x; rewrite zlen_app, zlen_zeros by lia; cbn [length]; lia).
    destruct (chain_block m x iv) as (Hch & Htl & Hmod); [fold ptr; lia|].
    set (y := zeros (blen - lb) ++ lenc (zlen m)).
    assert (zlen y = blen) as Ly by (subst y; rewrite zlen_app, zlen_zeros, Hlenc by lia; lia).
    destruct (chain_block (m ++ x) y iv) as (Hch2 & _ & _); [rewrite Hmod; lia|].
    rewrite Htl, Hch in Hch2. cbn [app] in Hch2.
    assert ((blen - lb - 1 - zlen m) mod blen = (blen - (ptr + 1)) + (blen - lb)) as ->.
    { apply (div_mod_eq blen (- q - 1) _ (blen - lb - 1 - zlen m)); lia. }
    assert (m ++ [0x80] ++ zeros (blen - (ptr + 1) + (blen - lb)) ++ lenc (zlen m) = (m ++ x) ++ y) as ->.
    { subst x y. rewrite <- !(assoc_L (++)). do 2 f_equal. rewrite (assoc_L (++)). f_equal.
      unfold zeros. rewrite <- replicate_add. f_equal. lia. }
    rewrite Hch2. subst x y. by rewrite <- (assoc_L (++)).
  - assert ((blen - lb - 1 - zlen m) mod blen = blen - lb - (ptr + 1)) as ->.
    { apply (div_mod_eq blen (- q) _ (blen - lb - 1 - zlen m)); lia. }
    set (x := [0x80] ++ zeros (blen - lb - (ptr + 1)) ++ lenc (zlen m)).
    destruct (chain_block m x iv) as (Hch & _ & _).
    { subst x. rewrite !zlen_app, zlen_zeros, Hlenc by lia. fold ptr. cbn [length]. lia. }
    rewrite Hch. subst x. by rewrite <- !(assoc_L (++)).
Qed.

(** The chaining value of the whole padded message. *)
Definition md_hash (iv : V) m : V := chain (m ++ padding (zlen m)) iv.
End md.

(** ** The reference hash functions (RFC 1321, FIPS 180-4) *)

Definition MD5 (m : list Z) : list Z :=
  br_range_enc32le (take 4 (md_hash 64 rfc1321_md5 8 len64le br_md5_IV m)).
Definition SHA1 (m : list Z) : list Z :=
  br_range_enc32be (take 5 (md_hash 64 fips_sha1 8 len64be br_sha1_IV m)).
Definition fips_256 (block val : list Z) : list Z :=
  fips_sha2 u32 BSG2_0 BSG2_1 SSG2_0 SSG2_1 sha2small_K 64 (br_range_dec32be 16 block) val.
Definition fips_512 (block val : list Z) : list Z :=
  fips_sha2 u64 BSG5_0 BSG5_1 SSG5_0 SSG5_1 sha2big_K 80 (br_range_dec64be 16 block) val.
Definition SHA2_32 (iv : list Z) (num : nat) (m : list Z) : list Z :=
  br_range_enc32be (take num (md_hash 64 fips_256 8 len64be iv m)).
Definition SHA2_64 (iv : list Z) (num : nat) (m : list Z) : list Z :=
  br_range_enc64be (take num (md_hash 128 fips_512 16 len128be iv m)).
Definition SHA224 := SHA2_32 br_sha224_IV 7.
Definition SHA256 := SHA2_32 br_sha256_IV 8.
Definition SHA384 := SHA2_64 IV384 6.
Definition SHA512 := SHA2_64 IV512 8.
Definition MD5SHA1 (m : list Z) : list Z := MD5 m ++ SHA1 m.

Lemma compress_ext {V} blen (f g : list Z -> V -> V) n m v :
  (forall b v, f b v = g b v) -> compress blen f n m v = compress blen g n m v.
Proof. intros E. revert m v. induction n as [|n IH]; intros m v; [done|]. cbn [compress]. by rewrite E, IH. Qed.
Lemma md_hash_ext {V} blen (f g : list Z -> V -> V) lb lenc iv m :
  (forall b v, f b v = g b v) -> md_hash blen f lb lenc iv m = md_hash blen g lb lenc iv m.
Proof. intros. by apply compress_ext. Qed.
Lemma fips_256_eq b v : br_sha2small_round b v = fips_256 b v.
Proof. unfold br_sha2small_round, fips_256. by rewrite sha2_round_fips. Qed.
Lemma fips_512_eq b v : sha2big_round b v = fips_512 b v.
Proof. unfold sha2big_round, fips_512. by rewrite sha2_round_fips. Qed.

(** ** The interface *)

(** What a hash function promises: [hash_absorbed c m] holds of a context that
    has been fed [m], and [H] is the function computed.  Messages are shorter than
    [2^61] bytes, so that their length in bits fits the counter. *)
Class HashLaws (dig : br_hash_class) (H : list Z -> list Z) := {
  hash_storage : hctx dig -> Prop;
  hash_absorbed : hctx dig -> list Z -> Prop;
  law_storage : forall c m, hash_absorbed c m -> hash_storage c;
  law_init : forall c, hash_storage c -> hash_absorbed (hinit dig c) [];
  law_update : forall c m x, hash_absorbed c m -> zlen (m ++ x) < 2 ^ 61 ->
    hash_absorbed (hupdate dig c x) (m ++ x);
  law_out : forall c m, hash_absorbed c m -> hout dig c = H m;
  law_state : forall c c' m, hash_absorbed c m -> zlen m mod block_size dig = 0 -> hash_storage c' ->
    hash_absorbed (hset_state dig c' (hstate dig c).1 (hstate dig c).2) m;
  law_count : forall c m, hash_absorbed c m -> (hstate dig c).2 = zlen m;
  law_size : forall m, zlen (H m) = br_digest_size dig;
  law_bytes : forall m, Forall is_u8 (H m);
  law_block : 0 < br_digest_size dig <= block_size dig /\ block_size dig <= 128 /\ br_digest_size dig <= 64 }.

Lemma law_updates `{HashLaws dig H} c m xs : hash_absorbed c m -> zlen (m ++ concat xs) < 2 ^ 61 ->
  hash_absorbed (fold_left (hupdate dig) xs c) (m ++ concat xs).
Proof.
  revert c m. induction xs as [|x xs IH]; intros c m Hc Hl; cbn [fold_left concat] in *; [by rewrite app_nil_r|].
  rewrite (assoc_L (++)) in *. apply IH; [|done]. apply law_update; [done|].
  pose proof (zlen_app (m ++ x) (concat xs)). lia.
Qed.

(** ** Every hash function satisfies it *)

Lemma mask_mod k x : 0 <= k -> Z.land x (2 ^ k - 1) = x mod 2 ^ k.
Proof. intros. rewrite Z.sub_1_r, <- Z.ones_equiv. by apply Z.land_ones. Qed.

Lemma enc32le_bytes x : Forall is_u8 (br_enc32le x).
Proof. unfold br_enc32le. repeat constructor; apply is_u8_u8. Qed.
Lemma enc32be_bytes x : Forall is_u8 (br_enc32be x).
Proof. unfold br_enc32be. repeat constructor; apply is_u8_u8. Qed.
Lemma enc64be_bytes x : Forall is_u8 (br_enc64be x).
Proof. unfold br_enc64be. apply Forall_app; split; apply enc32be_bytes. Qed.
Lemma range_enc_bytes enc v : (forall x, Forall is_u8 (enc x)) -> Forall is_u8 (range_enc enc v).
Proof. intros He. induction v as [|x v IH]; [constructor|]. apply Forall_app; auto. Qed.
Lemma zlen_range_enc enc w v : (forall x, zlen (enc x) = w) -> zlen (range_enc enc v) = w * zlen v.
Proof. intros He. induction v as [|x v IH]; cbn [range_enc]; [simpl; lia|]. rewrite zlen_app, He, IH. cbn [length]. lia. Qed.

Section compress_inv.
Context {V : Type} (blen : Z) (round : list Z -> V -> V) (good : V -> Prop)
  (Hround : forall b v, good (round b v)).
Lemma chain_good m iv : good iv -> good (chain blen round m iv).
Proof.
  unfold chain. generalize (Z.to_nat (zlen m / blen)) as n. intros n. revert m iv.
  induction n as [|n IH]; intros m iv Hiv; [done|]. cbn [compress]. by apply IH.
Qed.
End compress_inv.

(** The values of a compression function: [n] words of [w] bits. *)
Definition words (w : Z) (n : nat) (v : list Z) : Prop := length v = n /\ Forall (fun x => 0 <= x < 2 ^ w) v.

Lemma md5_words b v : words 32 4 (br_md5_round b v).
Proof.
  unfold br_md5_round. cbv zeta. destruct (for_by _ _ _ _ _) as [[[? ?] ?] ?].
  split; [reflexivity|repeat constructor; apply Z.mod_pos_bound; lia].
Qed.
Lemma sha1_words b v : words 32 5 (br_sha1_round b v).
Proof.
  unfold br_sha1_round. cbv zeta. destruct (for_by _ _ _ _ _) as [[[[? ?] ?] ?] ?].
  split; [reflexivity|repeat constructor; apply Z.mod_pos_bound; lia].
Qed.
Lemma sha2_words wrap w B0 B1 S0 S1 K n m v : (forall x, 0 <= wrap x < 2 ^ w) ->
  words w 8 (sha2_round wrap B0 B1 S0 S1 K n m v).
Proof.
  intros Hw. unfold sha2_round. cbv zeta. destruct (for_by _ _ _ _ _) as [[[[[[[? ?] ?] ?] ?] ?] ?] ?].
  split; [reflexivity|repeat constructor; apply Hw].
Qed.
Lemma words_32 b v : words 32 8 (br_sha2small_round b v).
Proof. unfold br_sha2small_round. apply sha2_words. intros. apply u32_range. Qed.
Lemma words_64 b v : words 64 8 (sha2big_round b v).
Proof. unfold sha2big_round. apply sha2_words. intros. apply u64_range. Qed.

(** The instances come from one construction: a vtable whose functions are those
    of [md] up to the final encoding [fin]. *)
Section build.
Context {V : Type} (blen k : Z) (Hblen : blen = 2 ^ k) (Hk : 0 <= k <= 7) (round : list Z -> V -> V) (iv : V).
Context (desc : Z) (init : md_context V -> md_context V) (update : md_context V -> list Z -> md_context V)
  (out : md_context V -> list Z) (state : md_context V -> list Z * Z)
  (set_state : md_context V -> list Z -> Z -> md_context V) (H : list Z -> list Z).
Notation dig := (HashClass (md_context V) desc init update out state set_state).
Context (good : V -> Prop) (Hiv : good iv) (Hround : forall b v, good (round b v)).
Context (enc : V -> list Z) (dec : list Z -> V) (Hdec : forall v, good v -> dec (enc v) = v).
Context (Hinit : forall c, init c = MdContext (mbuf c) iv 0).
Context (Hupdate : update = md_update blen round \/ update = md_update' blen round).
Context (Hout : forall c m, absorbed blen round iv c m -> out c = H m).
Context (Hstate : forall c, state c = (enc (mval c), count c)).
Context (Hset : forall c s n, set_state c s n = MdContext (mbuf c) (dec s) n).
Context (Hsize : forall m, zlen (H m) = br_digest_size dig) (Hbytes : forall m, Forall is_u8 (H m)).
Context (Hbs : block_size dig = blen) (Hds : 0 < br_digest_size dig <= blen /\ br_digest_size dig <= 64).

Lemma pow_k : 0 < blen <= 128.
Proof. rewrite Hblen. split; [apply Z.pow_pos_nonneg; lia|]. change 128 with (2 ^ 7). apply Z.pow_le_mono_r; lia. Qed.

Lemma build_init c : zlen (mbuf c) = blen -> absorbed blen round iv (init c) [].
Proof.
  intros Hb. pose proof pow_k. rewrite Hinit. unfold absorbed, fed, chain, tail. cbn [mbuf mval count].
  change (zlen []) with 0. rewrite Zdiv_0_l, Zmod_0_l. split; [|split; [done|lia]].
  split; [exact Hb|split; [done|]]. by rewrite ztake_le0, zdrop_ge by (cbn [length]; lia).
Qed.
Lemma build_update c m x : absorbed blen round iv c m -> zlen (m ++ x) < 2 ^ 61 ->
  absorbed blen round iv (update c x) (m ++ x).
Proof.
  pose proof pow_k. pose proof (fun y => mask_mod k y ltac:(lia)) as Hmask. rewrite <- Hblen in Hmask.
  destruct Hupdate as [-> | ->]; [apply update_absorbed|apply update'_absorbed]; by first [lia|auto].
Qed.
Lemma build_state c c' m : absorbed blen round iv c m -> zlen m mod blen = 0 -> zlen (mbuf c') = blen ->
  absorbed blen round iv (set_state c' (state c).1 (state c).2) m.
Proof.
  intros ((Hb & Hv & Ht) & Hc & Hl) Hm Hb'. rewrite Hset, Hstate. cbn [fst snd].
  rewrite Hv, Hdec by (by apply chain_good). rewrite Hm in Ht. 
  unfold absorbed, fed. cbn [mbuf mval count]. rewrite Hm. repeat split; done.
Qed.

Definition md_laws : HashLaws dig H.
Proof.
  refine (Build_HashLaws dig H (fun c => zlen (mbuf c) = blen) (absorbed blen round iv) _ _ _ Hout _ _ Hsize Hbytes _).
  - intros c m ((Hb & _) & _). exact Hb.
  - exact build_init.
  - exact build_update.
  - rewrite Hbs. exact build_state.
  - intros c m (_ & Hc & _). cbn [hstate]. rewrite Hstate. exact Hc.
  - rewrite Hbs. pose proof pow_k. destruct Hds. split; [done|lia].
Defined.
End build.

Lemma md_hash_good {V} blen (round : list Z -> V -> V) (good : V -> Prop) lb lenc iv m :
  (forall b v, good (round b v)) -> good iv -> good (md_hash blen round lb lenc iv m).
Proof. intros. unfold md_hash. by apply (chain_good _ _ good). Qed.
(** The encoded hash value: its size and its bytes. *)
Lemma enc_words_size enc w wb n num v : (forall x, zlen (enc x) = wb) -> words w n v -> (num <= n)%nat ->
  zlen (range_enc enc (take num v)) = wb * Z.of_nat num.
Proof. intros He [Hl _] Hn. rewrite (zlen_range_enc _ wb) by done. rewrite length_take. f_equal. lia. Qed.
Lemma words_dec_enc w wb n dec enc v : (forall x m, 0 <= x < 2 ^ w -> dec (enc x ++ m) = x) ->
  (forall x, zlen (enc x) = wb) -> words w n v -> range_dec wb dec n (range_enc enc (take n v)) = v.
Proof.
  intros Hd He [Hl Hv]. rewrite take_ge by lia. rewrite <- Hl, <- (app_nil_r (range_enc enc v)).
  by apply (range_dec_enc _ _ _ (fun x => 0 <= x < 2 ^ w)).
Qed.

(** The constants are words of the right size. *)
Definition wordsb (w : Z) (n : nat) (v : list Z) : bool :=
  (length v =? n)%nat && forallb (fun x => (0 <=? x) && (x <? 2 ^ w)) v.
Lemma wordsb_words w n v : wordsb w n v = true -> words w n v.
Proof.
  unfold wordsb. rewrite andb_true_iff, Nat.eqb_eq, forallb_forall. intros [Hl Hv]. split; [done|].
  apply Forall_forall. intros x Hx. apply list_elem_of_In, Hv in Hx. lia.
Qed.

Lemma zlen_enc32le x : zlen (br_enc32le x) = 4. Proof. reflexivity. Qed.
Lemma zlen_enc32be x : zlen (br_enc32be x) = 4. Proof. reflexivity. Qed.
Lemma zlen_enc64be x : zlen (br_enc64be x) = 8. Proof. reflexivity. Qed.
#[export] Hint Resolve zlen_enc32le zlen_enc32be zlen_enc64be enc32le_bytes enc32be_bytes enc64be_bytes
  dec_enc32be dec_enc32le dec_enc64be range_enc_bytes md5_words sha1_words words_32 words_64 : hashes.

Lemma mask64 x : Z.land x (64 - 1) = x mod 64. Proof. apply (mask_mod 6). lia. Qed.
Lemma mask128 x : Z.land x (128 - 1) = x mod 128. Proof. apply (mask_mod 7). lia. Qed.

Lemma md5_close c m : absorbed 64 br_md5_round br_md5_IV c m ->
  md_close 64 br_md5_round 8 len64le c = md_hash 64 br_md5_round 8 len64le br_md5_IV m.
Proof. intros. apply close_chain; [lia|apply mask64|lia|done|done]. Qed.
Lemma sha1_close c m : absorbed 64 br_sha1_round br_sha1_IV c m ->
  md_close 64 br_sha1_round 8 len64be c = md_hash 64 br_sha1_round 8 len64be br_sha1_IV m.
Proof. intros. apply close_chain; [lia|apply mask64|lia|done|done]. Qed.
Lemma sha2small_close iv c m : absorbed 64 br_sha2small_round iv c m ->
  md_close 64 br_sha2small_round 8 len64be c = md_hash 64 br_sha2small_round 8 len64be iv m.
Proof. intros. apply close_chain; [lia|apply mask64|lia|done|done]. Qed.
Lemma sha2big_close iv c m : absorbed 128 sha2big_round iv c m ->
  md_close 128 sha2big_round 16 len128be c = md_hash 128 sha2big_round 16 len128be iv m.
Proof. intros. apply close_chain; [lia|apply mask128|lia|done|done]. Qed.

Lemma md5_out_eq c m : absorbed 64 br_md5_round br_md5_IV c m -> br_md5_out c = MD5 m.
Proof. intros. unfold br_md5_out, MD5. by rewrite (md5_close c m), (md_hash_ext _ _ rfc1321_md5) by auto using md5_round_rfc. Qed.
Lemma sha1_out_eq c m : absorbed 64 br_sha1_round br_sha1_IV c m -> br_sha1_out c = SHA1 m.
Proof. intros. unfold br_sha1_out, SHA1. by rewrite (sha1_close c m), (md_hash_ext _ _ fips_sha1) by auto using sha1_round_fips. Qed.
Lemma sha2small_out_eq iv num c m : absorbed 64 br_sha2small_round iv c m -> sha2small_out c num = SHA2_32 iv num m.
Proof. intros. unfold sha2small_out, SHA2_32. by rewrite (sha2small_close iv c m), (md_hash_ext _ _ fips_256) by auto using fips_256_eq. Qed.
Lemma sha2big_out_eq iv num c m : absorbed 128 sha2big_round iv c m -> sha2big_out c num = SHA2_64 iv num m.
Proof. intros. unfold sha2big_out, SHA2_64. by rewrite (sha2big_close iv c m), (md_hash_ext _ _ fips_512) by auto using fips_512_eq. Qed.

Lemma rfc1321_words b v : words 32 4 (rfc1321_md5 b v). Proof. rewrite <- md5_round_rfc. apply md5_words. Qed.
Lemma fips_sha1_words b v : words 32 5 (fips_sha1 b v). Proof. rewrite <- sha1_round_fips. apply sha1_words. Qed.
Lemma fips_256_words b v : words 32 8 (fips_256 b v). Proof. rewrite <- fips_256_eq. apply words_32. Qed.
Lemma fips_512_words b v : words 64 8 (fips_512 b v). Proof. rewrite <- fips_512_eq. apply words_64. Qed.
#[export] Hint Resolve rfc1321_words fips_sha1_words fips_256_words fips_512_words : hashes.

Lemma MD5_size m : zlen (MD5 m) = 16.
Proof.
  unfold MD5, br_range_enc32le. rewrite (enc_words_size _ 32 4 4); [reflexivity|done| |done].
  apply md_hash_good; [auto with hashes|]. by apply wordsb_words.
Qed.
Lemma SHA1_size m : zlen (SHA1 m) = 20.
Proof.
  unfold SHA1, br_range_enc32be. rewrite (enc_words_size _ 32 4 5); [reflexivity|done| |done].
  apply md_hash_good; [auto with hashes|]. by apply wordsb_words.
Qed.
Lemma SHA2_32_size iv num m : wordsb 32 8 iv = true -> (num <= 8)%nat ->
  zlen (SHA2_32 iv num m) = 4 * Z.of_nat num.
Proof.
  intros. unfold SHA2_32, br_range_enc32be. rewrite (enc_words_size _ 32 4 8); [reflexivity|done| |done].
  apply md_hash_good; [auto with hashes|]. by apply wordsb_words.
Qed.
Lemma SHA2_64_size iv num m : wordsb 64 8 iv = true -> (num <= 8)%nat ->
  zlen (SHA2_64 iv num m) = 8 * Z.of_nat num.
Proof.
  intros. unfold SHA2_64, br_range_enc64be. rewrite (enc_words_size _ 64 8 8); [reflexivity|done| |done].
  apply md_hash_good; [auto with hashes|]. by apply wordsb_words.
Qed.

(** An application of [md_laws] and its side conditions, in their order. *)
Tactic Notation "build_laws" uconstr(laws) constr(Hwords) constr(Hout) constr(Hsize) :=
  refine laws;
  [ apply wordsb_words; reflexivity | exact Hwords
   | intros v Hv; eapply words_dec_enc; [| |exact Hv]; auto with hashes
   | reflexivity | first [left; reflexivity | right; reflexivity] | exact Hout | reflexivity | reflexivity
   | exact Hsize | intros v; apply range_enc_bytes; auto with hashes | reflexivity
   | split; [split; [reflexivity|discriminate]|discriminate] ].

#[export] Instance md5_laws : HashLaws br_md5_vtable MD5.
Proof.
  build_laws (md_laws 64 6 eq_refl ltac:(lia) br_md5_round br_md5_IV _ br_md5_init br_md5_update br_md5_out
    br_md5_state br_md5_set_state MD5 (words 32 4) _ _ (fun v => br_range_enc32le (take 4 v)) (br_range_dec32le 4)
    _ _ _ _ _ _ _ _ _ _)
    md5_words md5_out_eq MD5_size.
Defined.
#[export] Instance sha1_laws : HashLaws br_sha1_vtable SHA1.
Proof.
  build_laws (md_laws 64 6 eq_refl ltac:(lia) br_sha1_round br_sha1_IV _ br_sha1_init br_sha1_update br_sha1_out
    br_sha1_state br_sha1_set_state SHA1 (words 32 5) _ _ (fun v => br_range_enc32be (take 5 v)) (br_range_dec32be 5)
    _ _ _ _ _ _ _ _ _ _)
    sha1_words sha1_out_eq SHA1_size.
Defined.
#[export] Instance sha224_laws : HashLaws br_sha224_vtable SHA224.
Proof.
  build_laws (md_laws 64 6 eq_refl ltac:(lia) br_sha2small_round br_sha224_IV _ br_sha224_init br_sha224_update
    br_sha224_out br_sha224_state br_sha224_set_state SHA224 (words 32 8) _ _
    (fun v => br_range_enc32be (take 8 v)) (br_range_dec32be 8) _ _ _ _ _ _ _ _ _ _)
    words_32 (sha2small_out_eq br_sha224_IV 7) (fun m => SHA2_32_size br_sha224_IV 7 m eq_refl ltac:(lia)).
Defined.
#[export] Instance sha256_laws : HashLaws br_sha256_vtable SHA256.
Proof.
  build_laws (md_laws 64 6 eq_refl ltac:(lia) br_sha2small_round br_sha256_IV _ br_sha256_init br_sha224_update
    br_sha256_out br_sha224_state br_sha224_set_state SHA256 (words 32 8) _ _
    (fun v => br_range_enc32be (take 8 v)) (br_range_dec32be 8) _ _ _ _ _ _ _ _ _ _)
    words_32 (sha2small_out_eq br_sha256_IV 8) (fun m => SHA2_32_size br_sha256_IV 8 m eq_refl ltac:(lia)).
Defined.
#[export] Instance sha384_laws : HashLaws br_sha384_vtable SHA384.
Proof.
  build_laws (md_laws 128 7 eq_refl ltac:(lia) sha2big_round IV384 _ br_sha384_init br_sha384_update
    br_sha384_out br_sha384_state br_sha384_set_state SHA384 (words 64 8) _ _
    (fun v => br_range_enc64be (take 8 v)) (br_range_dec64be 8) _ _ _ _ _ _ _ _ _ _)
    words_64 (sha2big_out_eq IV384 6) (fun m => SHA2_64_size IV384 6 m eq_refl ltac:(lia)).
Defined.
#[export] Instance sha512_laws : HashLaws br_sha512_vtable SHA512.
Proof.
  build_laws (md_laws 128 7 eq_refl ltac:(lia) sha2big_round IV512 _ br_sha512_init br_sha384_update
    br_sha512_out br_sha384_state br_sha384_set_state SHA512 (words 64 8) _ _
    (fun v => br_range_enc64be (take 8 v)) (br_range_dec64be 8) _ _ _ _ _ _ _ _ _ _)
    words_64 (sha2big_out_eq IV512 8) (fun m => SHA2_64_size IV512 8 m eq_refl ltac:(lia)).
Defined.

(** MD5 and SHA-1 side by side: the pair of the two. *)
Lemma compress_pair {V W} blen (f : list Z -> V -> V) (g : list Z -> W -> W) n m v :
  compress blen (fun b v => (f b v.1, g b v.2)) n m v = (compress blen f n m v.1, compress blen g n m v.2).
Proof. revert m v. induction n as [|n IH]; intros m v; [by destruct v|]. cbn [compress]. by rewrite IH. Qed.
Lemma absorbed_pair c m : absorbed 64 md5sha1_round (br_md5_IV, br_sha1_IV) c m ->
  absorbed 64 br_md5_round br_md5_IV (MdContext (mbuf c) (mval c).1 (count c)) m /\
  absorbed 64 br_sha1_round br_sha1_IV (MdContext (mbuf c) (mval c).2 (count c)) m.
Proof.
  intros ((Hb & Hv & Ht) & Hc & Hl). unfold chain, md5sha1_round in Hv. rewrite compress_pair in Hv.
  unfold absorbed, fed, chain. cbn [mbuf mval count]. rewrite Hv. cbn [fst snd]. done.
Qed.
Lemma md5sha1_out_pair c : br_md5sha1_out c =
  br_md5_out (MdContext (mbuf c) (mval c).1 (count c)) ++ br_sha1_out (MdContext (mbuf c) (mval c).2 (count c)).
Proof.
  unfold br_md5sha1_out, br_md5_out, br_sha1_out, md_close. cbn [mbuf mval count].
  change (64 - 1) with 63. change (64 - 8) with 56. by destruct (56 <? Z.land (count c) 63 + 1).
Qed.
Lemma md5sha1_out_eq c m : absorbed 64 md5sha1_round (br_md5_IV, br_sha1_IV) c m -> br_md5sha1_out c = MD5SHA1 m.
Proof.
  intros [H1 H2]%absorbed_pair. unfold MD5SHA1. by rewrite md5sha1_out_pair, (md5_out_eq _ m H1), (sha1_out_eq _ m H2).
Qed.
Lemma md5sha1_words b v : words 32 4 (md5sha1_round b v).1 /\ words 32 5 (md5sha1_round b v).2.
Proof. split; [apply md5_words|apply sha1_words]. Qed.

#[export] Instance md5sha1_laws : HashLaws br_md5sha1_vtable MD5SHA1.
Proof.
  refine (md_laws 64 6 eq_refl ltac:(lia) md5sha1_round (br_md5_IV, br_sha1_IV) _ br_md5sha1_init
    br_md5sha1_update br_md5sha1_out br_md5sha1_state br_md5sha1_set_state MD5SHA1
    (fun v => words 32 4 v.1 /\ words 32 5 v.2) _ md5sha1_words
    (fun v => br_range_enc32le (take 4 v.1) ++ br_range_enc32be (take 5 v.2))
    (fun s => (br_range_dec32le 4 s, br_range_dec32be 5 (zdrop 16 s))) _ _ _ md5sha1_out_eq _ _ _ _ _ _).
  - split; by apply wordsb_words.
  - intros [v1 v2] [H1 H2]. cbn [fst snd] in *. f_equal.
    + rewrite take_ge by (destruct H1; lia). destruct H1 as [H1 H1']. rewrite <- H1.
      by apply (range_dec_enc 4 _ _ is_u32); auto with hashes.
    + assert (zlen (br_range_enc32le (take 4 v1)) = 16) as L
        by (unfold br_range_enc32le; by rewrite (enc_words_size _ 32 4 4)).
      rewrite zdrop_app_ge by lia. rewrite L, Z.sub_diag, zdrop_0. eapply words_dec_enc; [| |exact H2]; auto with hashes.
  - reflexivity.
  - left. reflexivity.
  - reflexivity.
  - reflexivity.
  - intros m. unfold MD5SHA1. by rewrite zlen_app, MD5_size, SHA1_size.
  - intros m. unfold MD5SHA1, MD5, SHA1. apply Forall_app; split; apply range_enc_bytes; auto with hashes.
  - reflexivity.
  - split; [split; [reflexivity|discriminate]|discriminate].
Defined.

(** ** Claims *)

(** [dig] computes [H] in any [storage], however the message is cut into [update]
    calls; and a computation suspended with [state] at a block boundary resumes
    with [set_state]. *)
Definition computes (dig : br_hash_class) (storage : hctx dig -> Prop) (H : list Z -> list Z) : Prop :=
  forall c chunks, storage c -> zlen (concat chunks) < 2 ^ 61 ->
    hout dig (fold_left (hupdate dig) chunks (hinit dig c)) = H (concat chunks) /\
    forall c' before after, storage c' -> chunks = before ++ after ->
      zlen (concat before) mod block_size dig = 0 ->
      let saved := hstate dig (fold_left (hupdate dig) before (hinit dig c)) in
      hout dig (fold_left (hupdate dig) after (hset_state dig c' saved.1 saved.2)) = H (concat chunks).

Lemma laws_compute `{HashLaws dig H} (storage : hctx dig -> Prop) :
  (forall c, storage c -> hash_storage c) -> computes dig storage H.
Proof.
  intros Hst c chunks Hc Hl. pose proof (law_init c (Hst c Hc)) as Hi. split.
  - apply law_out. by apply (law_updates _ [] chunks).
  - intros c' before after Hc' -> Hm saved. rewrite concat_app in Hl |- *.
    pose proof (zlen_app (concat before) (concat after)).
    assert (hash_absorbed (fold_left (hupdate dig) before (hinit dig c)) (concat before)) as Hbe
      by (apply (law_updates _ [] before); [done|simpl; lia]).
    apply law_out, law_updates; [|lia]. apply law_state; auto.
Qed.

(** C22: the seven hash functions compute their one-shot definitions - pad the
    whole message, cut it into blocks, fold the textbook compression function -
    however the message is cut into [update] calls, for messages shorter than
    [2^61] bytes; the state saved at a block boundary resumes in any other context. *)
Theorem hashes_stream :
  computes br_md5_vtable (fun c => zlen (mbuf c) = 64) MD5 /\
  computes br_sha1_vtable (fun c => zlen (mbuf c) = 64) SHA1 /\
  computes br_sha224_vtable (fun c => zlen (mbuf c) = 64) SHA224 /\
  computes br_sha256_vtable (fun c => zlen (mbuf c) = 64) SHA256 /\
  computes br_sha384_vtable (fun c => zlen (mbuf c) = 128) SHA384 /\
  computes br_sha512_vtable (fun c => zlen (mbuf c) = 128) SHA512 /\
  computes br_md5sha1_vtable (fun c => zlen (mbuf c) = 64) MD5SHA1.
Proof.
  split_and!; apply laws_compute; intros c Hc; exact Hc.
Qed.

Lemma hashes_stream_witness :
  let dig := br_sha256_vtable in
  hout dig (fold_left (hupdate dig) [[0x61]; [0x62; 0x63]] (hinit dig (MdContext (zeros 64) [] 0))) =
    SHA256 [0x61; 0x62; 0x63] /\
  take 4 (SHA256 [0x61; 0x62; 0x63]) = [0xba; 0x78; 0x16; 0xbf].
Proof.
  split; [|vm_compute; reflexivity]. destruct hashes_stream as (_ & _ & _ & H & _).
  destruct (H (MdContext (zeros 64) [] 0) [[0x61]; [0x62; 0x63]]) as [E _]; [reflexivity|reflexivity|exact E].
Defined.
