(* ===== verification/Hmac.v ===== *)
(** * Hmac: mac/hmac.c, and its refinement of RFC 2104

    The functions take the hash function as a [br_hash_class].  A hash context
    that lives on the stack holds arbitrary contents until it is initialised: it
    is the argument [hc] of the functions that declare one. *)
From S2P Require Import Prelude.
From S2P Require Import Words.
From S2P Require Import Hash.
From S2P Require Import HashSpec.

Record br_hmac_key_context : Type := HmacKey { ksi : list Z; kso : list Z }.
(** [dig_vtable] and [dig.vtable] are the [dig] of the section. *)
Record br_hmac_context {dig : br_hash_class} : Type := Hmac { hdig : hctx dig; hkso : list Z; out_len : Z }.
Arguments br_hmac_context : clear implicits.
Arguments Hmac {dig}.
#[export] Instance eta_hmac {dig} : Eta (br_hmac_context dig) := fun c => Hmac (hdig c) (hkso c) (out_len c).

Section hmac.
Context (dig : br_hash_class).

(** [tmp] is the key xored with [bb], then [bb] up to the block length. *)
Definition process_key (hc : hctx dig) (key : list Z) (bb : Z) : hctx dig * list Z :=
  let blen := block_size dig in
  let tmp := map (fun b => Z.lxor b bb) key ++ replicate (Z.to_nat (blen - zlen key)) bb in
  let hc := hinit dig hc in
  let hc := hupdate dig hc tmp in
  (hc, (hstate dig hc).1).

Definition br_hmac_key_init (hc : hctx dig) (key : list Z) : br_hmac_key_context :=
  let '(hc, key) :=
    if block_size dig <? zlen key then
      let hc := hupdate dig (hinit dig hc) key in
      (hc, ztake (br_digest_size dig) (hout dig hc))
    else (hc, key) in
  let '(hc, ki) := process_key hc key 0x36 in
  let '(_, ko) := process_key hc key 0x5C in
  HmacKey ki ko.

Definition br_hmac_init (ctx : br_hmac_context dig) (kc : br_hmac_key_context) (olen : Z) : br_hmac_context dig :=
  let blen := block_size dig in
  let c := hset_state dig (hinit dig (hdig ctx)) (ksi kc) blen in
  let hlen := br_digest_size dig in
  let hlen := if (0 <? olen) && (olen <? hlen) then olen else hlen in
  Hmac c (kso kc) hlen.

Definition br_hmac_update (ctx : br_hmac_context dig) (data : list Z) : br_hmac_context dig :=
  ctx <| hdig := hupdate dig (hdig ctx) data |>.

Definition br_hmac_size (ctx : br_hmac_context dig) : Z := out_len ctx.

Definition br_hmac_out (hc : hctx dig) (ctx : br_hmac_context dig) : list Z :=
  let tmp := hout dig (hdig ctx) in
  let blen := block_size dig in
  let hc := hset_state dig (hinit dig hc) (hkso ctx) blen in
  let hlen := br_digest_size dig in
  let hc := hupdate dig hc (ztake hlen tmp) in
  let tmp := hout dig hc in
  ztake (out_len ctx) tmp.
End hmac.

(** ** RFC 2104 *)

Definition hmac_pad (B : Z) (K : list Z) : list Z := K ++ zeros (B - zlen K).
Definition HMAC (H : list Z -> list Z) (B : Z) (K text : list Z) : list Z :=
  let K := hmac_pad B (if B <? zlen K then H K else K) in
  H (map (fun b => Z.lxor b 0x5C) K ++ H (map (fun b => Z.lxor b 0x36) K ++ text)).

Section spec.
Context `{L : HashLaws dig H}.
Notation blen := (block_size dig).
Notation hlen := (br_digest_size dig).

(** The key that is padded. *)
Definition short_key (K : list Z) : list Z := if blen <? zlen K then H K else K.
Definition inner (K : list Z) : list Z := map (fun b => Z.lxor b 0x36) (hmac_pad blen (short_key K)).
Definition outer (K : list Z) : list Z := map (fun b => Z.lxor b 0x5C) (hmac_pad blen (short_key K)).

Lemma zlen_short_key K : zlen (short_key K) <= blen.
Proof.
  pose proof law_block. unfold short_key. destruct (Z.ltb_spec blen (zlen K)); [rewrite law_size|]; lia.
Qed.
Lemma zlen_pad K bb : zlen (map (fun b => Z.lxor b bb) (hmac_pad blen (short_key K))) = blen.
Proof.
  rewrite length_map. unfold hmac_pad. pose proof (zlen_short_key K). rewrite zlen_app, zlen_zeros by lia. lia.
Qed.
(** What a stored state stands for: a hash context fed with one block. *)
Definition saved (s block : list Z) : Prop :=
  exists c, hash_absorbed c block /\ zlen block = blen /\ s = (hstate dig c).1.
Definition key_ok (kc : br_hmac_key_context) (K : list Z) : Prop :=
  saved (ksi kc) (inner K) /\ saved (kso kc) (outer K).
(** [ctx] has been keyed with [K] and fed [m]. *)
Definition hmac_fed (K : list Z) (olen : Z) (ctx : br_hmac_context dig) (m : list Z) : Prop :=
  hash_absorbed (hdig ctx) (inner K ++ m) /\ saved (hkso ctx) (outer K) /\
  out_len ctx = if (0 <? olen) && (olen <? hlen) then olen else hlen.

Lemma resume s block c : saved s block -> hash_storage c ->
  hash_absorbed (hset_state dig (hinit dig c) s blen) block.
Proof.
  intros (c0 & Ha & Hl & ->) Hc. rewrite <- Hl, <- (law_count c0 block Ha). apply law_state; [done| |].
  - rewrite Hl. apply Z.mod_same. pose proof law_block. lia.
  - by eapply law_storage, law_init.
Qed.

Lemma map_lxor_zeros bb n : map (fun b => Z.lxor b bb) (zeros n) = replicate (Z.to_nat n) bb.
Proof. unfold zeros. induction (Z.to_nat n) as [|k IH]; [done|]. cbn. by rewrite IH. Qed.

Lemma process_key_ok hc K bb : hash_storage hc ->
  let r := process_key dig hc (short_key K) bb in
  hash_storage r.1 /\ saved r.2 (map (fun b => Z.lxor b bb) (hmac_pad blen (short_key K))).
Proof.
  intros Hc. unfold process_key. cbn [fst snd]. rewrite <- map_lxor_zeros, <- map_app.
  fold (hmac_pad blen (short_key K)). pose proof (zlen_pad K bb) as Hl. set (block := map _ _) in *.
  assert (hash_absorbed (hupdate dig (hinit dig hc) block) block) as Ha.
  { apply (law_update _ [] block); [by apply law_init|]. pose proof law_block. cbn [app]. lia. }
  split; [by eapply law_storage|]. by exists (hupdate dig (hinit dig hc) block).
Qed.

Lemma key_init_ok hc K : hash_storage hc -> zlen K < 2 ^ 61 -> key_ok (br_hmac_key_init dig hc K) K.
Proof.
  intros Hc Hl. unfold br_hmac_key_init.
  set (r := if _ <? _ then _ else _). assert (hash_storage r.1 /\ r.2 = short_key K) as [Hr Hk].
  { subst r. unfold short_key. destruct (blen <? zlen K); [|done].
    assert (hash_absorbed (hupdate dig (hinit dig hc) K) K) as Ha
      by (by apply (law_update _ [] K); [apply law_init|]).
    split; [by eapply law_storage|]. cbn [snd]. rewrite (law_out _ _ Ha). apply ztake_ge. rewrite law_size. lia. }
  destruct r as [hc' K']. cbn [fst snd] in *. subst K'.
  destruct (process_key_ok hc' K 0x36 Hr) as [Hr1 Hi]. destruct (process_key dig hc' _ 0x36) as [hc1 ki].
  destruct (process_key_ok hc1 K 0x5C Hr1) as [_ Ho]. destruct (process_key dig hc1 _ 0x5C) as [hc2 ko]. done.
Qed.

Lemma hmac_init_ok ctx kc K olen : hash_storage (hdig ctx) -> key_ok kc K ->
  hmac_fed K olen (br_hmac_init dig ctx kc olen) [].
Proof. intros Hc [Hi Ho]. split; [|done]. rewrite app_nil_r. by apply resume. Qed.

Lemma hmac_update_ok K olen ctx m x : hmac_fed K olen ctx m -> blen + zlen (m ++ x) < 2 ^ 61 ->
  hmac_fed K olen (br_hmac_update dig ctx x) (m ++ x).
Proof.
  intros (Ha & Hs & Ho) Hl. split; [|done]. cbn. rewrite (assoc_L (++)). apply law_update; [done|].
  unfold inner. rewrite <- (assoc_L (++)), zlen_app, zlen_pad. done.
Qed.

Lemma hmac_storage K olen ctx m : hmac_fed K olen ctx m -> hash_storage (hdig ctx).
Proof. intros (Ha & _). by eapply law_storage. Qed.

Lemma HMAC_size B K m : zlen (HMAC H B K m) = hlen.
Proof. unfold HMAC. apply law_size. Qed.
Lemma HMAC_bytes B K m : Forall is_u8 (HMAC H B K m).
Proof. unfold HMAC. apply law_bytes. Qed.

(** The result, truncated to the requested length. *)
Lemma hmac_out_ok K olen ctx m hc : hmac_fed K olen ctx m -> hash_storage hc ->
  br_hmac_out dig hc ctx = ztake (out_len ctx) (HMAC H blen K m).
Proof.
  intros (Ha & Hs & Ho) Hc. unfold br_hmac_out. rewrite (law_out _ _ Ha).
  rewrite (ztake_ge hlen) by (rewrite law_size; lia). pose proof (resume _ _ _ Hs Hc) as Hr.
  pose proof law_block. pose proof (law_size (inner K ++ m)).
  apply (law_update _ _ (H (inner K ++ m))) in Hr; [|rewrite zlen_app; destruct Hs as (? & _ & -> & _); lia].
  by rewrite (law_out _ _ Hr).
Qed.
Lemma hmac_out_full K ctx m hc : hmac_fed K 0 ctx m -> hash_storage hc ->
  br_hmac_out dig hc ctx = HMAC H blen K m.
Proof.
  intros Hf Hc. rewrite (hmac_out_ok K 0 ctx m hc) by done. destruct Hf as (_ & _ & ->).
  apply ztake_ge. by rewrite HMAC_size.
Qed.

Lemma hmac_updates K olen ctx m xs : hmac_fed K olen ctx m -> blen + zlen (m ++ concat xs) < 2 ^ 61 ->
  hmac_fed K olen (fold_left (br_hmac_update dig) xs ctx) (m ++ concat xs).
Proof.
  revert ctx m. induction xs as [|x xs IH]; intros ctx m Hf Hl; cbn [fold_left concat] in *; [by rewrite app_nil_r|].
  rewrite (assoc_L (++)) in *. apply IH; [|done]. apply hmac_update_ok; [done|].
  pose proof (zlen_app (m ++ x) (concat xs)). lia.
Qed.
(** One HMAC computation in a context that may have been used before. *)
Lemma mac_ok ctx kc K xs stk : hash_storage (hdig ctx) -> key_ok kc K -> hash_storage stk ->
  blen + zlen (concat xs) < 2 ^ 61 ->
  let c := fold_left (br_hmac_update dig) xs (br_hmac_init dig ctx kc 0) in
  br_hmac_out dig stk c = HMAC H blen K (concat xs) /\ hash_storage (hdig c).
Proof.
  intros Hc Hk Hs Hl c. assert (hmac_fed K 0 c (concat xs)) as Hf
    by (apply (hmac_updates K 0 _ [] xs); [by apply hmac_init_ok|done]).
  split; [by apply hmac_out_full|by eapply hmac_storage].
Qed.
End spec.

(** C24: for every hash function that satisfies the interface (the seven of [Hash]
    do), keys and messages below [2^61] bytes: key set-up, [update] calls that cut
    the message anyhow, and output compute HMAC as RFC 2104 defines it, truncated
    to the requested length; a key longer than a block is hashed first. *)
Theorem hmac_rfc2104 `{L : HashLaws dig H} ctx hc hc' key chunks olen :
  hash_storage (hdig ctx) -> hash_storage hc -> hash_storage hc' -> zlen key < 2 ^ 61 ->
  block_size dig + zlen (concat chunks) < 2 ^ 61 ->
  br_hmac_out dig hc' (fold_left (br_hmac_update dig) chunks
      (br_hmac_init dig ctx (br_hmac_key_init dig hc key) olen)) =
    ztake (if (0 <? olen) && (olen <? br_digest_size dig) then olen else br_digest_size dig)
      (HMAC H (block_size dig) key (concat chunks)).
Proof.
  intros Hctx Hhc Hhc' Hk Hl. pose proof (key_init_ok hc key Hhc Hk) as Hkey.
  pose proof (hmac_init_ok ctx _ key olen Hctx Hkey) as Hi.
  apply (hmac_updates key olen _ [] chunks) in Hi; [|exact Hl].
  rewrite (hmac_out_ok key olen _ _ hc' Hi Hhc'). by destruct Hi as (_ & _ & ->).
Qed.

(** A stack slot for a SHA-256 context. *)
Definition sha256_slot : hctx br_sha256_vtable := MdContext (zeros 64) [] 0.
(** RFC 4231, test case 2, with the message in two parts. *)
Lemma hmac_rfc2104_witness :
  let dig := br_sha256_vtable in
  let c := sha256_slot in
  br_hmac_out dig c (fold_left (br_hmac_update dig)
      [[0x77; 0x68; 0x61; 0x74; 0x20; 0x64; 0x6f; 0x20; 0x79; 0x61; 0x20; 0x77; 0x61; 0x6e; 0x74; 0x20];
       [0x66; 0x6f; 0x72; 0x20; 0x6e; 0x6f; 0x74; 0x68; 0x69; 0x6e; 0x67; 0x3f]]
      (br_hmac_init dig (Hmac (dig := dig) c [] 0) (br_hmac_key_init dig c [0x4a; 0x65; 0x66; 0x65]) 4)) =
    [0x5b; 0xdc; 0xc1; 0x46].
Proof.
  intros dig c. subst dig c.
  rewrite (hmac_rfc2104 (L := sha256_laws) (Hmac (dig := br_sha256_vtable) sha256_slot [] 0) sha256_slot sha256_slot [0x4a; 0x65; 0x66; 0x65]
    [[0x77; 0x68; 0x61; 0x74; 0x20; 0x64; 0x6f; 0x20; 0x79; 0x61; 0x20; 0x77; 0x61; 0x6e; 0x74; 0x20];
     [0x66; 0x6f; 0x72; 0x20; 0x6e; 0x6f; 0x74; 0x68; 0x69; 0x6e; 0x67; 0x3f]] 4
    eq_refl eq_refl eq_refl eq_refl eq_refl).
  vm_compute. reflexivity.
Defined.
