(* ===== verification/HmacCt.v ===== *)
(** * HmacCt: mac/hmac_ct.c, HMAC in constant time

    [br_hmac_outCT] hashes the first [len] bytes of a buffer without showing [len],
    which is only known to lie between two bounds: it pads by itself, goes through
    the longest possible message and keeps the hash state of the right block.
    [PaddingLaws] adds to the interface of a hash function what this relies on: the
    state after the padded message is the hash. *)
From S2P Require Import Prelude.
From S2P Require Import Words.
From S2P Require Import HashRounds.
From S2P Require Import Hash.
From S2P Require Import HashSpec.
From S2P Require Import Hmac.

Section hmac_ct.
Context (dig : br_hash_class).

Definition hash_size : Z := Z.land (Z.shiftr (desc dig) 8) 0x7F.

(** [be] and [po]. *)
Definition ct_be : bool := negb (Z.land (desc dig) BR_HASHDESC_MD_PADDING_BE =? 0).
Definition ct_po : Z := if Z.land (desc dig) BR_HASHDESC_MD_PADDING_128 =? 0 then 9 else 9 + 8.

Section bytes.
(** The variables the loop does not change. *)
Context (bs kr kz kl len max_len bit_len : Z) (data : list Z).

(** [e] for the position [v] in the block. *)
Definition ct_length_byte (v : Z) : Z :=
  if bs - 8 <=? v then
    let j := Z.shiftl (v - (bs - 8)) 3 in
    Z.land (u32 (Z.shiftr bit_len (if ct_be then 56 - j else j))) 0xFF
  else 0.

Definition ct_byte (u : Z) : Z :=
  let d := if u <? max_len then zget data u else 0 in
  let v := Z.land (u32 (kr + u)) (bs - 1) in
  let e := ct_length_byte v in
  let x0 := MUX (EQ u (u32 len)) 0x80 d in
  let x1 := MUX (LT u kl) 0 e in
  u8 (MUX (LE u (u32 len)) x0 x1).

(** [for (u = 0; u < km; u ++)]: [n] rounds from [u] on, on the hash context and [tmp2]. *)
Fixpoint ct_loop (n : nat) (u : Z) (hc : hctx dig) (tmp2 : list Z) : hctx dig * list Z :=
  match n with
  | O => (hc, tmp2)
  | S n =>
      let hc := hupdate dig hc [ct_byte u] in
      let tmp2 :=
        if Z.land (u32 (kr + u)) (bs - 1) =? bs - 1
        then br_ccopy (EQ u kz) tmp2 (hstate dig hc).1 (Z.to_nat hash_size) else tmp2 in
      ct_loop n (u32 (u + 1)) hc tmp2
  end.
End bytes.

(** The bytes written at [out]. *)
Definition br_hmac_outCT (ctx : br_hmac_context dig) (data : list Z) (len min_len max_len : Z) : list Z :=
  let hc := hdig ctx in
  let po := ct_po in
  let bs := block_size dig in
  let hlen := hash_size in
  let count := (hstate dig hc).2 in
  let bit_len := u64 (Z.shiftl (u64 (count + len)) 3) in
  let ncount := Z.land (u64 (count + min_len)) (u64 (Z.lnot (bs - 1))) in
  let '(hc, data, len, max_len, count) :=
    if count <? ncount then
      let n := ncount -! count in
      (hupdate dig hc (ztake n data), zdrop n data, len -! n, max_len -! n, ncount)
    else (hc, data, len, max_len, count) in
  let kr := Z.land (u32 count) (bs - 1) in
  let kz := u32 (Z.land (u32 (kr + u32 len + po + bs - 1)) (u32 (Z.lnot (bs - 1))) - 1 - kr) in
  let kl := u32 (kz - 7) in
  let km := u32 (Z.land (u32 (kr + u32 max_len + po + bs - 1)) (u32 (Z.lnot (bs - 1))) - kr) in
  let '(hc, tmp2) := ct_loop bs kr kz kl len max_len bit_len data (Z.to_nat km) 0 hc (zeros 64) in
  let hc := hset_state dig (hinit dig hc) (hkso ctx) bs in
  let hc := hupdate dig hc (ztake hlen tmp2) in
  ztake (out_len ctx) (hout dig hc).
End hmac_ct.

(** ** What a hash function must promise besides [HashLaws] *)

(** The padding of a message of [n] bytes. *)
Definition md_length (dig : br_hash_class) (n : Z) : list Z :=
  zeros (ct_po dig - 9) ++ (if ct_be dig then br_enc64be else br_enc64le) (u64 (Z.shiftl n 3)).
Definition md_padding (dig : br_hash_class) (n : Z) : list Z :=
  [0x80] ++ zeros ((block_size dig - ct_po dig - n) mod block_size dig) ++ md_length dig n.

Class PaddingLaws (dig : br_hash_class) (H : list Z -> list Z) `{L : HashLaws dig H} : Prop := {
  pad_state : forall c m, zlen m < 2 ^ 60 -> hash_absorbed c (m ++ md_padding dig (zlen m)) ->
    ztake (hash_size dig) (hstate dig c).1 = H m;
  pad_state_len : forall c m, hash_absorbed c m ->
    hash_size dig <= zlen (hstate dig c).1 /\ Forall is_u8 (hstate dig c).1;
  pad_block : exists k, 6 <= k <= 7 /\ block_size dig = 2 ^ k }.

(** *** The six functions of [Hash] that HMAC is used with *)

Lemma ztake_range_enc enc wb n v : (forall x, zlen (enc x) = wb) -> (n <= length v)%nat ->
  ztake (wb * Z.of_nat n) (range_enc enc v) = range_enc enc (take n v).
Proof.
  intros He. revert n. induction v as [|x v IH]; intros [|n] Hn; cbn [range_enc take length] in *; try lia.
  - by rewrite Z.mul_0_r.
  - by rewrite Z.mul_0_r.
  - pose proof (He x). rewrite ztake_app_ge by lia. rewrite He.
    replace (wb * Z.of_nat (S n) - wb) with (wb * Z.of_nat n) by lia. rewrite IH by lia. done.
Qed.

Lemma len64_eq be n : 0 <= n < 2 ^ 61 -> (if be : bool then br_enc64be else br_enc64le) (u64 (Z.shiftl n 3)) = if be then len64be n else len64le n.
Proof. by destruct be. Qed.
Lemma len128_eq n : 0 <= n < 2 ^ 61 -> zeros 8 ++ br_enc64be (u64 (Z.shiftl n 3)) = len128be n.
Proof. intros. unfold len128be. rewrite Z.shiftr_div_pow2, Z.div_small by lia. done. Qed.

(** For a Merkle-Damgard hash whose state is its chaining value. *)
Section md.
Context (blen w wb : Z) (nv n nst : nat) (round : list Z -> list Z -> list Z) (iv : list Z) (enc : Z -> list Z).
Context (Hwords : forall b v, words w nv (round b v)) (Hiv : words w nv iv) (Hn : (n <= nst <= nv)%nat)
  (Henc : forall x, zlen (enc x) = wb) (Hbytes : forall x, Forall is_u8 (enc x)).
Implicit Types c : md_context (list Z).

Lemma absorbed_words c m : absorbed blen round iv c m -> length (mval c) = nv.
Proof. intros ((_ & -> & _) & _). by destruct (chain_good blen round (words w nv) Hwords m iv Hiv). Qed.
Lemma md_pad_state lb lenc c m :
  absorbed blen round iv c (m ++ padding blen lb lenc (zlen m)) ->
  ztake (wb * Z.of_nat n) (range_enc enc (take nst (mval c))) = range_enc enc (take n (md_hash blen round lb lenc iv m)).
Proof.
  intros Ha. pose proof (absorbed_words _ _ Ha) as L. rewrite ztake_range_enc by (done || (rewrite length_take; lia)).
  rewrite take_take, Nat.min_l by lia. destruct Ha as ((_ & -> & _) & _). done.
Qed.
Lemma md_state_len c m : absorbed blen round iv c m ->
  wb * Z.of_nat n <= zlen (range_enc enc (take nst (mval c))) /\ Forall is_u8 (range_enc enc (take nst (mval c))).
Proof.
  intros Ha. pose proof (absorbed_words _ _ Ha) as L. rewrite (zlen_range_enc enc wb) by done. rewrite length_take.
  split; [|by apply range_enc_bytes]. pose proof (Henc 0). nia.
Qed.
End md.

Lemma padding_64 dig n : block_size dig = 64 -> ct_po dig = 9 ->
  md_padding dig n = padding 64 8 (if ct_be dig then len64be else len64le) n.
Proof. unfold md_padding, padding, md_length. intros -> ->. by destruct (ct_be dig). Qed.
Lemma padding_128 dig n : block_size dig = 128 -> ct_po dig = 17 -> ct_be dig = true -> 0 <= n < 2 ^ 61 ->
  md_padding dig n = padding 128 16 len128be n.
Proof. unfold md_padding, padding, md_length. intros -> -> -> Hn. rewrite <- (len128_eq n) by done. done. Qed.

#[export] Instance md5_pad : PaddingLaws br_md5_vtable MD5.
Proof.
  split.
  - intros c m Hm Ha. rewrite padding_64 in Ha by done. unfold MD5. rewrite <- (md_hash_ext _ _ _ _ _ _ _ md5_round_rfc).
    exact (md_pad_state 64 32 4 4 4 4 br_md5_round br_md5_IV br_enc32le md5_words ltac:(by apply wordsb_words) ltac:(lia) ltac:(done) _ _ c m Ha).
  - intros c m Ha.
    exact (md_state_len 64 32 4 4 4 4 br_md5_round br_md5_IV br_enc32le md5_words ltac:(by apply wordsb_words) ltac:(lia) ltac:(done) enc32le_bytes c m Ha).
  - by exists 6.
Qed.
#[export] Instance sha1_pad : PaddingLaws br_sha1_vtable SHA1.
Proof.
  split.
  - intros c m Hm Ha. rewrite padding_64 in Ha by done. unfold SHA1. rewrite <- (md_hash_ext _ _ _ _ _ _ _ sha1_round_fips).
    exact (md_pad_state 64 32 4 5 5 5 br_sha1_round br_sha1_IV br_enc32be sha1_words ltac:(by apply wordsb_words) ltac:(lia) ltac:(done) _ _ c m Ha).
  - intros c m Ha.
    exact (md_state_len 64 32 4 5 5 5 br_sha1_round br_sha1_IV br_enc32be sha1_words ltac:(by apply wordsb_words) ltac:(lia) ltac:(done) enc32be_bytes c m Ha).
  - by exists 6.
Qed.
#[export] Instance sha256_pad : PaddingLaws br_sha256_vtable SHA256.
Proof.
  split.
  - intros c m Hm Ha. rewrite padding_64 in Ha by done. unfold SHA256, SHA2_32. rewrite <- (md_hash_ext _ _ _ _ _ _ _ fips_256_eq).
    exact (md_pad_state 64 32 4 8 8 8 br_sha2small_round br_sha256_IV br_enc32be words_32 ltac:(by apply wordsb_words) ltac:(lia) ltac:(done) _ _ c m Ha).
  - intros c m Ha.
    exact (md_state_len 64 32 4 8 8 8 br_sha2small_round br_sha256_IV br_enc32be words_32 ltac:(by apply wordsb_words) ltac:(lia) ltac:(done) enc32be_bytes c m Ha).
  - by exists 6.
Qed.
#[export] Instance sha384_pad : PaddingLaws br_sha384_vtable SHA384.
Proof.
  split.
  - intros c m Hm Ha. rewrite padding_128 in Ha by (done || lia). unfold SHA384, SHA2_64.
    rewrite <- (md_hash_ext _ _ _ _ _ _ _ fips_512_eq).
    exact (md_pad_state 128 64 8 8 6 8 sha2big_round IV384 br_enc64be words_64 ltac:(by apply wordsb_words) ltac:(lia) ltac:(done) _ _ c m Ha).
  - intros c m Ha.
    exact (md_state_len 128 64 8 8 6 8 sha2big_round IV384 br_enc64be words_64 ltac:(by apply wordsb_words) ltac:(lia) ltac:(done) enc64be_bytes c m Ha).
  - by exists 7.
Qed.

(** ** Lemmas *)

Lemma land_wrap w x y : 0 <= w -> 0 <= x < 2 ^ w -> Z.land x (y mod 2 ^ w) = Z.land x y.
Proof.
  intros Hw Hx. rewrite <- !Z.land_ones by done. rewrite (Z.land_comm y), Z.land_assoc, Z.land_ones by done.
  by rewrite Z.mod_small.
Qed.
Lemma land_lnot k x : 0 <= k -> Z.land x (Z.lnot (2 ^ k - 1)) = x - x mod 2 ^ k.
Proof.
  intros. rewrite Z.sub_1_r, <- Z.ones_equiv, <- Z.ldiff_land, Z.ldiff_ones_r by done.
  rewrite Z.shiftl_mul_pow2, Z.shiftr_div_pow2 by done.
  pose proof (Z.div_mod x (2 ^ k) ltac:(pose proof (Z.pow_pos_nonneg 2 k); lia)). lia.
Qed.

Lemma ccopy_prefix b n dst src : (n <= length dst)%nat -> (n <= length src)%nat -> Forall is_u8 dst -> Forall is_u8 src ->
  br_ccopy (b2z b) dst src n = take n (if b then src else dst) ++ drop n dst.
Proof.
  revert dst src. induction n as [|n IH]; intros [|y dst] [|x src] Hd Hs Bd Bs; cbn [length] in *; try lia; try (by destruct b).
  cbn [br_ccopy]. inversion_clear Bd. inversion_clear Bs. unfold is_u8 in *.
  rewrite MUX_spec, IH by (try done; lia). destruct b; by rewrite u8_small by lia.
Qed.

Lemma zget_lookup l i x : l !! i = Some x -> zget l (Z.of_nat i) = x.
Proof. intros. unfold zget. rewrite Nat2Z.id. by apply nth_lookup_Some with (d := 0). Qed.
Lemma zget_zeros n i : zget (zeros n) i = 0.
Proof. unfold zget, zeros. generalize (Z.to_nat i) as k. induction (Z.to_nat n) as [|j IH]; intros [|k]; cbn; auto. Qed.
Definition enc64_list (be : bool) (x : Z) : list Z :=
  map (fun i => u8 (Z.shiftr x (if be then 56 - 8 * i else 8 * i))) [0; 1; 2; 3; 4; 5; 6; 7].
Lemma enc64_bytes_eq (be : bool) x : (if be then br_enc64be else br_enc64le) x = enc64_list be x.
Proof.
  destruct be; unfold enc64_list, br_enc64be, br_enc64le, br_enc32be, br_enc32le; cbn [map app Z.mul Z.sub];
    rewrite !u8_u32, !u8_shiftr_u32, !Z.shiftr_shiftr by lia; rewrite ?Z.shiftr_0_r; reflexivity.
Qed.
(** Byte [i] of an encoded length. *)
Lemma zget_enc64 (be : bool) x i : 0 <= i < 8 ->
  zget ((if be then br_enc64be else br_enc64le) x) i = Z.land (u32 (Z.shiftr x (if be then 56 - 8 * i else 8 * i))) 0xFF.
Proof.
  intros Hi. rewrite enc64_bytes_eq. change 0xFF with (Z.ones 8). rewrite Z.land_ones by done. fold (u8 (u32 (Z.shiftr x (if be then 56 - 8 * i else 8 * i)))).
  rewrite u8_u32. assert (i = 0 \/ i = 1 \/ i = 2 \/ i = 3 \/ i = 4 \/ i = 5 \/ i = 6 \/ i = 7) as Hcases by lia.
  repeat destruct Hcases as [-> | Hcases]; try subst i; reflexivity.
Qed.

(** ** The loop *)

Section loop.
Context `{P : PaddingLaws dig H}.
Notation bs := (block_size dig).
Notation po := (ct_po dig).
Lemma po_cases : (po = 9 \/ po = 17) /\ 64 <= bs <= 128 /\ bs mod 64 = 0.
Proof.
  destruct (pad_block (dig := dig)) as (k & Hk & ->). split; [unfold ct_po; case_match; auto|].
  assert (k = 6 \/ k = 7) as [-> | ->] by lia; by split.
Qed.
Lemma zlen_md_length m : zlen (md_length dig m) = po - 1.
Proof.
  unfold md_length. destruct po_cases as [Hp _]. rewrite zlen_app, zlen_zeros by lia.
  replace (zlen ((if ct_be dig then br_enc64be else br_enc64le) (u64 (Z.shiftl m 3)))) with 8 by by destruct (ct_be dig). lia.
Qed.
Lemma mod_block x : Z.land x (bs - 1) = x mod bs.
Proof. destruct (pad_block (dig := dig)) as (k & Hk & ->). apply mask_mod. lia. Qed.
Lemma masked_block x : 0 <= x < 2 ^ 32 -> Z.land x (u32 (Z.lnot (bs - 1))) = x - x mod bs.
Proof.
  intros. unfold u32. rewrite land_wrap by (done || lia). destruct (pad_block (dig := dig)) as (k & Hk & ->). apply land_lnot. lia.
Qed.

(** [A] has been hashed, the message goes on with the first [len] bytes of [data]. *)
Context (A data : list Z) (len max_len : Z).
Context (HA : zlen A < 2 ^ 59) (Hdata : Forall is_u8 data) (Hlen : 0 <= len <= max_len)
  (Hmax : max_len <= zlen data) (Hsmall : zlen data < 2 ^ 30).
Let n := zlen A + len.
Let msg := A ++ ztake len data.
Let kr := zlen A mod bs.
(** The length of the padded message from [A] on. *)
Let total := len + zlen (md_padding dig n).
Let kz := total - 1.
Let kl := kz - 7.
Let bit_len := u64 (Z.shiftl n 3).
Notation byte := (ct_byte dig bs kr kl len max_len bit_len data).

Lemma kr_range : 0 <= kr < bs.
Proof. pose proof po_cases. apply Z.mod_pos_bound. lia. Qed.
(** The padding ends a block, and not later than it must. *)
Lemma total_spec : exists q, kr + total = bs * q /\ len + po <= total < len + po + bs.
Proof.
  destruct po_cases as (Hp & Hb & _). unfold total, md_padding. rewrite !zlen_app, zlen_md_length.
  set (r := (bs - po - n) mod bs). assert (0 <= r < bs) as Hr by (apply Z.mod_pos_bound; lia).
  rewrite zlen_zeros by lia. cbn [length].
  pose proof (Z.div_mod (bs - po - n) bs ltac:(lia)) as Hq. fold r in Hq. pose proof (Z.div_mod (zlen A) bs ltac:(lia)) as HqA. fold kr in HqA.
  exists (1 - (bs - po - n) / bs - zlen A / bs). unfold n in *. lia.
Qed.

Lemma total_code : u32 (Z.land (u32 (kr + u32 len + po + bs - 1)) (u32 (Z.lnot (bs - 1))) - 1 - kr) = kz.
Proof.
  destruct po_cases as (Hp & Hb & _). pose proof kr_range. destruct total_spec as (q & Hq & Ht).
  rewrite (u32_small len) by lia. rewrite (u32_small (kr + _ + _ + _ - _)) by lia. rewrite masked_block by lia.
  assert (kr + len + po + bs - 1 - (kr + len + po + bs - 1) mod bs = bs * q) as ->.
  { pose proof (Z.div_mod (kr + len + po + bs - 1) bs ltac:(lia)). rewrite <- (Z.div_unique (kr + len + po + bs - 1) bs q (kr + len + po + bs - 1 - bs * q)) in * by lia. lia. }
  unfold kz. rewrite u32_small by lia. lia.
Qed.
Lemma rounds_code : exists km, u32 (Z.land (u32 (kr + u32 max_len + po + bs - 1)) (u32 (Z.lnot (bs - 1))) - kr) = km /\
  kz < km < 2 ^ 31.
Proof.
  destruct po_cases as (Hp & Hb & _). pose proof kr_range. destruct total_spec as (q & Hq & Ht).
  rewrite (u32_small max_len) by lia. set (x := kr + max_len + po + bs - 1).
  rewrite (u32_small x) by lia. rewrite masked_block by lia. eexists. split; [reflexivity|].
  pose proof (Z.div_mod x bs ltac:(lia)). pose proof (Z.mod_pos_bound x bs ltac:(lia)).
  assert (q <= x / bs) by (apply Z.div_le_lower_bound; subst x; lia).
  assert (bs * q <= x - x mod bs) by nia. unfold kz. rewrite u32_small by (subst x; lia). subst x. lia.
Qed.

(** The bytes the loop hashes are those of the padded message, up to its end. *)
Lemma byte_padded u : 0 <= u <= kz -> byte u = zget (ztake len data ++ md_padding dig n) u.
Proof.
  intros Hu. destruct po_cases as (Hp & Hb & _). pose proof kr_range. destruct total_spec as (q & Hq & Ht).
  assert (zlen (ztake len data) = len) as Lt by (apply zlen_ztake; lia).
  assert (0 <= zget data u < 256) as Hd by by apply is_u8_zget.
  set (d := if u <? max_len then zget data u else 0). assert (0 <= d < 256) as Hd' by (subst d; case_match; lia).
  set (v := Z.land (u32 (kr + u)) (bs - 1)). set (e := ct_length_byte dig bs bit_len v).
  assert (0 <= e < 256) as He.
  { subst e. unfold ct_length_byte. case_match; [|lia]. change 0xFF with (Z.ones 8). rewrite Z.land_ones by done.
    by apply Z.mod_pos_bound. }
  assert (byte u = if u <=? len then (if u =? len then 0x80 else d) else if u <? kl then 0 else e) as ->.
  { unfold ct_byte. fold d v e. assert (0 <= kl < 2 ^ 32) by (unfold kl, kz; lia).
    rewrite (u32_small len), EQ_spec, LT_spec, LE_spec, (MUX_spec _ 0x80 d), (MUX_spec _ 0 e) by lia.
    rewrite MUX_spec by (case_match; lia). apply u8_small. repeat case_match; lia. }
  destruct (Z.leb_spec u len) as [Hle|Hgt].
  - destruct (Z.eqb_spec u len) as [->|Hne].
    + rewrite zget_app_r, Lt, Z.sub_diag by lia. done.
    + rewrite zget_app_l by lia. subst d. rewrite (proj2 (Z.ltb_lt _ _)) by lia.
      symmetry. exact (zget_zslice data 0 len u ltac:(lia) ltac:(lia) ltac:(lia)).
  - rewrite zget_app_r, Lt by lia. unfold md_padding. set (z := zeros _).
    assert (zlen z = total - len - po) as Lz.
    { unfold total, md_padding. fold z. rewrite !zlen_app, zlen_md_length. cbn [length]. lia. }
    rewrite zget_app_r by (cbn [length]; lia). cbn [length]. unfold md_length. rewrite app_assoc.
    assert (zlen (z ++ zeros (po - 9)) = total - len - 9) as Lz2 by (rewrite zlen_app, zlen_zeros; lia).
    destruct (Z.ltb_spec u kl) as [Hl|Hl]; unfold kl, kz in Hl.
    + rewrite zget_app_l by lia. subst z. unfold zeros. rewrite <- replicate_add. symmetry.
      pose proof (zget_zeros (Z.of_nat (Z.to_nat ((bs - po - n) mod bs) + Z.to_nat (po - 9))) (u - len - Z.of_nat 1)) as E.
      unfold zeros in E. by rewrite Nat2Z.id in E.
    + rewrite zget_app_r by lia. rewrite Lz2. rewrite zget_enc64 by lia. subst e. unfold ct_length_byte.
      assert (v = bs - 8 + (u - (total - 8))) as Ev.
      { subst v. rewrite u32_small, mod_block by lia. symmetry. apply (Z.mod_unique _ _ (q - 1)); lia. }
      rewrite Ev, (proj2 (Z.leb_le _ _)) by lia. rewrite Z.shiftl_mul_pow2 by done. fold bit_len.
      replace ((bs - 8 + (u - (total - 8)) - (bs - 8)) * 2 ^ 3) with (8 * (u - len - Z.of_nat 1 - (total - len - 9))) by lia. done.
Qed.

(** What the loop has hashed before round [u]. *)
Definition fed_bytes (u : nat) : list Z := map (fun i => byte (Z.of_nat i)) (seq 0 u).
Lemma fed_bytes_S u : fed_bytes (S u) = fed_bytes u ++ [byte (Z.of_nat u)].
Proof. unfold fed_bytes. by rewrite seq_S, map_app. Qed.
Lemma length_fed u : length (fed_bytes u) = u.
Proof. unfold fed_bytes. by rewrite length_map, length_seq. Qed.
Lemma fed_total : fed_bytes (Z.to_nat total) = ztake len data ++ md_padding dig n.
Proof.
  destruct po_cases as (Hp & Hb & _). pose proof kr_range. destruct total_spec as (q & Hq & Ht).
  apply nth_ext with (d := 0) (d' := 0).
  - rewrite length_fed, length_app. unfold total. pose proof (zlen_ztake len data ltac:(lia)). lia.
  - intros i Hi. rewrite length_fed in Hi.
    assert (nth i (fed_bytes (Z.to_nat total)) 0 = byte (Z.of_nat i)) as ->.
    { unfold fed_bytes. rewrite nth_indep with (d' := byte (Z.of_nat 0)) by (rewrite length_map, length_seq; lia).
      rewrite (map_nth (fun i => byte (Z.of_nat i))), seq_nth by lia. done. }
    rewrite byte_padded by (unfold kz; lia). unfold zget. by rewrite Nat2Z.id.
Qed.

Lemma loop_spec : forall rounds u hc tmp2, Z.of_nat u + Z.of_nat rounds < 2 ^ 31 -> hash_absorbed hc (A ++ fed_bytes u) ->
  length tmp2 = 64%nat -> Forall is_u8 tmp2 -> (kz < Z.of_nat u -> ztake (hash_size dig) tmp2 = H msg) ->
  exists hc' tmp2', ct_loop dig bs kr kz kl len max_len bit_len data rounds (Z.of_nat u) hc tmp2 = (hc', tmp2') /\
    hash_absorbed hc' (A ++ fed_bytes (u + rounds)) /\
    (kz < Z.of_nat u + Z.of_nat rounds -> ztake (hash_size dig) tmp2' = H msg).
Proof.
  destruct po_cases as (Hp & Hb & _). pose proof kr_range. destruct total_spec as (q & Hq & Ht).
  pose proof law_block as (Hds & _ & Hds64). change (br_digest_size dig) with (hash_size dig) in *.
  induction rounds as [|rounds IH]; intros u hc tmp2 Hu Hhc L2 Bt Hdone; cbn [ct_loop].
  { exists hc, tmp2. rewrite Nat.add_0_r. split; [done|]. split; [done|]. intros; apply Hdone; lia. }
  set (hc1 := hupdate dig hc _). assert (hash_absorbed hc1 (A ++ fed_bytes (S u))) as Hhc1.
  { rewrite fed_bytes_S, app_assoc. apply law_update; [done|]. rewrite !length_app, length_fed. cbn [length]. lia. }
  destruct (pad_state_len hc1 _ Hhc1) as [Ls Bs].
  set (tmp3 := if _ =? _ then _ else _). rewrite (u32_small (Z.of_nat u + 1)) by lia.
  replace (Z.of_nat u + 1) with (Z.of_nat (S u)) by lia.
  assert (forall b, br_ccopy (b2z b) tmp2 (hstate dig hc1).1 (Z.to_nat (hash_size dig)) =
    take (Z.to_nat (hash_size dig)) (if b then (hstate dig hc1).1 else tmp2) ++ drop (Z.to_nat (hash_size dig)) tmp2) as Hcc.
  { intros b. apply ccopy_prefix; (done || lia). }
  assert (tmp3 = if Z.of_nat u =? kz then take (Z.to_nat (hash_size dig)) (hstate dig hc1).1 ++ drop (Z.to_nat (hash_size dig)) tmp2 else tmp2) as E3.
  { subst tmp3. rewrite (u32_small (kr + Z.of_nat u)), mod_block by lia.
    rewrite EQ_spec by (unfold kz; lia). rewrite Hcc.
    destruct (Z.eqb_spec (Z.of_nat u) kz) as [E|E].
    - replace ((kr + Z.of_nat u) mod bs =? bs - 1) with true; [done|]. symmetry. apply Z.eqb_eq. symmetry.
      apply (Z.mod_unique _ _ (q - 1)); unfold kz in E; lia.
    - rewrite take_drop. by destruct (_ =? _). }
  clearbody tmp3. destruct (IH (S u) hc1 tmp3) as (hc' & tmp2' & E & Ha & Hd).
  - lia.
  - done.
  - rewrite E3. case_match; [|done]. rewrite length_app, length_take, length_drop. lia.
  - rewrite E3. case_match; [|done]. apply Forall_app. split; [by apply Forall_take|by apply Forall_drop].
  - intros Hlt. rewrite E3. destruct (Z.eqb_spec (Z.of_nat u) kz) as [E|E]; [|apply Hdone; lia].
    transitivity (ztake (hash_size dig) (hstate dig hc1).1).
    + change (take (Z.to_nat ?x) ?l) with (ztake x l). rewrite ztake_app_le by (rewrite zlen_ztake; lia).
      apply ztake_ge. rewrite zlen_ztake; lia.
    + assert (zlen msg = n) as Lm by (unfold msg, n; rewrite zlen_app, zlen_ztake; lia).
      apply pad_state; [unfold n in Lm; lia|]. rewrite Lm. unfold msg. rewrite <- app_assoc, <- fed_total.
      replace (Z.to_nat total) with (S u) by (unfold kz in E; lia). done.
  - exists hc', tmp2'. split; [exact E|]. replace (u + S rounds)%nat with (S u + rounds)%nat by lia.
    split; [done|]. intros; apply Hd. lia.
Qed.
End loop.

(** ** The function *)

Section out.
Context `{P : PaddingLaws dig H}.
Notation bs := (block_size dig).

(** The blocks that are hashed without hiding anything. *)
Lemma ncount_code c min_len : 0 <= c -> 0 <= min_len -> c + min_len < 2 ^ 60 ->
  exists z, Z.land (u64 (c + min_len)) (u64 (Z.lnot (bs - 1))) = c + z /\ z <= min_len.
Proof.
  intros Hc Hm Hs. rewrite u64_small by lia. unfold u64. rewrite land_wrap by lia.
  destruct (pad_block (dig := dig)) as (k & Hk & E). rewrite E, land_lnot by lia.
  pose proof (Z.mod_pos_bound (c + min_len) (2 ^ k) ltac:(pose proof (Z.pow_pos_nonneg 2 k); lia)).
  exists (min_len - (c + min_len) mod 2 ^ k). lia.
Qed.

Lemma ct_loop_done A hc data len max_len : zlen A < 2 ^ 59 -> hash_absorbed hc A -> Forall is_u8 data ->
  0 <= len <= max_len -> max_len <= zlen data -> zlen data < 2 ^ 30 ->
  let kr := Z.land (u32 (zlen A)) (bs - 1) in
  let kz := u32 (Z.land (u32 (kr + u32 len + ct_po dig + bs - 1)) (u32 (Z.lnot (bs - 1))) - 1 - kr) in
  let kl := u32 (kz - 7) in
  let km := u32 (Z.land (u32 (kr + u32 max_len + ct_po dig + bs - 1)) (u32 (Z.lnot (bs - 1))) - kr) in
  let '(hc', tmp2) := ct_loop dig bs kr kz kl len max_len (u64 (Z.shiftl (zlen A + len) 3)) data (Z.to_nat km) 0 hc (zeros 64) in
  hash_storage hc' /\ ztake (hash_size dig) tmp2 = H (A ++ ztake len data).
Proof.
  intros HA Ha Hd Hl Hm Hs. cbv zeta.
  assert (Z.land (u32 (zlen A)) (bs - 1) = zlen A mod bs) as ->.
  { destruct (pad_block (dig := dig)) as (k & Hk & ->). rewrite mask_mod by lia. unfold u32.
    symmetry. apply Znumtheory.Zmod_div_mod; [apply Z.pow_pos_nonneg; lia|done|]. exists (2 ^ (32 - k)).
    rewrite <- Z.pow_add_r by lia. f_equal. lia. }
  rewrite (total_code A data len max_len) by done. destruct (rounds_code A data len max_len Hl Hm Hs) as (km & -> & Hkm).
  destruct (total_spec A data len) as (q & Hq & Ht). destruct po_cases as (Hp & Hb & _).
  rewrite (u32_small (_ - 7)) by lia.
  destruct (loop_spec A data len max_len HA Hd Hl Hm Hs (Z.to_nat km) 0 hc (zeros 64)) as (hc' & tmp2 & E & Ha' & Hdone).
  - lia.
  - by rewrite app_nil_r.
  - done.
  - by apply Forall_zeros.
  - intros Hlt. exfalso. lia.
  - change (Z.of_nat 0) with 0 in E. rewrite E. split; [by eapply law_storage|]. apply Hdone. lia.
Qed.

Lemma outCT_ok K olen ctx m data len min_len max_len : hmac_fed K olen ctx m -> Forall is_u8 data ->
  0 <= min_len <= len -> len <= max_len <= zlen data -> zlen data < 2 ^ 30 -> bs + zlen m < 2 ^ 58 ->
  br_hmac_outCT dig ctx data len min_len max_len = ztake (out_len ctx) (HMAC H bs K (m ++ ztake len data)).
Proof.
  intros (Ha & Hs & _) Hd Hmin Hmax Hsmall Hm. unfold br_hmac_outCT.
  assert (zlen (inner K ++ m) = bs + zlen m) as LA by (unfold inner; by rewrite zlen_app, zlen_pad).
  rewrite (law_count _ _ Ha). set (A := inner K ++ m) in *.
  destruct (ncount_code (zlen A) min_len) as (z & -> & Hz); [lia..|].
  rewrite (u64_small (zlen A + len)) by lia.
  set (r := if _ <? _ then _ else _).
  assert (exists A' hc' data' len' max', r = (hc', data', len', max', zlen A') /\ hash_absorbed hc' A' /\
    A' ++ ztake len' data' = A ++ ztake len data /\ zlen A' + len' = zlen A + len /\ zlen A' < 2 ^ 59 /\ Forall is_u8 data' /\
    0 <= len' <= max' /\ max' <= zlen data' /\ zlen data' < 2 ^ 30) as (A' & hc' & data' & len' & max' & -> & Ha' & Em & El & LA' & Hd' & Hl' & Hm' & Hs').
  { subst r. destruct (Z.ltb_spec (zlen A) (zlen A + z)).
    - replace (zlen A + z -! zlen A) with z by (rewrite szsub_small; lia). szsimp.
      assert (zlen (ztake z data) = z) as Lz by (apply zlen_ztake; lia).
      exists (A ++ ztake z data), (hupdate dig (hdig ctx) (ztake z data)), (zdrop z data), (len - z), (max_len - z).
      rewrite !zlen_app, Lz, zlen_zdrop by lia. split; [done|]. split; [apply law_update; [done|rewrite zlen_app; lia]|].
      split; [|split; [lia|split; [lia|split; [by apply Forall_zdrop|lia]]]]. rewrite <- app_assoc. f_equal.
      transitivity (zslice data 0 (z + (len - z))); [by rewrite <- zslice_app by lia|]. unfold zslice. rewrite zdrop_0. f_equal. lia.
    - exists A, (hdig ctx), data, len, max_len. repeat split; (done || lia). }
  pose proof (ct_loop_done A' hc' data' len' max' LA' Ha' Hd' Hl' Hm' Hs') as Hloop. cbv zeta in Hloop. rewrite El in Hloop.
  destruct (ct_loop _ _ _ _ _ _ _ _ _ _ _ _ _) as [hc2 tmp2]. destruct Hloop as [Hst ->]. rewrite Em.
  pose proof (resume _ _ _ Hs Hst) as Hr. pose proof law_block. pose proof (law_size (A ++ ztake len data)).
  apply (law_update _ _ (H (A ++ ztake len data))) in Hr; [|rewrite zlen_app; destruct Hs as (? & _ & -> & _); lia].
  rewrite (law_out _ _ Hr). unfold HMAC, A. by rewrite app_assoc.
Qed.
End out.

(** C25: [br_hmac_outCT] gives the HMAC of RFC 2104 of what was injected followed by
    the first [len] bytes of the buffer, whatever the two bounds known about [len]:
    the padding it makes itself is that of the hash function, and the state it keeps
    is that of the block that ends the padded message. *)
Theorem hmac_ct_rfc2104 `{P : PaddingLaws dig H} ctx hc key chunks olen data len min_len max_len :
  hash_storage (hdig ctx) -> hash_storage hc -> zlen key < 2 ^ 61 -> block_size dig + zlen (concat chunks) < 2 ^ 58 ->
  Forall is_u8 data -> 0 <= min_len <= len -> len <= max_len <= zlen data -> zlen data < 2 ^ 30 ->
  br_hmac_outCT dig (fold_left (br_hmac_update dig) chunks (br_hmac_init dig ctx (br_hmac_key_init dig hc key) olen))
      data len min_len max_len =
    ztake (if (0 <? olen) && (olen <? br_digest_size dig) then olen else br_digest_size dig)
      (HMAC H (block_size dig) key (concat chunks ++ ztake len data)).
Proof.
  intros Hctx Hhc Hk Hl Hd Hmin Hmax Hs. pose proof (key_init_ok hc key Hhc Hk) as Hkey.
  pose proof (hmac_init_ok ctx _ key olen Hctx Hkey) as Hi.
  apply (hmac_updates key olen _ [] chunks) in Hi; [|cbn [app]; lia].
  rewrite (outCT_ok key olen _ _ data len min_len max_len Hi) by done. by destruct Hi as (_ & _ & ->).
Qed.

(** The message of RFC 4231, test case 2; the end is hidden among 12 bytes. *)
Lemma hmac_ct_rfc2104_witness :
  let dig := br_sha256_vtable in
  let c := sha256_slot in
  br_hmac_outCT dig (fold_left (br_hmac_update dig)
      [[0x77; 0x68; 0x61; 0x74; 0x20; 0x64; 0x6f; 0x20; 0x79; 0x61; 0x20; 0x77; 0x61; 0x6e; 0x74; 0x20]]
      (br_hmac_init dig (Hmac (dig := dig) c [] 0) (br_hmac_key_init dig c [0x4a; 0x65; 0x66; 0x65]) 4))
    [0x66; 0x6f; 0x72; 0x20; 0x6e; 0x6f; 0x74; 0x68; 0x69; 0x6e; 0x67; 0x3f; 7; 7; 7; 7] 12 4 16 =
    [0x5b; 0xdc; 0xc1; 0x46].
Proof.
  intros dig c. subst dig c. etransitivity; [apply (hmac_ct_rfc2104 (P := sha256_pad)); try (by vm_compute); by apply bytes_dec|].
  vm_compute. reflexivity.
Defined.
