(* ===== verification/Aes.v ===== *)
(** * Aes: symcipher/aes_common.c and aes_small_*.c, the AES block cipher

    The key schedule, the byte-oriented encryption and decryption of a block, and the
    modes: CBC, counter, and counter with CBC-MAC.  A block is a list of 16 bytes, in
    the order of the array [state]; the key schedule is the part of the array [skey]
    that is filled, a list of 32-bit words. *)
From S2P Require Import Prelude.
From S2P Require Import Words.

(** ** aes_common.c *)

Definition Rcon : list Z :=
  [0x01000000; 0x02000000; 0x04000000; 0x08000000; 0x10000000; 0x20000000;
   0x40000000; 0x80000000; 0x1B000000; 0x36000000].
Definition br_aes_S : list Z :=
  [0x63; 0x7C; 0x77; 0x7B; 0xF2; 0x6B; 0x6F; 0xC5; 0x30; 0x01; 0x67; 0x2B; 0xFE; 0xD7; 0xAB; 0x76;
   0xCA; 0x82; 0xC9; 0x7D; 0xFA; 0x59; 0x47; 0xF0; 0xAD; 0xD4; 0xA2; 0xAF; 0x9C; 0xA4; 0x72; 0xC0;
   0xB7; 0xFD; 0x93; 0x26; 0x36; 0x3F; 0xF7; 0xCC; 0x34; 0xA5; 0xE5; 0xF1; 0x71; 0xD8; 0x31; 0x15;
   0x04; 0xC7; 0x23; 0xC3; 0x18; 0x96; 0x05; 0x9A; 0x07; 0x12; 0x80; 0xE2; 0xEB; 0x27; 0xB2; 0x75;
   0x09; 0x83; 0x2C; 0x1A; 0x1B; 0x6E; 0x5A; 0xA0; 0x52; 0x3B; 0xD6; 0xB3; 0x29; 0xE3; 0x2F; 0x84;
   0x53; 0xD1; 0x00; 0xED; 0x20; 0xFC; 0xB1; 0x5B; 0x6A; 0xCB; 0xBE; 0x39; 0x4A; 0x4C; 0x58; 0xCF;
   0xD0; 0xEF; 0xAA; 0xFB; 0x43; 0x4D; 0x33; 0x85; 0x45; 0xF9; 0x02; 0x7F; 0x50; 0x3C; 0x9F; 0xA8;
   0x51; 0xA3; 0x40; 0x8F; 0x92; 0x9D; 0x38; 0xF5; 0xBC; 0xB6; 0xDA; 0x21; 0x10; 0xFF; 0xF3; 0xD2;
   0xCD; 0x0C; 0x13; 0xEC; 0x5F; 0x97; 0x44; 0x17; 0xC4; 0xA7; 0x7E; 0x3D; 0x64; 0x5D; 0x19; 0x73;
   0x60; 0x81; 0x4F; 0xDC; 0x22; 0x2A; 0x90; 0x88; 0x46; 0xEE; 0xB8; 0x14; 0xDE; 0x5E; 0x0B; 0xDB;
   0xE0; 0x32; 0x3A; 0x0A; 0x49; 0x06; 0x24; 0x5C; 0xC2; 0xD3; 0xAC; 0x62; 0x91; 0x95; 0xE4; 0x79;
   0xE7; 0xC8; 0x37; 0x6D; 0x8D; 0xD5; 0x4E; 0xA9; 0x6C; 0x56; 0xF4; 0xEA; 0x65; 0x7A; 0xAE; 0x08;
   0xBA; 0x78; 0x25; 0x2E; 0x1C; 0xA6; 0xB4; 0xC6; 0xE8; 0xDD; 0x74; 0x1F; 0x4B; 0xBD; 0x8B; 0x8A;
   0x70; 0x3E; 0xB5; 0x66; 0x48; 0x03; 0xF6; 0x0E; 0x61; 0x35; 0x57; 0xB9; 0x86; 0xC1; 0x1D; 0x9E;
   0xE1; 0xF8; 0x98; 0x11; 0x69; 0xD9; 0x8E; 0x94; 0x9B; 0x1E; 0x87; 0xE9; 0xCE; 0x55; 0x28; 0xDF;
   0x8C; 0xA1; 0x89; 0x0D; 0xBF; 0xE6; 0x42; 0x68; 0x41; 0x99; 0x2D; 0x0F; 0xB0; 0x54; 0xBB; 0x16].

Definition SubWord (x : Z) : Z :=
  Z.lor (Z.lor (Z.lor (u32 (Z.shiftl (zget br_aes_S (Z.shiftr x 24)) 24))
    (Z.shiftl (zget br_aes_S (Z.land (Z.shiftr x 16) 0xFF)) 16))
    (Z.shiftl (zget br_aes_S (Z.land (Z.shiftr x 8) 0xFF)) 8))
    (zget br_aes_S (Z.land x 0xFF)).

(** The rounds [i] to [nkf - 1], [n] of them. *)
Fixpoint keysched_loop (nk : Z) (skey : list Z) (n : nat) (i j k : Z) : list Z :=
  match n with
  | O => skey
  | S n =>
      let tmp := zget skey (i - 1) in
      let tmp :=
        if j =? 0 then Z.lxor (SubWord (Z.lor (u32 (Z.shiftl tmp 8)) (Z.shiftr tmp 24))) (zget Rcon k)
        else if (6 <? nk) && (j =? 4) then SubWord tmp else tmp in
      let skey := skey ++ [Z.lxor (zget skey (i - nk)) tmp] in
      if j + 1 =? nk then keysched_loop nk skey n (i + 1) 0 (k + 1) else keysched_loop nk skey n (i + 1) (j + 1) k
  end.
Definition br_aes_keysched (key : list Z) : Z * list Z :=
  let sched num_rounds :=
    let nk := Z.shiftr (zlen key) 2 in
    let nkf := Z.shiftl (num_rounds + 1) 2 in
    let skey := map (fun i => br_dec32be (zslice key (Z.shiftl i 2) 4)) (seqZ 0 nk) in
    (num_rounds, keysched_loop nk skey (Z.to_nat (nkf - nk)) nk 0 0) in
  if zlen key =? 16 then sched 10
  else if zlen key =? 24 then sched 12
  else if zlen key =? 32 then sched 14
  else (0, []).

(** ** aes_small_enc.c *)

Definition key_bytes (k : Z) : list Z :=
  [Z.shiftr k 24; Z.land (Z.shiftr k 16) 0xFF; Z.land (Z.shiftr k 8) 0xFF; Z.land k 0xFF].
(** The four words of [skey] at [o]. *)
Definition add_round_key (state skey : list Z) (o : Z) : list Z :=
  zxor state (concat (map key_bytes (zslice skey o 4))).
Definition sub_bytes (state : list Z) : list Z := map (zget br_aes_S) state.
Definition shift_rows (state : list Z) : list Z :=
  map (zget state) [0; 5; 10; 15; 4; 9; 14; 3; 8; 13; 2; 7; 12; 1; 6; 11].
(** A function of the four bytes of a column, on the four columns. *)
Definition on_columns (f : Z -> Z -> Z -> Z -> list Z) (state : list Z) : list Z :=
  concat (map (fun i => f (zget state (i + 0)) (zget state (i + 1)) (zget state (i + 2)) (zget state (i + 3)))
    [0; 4; 8; 12]).
Definition mix_column (s0 s1 s2 s3 : Z) : list Z :=
  let t0 := Z.lxor (Z.lxor (Z.lxor (Z.lxor (Z.shiftl s0 1) s1) (Z.shiftl s1 1)) s2) s3 in
  let t1 := Z.lxor (Z.lxor (Z.lxor (Z.lxor s0 (Z.shiftl s1 1)) s2) (Z.shiftl s2 1)) s3 in
  let t2 := Z.lxor (Z.lxor (Z.lxor (Z.lxor s0 s1) (Z.shiftl s2 1)) s3) (Z.shiftl s3 1) in
  let t3 := Z.lxor (Z.lxor (Z.lxor (Z.lxor s0 (Z.shiftl s0 1)) s1) s2) (Z.shiftl s3 1) in
  map (fun t => Z.lxor t (Z.land (u32 (- Z.shiftr t 8)) 0x11B)) [t0; t1; t2; t3].
Definition mix_columns (state : list Z) : list Z := on_columns mix_column state.

Definition enc_round (skey : list Z) (state : list Z) (u : Z) : list Z :=
  add_round_key (mix_columns (shift_rows (sub_bytes state))) skey (Z.shiftl u 2).
Definition br_aes_small_encrypt (num_rounds : Z) (skey : list Z) (buf : list Z) : list Z :=
  let state := add_round_key buf skey 0 in
  let state := fold_left (enc_round skey) (seqZ 1 (num_rounds - 1)) state in
  add_round_key (shift_rows (sub_bytes state)) skey (Z.shiftl num_rounds 2).

(** ** aes_small_dec.c *)

Definition iS : list Z :=
  [0x52; 0x09; 0x6A; 0xD5; 0x30; 0x36; 0xA5; 0x38; 0xBF; 0x40; 0xA3; 0x9E; 0x81; 0xF3; 0xD7; 0xFB;
   0x7C; 0xE3; 0x39; 0x82; 0x9B; 0x2F; 0xFF; 0x87; 0x34; 0x8E; 0x43; 0x44; 0xC4; 0xDE; 0xE9; 0xCB;
   0x54; 0x7B; 0x94; 0x32; 0xA6; 0xC2; 0x23; 0x3D; 0xEE; 0x4C; 0x95; 0x0B; 0x42; 0xFA; 0xC3; 0x4E;
   0x08; 0x2E; 0xA1; 0x66; 0x28; 0xD9; 0x24; 0xB2; 0x76; 0x5B; 0xA2; 0x49; 0x6D; 0x8B; 0xD1; 0x25;
   0x72; 0xF8; 0xF6; 0x64; 0x86; 0x68; 0x98; 0x16; 0xD4; 0xA4; 0x5C; 0xCC; 0x5D; 0x65; 0xB6; 0x92;
   0x6C; 0x70; 0x48; 0x50; 0xFD; 0xED; 0xB9; 0xDA; 0x5E; 0x15; 0x46; 0x57; 0xA7; 0x8D; 0x9D; 0x84;
   0x90; 0xD8; 0xAB; 0x00; 0x8C; 0xBC; 0xD3; 0x0A; 0xF7; 0xE4; 0x58; 0x05; 0xB8; 0xB3; 0x45; 0x06;
   0xD0; 0x2C; 0x1E; 0x8F; 0xCA; 0x3F; 0x0F; 0x02; 0xC1; 0xAF; 0xBD; 0x03; 0x01; 0x13; 0x8A; 0x6B;
   0x3A; 0x91; 0x11; 0x41; 0x4F; 0x67; 0xDC; 0xEA; 0x97; 0xF2; 0xCF; 0xCE; 0xF0; 0xB4; 0xE6; 0x73;
   0x96; 0xAC; 0x74; 0x22; 0xE7; 0xAD; 0x35; 0x85; 0xE2; 0xF9; 0x37; 0xE8; 0x1C; 0x75; 0xDF; 0x6E;
   0x47; 0xF1; 0x1A; 0x71; 0x1D; 0x29; 0xC5; 0x89; 0x6F; 0xB7; 0x62; 0x0E; 0xAA; 0x18; 0xBE; 0x1B;
   0xFC; 0x56; 0x3E; 0x4B; 0xC6; 0xD2; 0x79; 0x20; 0x9A; 0xDB; 0xC0; 0xFE; 0x78; 0xCD; 0x5A; 0xF4;
   0x1F; 0xDD; 0xA8; 0x33; 0x88; 0x07; 0xC7; 0x31; 0xB1; 0x12; 0x10; 0x59; 0x27; 0x80; 0xEC; 0x5F;
   0x60; 0x51; 0x7F; 0xA9; 0x19; 0xB5; 0x4A; 0x0D; 0x2D; 0xE5; 0x7A; 0x9F; 0x93; 0xC9; 0x9C; 0xEF;
   0xA0; 0xE0; 0x3B; 0x4D; 0xAE; 0x2A; 0xF5; 0xB0; 0xC8; 0xEB; 0xBB; 0x3C; 0x83; 0x53; 0x99; 0x61;
   0x17; 0x2B; 0x04; 0x7E; 0xBA; 0x77; 0xD6; 0x26; 0xE1; 0x69; 0x14; 0x63; 0x55; 0x21; 0x0C; 0x7D].

Definition inv_sub_bytes (state : list Z) : list Z := map (zget iS) state.
Definition inv_shift_rows (state : list Z) : list Z :=
  map (zget state) [0; 13; 10; 7; 4; 1; 14; 11; 8; 5; 2; 15; 12; 9; 6; 3].
Definition gf256red (x : Z) : Z :=
  let y := Z.shiftr x 8 in
  Z.land (Z.lxor (Z.lxor (Z.lxor (Z.lxor x y) (Z.shiftl y 1)) (Z.shiftl y 3)) (Z.shiftl y 4)) 0xFF.
Definition xors (l : list Z) : Z := fold_left Z.lxor l 0.
Definition inv_mix_column (s0 s1 s2 s3 : Z) : list Z :=
  let t0 := xors [Z.shiftl s0 1; Z.shiftl s0 2; Z.shiftl s0 3; s1; Z.shiftl s1 1; Z.shiftl s1 3;
                  s2; Z.shiftl s2 2; Z.shiftl s2 3; s3; Z.shiftl s3 3] in
  let t1 := xors [s0; Z.shiftl s0 3; Z.shiftl s1 1; Z.shiftl s1 2; Z.shiftl s1 3;
                  s2; Z.shiftl s2 1; Z.shiftl s2 3; s3; Z.shiftl s3 2; Z.shiftl s3 3] in
  let t2 := xors [s0; Z.shiftl s0 2; Z.shiftl s0 3; s1; Z.shiftl s1 3;
                  Z.shiftl s2 1; Z.shiftl s2 2; Z.shiftl s2 3; s3; Z.shiftl s3 1; Z.shiftl s3 3] in
  let t3 := xors [s0; Z.shiftl s0 1; Z.shiftl s0 3; s1; Z.shiftl s1 2; Z.shiftl s1 3;
                  s2; Z.shiftl s2 3; Z.shiftl s3 1; Z.shiftl s3 2; Z.shiftl s3 3] in
  map gf256red [t0; t1; t2; t3].
Definition inv_mix_columns (state : list Z) : list Z := on_columns inv_mix_column state.

Definition dec_round (skey : list Z) (state : list Z) (u : Z) : list Z :=
  inv_mix_columns (add_round_key (inv_sub_bytes (inv_shift_rows state)) skey (Z.shiftl u 2)).
(** [u] from [num_rounds - 1] down to 1; the loop is for [num_rounds] of at least 1. *)
Definition br_aes_small_decrypt (num_rounds : Z) (skey : list Z) (buf : list Z) : list Z :=
  let state := add_round_key buf skey (Z.shiftl num_rounds 2) in
  let state := fold_left (dec_round skey) (rev (seqZ 1 (num_rounds - 1))) state in
  add_round_key (inv_sub_bytes (inv_shift_rows state)) skey 0.

(** ** The modes *)

(** [num_rounds] and [skey]: the contexts [br_aes_small_*_keys]. *)
Definition aes_keys : Type := Z * list Z.
Definition aes_init (key : list Z) : aes_keys := br_aes_keysched key.
Definition aes_encrypt (ctx : aes_keys) (b : list Z) : list Z := br_aes_small_encrypt ctx.1 ctx.2 b.
Definition aes_decrypt (ctx : aes_keys) (b : list Z) : list Z := br_aes_small_decrypt ctx.1 ctx.2 b.
Definition xorbuf (dst src : list Z) : list Z := zxor dst src.

(** A loop [while (len > 0) { ...; buf += 16; len -= 16; }] takes whole blocks: at a
    part of a block it leaves the buffer, and [len] wraps.  [None] is that access out
    of bounds; [n] is the number of whole blocks that are left. *)
Definition at_end {A} (buf : list Z) (a : A) : option A := if zlen buf =? 0 then Some a else None.

(** The new IV and the data. *)
Fixpoint cbcenc_loop (ctx : aes_keys) (iv buf : list Z) (n : nat) : option (list Z * list Z) :=
  match n with
  | O => at_end buf (iv, [])
  | S n =>
      let b := aes_encrypt ctx (xorbuf (ztake 16 buf) iv) in
      '(iv, rest) ← cbcenc_loop ctx b (zdrop 16 buf) n;
      Some (iv, b ++ rest)
  end.
Definition br_aes_small_cbcenc_run (ctx : aes_keys) (iv data : list Z) : option (list Z * list Z) :=
  cbcenc_loop ctx iv data (Z.to_nat (zlen data / 16)).
Fixpoint cbcdec_loop (ctx : aes_keys) (iv buf : list Z) (n : nat) : option (list Z * list Z) :=
  match n with
  | O => at_end buf (iv, [])
  | S n =>
      let b := xorbuf (aes_decrypt ctx (ztake 16 buf)) iv in
      '(iv, rest) ← cbcdec_loop ctx (ztake 16 buf) (zdrop 16 buf) n;
      Some (iv, b ++ rest)
  end.
Definition br_aes_small_cbcdec_run (ctx : aes_keys) (iv data : list Z) : option (list Z * list Z) :=
  cbcdec_loop ctx iv data (Z.to_nat (zlen data / 16)).

(** Any length here; the counter returned counts the blocks started. *)
Fixpoint ctr_loop (ctx : aes_keys) (iv : list Z) (cc : Z) (buf : list Z) (n : nat) : Z * list Z :=
  match n with
  | O => (cc, [])
  | S n =>
      if 0 <? zlen buf then
        let tmp := aes_encrypt ctx (ztake 12 iv ++ br_enc32be cc) in
        let cc := u32 (cc + 1) in
        if zlen buf <=? 16 then (cc, xorbuf buf tmp)
        else let '(cc, rest) := ctr_loop ctx iv cc (zdrop 16 buf) n in (cc, xorbuf (ztake 16 buf) tmp ++ rest)
      else (cc, [])
  end.
Definition br_aes_small_ctr_run (ctx : aes_keys) (iv : list Z) (cc : Z) (data : list Z) : Z * list Z :=
  ctr_loop ctx iv cc data (length data).

(** [(~(x | -x)) >> 31]: 1 for 0 and 0 otherwise. *)
Definition ctr_carry (x : Z) : Z := Z.shiftr (u32 (Z.lnot (Z.lor x (u32 (- x))))) 31.
Definition ctr_next (c : Z * Z * Z * Z) : Z * Z * Z * Z :=
  let '(cc3, cc2, cc1, cc0) := c in
  let cc0 := u32 (cc0 + 1) in
  let carry := ctr_carry cc0 in
  let cc1 := u32 (cc1 + carry) in
  let carry := Z.land carry (ctr_carry cc1) in
  let cc2 := u32 (cc2 + carry) in
  let carry := Z.land carry (ctr_carry cc2) in
  let cc3 := u32 (cc3 + carry) in
  (cc3, cc2, cc1, cc0).
Definition ctr_block (c : Z * Z * Z * Z) : list Z :=
  let '(cc3, cc2, cc1, cc0) := c in br_enc32be cc3 ++ br_enc32be cc2 ++ br_enc32be cc1 ++ br_enc32be cc0.
Fixpoint ctrcbc_ctr_loop (ctx : aes_keys) (c : Z * Z * Z * Z) (buf : list Z) (n : nat) : option ((Z * Z * Z * Z) * list Z) :=
  match n with
  | O => at_end buf (c, [])
  | S n =>
      let tmp := aes_encrypt ctx (ctr_block c) in
      '(c, rest) ← ctrcbc_ctr_loop ctx (ctr_next c) (zdrop 16 buf) n;
      Some (c, xorbuf (ztake 16 buf) tmp ++ rest)
  end.
(** The new counter and the data. *)
Definition br_aes_small_ctrcbc_ctr (ctx : aes_keys) (ctr data : list Z) : option (list Z * list Z) :=
  let c := (br_dec32be (zslice ctr 0 4), br_dec32be (zslice ctr 4 4),
            br_dec32be (zslice ctr 8 4), br_dec32be (zslice ctr 12 4)) in
  '(c, data) ← ctrcbc_ctr_loop ctx c data (Z.to_nat (zlen data / 16));
  Some (ctr_block c, data).
Fixpoint ctrcbc_mac_loop (ctx : aes_keys) (cbcmac buf : list Z) (n : nat) : option (list Z) :=
  match n with
  | O => at_end buf cbcmac
  | S n => ctrcbc_mac_loop ctx (aes_encrypt ctx (xorbuf cbcmac (ztake 16 buf))) (zdrop 16 buf) n
  end.
Definition br_aes_small_ctrcbc_mac (ctx : aes_keys) (cbcmac data : list Z) : option (list Z) :=
  ctrcbc_mac_loop ctx cbcmac data (Z.to_nat (zlen data / 16)).
Definition br_aes_small_ctrcbc_encrypt (ctx : aes_keys) (ctr cbcmac data : list Z) : option (list Z * list Z * list Z) :=
  '(ctr, data) ← br_aes_small_ctrcbc_ctr ctx ctr data;
  cbcmac ← br_aes_small_ctrcbc_mac ctx cbcmac data;
  Some (ctr, cbcmac, data).
Definition br_aes_small_ctrcbc_decrypt (ctx : aes_keys) (ctr cbcmac data : list Z) : option (list Z * list Z * list Z) :=
  cbcmac ← br_aes_small_ctrcbc_mac ctx cbcmac data;
  '(ctr, data) ← br_aes_small_ctrcbc_ctr ctx ctr data;
  Some (ctr, cbcmac, data).
