(* ===== verification/AesSpec.v ===== *)
(** * AesSpec: AES as FIPS 197 defines it, and that decryption undoes encryption

    The field of 256 elements is defined by multiplication by [x] and its sums; the
    S-box from the inverse in the field; the key expansion and the rounds on words
    and columns of bytes.  The steps of the code, which reduce late and look the
    S-box up, are shown equal to these one by one. *)
From S2P Require Import Prelude.
From S2P Require Import Words.
From S2P Require Import Aes.
From Stdlib Require Import Btauto.

(** ** FIPS 197 *)

(** Section 4.2: [xtime] and multiplication. *)
Definition xtime (a : Z) : Z := if a <? 128 then 2 * a else Z.lxor (2 * a) 0x11B.
Fixpoint gmul_bits (n : nat) (a b : Z) : Z :=
  match n with
  | O => 0
  | S n => Z.lxor (if Z.odd a then b else 0) (gmul_bits n (a / 2) (xtime b))
  end.
Definition gmul (a b : Z) : Z := gmul_bits 8 a b.
(** Section 5.1.1: the inverse (the power 254, 0 for 0), then the affine map. *)
Fixpoint gpow (a : Z) (n : nat) : Z := match n with O => 1 | S n => gmul a (gpow a n) end.
Definition rotl8 (x n : Z) : Z := (x * 2 ^ n) mod 256 + x / 2 ^ (8 - n).
Definition sbox (a : Z) : Z :=
  let b := gpow a 254 in
  Z.lxor (Z.lxor (Z.lxor (Z.lxor (Z.lxor b (rotl8 b 1)) (rotl8 b 2)) (rotl8 b 3)) (rotl8 b 4)) 0x63.

(** Section 3.4: the byte of row [r] and column [c] is number [r + 4 c]. *)
Definition state_of (f : Z -> Z -> Z) : list Z := map (fun i => f (i mod 4) (i / 4)) (seqZ 0 16).
Definition at_rc (s : list Z) (r c : Z) : Z := zget s (r + 4 * c).
Definition SubBytes (s : list Z) : list Z := map sbox s.
Definition ShiftRows (s : list Z) : list Z := state_of (fun r c => at_rc s r ((c + r) mod 4)).
Definition gxor4 (f : Z -> Z) : Z := Z.lxor (Z.lxor (Z.lxor (f 0) (f 1)) (f 2)) (f 3).
Definition MixColumns (s : list Z) : list Z :=
  state_of (fun r c => gxor4 (fun k => gmul (zget [2; 3; 1; 1] ((k - r) mod 4)) (at_rc s k c))).
(** [w] is a list of words of four bytes. *)
Definition AddRoundKey (w : list (list Z)) (round : Z) (s : list Z) : list Z :=
  state_of (fun r c => Z.lxor (at_rc s r c) (zget (nth (Z.to_nat (4 * round + c)) w []) r)).

(** Section 5.2. *)
Definition RotWord (w : list Z) : list Z := zdrop 1 w ++ ztake 1 w.
Definition RconWord (i : Z) : list Z := [gpow 2 (Z.to_nat (i - 1)); 0; 0; 0].
Definition next_word (Nk : Z) (w : list (list Z)) (i : Z) : list (list Z) :=
  let temp := nth (Z.to_nat (i - 1)) w [] in
  let temp :=
    if i mod Nk =? 0 then zip_with Z.lxor (map sbox (RotWord temp)) (RconWord (i / Nk))
    else if (6 <? Nk) && (i mod Nk =? 4) then map sbox temp else temp in
  w ++ [zip_with Z.lxor (nth (Z.to_nat (i - Nk)) w []) temp].
Definition KeyExpansion (key : list Z) : list (list Z) :=
  let Nk := zlen key / 4 in
  fold_left (next_word Nk) (seqZ Nk (4 * (Nk + 6 + 1) - Nk)) (map (fun i => zslice key (4 * i) 4) (seqZ 0 Nk)).

(** Section 5.1. *)
Definition Cipher (key block : list Z) : list Z :=
  let Nr := zlen key / 4 + 6 in
  let w := KeyExpansion key in
  let s := AddRoundKey w 0 block in
  let s := fold_left (fun s round => AddRoundKey w round (MixColumns (ShiftRows (SubBytes s)))) (seqZ 1 (Nr - 1)) s in
  AddRoundKey w Nr (ShiftRows (SubBytes s)).

(** ** Bits *)

Ltac bits := apply Z.bits_inj'; intros ? ?; rewrite ?Z.lxor_spec, ?Z.bits_0; btauto.
Lemma byte_check (p : Z -> bool) : forallb p (seqZ 0 256) = true -> forall x, 0 <= x < 256 -> p x = true.
Proof. intros H x Hx. apply (proj1 (forallb_seqZ _ _ _) H). lia. Qed.
(** An identity on a byte, by going through all of them. *)
Ltac bytewise x :=
  match goal with |- ?l = ?r =>
    let p := eval pattern x in (l =? r) in
    match p with ?f _ => apply Z.eqb_eq; change (f x = true); apply byte_check; [vm_compute; reflexivity|lia] end end.
Definition block (s : list Z) : Prop := zlen s = 16 /\ Forall is_u8 s.

Lemma sbox_table : map sbox (seqZ 0 256) = br_aes_S.
Proof. vm_compute. reflexivity. Qed.
Lemma sbox_spec x : 0 <= x < 256 -> zget br_aes_S x = sbox x.
Proof. intros. bytewise x. Qed.
Lemma iS_S x : 0 <= x < 256 -> zget iS (zget br_aes_S x) = x.
Proof. intros. bytewise x. Qed.
Lemma S_byte x : 0 <= x < 256 -> 0 <= zget br_aes_S x < 256.
Proof.
  intros Hx. pose proof (byte_check (fun x => (0 <=? zget br_aes_S x) && (zget br_aes_S x <? 256))
    ltac:(vm_compute; reflexivity) x Hx). cbv beta in *. lia.
Qed.

(** ** The columns *)

(** Reduction of a sum is the sum of the reductions. *)
Lemma bit8_reduce t : 0 <= t < 512 -> Z.lxor t (Z.land (u32 (- Z.shiftr t 8)) 0x11B) = if t <? 256 then t else Z.lxor t 0x11B.
Proof.
  intros Ht. rewrite Z.shiftr_div_pow2 by lia. change (2 ^ 8) with 256. destruct (Z.ltb_spec t 256).
  - rewrite Z.div_small by lia. change (Z.land (u32 (- 0)) 0x11B) with 0. apply Z.lxor_0_r.
  - replace (t / 256) with 1; [done|]. symmetry. rewrite (Z.div_unique t 256 1 (t - 256)); lia.
Qed.
Lemma gf256red_lxor x y : gf256red (Z.lxor x y) = Z.lxor (gf256red x) (gf256red y).
Proof.
  unfold gf256red. rewrite !Z.shiftr_lxor, !Z.shiftl_lxor. apply Z.bits_inj'. intros n _.
  rewrite ?Z.land_spec, ?Z.lxor_spec, ?Z.land_spec, ?Z.lxor_spec. btauto.
Qed.
(** Both ways of reducing agree below 512. *)
Lemma reduce_gf256red t : 0 <= t < 512 -> (if t <? 256 then t else Z.lxor t 0x11B) = gf256red t.
Proof.
  intros Ht. assert (forallb (fun t => (if t <? 256 then t else Z.lxor t 0x11B) =? gf256red t) (seqZ 0 512) = true)
    as H by (vm_compute; reflexivity).
  apply Z.eqb_eq, (proj1 (forallb_seqZ _ _ _) H). lia.
Qed.
Lemma red_byte x : 0 <= x < 256 -> gf256red x = x.
Proof. intros. bytewise x. Qed.
Lemma red_shift k x : 0 <= k <= 3 -> 0 <= x < 256 -> gf256red (Z.shiftl x k) = gmul (2 ^ k) x.
Proof.
  intros Hk Hx. assert (k = 0 \/ k = 1 \/ k = 2 \/ k = 3) as [-> | [-> | [-> | ->]]] by lia; bytewise x.
Qed.
Lemma gmul_byte a x : 0 <= a < 16 -> 0 <= x < 256 -> 0 <= gmul a x < 256.
Proof.
  intros Ha Hx. assert (forallb (fun a => forallb (fun x => (0 <=? gmul a x) && (gmul a x <? 256)) (seqZ 0 256)) (seqZ 0 16) = true)
    as H by (vm_compute; reflexivity).
  pose proof (byte_check _ (proj1 (forallb_seqZ _ _ _) H a ltac:(lia)) x Hx). cbv beta in *. lia.
Qed.
Lemma gf256red_byte x : is_u8 (gf256red x).
Proof. unfold gf256red, is_u8. rewrite (Z.land_ones _ 8) by lia. apply Z.mod_pos_bound. lia. Qed.
#[local] Opaque gmul gf256red sbox.
(** An equality of lists, byte by byte. *)
Ltac per_byte := repeat (apply (f_equal2 (@cons Z))); try reflexivity.

Definition lx4 (a b c d : Z) : Z := Z.lxor (Z.lxor (Z.lxor a b) c) d.
Lemma mix_column_spec s0 s1 s2 s3 : is_u8 s0 -> is_u8 s1 -> is_u8 s2 -> is_u8 s3 ->
  mix_column s0 s1 s2 s3 =
    [lx4 (gmul 2 s0) (gmul 3 s1) (gmul 1 s2) (gmul 1 s3); lx4 (gmul 1 s0) (gmul 2 s1) (gmul 3 s2) (gmul 1 s3);
     lx4 (gmul 1 s0) (gmul 1 s1) (gmul 2 s2) (gmul 3 s3); lx4 (gmul 3 s0) (gmul 1 s1) (gmul 1 s2) (gmul 2 s3)].
Proof.
  unfold is_u8. intros H0 H1 H2 H3.
  assert (forall x, 0 <= x < 256 -> gmul 1 x = x) as G1 by (intros; bytewise x).
  assert (forall x, 0 <= x < 256 -> gmul 3 x = Z.lxor x (gmul 2 x)) as G3 by (intros; bytewise x).
  assert (forall x, 0 <= x < 256 -> 0 <= Z.shiftl x 1 < 2 ^ 9) as B by (intros; rewrite Z.shiftl_mul_pow2 by lia; lia).
  assert (forall x y, 0 <= x < 2 ^ 9 -> 0 <= y < 2 ^ 9 -> 0 <= Z.lxor x y < 2 ^ 9) as X by (intros; apply lxor_bound; lia).
  assert (forall x, 0 <= x < 256 -> gf256red (Z.shiftl x 1) = gmul 2 x) as R by (intros; by apply (red_shift 1)).
  pose proof (B s0 H0). pose proof (B s1 H1). pose proof (B s2 H2). pose proof (B s3 H3).
  assert (0 <= s0 < 2 ^ 9 /\ 0 <= s1 < 2 ^ 9 /\ 0 <= s2 < 2 ^ 9 /\ 0 <= s3 < 2 ^ 9) as (N0 & N1 & N2 & N3) by lia.
  unfold mix_column, lx4. cbn [map].
  per_byte; (rewrite bit8_reduce, reduce_gf256red by (repeat apply X; assumption));
    rewrite !gf256red_lxor, !R, !red_byte by assumption; rewrite ?G1, ?G3 by assumption; bits.
Qed.
(** The inverse matrix, applied to the sums above, leaves each byte once. *)
Lemma inv_mix_column_spec s0 s1 s2 s3 : is_u8 s0 -> is_u8 s1 -> is_u8 s2 -> is_u8 s3 ->
  inv_mix_column s0 s1 s2 s3 =
    [lx4 (gmul 14 s0) (gmul 11 s1) (gmul 13 s2) (gmul 9 s3); lx4 (gmul 9 s0) (gmul 14 s1) (gmul 11 s2) (gmul 13 s3);
     lx4 (gmul 13 s0) (gmul 9 s1) (gmul 14 s2) (gmul 11 s3); lx4 (gmul 11 s0) (gmul 13 s1) (gmul 9 s2) (gmul 14 s3)].
Proof.
  unfold is_u8. intros H0 H1 H2 H3.
  assert (forall x, 0 <= x < 256 -> gf256red (Z.shiftl x 1) = gmul 2 x) as R1 by (intros; by apply (red_shift 1)).
  assert (forall x, 0 <= x < 256 -> gf256red (Z.shiftl x 2) = gmul 4 x) as R2 by (intros; by apply (red_shift 2)).
  assert (forall x, 0 <= x < 256 -> gf256red (Z.shiftl x 3) = gmul 8 x) as R3 by (intros; by apply (red_shift 3)).
  assert (forall x, 0 <= x < 256 -> gmul 9 x = Z.lxor x (gmul 8 x)) as G9 by (intros; bytewise x).
  assert (forall x, 0 <= x < 256 -> gmul 11 x = lx4 x (gmul 2 x) (gmul 8 x) 0) as G11 by (intros; bytewise x).
  assert (forall x, 0 <= x < 256 -> gmul 13 x = lx4 x (gmul 4 x) (gmul 8 x) 0) as G13 by (intros; bytewise x).
  assert (forall x, 0 <= x < 256 -> gmul 14 x = lx4 (gmul 2 x) (gmul 4 x) (gmul 8 x) 0) as G14 by (intros; bytewise x).
  unfold inv_mix_column, xors. cbn [map fold_left].
  per_byte; (rewrite !gf256red_lxor, !R1, !R2, !R3, !red_byte by (assumption || lia));
    rewrite G9, G11, G13, G14 by assumption; unfold lx4; bits.
Qed.

Lemma xtime_lxor x y : 0 <= x < 256 -> 0 <= y < 256 -> xtime (Z.lxor x y) = Z.lxor (xtime x) (xtime y).
Proof.
  intros Hx Hy. assert (forallb (fun x => forallb (fun y => xtime (Z.lxor x y) =? Z.lxor (xtime x) (xtime y)) (seqZ 0 256))
    (seqZ 0 256) = true) as H by (vm_compute; reflexivity).
  apply Z.eqb_eq. exact (byte_check _ (proj1 (forallb_seqZ _ _ _) H x ltac:(lia)) y Hy).
Qed.
Lemma xtime_byte x : 0 <= x < 256 -> 0 <= xtime x < 256.
Proof.
  intros Hx. pose proof (byte_check (fun x => (0 <=? xtime x) && (xtime x <? 256)) ltac:(vm_compute; reflexivity) x Hx).
  cbv beta in *. lia.
Qed.
Lemma lxor_byte x y : 0 <= x < 256 -> 0 <= y < 256 -> 0 <= Z.lxor x y < 256.
Proof. intros. by apply (lxor_bound 8). Qed.
Lemma gmul_lxor a x y : 0 <= x < 256 -> 0 <= y < 256 -> gmul a (Z.lxor x y) = Z.lxor (gmul a x) (gmul a y).
Proof.
  Transparent gmul. unfold gmul. generalize 8%nat as n. intros n. revert a x y. induction n as [|n IH]; intros a x y Hx Hy; [done|].
  cbn [gmul_bits]. rewrite xtime_lxor, IH by (done || by apply xtime_byte). destruct (Z.odd a); bits.
Qed.
#[local] Opaque gmul.
Lemma lx4_byte a b c d : 0 <= a < 256 -> 0 <= b < 256 -> 0 <= c < 256 -> 0 <= d < 256 -> 0 <= lx4 a b c d < 256.
Proof. intros. unfold lx4. repeat apply lxor_byte; assumption. Qed.
Lemma gmul_lx4 k a b c d : 0 <= a < 256 -> 0 <= b < 256 -> 0 <= c < 256 -> 0 <= d < 256 ->
  gmul k (lx4 a b c d) = lx4 (gmul k a) (gmul k b) (gmul k c) (gmul k d).
Proof. intros. unfold lx4. by rewrite !gmul_lxor by (repeat apply lxor_byte; assumption). Qed.
Lemma lx4_transpose a0 a1 a2 a3 b0 b1 b2 b3 c0 c1 c2 c3 d0 d1 d2 d3 :
  lx4 (lx4 a0 a1 a2 a3) (lx4 b0 b1 b2 b3) (lx4 c0 c1 c2 c3) (lx4 d0 d1 d2 d3) =
  lx4 (lx4 a0 b0 c0 d0) (lx4 a1 b1 c1 d1) (lx4 a2 b2 c2 d2) (lx4 a3 b3 c3 d3).
Proof. unfold lx4. bits. Qed.

Ltac matrix_entry :=
  match goal with |- context [lx4 (gmul ?a (gmul ?p ?x)) (gmul ?b (gmul ?q ?x)) (gmul ?c (gmul ?r ?x)) (gmul ?d (gmul ?s ?x))] =>
    let t := constr:(lx4 (gmul a (gmul p x)) (gmul b (gmul q x)) (gmul c (gmul r x)) (gmul d (gmul s x))) in
    first [ let E := fresh in assert (t = x) as E by bytewise x; rewrite E; clear E
          | let E := fresh in assert (t = 0) as E by bytewise x; rewrite E; clear E ] end.
Lemma inv_mix_mix s0 s1 s2 s3 : is_u8 s0 -> is_u8 s1 -> is_u8 s2 -> is_u8 s3 ->
  match mix_column s0 s1 s2 s3 with [t0; t1; t2; t3] => inv_mix_column t0 t1 t2 t3 | _ => [] end = [s0; s1; s2; s3].
Proof.
  intros H0 H1 H2 H3. rewrite mix_column_spec by done.
  assert (forall a x, 0 <= a < 16 -> is_u8 x -> is_u8 (gmul a x)) as B by (intros; by apply gmul_byte).
  rewrite inv_mix_column_spec by (apply lx4_byte; apply B; (lia || assumption)). unfold is_u8 in *.
  per_byte; rewrite !gmul_lx4 by (apply B; (lia || assumption)); rewrite lx4_transpose;
    do 4 matrix_entry; unfold lx4; bits.
Qed.

(** ** Blocks and round keys *)

Lemma block_split s : block s -> exists a0 a1 a2 a3 b0 b1 b2 b3 c0 c1 c2 c3 d0 d1 d2 d3,
  s = [a0; a1; a2; a3; b0; b1; b2; b3; c0; c1; c2; c3; d0; d1; d2; d3] /\
  Forall is_u8 [a0; a1; a2; a3; b0; b1; b2; b3; c0; c1; c2; c3; d0; d1; d2; d3].
Proof.
  intros [L B]. do 16 (destruct s as [|? s]; [cbn [length] in L; lia|]).
  destruct s; [|cbn [length] in L; lia]. eauto 20.
Qed.
(** [block_cases H]: the sixteen bytes of a block. *)
Ltac block_cases H :=
  destruct (block_split _ H) as (? & ? & ? & ? & ? & ? & ? & ? & ? & ? & ? & ? & ? & ? & ? & ? & -> & ?);
  clear H; rewrite ?Forall_cons in *; destruct_and?.

Ltac all_bytes := repeat (apply Forall_cons_2; [assumption|]); apply Forall_nil_2.
(** The reads of a list that is written out. *)
Ltac read_bytes :=
  cbv [zget Z.add Z.sub Z.mul Z.modulo Z.div Z.div_eucl Z.to_nat nth Pos.to_nat Pos.iter_op Pos.add Pos.succ Nat.add].

(** [skey] holds the keys of the rounds up to [nr]. *)
Definition schedule (nr : Z) (skey : list Z) : Prop := 4 * (nr + 1) <= zlen skey /\ Forall is_u32 skey.

Lemma key_bytes_enc k : is_u32 k -> key_bytes k = br_enc32be k.
Proof.
  unfold is_u32. intros Hk. pose proof (shiftr_lt 24 8 k ltac:(lia) ltac:(lia) ltac:(lia)).
  assert (forall x, Z.land x 0xFF = u8 x) as E by (intros; by apply (Z.land_ones _ 8)).
  unfold key_bytes, br_enc32be. by rewrite !E, (u8_small (Z.shiftr k 24)) by lia.
Qed.
Lemma round_key_block nr skey r : schedule nr skey -> 0 <= r <= nr ->
  block (concat (map key_bytes (zslice skey (Z.shiftl r 2) 4))).
Proof.
  intros [L B] Hr. rewrite Z.shiftl_mul_pow2 by lia. change (2 ^ 2) with 4.
  assert (zlen (zslice skey (r * 4) 4) = 4) as L4 by (apply zlen_zslice; lia).
  pose proof (Forall_zslice _ _ (r * 4) 4 B) as B4. destruct (zslice skey (r * 4) 4) as [|k0 [|k1 [|k2 [|k3 [|]]]]];
    cbn [length] in L4; try lia. cbn [map concat]. rewrite !Forall_cons in B4. destruct_and!.
  rewrite !key_bytes_enc by done. split; [done|]. repeat constructor; apply is_u8_u8.
Qed.
Lemma zxor_block a b : block a -> block b -> block (zxor a b).
Proof. intros [La Ba] [Lb Bb]. split; [rewrite zlen_zxor; lia|by apply zxor_bytes]. Qed.
Lemma add_round_key_block nr s skey r : block s -> schedule nr skey -> 0 <= r <= nr ->
  block (add_round_key s skey (Z.shiftl r 2)).
Proof. intros. by eapply zxor_block, round_key_block. Qed.
Lemma add_round_key_twice nr s skey r : block s -> schedule nr skey -> 0 <= r <= nr ->
  add_round_key (add_round_key s skey (Z.shiftl r 2)) skey (Z.shiftl r 2) = s.
Proof. intros [Ls _] Hk Hr. apply zxor_involutive. rewrite Ls. by destruct (round_key_block nr skey r Hk Hr) as [-> _]. Qed.

Lemma sub_bytes_block s : block s -> block (sub_bytes s).
Proof.
  intros [L B]. split; [by unfold sub_bytes; rewrite length_map|]. apply Forall_map.
  eapply Forall_impl; [exact B|]. intros x Hx. by apply S_byte.
Qed.
Lemma inv_sub_sub s : block s -> inv_sub_bytes (sub_bytes s) = s.
Proof.
  intros [_ B]. unfold inv_sub_bytes, sub_bytes. rewrite map_map. induction B as [|x s Hx Hs IH]; [done|].
  cbn [map]. by rewrite iS_S, IH.
Qed.
Lemma shift_rows_block s : block s -> block (shift_rows s).
Proof. intros H. block_cases H. split; [done|]. unfold shift_rows. cbn [map]. read_bytes. all_bytes. Qed.
Lemma inv_shift_shift s : block s -> inv_shift_rows (shift_rows s) = s.
Proof. intros H. block_cases H. reflexivity. Qed.

Lemma mix_column_bytes s0 s1 s2 s3 : is_u8 s0 -> is_u8 s1 -> is_u8 s2 -> is_u8 s3 ->
  exists t0 t1 t2 t3, mix_column s0 s1 s2 s3 = [t0; t1; t2; t3] /\
    is_u8 t0 /\ is_u8 t1 /\ is_u8 t2 /\ is_u8 t3 /\ inv_mix_column t0 t1 t2 t3 = [s0; s1; s2; s3].
Proof.
  intros H0 H1 H2 H3. pose proof (inv_mix_mix s0 s1 s2 s3 H0 H1 H2 H3) as E. rewrite mix_column_spec in * by done.
  assert (forall a x, 0 <= a < 16 -> is_u8 x -> is_u8 (gmul a x)) as B by (intros; by apply gmul_byte).
  do 4 eexists. split; [reflexivity|]. repeat (split; [apply lx4_byte; apply B; (lia || assumption)|]). exact E.
Qed.
Ltac mix_cases :=
  repeat match goal with |- context [mix_column ?a ?b ?c ?d] =>
    destruct (mix_column_bytes a b c d) as (? & ? & ? & ? & -> & ? & ? & ? & ? & ?); [assumption..|] end.
Lemma mix_columns_block s : block s -> block (mix_columns s).
Proof.
  intros H. block_cases H. unfold mix_columns, on_columns. cbn [map].
  read_bytes.
  mix_cases. cbn [concat app]. split; [done|]. all_bytes.
Qed.
Lemma inv_mix_mix_columns s : block s -> inv_mix_columns (mix_columns s) = s.
Proof.
  intros H. block_cases H. unfold mix_columns, inv_mix_columns, on_columns. cbn [map]. read_bytes.
  mix_cases. cbn [concat app]. read_bytes.
  repeat match goal with E : inv_mix_column _ _ _ _ = _ |- _ => rewrite E; clear E end. reflexivity.
Qed.

(** *** The inverse steps, on any block *)
Lemma iS_byte x : is_u8 x -> is_u8 (zget iS x).
Proof. intros H. apply is_u8_zget, bytes_dec. by vm_compute. Qed.
Lemma inv_sub_bytes_block s : block s -> block (inv_sub_bytes s).
Proof.
  intros [L B]. split; [by unfold inv_sub_bytes; rewrite length_map|]. apply Forall_map.
  eapply Forall_impl; [exact B|]. intros x Hx. by apply iS_byte.
Qed.
Lemma inv_shift_rows_block s : block s -> block (inv_shift_rows s).
Proof. intros H. block_cases H. split; [done|]. unfold inv_shift_rows. cbn [map]. read_bytes. all_bytes. Qed.
Lemma inv_mix_columns_block s : block s -> block (inv_mix_columns s).
Proof.
  intros H. block_cases H. unfold inv_mix_columns, on_columns. cbn [map]. read_bytes. unfold inv_mix_column. cbn [map concat app].
  split; [done|]. repeat constructor; apply gf256red_byte.
Qed.

(** ** Decryption undoes encryption *)

Section rounds.
Context (nr : Z) (skey : list Z) (Hk : schedule nr skey) (Hnr : 1 <= nr).

Lemma enc_round_block s u : block s -> 0 <= u <= nr -> block (enc_round skey s u).
Proof. intros Hs Hu. unfold enc_round. eapply add_round_key_block; [|done..]. by apply mix_columns_block, shift_rows_block, sub_bytes_block. Qed.
Lemma enc_rounds_block us s : block s -> Forall (fun u => 0 <= u <= nr) us -> block (fold_left (enc_round skey) us s).
Proof.
  intros Hs Hus. revert s Hs. induction Hus as [|u us Hu Hus IH]; intros s Hs; [done|]. by apply IH, enc_round_block.
Qed.
(** One round of decryption, between the two halves of a round of encryption. *)
Lemma dec_enc_round s u : block s -> 0 <= u <= nr ->
  dec_round skey (shift_rows (sub_bytes (enc_round skey s u))) u = shift_rows (sub_bytes s).
Proof.
  intros Hs Hu. pose proof (enc_round_block s u Hs Hu) as He. unfold dec_round.
  rewrite inv_shift_shift, inv_sub_sub by (done || by apply sub_bytes_block). unfold enc_round.
  assert (block (shift_rows (sub_bytes s))) as Hb by (by apply shift_rows_block, sub_bytes_block).
  rewrite (add_round_key_twice nr) by (done || by apply mix_columns_block). by apply inv_mix_mix_columns.
Qed.
Lemma dec_enc_rounds us s : block s -> Forall (fun u => 0 <= u <= nr) us ->
  fold_left (dec_round skey) (rev us) (shift_rows (sub_bytes (fold_left (enc_round skey) us s))) = shift_rows (sub_bytes s).
Proof.
  intros Hs Hus. revert s Hs. induction Hus as [|u us Hu Hus IH]; intros s Hs; [done|]. cbn [rev fold_left].
  rewrite fold_left_app, IH by (by apply enc_round_block). by apply dec_enc_round.
Qed.
Lemma middle_rounds : Forall (fun u => 0 <= u <= nr) (seqZ 1 (nr - 1)).
Proof. apply Forall_forall. intros u Hu. apply elem_of_seqZ in Hu. lia. Qed.

Lemma encrypt_block s : block s -> block (br_aes_small_encrypt nr skey s).
Proof.
  intros Hs. unfold br_aes_small_encrypt. cbv zeta. eapply add_round_key_block; [|done|lia].
  apply shift_rows_block, sub_bytes_block, enc_rounds_block; [|apply middle_rounds].
  by eapply (add_round_key_block nr s skey 0); [..|lia].
Qed.
Lemma decrypt_block s : block s -> block (br_aes_small_decrypt nr skey s).
Proof.
  intros Hs. unfold br_aes_small_decrypt. cbv zeta. eapply (add_round_key_block nr _ skey 0); [|done|lia].
  apply inv_sub_bytes_block, inv_shift_rows_block.
  assert (Forall (fun u => 0 <= u <= nr) (rev (seqZ 1 (nr - 1)))) as Hus by (apply Forall_rev, middle_rounds).
  assert (block (add_round_key s skey (Z.shiftl nr 2))) as Hb by (eapply add_round_key_block; [done|done|lia]).
  revert Hb. generalize (add_round_key s skey (Z.shiftl nr 2)). induction Hus as [|u us Hu _ IH]; intros b Hb; [done|].
  apply IH. unfold dec_round. apply inv_mix_columns_block. eapply add_round_key_block; [|done|lia].
  by apply inv_sub_bytes_block, inv_shift_rows_block.
Qed.
Lemma decrypt_encrypt s : block s -> br_aes_small_decrypt nr skey (br_aes_small_encrypt nr skey s) = s.
Proof.
  intros Hs. unfold br_aes_small_decrypt, br_aes_small_encrypt. cbv zeta.
  pose proof (add_round_key_block nr s skey 0 Hs Hk ltac:(lia)) as H0. change (Z.shiftl 0 2) with 0 in H0.
  pose proof (enc_rounds_block _ _ H0 middle_rounds) as H1.
  rewrite (add_round_key_twice nr) by (try lia; try done; by apply shift_rows_block, sub_bytes_block).
  rewrite (dec_enc_rounds _ _ H0 middle_rounds), inv_shift_shift, inv_sub_sub by (done || by apply sub_bytes_block).
  by apply (add_round_key_twice nr s skey 0); [..|lia].
Qed.
End rounds.

(** ** The key schedule *)

Lemma key_bytes_dec l : zlen l = 4 -> Forall is_u8 l -> key_bytes (br_dec32be l) = l /\ is_u32 (br_dec32be l).
Proof.
  intros L B. destruct l as [|a [|b [|c [|d [|]]]]]; cbn [length] in L; try lia. rewrite !Forall_cons in B. destruct_and!.
  rewrite dec32be_sum by done. unfold is_u8 in *. set (v := _ + _). assert (is_u32 v) as Hv by (unfold is_u32; lia).
  split; [|done]. unfold key_bytes. rewrite !Z.shiftr_div_pow2 by lia.
  assert (forall x, Z.land x 0xFF = x mod 256) as E by (intros; by apply (Z.land_ones _ 8)). rewrite !E. subst v.
  rewrite <- (Z.div_unique (_ + d) (2 ^ 24) a (b * 2 ^ 16 + c * 2 ^ 8 + d)) by lia.
  rewrite <- (Z.div_unique (_ + d) (2 ^ 16) (a * 2 ^ 8 + b) (c * 2 ^ 8 + d)) by lia.
  rewrite <- (Z.div_unique (_ + d) (2 ^ 8) (a * 2 ^ 16 + b * 2 ^ 8 + c) d) by lia.
  rewrite <- (Z.mod_unique (_ + b) 256 a b), <- (Z.mod_unique (_ + c) 256 (a * 2 ^ 8 + b) c),
    <- (Z.mod_unique (_ + d) 256 (a * 2 ^ 16 + b * 2 ^ 8 + c) d) by lia. done.
Qed.
Lemma dec_key_bytes k : is_u32 k -> br_dec32be (key_bytes k) = k.
Proof. intros. rewrite key_bytes_enc by done. rewrite <- (app_nil_r (br_enc32be k)). by apply dec_enc32be. Qed.
Lemma key_bytes_ok k : is_u32 k -> zlen (key_bytes k) = 4 /\ Forall is_u8 (key_bytes k).
Proof. intros. rewrite key_bytes_enc by done. split; [done|]. repeat constructor; apply is_u8_u8. Qed.
Lemma key_bytes_lxor x y : key_bytes (Z.lxor x y) = zxor (key_bytes x) (key_bytes y).
Proof.
  unfold key_bytes, zxor. cbn [zip_with]. rewrite !Z.shiftr_lxor. per_byte;
    apply Z.bits_inj'; intros n _; rewrite ?Z.land_spec, ?Z.lxor_spec, ?Z.land_spec; btauto.
Qed.
Lemma SubWord_spec x : is_u32 x -> key_bytes (SubWord x) = map sbox (key_bytes x) /\ is_u32 (SubWord x).
Proof.
  intros Hx. pose proof (key_bytes_ok x Hx) as [_ B]. unfold key_bytes in B. rewrite !Forall_cons in B.
  destruct B as (B0 & B1 & B2 & B3 & _). unfold is_u8 in *.
  assert (SubWord x = br_dec32be (map (zget br_aes_S) (key_bytes x))) as ->.
  { unfold SubWord. rewrite u32_small; [done|]. rewrite Z.shiftl_mul_pow2 by lia. pose proof (S_byte _ B0). lia. }
  assert (map (zget br_aes_S) (key_bytes x) = map sbox (key_bytes x)) as E.
  { unfold key_bytes. cbn [map]. by rewrite !sbox_spec by assumption. }
  rewrite <- E. apply key_bytes_dec; [done|]. unfold key_bytes. cbn [map]. repeat (apply Forall_cons_2; [by apply S_byte|]). done.
Qed.
Lemma rot_spec x : is_u32 x -> let y := Z.lor (u32 (Z.shiftl x 8)) (Z.shiftr x 24) in
  key_bytes y = RotWord (key_bytes x) /\ is_u32 y.
Proof.
  intros Hx y. pose proof (key_bytes_ok x Hx) as [_ B]. pose proof (dec_key_bytes x Hx) as E. unfold key_bytes in *.
  set (a := Z.shiftr x 24) in *. set (b := Z.land (Z.shiftr x 16) 255) in *. set (c := Z.land (Z.shiftr x 8) 255) in *.
  set (d := Z.land x 255) in *. rewrite !Forall_cons in B. destruct B as (B0 & B1 & B2 & B3 & _).
  assert (y = br_dec32be [b; c; d; a]) as ->.
  { rewrite dec32be_sum in * by done. subst y. clearbody a b c d. unfold is_u8 in *.
    assert (u32 (Z.shiftl x 8) = (b * 2 ^ 16 + c * 2 ^ 8 + d) * 2 ^ 8) as ->.
    { rewrite Z.shiftl_mul_pow2 by lia. rewrite <- E. symmetry. apply (Z.mod_unique _ _ a); lia. }
    rewrite lor_add by lia. lia. }
  destruct (key_bytes_dec [b; c; d; a]) as [E1 E2]; [done|all_bytes|]. split; [|done]. unfold key_bytes in E1. rewrite E1. done.
Qed.

Lemma nth_key_bytes skey i : 0 <= i < zlen skey -> nth (Z.to_nat i) (map key_bytes skey) [] = key_bytes (zget skey i).
Proof.
  intros Hi. unfold zget. rewrite <- (map_nth key_bytes). apply nth_indep. rewrite length_map. lia.
Qed.
Lemma zget_u32 skey i : Forall is_u32 skey -> is_u32 (zget skey i).
Proof.
  intros H. unfold zget. destruct (nth_in_or_default (Z.to_nat i) skey 0) as [Hin| ->]; [|unfold is_u32; lia].
  rewrite Forall_forall in H. by apply H, list_elem_of_In.
Qed.
Lemma lxor_u32 x y : is_u32 x -> is_u32 y -> is_u32 (Z.lxor x y).
Proof. intros. by apply (lxor_bound 32). Qed.
Lemma Rcon_spec k : 0 <= k < 10 -> key_bytes (zget Rcon k) = RconWord (k + 1) /\ is_u32 (zget Rcon k).
Proof.
  intros Hk. assert (forallb (fun k => bool_decide (key_bytes (zget Rcon k) = RconWord (k + 1)) &&
    (0 <=? zget Rcon k) && (zget Rcon k <? 2 ^ 32)) (seqZ 0 10) = true) as H by (vm_compute; reflexivity).
  rewrite forallb_seqZ in H. specialize (H k ltac:(lia)). cbv beta in H. rewrite !andb_true_iff, bool_decide_eq_true in H.
  unfold is_u32. destruct H as [[-> ?] ?]. split; [done|lia].
Qed.

(** One word of the schedule. *)
Definition sched_word (nk : Z) (skey : list Z) (i j k : Z) : Z :=
  let tmp := zget skey (i - 1) in
  Z.lxor (zget skey (i - nk))
    (if j =? 0 then Z.lxor (SubWord (Z.lor (u32 (Z.shiftl tmp 8)) (Z.shiftr tmp 24))) (zget Rcon k)
     else if (6 <? nk) && (j =? 4) then SubWord tmp else tmp).
Lemma sched_word_ok nk skey i : Forall is_u32 skey -> zlen skey = i -> 0 < nk <= i -> i / nk <= 10 ->
  map key_bytes (skey ++ [sched_word nk skey i (i mod nk) (i / nk - 1)]) = next_word nk (map key_bytes skey) i /\
  is_u32 (sched_word nk skey i (i mod nk) (i / nk - 1)).
Proof.
  intros B L Hnk Hk. unfold next_word, sched_word. rewrite map_app. cbn [map]. rewrite !nth_key_bytes by lia.
  set (tmp := zget skey (i - 1)). assert (is_u32 tmp) as Ht by (by apply zget_u32).
  assert (is_u32 (zget skey (i - nk))) as Hp by (by apply zget_u32). destruct (SubWord_spec tmp Ht) as [E1 B1].
  assert (0 <= i / nk - 1 < 10) as Hr by (pose proof (Z.div_le_lower_bound i nk 1); lia).
  destruct (Rcon_spec _ Hr) as [E2 B2]. destruct (rot_spec tmp Ht) as [E3 B3]. destruct (SubWord_spec _ B3) as [E4 B4].
  replace (i / nk - 1 + 1) with (i / nk) in E2 by lia.
  rewrite key_bytes_lxor. destruct (i mod nk =? 0); [|destruct (_ && _)].
  - rewrite key_bytes_lxor, E4, E3, E2. split; [done|]. by repeat apply lxor_u32.
  - rewrite E1. split; [done|]. by apply lxor_u32.
  - split; [done|]. by apply lxor_u32.
Qed.
Lemma keysched_loop_ok nk n skey i : Forall is_u32 skey -> zlen skey = i -> 0 < nk <= i -> i + Z.of_nat n <= nk * 11 ->
  let skey' := keysched_loop nk skey n i (i mod nk) (i / nk - 1) in
  map key_bytes skey' = fold_left (next_word nk) (seqZ i (Z.of_nat n)) (map key_bytes skey) /\
  Forall is_u32 skey' /\ zlen skey' = i + Z.of_nat n.
Proof.
  revert skey i. induction n as [|n IH]; intros skey i B L Hnk Hn; [cbn; split; [done|]; split; [done|lia]|].
  cbn [keysched_loop]. fold (sched_word nk skey i (i mod nk) (i / nk - 1)).
  destruct (sched_word_ok nk skey i B L Hnk) as [E Bw]; [apply Z.lt_succ_r, Z.div_lt_upper_bound; lia|].
  set (skey1 := skey ++ [_]) in *.
  assert (Forall is_u32 skey1) as B1 by (apply Forall_app; split; [done|by apply Forall_singleton]).
  assert (zlen skey1 = i + 1) as L1 by (unfold skey1; rewrite zlen_app, L; done).
  destruct (IH skey1 (i + 1) B1 L1 ltac:(lia) ltac:(lia)) as (E' & B' & L').
  pose proof (Z.div_mod i nk ltac:(lia)) as Hd. pose proof (Z.mod_pos_bound i nk ltac:(lia)) as Hm.
  rewrite (seqZ_cons i) by lia. cbn [fold_left]. rewrite <- E.
  replace (Z.succ i) with (i + 1) by lia. replace (Z.pred (Z.of_nat (S n))) with (Z.of_nat n) by lia.
  rewrite <- E'. destruct (Z.eqb_spec (i mod nk + 1) nk) as [Hw|Hw].
  - rewrite <- (Z.mod_unique (i + 1) nk (i / nk + 1) 0), <- (Z.div_unique (i + 1) nk (i / nk + 1) 0) in * by lia.
    replace (i / nk + 1 - 1) with (i / nk - 1 + 1) in * by lia. split; [done|]. split; [done|]. lia.
  - rewrite <- (Z.mod_unique (i + 1) nk (i / nk) (i mod nk + 1)), <- (Z.div_unique (i + 1) nk (i / nk) (i mod nk + 1)) in * by lia.
    split; [done|]. split; [done|]. lia.
Qed.

Definition aes_key (key : list Z) : Prop := (zlen key = 16 \/ zlen key = 24 \/ zlen key = 32) /\ Forall is_u8 key.
Lemma keysched_ok key : aes_key key ->
  let '(nr, skey) := br_aes_keysched key in
  nr = zlen key / 4 + 6 /\ schedule nr skey /\ map key_bytes skey = KeyExpansion key.
Proof.
  intros [Hl B]. set (Nk := zlen key / 4). assert (Nk = 4 \/ Nk = 6 \/ Nk = 8) as HN
    by (unfold Nk; destruct Hl as [-> | [-> | ->]]; [left|right; left|right; right]; reflexivity).
  assert (zlen key = 4 * Nk) as HL by (unfold Nk; destruct Hl as [-> | [-> | ->]]; reflexivity).
  assert (br_aes_keysched key = (Nk + 6, keysched_loop Nk
    (map (fun i => br_dec32be (zslice key (Z.shiftl i 2) 4)) (seqZ 0 Nk)) (Z.to_nat (4 * (Nk + 7) - Nk)) Nk 0 0)) as ->.
  { unfold br_aes_keysched. rewrite HL. clear HL. clearbody Nk. by destruct HN as [-> | [-> | ->]]. }
  set (k0 := map _ (seqZ 0 Nk)).
  assert (forall i, 0 <= i < Nk -> key_bytes (br_dec32be (zslice key (Z.shiftl i 2) 4)) = zslice key (4 * i) 4 /\
    is_u32 (br_dec32be (zslice key (Z.shiftl i 2) 4))) as Hw.
  { intros i Hi. rewrite Z.shiftl_mul_pow2, Z.mul_comm by lia. change (2 ^ 2) with 4.
    apply key_bytes_dec; [apply zlen_zslice; lia|by apply Forall_zslice]. }
  destruct (keysched_loop_ok Nk (Z.to_nat (4 * (Nk + 7) - Nk)) k0 Nk) as (E & B' & L'); [| |lia|lia|].
  - apply Forall_map, Forall_forall. intros i Hi. apply elem_of_seqZ in Hi. apply Hw. lia.
  - unfold k0. rewrite length_map, length_seqZ. lia.
  - rewrite Z.mod_same, Z.div_same in E, B', L' by lia. change (1 - 1) with 0 in *. split; [done|]. split; [split; [lia|done]|].
    rewrite E, Z2Nat.id by lia. unfold KeyExpansion. fold Nk.
    replace (4 * (Nk + 6 + 1) - Nk) with (4 * (Nk + 7) - Nk) by lia. f_equal. unfold k0. rewrite map_map. apply map_ext_in.
    intros i Hi. apply list_elem_of_In, elem_of_seqZ in Hi. apply Hw. lia.
Qed.

(** ** Encryption is the cipher of FIPS 197 *)

Lemma state_of_ext f g : (forall r c, 0 <= r < 4 -> 0 <= c < 4 -> f r c = g r c) -> state_of f = state_of g.
Proof.
  intros E. unfold state_of. apply map_ext_in. intros i Hi. apply list_elem_of_In, elem_of_seqZ in Hi.
  apply E; [apply Z.mod_pos_bound; lia|]. split; [apply Z.div_pos; lia|apply Z.div_lt_upper_bound; lia].
Qed.
Lemma SubBytes_eq s : block s -> SubBytes s = sub_bytes s.
Proof.
  intros [_ B]. unfold SubBytes, sub_bytes. induction B as [|x s Hx Hs IH]; [done|]. cbn [map]. by rewrite IH, sbox_spec.
Qed.
Lemma ShiftRows_eq s : block s -> ShiftRows s = shift_rows s.
Proof. intros H. block_cases H. reflexivity. Qed.
Lemma MixColumns_eq s : block s -> MixColumns s = mix_columns s.
Proof.
  intros H. block_cases H. unfold mix_columns, on_columns. cbn [map]. read_bytes. rewrite !mix_column_spec by assumption.
  reflexivity.
Qed.
Lemma AddRoundKey_eq nr skey r s : block s -> schedule nr skey -> 0 <= r <= nr ->
  AddRoundKey (map key_bytes skey) r s = add_round_key s skey (Z.shiftl r 2).
Proof.
  intros Hs [L B] Hr. unfold add_round_key. rewrite Z.shiftl_mul_pow2 by lia. change (2 ^ 2) with 4.
  assert (forall c, 0 <= c < 4 -> nth (Z.to_nat (4 * r + c)) (map key_bytes skey) [] = key_bytes (zget (zslice skey (r * 4) 4) c)) as E.
  { intros c Hc. rewrite nth_key_bytes, zget_zslice by lia. do 2 f_equal. lia. }
  assert (zlen (zslice skey (r * 4) 4) = 4) as L4 by (apply zlen_zslice; lia).
  unfold AddRoundKey. remember (zslice skey (r * 4) 4) as ks eqn:Ek. clear Ek.
  destruct ks as [|k0 [|k1 [|k2 [|k3 [|]]]]]; cbn [length] in L4; try lia.
  rewrite (state_of_ext _ (fun rr c => Z.lxor (at_rc s rr c) (zget (key_bytes (zget [k0; k1; k2; k3] c)) rr)))
    by (intros; by rewrite E).
  block_cases Hs. reflexivity.
Qed.

Lemma aes_encrypt_cipher key b : aes_key key -> block b -> aes_encrypt (aes_init key) b = Cipher key b.
Proof.
  intros Hk Hb. pose proof (keysched_ok key Hk) as H. unfold aes_encrypt, aes_init, Cipher, br_aes_small_encrypt.
  destruct (br_aes_keysched key) as [nr skey]. destruct H as (-> & Hs & <-). cbn [fst snd]. set (nr := zlen key / 4 + 6) in *.
  assert (1 <= nr) as Hnr by (pose proof (Z.div_pos (zlen key) 4); lia).
  assert (forall us s, block s -> Forall (fun u => 0 <= u <= nr) us ->
    fold_left (fun s round => AddRoundKey (map key_bytes skey) round (MixColumns (ShiftRows (SubBytes s)))) us s =
    fold_left (enc_round skey) us s) as Hrounds.
  { intros us s Hbs Hus. revert s Hbs. induction Hus as [|u us Hu Hus IH]; intros s Hbs; [done|]. cbn [fold_left].
    pose proof (sub_bytes_block s Hbs) as B1. pose proof (shift_rows_block _ B1) as B2. pose proof (mix_columns_block _ B2) as B3.
    rewrite SubBytes_eq, ShiftRows_eq, MixColumns_eq, (AddRoundKey_eq nr) by done.
    apply IH. by eapply (enc_round_block nr). }
  rewrite (AddRoundKey_eq nr skey 0) by (done || lia). change (Z.shiftl 0 2) with 0.
  pose proof (add_round_key_block nr b skey 0 Hb Hs ltac:(lia)) as B0. change (Z.shiftl 0 2) with 0 in B0.
  rewrite Hrounds by (done || apply middle_rounds).
  pose proof (enc_rounds_block nr skey Hs _ _ B0 (middle_rounds nr)) as B1.
  rewrite (SubBytes_eq _ B1). pose proof (sub_bytes_block _ B1) as B2. rewrite (ShiftRows_eq _ B2).
  pose proof (shift_rows_block _ B2) as B3. by rewrite (AddRoundKey_eq nr) by (done || lia).
Qed.
Lemma aes_block key b : aes_key key -> block b ->
  block (aes_encrypt (aes_init key) b) /\ block (aes_decrypt (aes_init key) b) /\
  aes_decrypt (aes_init key) (aes_encrypt (aes_init key) b) = b.
Proof.
  intros Hk Hb. pose proof (keysched_ok key Hk) as H. unfold aes_encrypt, aes_decrypt, aes_init.
  destruct (br_aes_keysched key) as [nr skey]. destruct H as (-> & Hs & _). cbn [fst snd].
  assert (1 <= zlen key / 4 + 6) as Hnr by (pose proof (Z.div_pos (zlen key) 4); lia).
  split; [by apply encrypt_block|]. split; [by apply decrypt_block|by apply decrypt_encrypt].
Qed.

(** ** The properties *)

(** C26: for every key of 16, 24 or 32 bytes and every block, the key schedule and the
    byte-oriented encryption compute the cipher of FIPS 197, whose S-box is defined by
    the inverse in the field of 256 elements, and decryption with the same schedule
    gives the block back. *)
Theorem aes_fips197 key b : aes_key key -> block b ->
  aes_encrypt (aes_init key) b = Cipher key b /\ aes_decrypt (aes_init key) (aes_encrypt (aes_init key) b) = b.
Proof. intros Hk Hb. split; [by apply aes_encrypt_cipher|by apply aes_block]. Qed.

(** FIPS 197, appendix C.3. *)
Lemma aes_fips197_witness :
  let b := map (fun i => 17 * i) (seqZ 0 16) in
  let c := aes_encrypt (aes_init (seqZ 0 32)) b in
  c = [0x8e; 0xa2; 0xb7; 0xca; 0x51; 0x67; 0x45; 0xbf; 0xea; 0xfc; 0x49; 0x90; 0x4b; 0x49; 0x60; 0x89] /\
  c = Cipher (seqZ 0 32) b /\ aes_decrypt (aes_init (seqZ 0 32)) c = b.
Proof.
  intros b c. split; [vm_compute; reflexivity|]. apply aes_fips197.
  - split; [right; right; reflexivity|]. apply bytes_dec. vm_compute. reflexivity.
  - split; [reflexivity|]. apply bytes_dec. vm_compute. reflexivity.
Defined.
