(* ===== verification/RecCbc.v ===== *)
(** * RecCbc: ssl_rec_cbc.c, record protection with a block cipher in CBC mode and HMAC

    MAC, then padding, then encryption.  The block cipher is reached through a
    pointer: its key schedules and its run functions, which transform whole blocks
    and update the IV, are parameters; a run that would leave its buffer, at a part
    of a block, is [None].  The hash function [dig] is a parameter too.  A context of
    [br_hmac_context] on the stack holds anything: it is the parameter [stk].  Opening
    a record takes the same steps whatever its padding; the arrays [tmp1] and [tmp2]
    of 64 bytes are lists whose bytes beyond those the code sets are 0. *)
From S2P Require Import Prelude.
From S2P Require Import Words.
From S2P Require Import Engine.
From S2P Require Import RecordLink.
From S2P Require Import Hash.
From S2P Require Import Hmac.
From S2P Require Import HmacCt.

(** ** The code *)

Section code.
Context (blen : Z) {bd be : Type} (dec_init : list Z -> bd) (enc_init : list Z -> be).
(** The new IV and the data. *)
Context (dec_run : bd -> list Z -> list Z -> option (list Z * list Z)) (enc_run : be -> list Z -> list Z -> option (list Z * list Z)).
Context (dig : br_hash_class) (stk : br_hmac_context dig).

Record br_sslrec_in_cbc_context : Type := InCbc {
  in_seq : Z; in_bc : bd; in_mac : br_hmac_key_context; in_mac_len : Z; in_iv : list Z; in_explicit : bool }.
Record br_sslrec_out_cbc_context : Type := OutCbc {
  out_seq : Z; out_bc : be; out_mac : br_hmac_key_context; out_mac_len : Z; out_iv : list Z; out_explicit : bool }.

(** [iv] is [None] for TLS 1.1 and above. *)
Definition in_cbc_init (bc_key mac_key : list Z) (mac_out_len : Z) (iv : option (list Z)) : br_sslrec_in_cbc_context :=
  InCbc 0 (dec_init bc_key) (br_hmac_key_init dig (hdig stk) mac_key) mac_out_len
    (match iv with None => zeros 16 | Some iv => ztake blen iv end) (match iv with None => true | Some _ => false end).
Definition out_cbc_init (bc_key mac_key : list Z) (mac_out_len : Z) (iv : option (list Z)) : br_sslrec_out_cbc_context :=
  OutCbc 0 (enc_init bc_key) (br_hmac_key_init dig (hdig stk) mac_key) mac_out_len
    (match iv with None => zeros 16 | Some iv => ztake blen iv end) (match iv with None => true | Some _ => false end).

(** [x & ~(blen - 1)]. *)
Definition whole_blocks (x : Z) : Z := Z.land x (u64 (Z.lnot (blen - 1))).

Definition cbc_check_length (cc : br_sslrec_in_cbc_context) (rlen : Z) : bool :=
  let min_len := whole_blocks (blen +! in_mac_len cc) in
  let max_len := whole_blocks (16384 + 256 +! in_mac_len cc) in
  let '(min_len, max_len) := if in_explicit cc then (min_len +! blen, max_len +! blen) else (min_len, max_len) in
  (min_len <=? rlen) && (rlen <=? max_len).

Fixpoint rotate_loop (ctl : Z) (buf : list Z) (len : Z) (n : nat) (u v : Z) : list Z :=
  match n with
  | O => []
  | S n => u8 (MUX ctl (zget buf v) (zget buf u)) ::
      rotate_loop ctl buf len n (u + 1) (if v + 1 =? len then 0 else v + 1)
  end.
Definition cond_rotate (ctl : Z) (buf : list Z) (len num : Z) : list Z :=
  zblit buf 0 (rotate_loop ctl buf len (Z.to_nat len) 0 num).

(** [good] after the check of the padding, for the length [len]. *)
Definition padding_check (buf : list Z) (pad_len len min_len max_len good : Z) : Z :=
  fold_left (fun good u => Z.land good (Z.lor (LT u len) (EQ (zget buf u) pad_len)))
    (seqZ min_len (max_len - min_len)) good.

(** One round of the extraction of the MAC, on [tmp1], [rot_count] and [v]. *)
Definition extract_step (buf : list Z) (mac_len len_nomac len_withmac : Z) (s : list Z * Z * Z) (u : Z) : list Z * Z * Z :=
  let '(tmp1, rot_count, v) := s in
  let x := MUX (Z.land (GE u len_nomac) (LT u len_withmac)) (zget buf u) 0 in
  (zblit tmp1 v [u8 (Z.lor (zget tmp1 v) x)], MUX (EQ u len_nomac) v rot_count,
   if v + 1 =? mac_len then 0 else v + 1).
Definition rotate_back (mac_len : Z) (tmp1 : list Z) (rot_count : Z) : list Z :=
  (fold_left (fun s i =>
     let '(tmp1, rot_count) := s in
     let rc := Z.shiftl 1 i in
     (cond_rotate (Z.shiftr rot_count i) tmp1 mac_len rc, Z.land rot_count (u32 (Z.lnot rc))))
   [5; 4; 3; 2; 1; 0] (tmp1, rot_count)).1.
Definition extract_mac (buf : list Z) (mac_len len_nomac len_withmac min_len max_len : Z) : list Z :=
  let '(tmp1, rot_count, _) :=
    fold_left (extract_step buf mac_len len_nomac len_withmac) (seqZ min_len (max_len - min_len)) (zeros 64, 0, 0) in
  rotate_back mac_len tmp1 rot_count.

Definition mac_check (mac_len : Z) (tmp1 tmp2 : list Z) (good : Z) : Z :=
  fold_left (fun good u => Z.land good (EQ0 (Z.lxor (zget tmp1 u) (zget tmp2 u)))) (seqZ 0 mac_len) good.

(** The payload [buf], after decryption: [good] and [len_nomac]. *)
Definition cbc_open (mac : br_hmac_key_context) (mac_len seq record_type version : Z) (buf : list Z) : Z * Z :=
  let len := u32 (zlen buf) in
  let min_len := if mac_len + 256 <? len then u32 (len - 256) else u32 mac_len in
  let max_len := u32 (len - 1) in
  let pad_len := zget buf max_len in
  let good := LE pad_len (u32 (max_len - min_len)) in
  let len := MUX good (u32 (max_len - pad_len)) min_len in
  let good := padding_check buf pad_len len min_len max_len good in
  let len_withmac := len in
  let len_nomac := u32 (len_withmac - mac_len) in
  let min_len := u32 (min_len - mac_len) in
  let tmp1 := extract_mac buf mac_len len_nomac len_withmac min_len max_len in
  let max_len := u32 (max_len - mac_len) in
  let tmp2 := record_ad seq record_type version len_nomac ++ zeros 51 in
  let hc := br_hmac_init dig stk mac mac_len in
  let hc := br_hmac_update dig hc (ztake 13 tmp2) in
  let tmp2 := zblit tmp2 0 (br_hmac_outCT dig hc buf len_nomac min_len max_len) in
  let good := mac_check mac_len tmp1 tmp2 good in
  (Z.land good (LE len_nomac 16384), len_nomac).

Definition cbc_decrypt (cc : br_sslrec_in_cbc_context) (record_type version : Z) (data : list Z)
    : option (br_sslrec_in_cbc_context * list Z * option (Z * Z)) :=
  '(iv, data) ← dec_run (in_bc cc) (in_iv cc) data;
  let start := if in_explicit cc then blen else 0 in
  let '(good, len_nomac) :=
    cbc_open (in_mac cc) (in_mac_len cc) (in_seq cc) record_type version (zdrop start data) in
  Some (InCbc (u64 (in_seq cc + 1)) (in_bc cc) (in_mac cc) (in_mac_len cc) iv (in_explicit cc), data,
    if good =? 0 then None else Some (start, len_nomac)).

(** The room for a first fragment of one byte. *)
Definition split_room (mac_len : Z) : Z := 4 +! whole_blocks (mac_len +! blen +! 1).

Definition cbc_max_plaintext (cc : br_sslrec_out_cbc_context) (start end_ : Z) : Z * Z :=
  let start := if out_explicit cc then start +! blen else start +! split_room (out_mac_len cc) in
  let len := whole_blocks (end_ -! start) in
  let len := len -! (1 +! out_mac_len cc) in
  let len := if 16384 <? len then 16384 else len in
  (start, start +! len).

(** The MAC of [len] bytes at [off] and the padding, behind them. *)
Definition cbc_seal (cc : br_sslrec_out_cbc_context) (record_type version : Z) (buf : list Z) (off len : Z)
    : list Z * Z :=
  let tmp := record_ad (out_seq cc) record_type version len in
  let hc := br_hmac_init dig stk (out_mac cc) (out_mac_len cc) in
  let hc := br_hmac_update dig hc tmp in
  let hc := br_hmac_update dig hc (zslice buf off len) in
  let buf := zblit buf (off + len) (br_hmac_out dig (hdig stk) hc) in
  let len := len +! out_mac_len cc in
  let plen := blen -! Z.land len (blen -! 1) in
  let buf := zblit buf (off + len) (replicate (Z.to_nat plen) (u8 (plen -! 1))) in
  (buf, len +! plen).
(** From "Compute MAC" on: the new context, the buffer, and where the encrypted data
    starts and ends. *)
Definition cbc_fragment (cc : br_sslrec_out_cbc_context) (record_type version : Z) (buf : list Z) (off len : Z)
    : option (br_sslrec_out_cbc_context * list Z * Z * Z) :=
  let '(buf, len) := cbc_seal cc record_type version buf off len in
  let '(off, len) := if out_explicit cc then (off - blen, len +! blen) else (off, len) in
  '(iv, data) ← enc_run (out_bc cc) (out_iv cc) (zslice buf off len);
  Some (OutCbc (u64 (out_seq cc + 1)) (out_bc cc) (out_mac cc) (out_mac_len cc) iv (out_explicit cc),
   put_record buf (off - 5) record_type version len data, off, off + len).

(** The call within the call has one byte of data, so that it does not split. *)
Definition cbc_encrypt (cc : br_sslrec_out_cbc_context) (record_type version : Z) (buf : list Z) (off len : Z)
    : option (br_sslrec_out_cbc_context * list Z * Z * Z) :=
  if out_explicit cc then
    let hc := br_hmac_init dig stk (out_mac cc) blen in
    let hc := br_hmac_update dig hc (br_enc64be (out_seq cc)) in
    let buf := zblit buf (off - blen) (br_hmac_out dig (hdig stk) hc) in
    let rbuf := off - blen - 5 in
    '(cc, buf, _, last) ← cbc_fragment cc record_type version buf off len;
    Some (cc, buf, rbuf, last - rbuf)
  else if (1 <? len) && (record_type =? BR_SSL_APPLICATION_DATA) then
    let first := off - split_room (out_mac_len cc) in
    let buf := zblit buf first [zget buf off] in
    '(cc, buf, start, _) ← cbc_fragment cc record_type version buf first 1;
    let rbuf := start - 5 in
    '(cc, buf, _, last) ← cbc_fragment cc record_type version buf (off + 1) (len - 1);
    Some (cc, buf, rbuf, last - rbuf)
  else
    let rbuf := off - 5 in
    '(cc, buf, _, last) ← cbc_fragment cc record_type version buf off len;
    Some (cc, buf, rbuf, last - rbuf).
End code.

(** ** The interface of the block cipher *)

(** Whole blocks are transformed, and what is not whole blocks takes the decryption out
    of its buffer.  Decryption from the same IV undoes encryption and ends with the same
    IV; another IV only changes the first block. *)
Class CbcCipher (blen : Z) {bd be : Type} (dec_init : list Z -> bd) (enc_init : list Z -> be)
    (dec_run : bd -> list Z -> list Z -> option (list Z * list Z)) (enc_run : be -> list Z -> list Z -> option (list Z * list Z)) := {
  cbc_key : list Z -> Prop;
  cbc_blen : blen = 8 \/ blen = 16;
  cbc_dec : forall key iv data, cbc_key key -> blen <= zlen iv -> Forall is_u8 iv -> Forall is_u8 data ->
    if zlen data mod blen =? 0
    then exists iv' d, dec_run (dec_init key) iv data = Some (iv', d) /\ zlen d = zlen data /\ Forall is_u8 d /\
           blen <= zlen iv' /\ Forall is_u8 iv'
    else dec_run (dec_init key) iv data = None;
  cbc_run : forall key iv iv2 data, cbc_key key ->
    blen <= zlen iv -> Forall is_u8 iv -> blen <= zlen iv2 -> Forall is_u8 iv2 ->
    Forall is_u8 data -> zlen data mod blen = 0 ->
    exists iv' c iv2' d, enc_run (enc_init key) iv data = Some (iv', c) /\ dec_run (dec_init key) iv2 c = Some (iv2', d) /\
    zlen c = zlen data /\ Forall is_u8 c /\ blen <= zlen iv' /\ Forall is_u8 iv' /\
    zlen d = zlen data /\ Forall is_u8 d /\ blen <= zlen iv2' /\ Forall is_u8 iv2' /\
    zdrop blen d = zdrop blen data /\ (iv2 = iv -> iv2' = iv' /\ d = data) }.
