(* ===== verification/AesModes.v ===== *)
(** * AesModes: the modes of operation of aes_small_*.c

    CBC decryption undoes CBC encryption on whole blocks and leaves the buffer on
    anything else, so that AES is a block cipher for the CBC records. *)
From S2P Require Import Prelude.
From S2P Require Import Words.
From S2P Require Import RecCbc.
From S2P Require Import Aes.
From S2P Require Import AesSpec.

Section aes.
Context (key : list Z) (Hkey : aes_key key).
Notation ctx := (aes_init key).

(** ** CBC *)

Lemma first_block iv : 16 <= zlen iv -> Forall is_u8 iv -> block (ztake 16 iv).
Proof. intros L B. split; [apply zlen_ztake; lia|by apply Forall_ztake]. Qed.
(** A block and the first bytes of a longer array. *)
Lemma xorbuf_block b iv : block b -> 16 <= zlen iv -> Forall is_u8 iv -> block (xorbuf b iv) /\ xorbuf (xorbuf b iv) iv = b.
Proof.
  intros Hb L B. assert (xorbuf b iv = zxor b (ztake 16 iv)) as E.
  { unfold xorbuf. rewrite <- (proj1 Hb). by rewrite zxor_take. }
  split; [rewrite E; by apply zxor_block, first_block|]. apply zxor_involutive. rewrite (proj1 Hb). lia.
Qed.
Lemma whole_blocks_cons n data : zlen data = 16 * Z.of_nat (S n) -> Forall is_u8 data ->
  block (ztake 16 data) /\ zlen (zdrop 16 data) = 16 * Z.of_nat n /\ Forall is_u8 (zdrop 16 data).
Proof.
  intros L B. split; [apply first_block; [lia|done]|]. split; [rewrite zlen_zdrop; lia|by apply Forall_zdrop].
Qed.
Lemma block_app b l : block b -> ztake 16 (b ++ l) = b /\ zdrop 16 (b ++ l) = l.
Proof.
  intros [L _]. split; [rewrite ztake_app_le by lia; apply ztake_ge; lia|].
  rewrite zdrop_app_ge by lia. by rewrite L.
Qed.

Lemma at_end_nil {A} (data : list Z) (a : A) : zlen data = 0 -> data = [] /\ at_end data a = Some a.
Proof. intros L. split; [apply nil_length_inv; lia|]. unfold at_end. by rewrite L. Qed.

Lemma cbc_loop_ok n iv data : 16 <= zlen iv -> Forall is_u8 iv -> zlen data = 16 * Z.of_nat n -> Forall is_u8 data ->
  exists iv' c, cbcenc_loop ctx iv data n = Some (iv', c) /\
  zlen c = zlen data /\ Forall is_u8 c /\ 16 <= zlen iv' /\ Forall is_u8 iv' /\ cbcdec_loop ctx iv c n = Some (iv', data).
Proof.
  revert iv data. induction n as [|n IH]; intros iv data Liv Biv L B; cbn [cbcenc_loop].
  - destruct (at_end_nil data (iv, @nil Z) ltac:(lia)) as [-> ->]. by exists iv, [].
  - destruct (whole_blocks_cons n data L B) as (Hb & Lr & Br).
    destruct (xorbuf_block _ iv Hb Liv Biv) as [Hx Hxx]. destruct (aes_block key _ Hkey Hx) as (He & _ & Hd).
    set (c0 := aes_encrypt ctx _) in *.
    destruct (IH c0 (zdrop 16 data) ltac:(destruct He; lia) (proj2 He) Lr Br) as (iv' & c & Ec & Lc & Bc & Li & Bi & E).
    rewrite Ec. cbn [mbind option_bind]. exists iv', (c0 ++ c). split; [done|].
    split; [rewrite zlen_app, Lc, (proj1 He); lia|]. split; [apply Forall_app; split; [by apply He|done]|].
    split; [done|]. split; [done|]. cbn [cbcdec_loop]. destruct (block_app c0 c He) as [-> ->]. rewrite E. cbn [mbind option_bind].
    rewrite Hd, Hxx. by rewrite ztake_zdrop.
Qed.
(** Decryption of any bytes: it is defined on whole blocks. *)
Lemma cbcdec_loop_ok n iv data : 16 <= zlen iv -> Forall is_u8 iv -> zlen data = 16 * Z.of_nat n -> Forall is_u8 data ->
  exists iv' d, cbcdec_loop ctx iv data n = Some (iv', d) /\ zlen d = zlen data /\ Forall is_u8 d /\ 16 <= zlen iv' /\ Forall is_u8 iv'.
Proof.
  revert iv data. induction n as [|n IH]; intros iv data Liv Biv L B; cbn [cbcdec_loop].
  - destruct (at_end_nil data (iv, @nil Z) ltac:(lia)) as [-> ->]. by exists iv, [].
  - destruct (whole_blocks_cons n data L B) as (Hb & Lr & Br). destruct (aes_block key _ Hkey Hb) as (_ & Hd & _).
    destruct (xorbuf_block _ iv Hd Liv Biv) as [Hx _].
    destruct (IH (ztake 16 data) (zdrop 16 data) ltac:(destruct Hb; lia) (proj2 Hb) Lr Br) as (iv' & d & -> & Ld & Bd & Li & Bi).
    cbn [mbind option_bind]. eexists iv', _. split; [reflexivity|].
    split; [rewrite zlen_app, Ld, (proj1 Hx); lia|]. split; [apply Forall_app; split; [by apply Hx|done]|done].
Qed.
Lemma cbcdec_loop_partial n iv data : 16 * Z.of_nat n < zlen data < 16 * Z.of_nat n + 16 -> cbcdec_loop ctx iv data n = None.
Proof.
  revert iv data. induction n as [|n IH]; intros iv data L; cbn [cbcdec_loop].
  - unfold at_end. by rewrite (proj2 (Z.eqb_neq _ _)) by lia.
  - by rewrite IH by (rewrite zlen_zdrop; lia).
Qed.
(** Another IV for the decryption shows in the first block only. *)
Lemma cbcdec_loop_iv n iv iv2 c iv' data : 16 <= zlen iv -> 16 <= zlen iv2 ->
  zlen c = 16 * Z.of_nat n -> Forall is_u8 c -> Forall is_u8 iv -> Forall is_u8 iv2 -> cbcdec_loop ctx iv c n = Some (iv', data) ->
  exists iv2' d, cbcdec_loop ctx iv2 c n = Some (iv2', d) /\ zdrop 16 d = zdrop 16 data.
Proof.
  intros Liv Liv2 L B Biv Biv2 E. destruct n as [|n].
  - cbn [cbcdec_loop] in *. destruct (at_end_nil c (iv, @nil Z) ltac:(lia)) as [-> E']. injection (eq_trans (eq_sym E') E) as _ <-.
    by exists iv2, [].
  - destruct (whole_blocks_cons n c L B) as (Hb & Lr & Br). destruct (aes_block key _ Hkey Hb) as (_ & Hd & _).
    destruct (xorbuf_block _ iv Hd Liv Biv) as [Hx _]. destruct (xorbuf_block _ iv2 Hd Liv2 Biv2) as [Hy _].
    cbn [cbcdec_loop] in *. destruct (cbcdec_loop ctx (ztake 16 c) (zdrop 16 c) n) as [[iv1 rest]|]; [|done].
    cbn [mbind option_bind] in *. injection E as <- <-. eexists iv1, _. split; [reflexivity|].
    by rewrite (proj2 (block_app _ _ Hx)), (proj2 (block_app _ _ Hy)).
Qed.
End aes.

#[export] Program Instance aes_cbc : CbcCipher 16 aes_init aes_init br_aes_small_cbcdec_run br_aes_small_cbcenc_run :=
  {| cbc_key := aes_key |}.
Next Obligation. by right. Qed.
Next Obligation.
  intros key iv data Hkey Liv Biv B. unfold br_aes_small_cbcdec_run. pose proof (Z.div_mod (zlen data) 16 ltac:(lia)).
  pose proof (Z.mod_pos_bound (zlen data) 16 ltac:(lia)). pose proof (Z.div_pos (zlen data) 16 ltac:(lia) ltac:(lia)).
  destruct (Z.eqb_spec (zlen data mod 16) 0) as [E|E].
  - by apply cbcdec_loop_ok; [| | |lia|].
  - apply cbcdec_loop_partial. lia.
Qed.
Next Obligation.
  intros key iv iv2 data Hkey Liv Biv Liv2 Biv2 B Hm.
  unfold br_aes_small_cbcenc_run, br_aes_small_cbcdec_run in *. pose proof (Z.div_mod (zlen data) 16 ltac:(lia)).
  pose proof (Z.div_pos (zlen data) 16 ltac:(lia) ltac:(lia)).
  set (n := Z.to_nat (zlen data / 16)) in *. assert (zlen data = 16 * Z.of_nat n) as L by lia.
  destruct (cbc_loop_ok key Hkey n iv data Liv Biv L B) as (iv' & c & Ec & Lc & Bc & Li & Bi & E).
  destruct (cbcdec_loop_ok key Hkey n iv2 c Liv2 Biv2 ltac:(lia) Bc) as (iv2' & d & Ed & Ld & Bd & Li2 & Bi2).
  destruct (cbcdec_loop_iv key Hkey n iv iv2 c iv' data Liv Liv2 ltac:(lia) Bc Biv Biv2 E) as (iv3 & d' & Ed' & Hz).
  injection (eq_trans (eq_sym Ed) Ed') as <- <-.
  exists iv', c, iv2', d. rewrite Lc. fold n. do 6 (split; [done|]). split; [lia|]. do 4 (split; [done|]).
  intros ->. rewrite E in Ed. by injection Ed as <- <-.
Qed.
