(* ===== verification/RecCbcSpec.v ===== *)
(** * RecCbcSpec: CBC records are opened as RFC 5246 says, and those that are made open

    The steps of [cbc_open] one after the other: the padding, the extraction of the
    MAC in one pass with a rotation, the comparison; then the fragments on the output
    side.  [CbcCipher] is what is asked of the block cipher. *)
From S2P Require Import Prelude.
From S2P Require Import Words.
From S2P Require Import Engine.
From S2P Require Import EngineSpec.
From S2P Require Import RecordLink.
From S2P Require Import Hash.
From S2P Require Import HashSpec.
From S2P Require Import Hmac.
From S2P Require Import HmacCt.
From S2P Require Import RecCbc.
From S2P Require Import Aes.
From S2P Require Import AesSpec.
From S2P Require Import AesModes.

From Stdlib Require Import Btauto.

(** ** Arrays and flags *)

Lemma zget_ext l m : zlen l = zlen m -> (forall i, 0 <= i < zlen l -> zget l i = zget m i) -> l = m.
Proof.
  intros L E. apply nth_ext with (d := 0) (d' := 0); [lia|]. intros i Hi. specialize (E (Z.of_nat i) ltac:(lia)).
  unfold zget in E. by rewrite Nat2Z.id in E.
Qed.
Lemma zget_replicate n x i : 0 <= i < Z.of_nat n -> zget (replicate n x) i = x.
Proof.
  intros Hi. assert (replicate n x !! Z.to_nat i = Some x) as E by (apply lookup_replicate_2; lia).
  apply zget_lookup in E. by rewrite Z2Nat.id in E by lia.
Qed.
Lemma zget_ztake n l i : 0 <= i < n -> n <= zlen l -> zget (ztake n l) i = zget l i.
Proof. intros. exact (zget_zslice l 0 n i ltac:(lia) ltac:(lia) ltac:(lia)). Qed.
(** One byte stored. *)
Lemma zget_store l o x i : 0 <= o < zlen l -> 0 <= i -> zget (zblit l o [x]) i = if i =? o then x else zget l i.
Proof.
  intros Ho Hi. unfold zblit. assert (zlen (ztake o l) = o) as Lo by (apply zlen_ztake; lia).
  destruct (Z.eqb_spec i o) as [->|Hne].
  - rewrite zget_app_r, Lo, Z.sub_diag by lia. done.
  - destruct (Z.lt_ge_cases i o).
    + rewrite zget_app_l by lia. apply zget_ztake; lia.
    + rewrite zget_app_r, Lo by lia. cbn [app]. change (zlen [x]) with 1.
      rewrite <- (ztake_zdrop (o + 1) l) at 2. rewrite (zget_app_r (ztake _ _)) by (rewrite zlen_ztake; lia).
      rewrite zlen_ztake by lia. unfold zget at 1. replace (Z.to_nat (i - o)) with (S (Z.to_nat (i - (o + 1)))) by lia. done.
Qed.
(** A prefix overwritten. *)
Lemma zget_prefix l m i : 0 <= i < zlen m -> zget (zblit l 0 m) i = zget m i.
Proof. intros. unfold zblit. rewrite (ztake_le0 0 l) by lia. cbn [app]. apply zget_app_l. lia. Qed.
Lemma ztake_prefix (l m : list Z) n : 0 <= n <= zlen m -> ztake n (zblit l 0 m) = ztake n m.
Proof. intros. unfold zblit. rewrite (ztake_le0 0 l) by lia. cbn [app]. apply ztake_app_le. lia. Qed.

Lemma land_b2z a b : Z.land (b2z a) (b2z b) = b2z (a && b).
Proof. by destruct a, b. Qed.
Lemma zget_u8 l i : Forall is_u8 l -> 0 <= zget l i < 256.
Proof. intros. by apply is_u8_zget. Qed.

(** ** The padding *)

Lemma padding_check_spec buf pad_len len min_len max_len g : Forall is_u8 buf -> is_u8 pad_len -> is_u32 len ->
  0 <= min_len -> max_len < 2 ^ 32 ->
  padding_check buf pad_len len min_len max_len (b2z g) =
    b2z (g && forallb (fun u => (u <? len) || (zget buf u =? pad_len)) (seqZ min_len (max_len - min_len))).
Proof.
  intros Hb Hp Hl H0 H1. unfold padding_check.
  assert (Forall (fun u => is_u32 u) (seqZ min_len (max_len - min_len))) as Hs.
  { apply Forall_forall. intros u Hu. apply elem_of_seqZ in Hu. unfold is_u32. lia. }
  revert g. induction Hs as [|u us Hu Hus IH]; intros g; [by rewrite andb_true_r|]. cbn [fold_left forallb].
  pose proof (zget_u8 buf u Hb). unfold is_u8, is_u32 in *.
  rewrite LT_spec, EQ_spec, b2z_lor, land_b2z, IH by lia. by rewrite andb_assoc.
Qed.

(** The test covers all that lies between the length found and the end. *)
Lemma padding_check_slice buf pad_len len min_len max_len : Forall is_u8 buf -> 0 <= min_len <= len ->
  len <= max_len <= zlen buf ->
  forallb (fun u => (u <? len) || (zget buf u =? pad_len)) (seqZ min_len (max_len - min_len)) =
  bool_decide (zslice buf len (max_len - len) = replicate (Z.to_nat (max_len - len)) pad_len).
Proof.
  intros Hb Hm Hl. apply eq_true_iff_eq. rewrite bool_decide_eq_true, forallb_seqZ. split.
  - intros H. apply zget_ext; [rewrite zlen_zslice, length_replicate; lia|]. rewrite zlen_zslice by lia.
    intros i Hi. rewrite zget_zslice, zget_replicate by lia.
    specialize (H (len + i) ltac:(lia)). cbv beta in H. lia.
  - intros H u Hu. destruct (Z.ltb_spec u len); [done|]. cbn [orb].
    apply (f_equal (fun l => zget l (u - len))) in H. rewrite zget_zslice, zget_replicate in H by lia.
    replace (len + (u - len)) with u in H by lia. lia.
Qed.

(** ** The extraction of the MAC *)

Section extract.
Context (buf : list Z) (mac_len nomac min_len max_len : Z).
Context (Hbuf : Forall is_u8 buf) (Hmac : 0 < mac_len <= 64) (Hno : 0 <= min_len <= nomac)
  (Hmax : nomac + mac_len <= max_len) (H32 : max_len < 2 ^ 32).
Let rot := (nomac - min_len) mod mac_len.
Notation step := (extract_step buf mac_len nomac (nomac + mac_len)).

Lemma rot_range : 0 <= rot < mac_len.
Proof. apply Z.mod_pos_bound. lia. Qed.
Lemma rot_inj i j : 0 <= i < mac_len -> 0 <= j < mac_len -> (rot + i) mod mac_len = (rot + j) mod mac_len -> i = j.
Proof.
  intros Hi Hj E. pose proof (Z.div_mod (rot + i) mac_len ltac:(lia)). pose proof (Z.div_mod (rot + j) mac_len ltac:(lia)).
  assert (mac_len * ((rot + i) / mac_len - (rot + j) / mac_len) = i - j) as Hd by lia.
  revert Hd. generalize ((rot + i) / mac_len - (rot + j) / mac_len). intros d Hd.
  assert (d = 0) as -> by nia. lia.
Qed.
Lemma next_mod k : 0 <= k -> (if k mod mac_len + 1 =? mac_len then 0 else k mod mac_len + 1) = (k + 1) mod mac_len.
Proof.
  intros Hk. pose proof (Z.div_mod k mac_len ltac:(lia)). pose proof (Z.mod_pos_bound k mac_len ltac:(lia)).
  destruct (Z.eqb_spec (k mod mac_len + 1) mac_len).
  - apply (Z.mod_unique _ _ (k / mac_len + 1)); lia.
  - apply (Z.mod_unique _ _ (k / mac_len)); lia.
Qed.

(** The MAC bytes met in the first [k] rounds are in [tmp1], turned by [rot]. *)
Definition extracted (k : Z) (s : list Z * Z * Z) : Prop :=
  let '(tmp1, rot_count, v) := s in
  zlen tmp1 = 64 /\ Forall is_u8 tmp1 /\ v = k mod mac_len /\
  rot_count = (if nomac <? min_len + k then rot else 0) /\
  forall i, 0 <= i < mac_len ->
    zget tmp1 ((rot + i) mod mac_len) = if nomac + i <? min_len + k then zget buf (nomac + i) else 0.

Lemma extract_step_ok k s : 0 <= k -> min_len + k < max_len -> extracted k s -> extracted (k + 1) (step s (min_len + k)).
Proof.
  destruct s as [[tmp1 rot_count] v]. intros Hk Hlt (L & Bt & -> & -> & Hget). unfold extract_step, extracted.
  set (u := min_len + k) in *. set (v := k mod mac_len) in *. pose proof rot_range.
  assert (0 <= v < mac_len) as Hv by (apply Z.mod_pos_bound; lia).
  pose proof (zget_u8 buf u Hbuf) as Hbu. pose proof (zget_u8 tmp1 v Bt) as Htv.
  rewrite GE_spec, LT_spec, EQ_spec, land_b2z by lia. rewrite MUX_spec by lia.
  rewrite (MUX_spec (u =? nomac)) by (repeat case_match; lia).
  set (x := if _ && _ then _ else _). assert (0 <= x < 256) as Hx by (subst x; case_match; lia).
  pose proof (lor_bound 8 (zget tmp1 v) x ltac:(lia) Htv Hx) as Hlor. rewrite (u8_small (Z.lor _ _)) by lia.
  split; [by rewrite zlen_zblit by (cbn [length]; lia)|].
  split; [apply Forall_zblit; [exact Bt|by apply Forall_singleton]|]. split; [by apply next_mod|].
  split; [replace (min_len + (k + 1)) with (u + 1) by lia; destruct (Z.eqb_spec u nomac) as [E|E]; repeat case_match; try lia;
          subst v rot; f_equal; lia|].
  intros i Hi. pose proof (Z.mod_pos_bound (rot + i) mac_len ltac:(lia)). rewrite zget_store by lia.
  replace (min_len + (k + 1)) with (u + 1) by lia. specialize (Hget i Hi). subst x.
  assert (0 <= u - nomac < mac_len -> v = (rot + (u - nomac)) mod mac_len) as Hpos.
  { intros _. subst v rot u. rewrite Z.add_mod_idemp_l by lia. f_equal. lia. }
  destruct (Z.eqb_spec ((rot + i) mod mac_len) v) as [E|E].
  - destruct ((nomac <=? u) && (u <? nomac + mac_len)) eqn:Hin.
    + apply andb_prop in Hin as [H1 H2]. rewrite Hpos in E by lia. apply rot_inj in E; [|lia..].
      rewrite (proj2 (Z.ltb_lt (nomac + i) (u + 1))) by lia. rewrite Hpos by lia. rewrite <- E, Hget.
      rewrite (proj2 (Z.ltb_ge (nomac + i) u)) by lia. rewrite Z.lor_0_l. f_equal. lia.
    + rewrite Z.lor_0_r, <- E, Hget. apply andb_false_iff in Hin.
      destruct (Z.ltb_spec (nomac + i) u); destruct (Z.ltb_spec (nomac + i) (u + 1)); (done || lia).
  - rewrite Hget. destruct (Z.ltb_spec (nomac + i) u); destruct (Z.ltb_spec (nomac + i) (u + 1)); try done; try lia.
    destruct E. rewrite Hpos by lia. f_equal. lia.
Qed.

Lemma extract_loop_ok (k : nat) : min_len + Z.of_nat k <= max_len ->
  extracted (Z.of_nat k) (fold_left step (seqZ min_len (Z.of_nat k)) (zeros 64, 0, 0)).
Proof.
  induction k as [|k IH]; intros Hk.
  - cbn [fold_left seqZ]. split; [done|]. split; [apply Forall_zeros|]. rewrite Z.mod_0_l by lia. split; [done|].
    assert (Z.of_nat 0 = 0) as -> by done. split; [rewrite (proj2 (Z.ltb_ge _ _)) by lia; done|]. intros i Hi.
    rewrite zget_zeros, (proj2 (Z.ltb_ge _ _)) by lia. done.
  - rewrite seqZ_S, fold_left_app. cbn [fold_left].
    replace (Z.of_nat (S k)) with (Z.of_nat k + 1) by lia. apply extract_step_ok; [lia..|]. apply IH. lia.
Qed.
End extract.

(** ** The rotation back *)

Section rotation.
Context (len : Z).

Lemma zlen_rotate_loop ctl buf n u v : zlen (rotate_loop ctl buf len n u v) = Z.of_nat n.
Proof. revert u v. induction n as [|n IH]; intros u v; [done|]. cbn [rotate_loop length]. rewrite Nat2Z.inj_succ, IH. lia. Qed.
Lemma rotate_loop_bytes ctl buf n u v : Forall is_u8 (rotate_loop ctl buf len n u v).
Proof. revert u v. induction n as [|n IH]; intros u v; constructor; [apply is_u8_u8|apply IH]. Qed.
Lemma zget_cons x l i : 0 <= i -> zget (x :: l) i = if i =? 0 then x else zget l (i - 1).
Proof.
  intros Hi. destruct (Z.eqb_spec i 0) as [->|]; [done|].
  unfold zget. by replace (Z.to_nat i) with (S (Z.to_nat (i - 1))) by lia.
Qed.
Lemma rotate_loop_get b buf n u v i : Forall is_u8 buf -> (b = true -> 0 <= v < len) -> 0 <= i < Z.of_nat n ->
  zget (rotate_loop (b2z b) buf len n u v) i = if b then zget buf ((v + i) mod len) else zget buf (u + i).
Proof.
  intros Hb. revert u v i. induction n as [|n IH]; intros u v i Hv Hi; [lia|]. cbn [rotate_loop]. rewrite zget_cons by lia.
  pose proof (zget_u8 buf u Hb). pose proof (zget_u8 buf v Hb). rewrite MUX_spec by lia.
  destruct (Z.eqb_spec i 0) as [->|Hne].
  - destruct b; rewrite u8_small, Z.add_0_r by lia; [|done]. by rewrite Z.mod_small by (by apply Hv).
  - rewrite IH; [|intros ->; case_match; lia|lia]. destruct b; [|f_equal; lia].
    specialize (Hv eq_refl). destruct (Z.eqb_spec (v + 1) len); f_equal; [|f_equal; lia].
    replace (v + i) with (0 + (i - 1) + 1 * len) by lia. by rewrite Z.mod_add by lia.
Qed.

(** [tmp'] is [tmp] with its first [len] bytes turned left by [r]. *)
Definition turned (r : Z) (tmp tmp' : list Z) : Prop :=
  zlen tmp' = zlen tmp /\ Forall is_u8 tmp' /\ forall i, 0 <= i < len -> zget tmp' i = zget tmp ((i + r) mod len).
Lemma cond_rotate_ok b tmp num : Forall is_u8 tmp -> 0 < len <= zlen tmp -> (b = true -> 0 <= num < len) ->
  turned (if b then num else 0) tmp (cond_rotate (b2z b) tmp len num).
Proof.
  intros Hb Hl Hn. unfold cond_rotate, turned. pose proof (zlen_rotate_loop (b2z b) tmp (Z.to_nat len) 0 num) as L.
  split; [apply zlen_zblit; lia|]. split; [by apply Forall_zblit, rotate_loop_bytes|]. intros i Hi.
  rewrite zget_prefix, rotate_loop_get by (done || lia). destruct b; [by rewrite Z.add_comm|].
  by rewrite Z.add_0_r, Z.mod_small by lia.
Qed.
Lemma turned_trans r s a b c : 0 < len -> turned r a b -> turned s b c -> turned (s + r) a c.
Proof.
  intros Hl (L & Bb & G) (L' & Bc & G'). split; [lia|]. split; [done|]. intros i Hi.
  rewrite G', G by (try apply Z.mod_pos_bound; lia). by rewrite Z.add_mod_idemp_l, Z.add_assoc by lia.
Qed.

Lemma rot_bits i r : 0 <= i < 6 -> 0 <= r < 2 ^ (i + 1) ->
  Z.shiftr r i = b2z (2 ^ i <=? r) /\
  Z.land r (u32 (Z.lnot (Z.shiftl 1 i))) = r - (if 2 ^ i <=? r then 2 ^ i else 0).
Proof.
  intros Hi Hr.
  assert (forallb (fun i => forallb (fun r => (Z.shiftr r i =? b2z (2 ^ i <=? r)) &&
    (Z.land r (u32 (Z.lnot (Z.shiftl 1 i))) =? r - (if 2 ^ i <=? r then 2 ^ i else 0))) (seqZ 0 (2 ^ (i + 1)))) (seqZ 0 6) = true)
    as H by (vm_compute; reflexivity).
  rewrite forallb_seqZ in H. specialize (H i ltac:(lia)). cbv beta in H.
  rewrite forallb_seqZ in H. specialize (H r ltac:(lia)). cbv beta in H.
  apply andb_prop in H as [H1 H2]. lia.
Qed.

Lemma rotate_back_ok tmp r : Forall is_u8 tmp -> 0 < len <= zlen tmp -> 0 <= r < len -> len <= 64 ->
  turned r tmp (rotate_back len tmp r).
Proof.
  intros Hb Hl Hr H64. unfold rotate_back. change [5; 4; 3; 2; 1; 0] with (rev (seqZ 0 (Z.of_nat 6))).
  assert (0 <= r < 2 ^ Z.of_nat 6) as Hlt by (change (2 ^ Z.of_nat 6) with 64; lia). revert Hlt.
  assert (Z.of_nat 6 <= 6) as H6 by lia. revert H6. generalize 6%nat as k. intros k. revert tmp r Hb Hl Hr.
  induction k as [|k IH]; intros tmp r Hb Hl Hr Hk Hlt.
  - cbn [seqZ rev fold_left fst]. change (2 ^ Z.of_nat 0) with 1 in Hlt. assert (r = 0) as -> by lia. split; [done|]. split; [done|].
    intros i Hi. by rewrite Z.add_0_r, Z.mod_small by lia.
  - rewrite seqZ_S, rev_app_distr. cbn [rev app fold_left]. rewrite Z.add_0_l.
    destruct (rot_bits (Z.of_nat k) r) as [-> ->]; [lia|by replace (Z.of_nat k + 1) with (Z.of_nat (S k)) by lia|].
    assert (2 ^ Z.of_nat (S k) = 2 * 2 ^ Z.of_nat k) as E by (rewrite Nat2Z.inj_succ; apply Z.pow_succ_r; lia).
    rewrite Z.shiftl_1_l. set (w := 2 ^ Z.of_nat k) in *.
    pose proof (cond_rotate_ok (w <=? r) tmp w Hb Hl ltac:(lia)) as Ht.
    set (r1 := if w <=? r then w else 0) in *. assert (0 <= r1 <= r) as Hr1 by (subst r1; case_match; lia).
    pose proof Ht as (L & B & _). assert (r = r - r1 + r1) as Er by lia. rewrite Er at 1.
    eapply turned_trans; [lia|exact Ht|]. apply IH; [done|lia|lia|lia|]. subst r1. case_match; lia.
Qed.
End rotation.

(** The MAC comes out of the pass and the rotation as it is in the record. *)
Lemma extract_mac_ok buf mac_len nomac min_len max_len : Forall is_u8 buf -> 0 < mac_len <= 64 -> 0 <= min_len <= nomac ->
  nomac + mac_len <= max_len -> max_len <= zlen buf -> max_len < 2 ^ 32 ->
  let tmp1 := extract_mac buf mac_len nomac (nomac + mac_len) min_len max_len in
  zlen tmp1 = 64 /\ Forall is_u8 tmp1 /\ ztake mac_len tmp1 = zslice buf nomac mac_len.
Proof.
  intros Hb Hm Hno Hmax Hl H32 tmp. subst tmp. unfold extract_mac.
  pose proof (extract_loop_ok buf mac_len nomac min_len max_len Hb Hm Hno Hmax H32 (Z.to_nat (max_len - min_len)) ltac:(lia)) as H.
  rewrite Z2Nat.id in H by lia. destruct (fold_left _ _ _) as [[tmp1 rot_count] v]. destruct H as (L & B & _ & -> & G).
  rewrite (proj2 (Z.ltb_lt _ _)) by lia. set (rot := (nomac - min_len) mod mac_len) in *.
  assert (0 <= rot < mac_len) as Hrot by (apply Z.mod_pos_bound; lia).
  destruct (rotate_back_ok mac_len tmp1 rot B ltac:(lia) Hrot ltac:(lia)) as (L' & B' & G').
  split; [lia|]. split; [done|].
  apply zget_ext; [rewrite zlen_ztake, zlen_zslice by lia; done|]. rewrite zlen_ztake by lia. intros i Hi.
  rewrite zget_ztake, zget_zslice, G' by lia. rewrite Z.add_comm, G by lia. by rewrite (proj2 (Z.ltb_lt _ _)) by lia.
Qed.

(** ** The comparison *)

Lemma mac_check_spec mac_len t1 t2 g : Forall is_u8 t1 -> Forall is_u8 t2 -> 0 <= mac_len -> mac_len <= zlen t1 ->
  mac_len <= zlen t2 -> mac_check mac_len t1 t2 (b2z g) = b2z (g && bool_decide (ztake mac_len t1 = ztake mac_len t2)).
Proof.
  intros B1 B2 H0 H1 H2. unfold mac_check.
  transitivity (b2z (g && forallb (fun u => zget t1 u =? zget t2 u) (seqZ 0 mac_len))).
  - generalize (seqZ 0 mac_len) as us. intros us. revert g. induction us as [|u us IH]; intros g; [by rewrite andb_true_r|].
    cbn [fold_left forallb]. pose proof (zget_u8 t1 u B1). pose proof (zget_u8 t2 u B2).
    rewrite EQ0_spec, land_b2z, IH.
    + rewrite andb_assoc. do 3 f_equal. apply eq_true_iff_eq. rewrite !Z.eqb_eq. apply Z.lxor_eq_0_iff.
    + pose proof (lxor_bound 8 (zget t1 u) (zget t2 u) ltac:(lia) ltac:(done) ltac:(done)). unfold is_i32. lia.
  - do 2 f_equal. apply eq_true_iff_eq. rewrite bool_decide_eq_true, forallb_seqZ. split.
    + intros H. apply zget_ext; rewrite !zlen_ztake by lia; [done|]. intros i Hi. rewrite !zget_ztake by lia.
      specialize (H i ltac:(lia)). cbv beta in H. lia.
    + intros H u Hu.
      apply (f_equal (fun l => zget l u)) in H. rewrite !zget_ztake in H by lia. lia.
Qed.

(** ** Opening, as RFC 5246 describes it *)

(** Section 6.2.3.2: the content, its MAC, and [pad + 1] bytes equal to [pad]; the
    length of the content of the payload [p]. *)
Definition tls_cbc_open (mac : list Z -> list Z) (mac_len seq t v : Z) (p : list Z) : option Z :=
  let pad := zget p (zlen p - 1) in
  let n := zlen p - (pad + 1) - mac_len in
  if (0 <=? n) && bool_decide (zslice p (n + mac_len) (pad + 1) = replicate (Z.to_nat (pad + 1)) pad) &&
     bool_decide (zslice p n mac_len = mac (record_ad seq t v n ++ ztake n p)) && (n <=? 16384)
  then Some n else None.

(** The last byte of the padding is its own witness. *)
Lemma padding_last p n pad : 0 <= n -> n < zlen p -> pad = zget p (zlen p - 1) ->
  (zslice p n (zlen p - n) = replicate (Z.to_nat (zlen p - n)) pad <->
   zslice p n (zlen p - 1 - n) = replicate (Z.to_nat (zlen p - 1 - n)) pad).
Proof.
  intros H0 H1 ->. replace (zlen p - n) with (zlen p - 1 - n + 1) by lia. rewrite <- zslice_app by lia.
  replace (n + (zlen p - 1 - n)) with (zlen p - 1) by lia.
  assert (zslice p (zlen p - 1) 1 = [zget p (zlen p - 1)]) as ->.
  { apply zget_ext; [rewrite zlen_zslice by lia; done|]. rewrite zlen_zslice by lia. intros i Hi.
    rewrite zget_zslice by lia. assert (i = 0) as -> by lia. by rewrite Z.add_0_r. }
  rewrite Z2Nat.inj_add by lia. rewrite replicate_add. split; [|by intros ->].
  intros E. by apply app_inj_2 in E as [E _].
Qed.

Section opening.
Context `{P : PaddingLaws dig H}.
Context (stk : br_hmac_context dig) (Hstk : hash_storage (hdig stk)).
Context (kc : br_hmac_key_context) (K : list Z) (mac_len : Z).
Context (HK : key_ok kc K) (Hml : 0 < mac_len <= br_digest_size dig).
Notation tls_mac m := (ztake mac_len (HMAC H (block_size dig) K m)).

Lemma olen_eq : (if (0 <? mac_len) && (mac_len <? br_digest_size dig) then mac_len else br_digest_size dig) = mac_len.
Proof. case_match; lia. Qed.
Lemma tls_mac_ok m : zlen (tls_mac m) = mac_len /\ Forall is_u8 (tls_mac m).
Proof.
  split; [apply zlen_ztake; rewrite HMAC_size; lia|]. apply Forall_ztake, HMAC_bytes.
Qed.

Lemma zlen_record_ad q t v len : zlen (record_ad q t v len) = 13.
Proof. done. Qed.

Lemma cbc_open_ok seq t v p : Forall is_u8 p -> mac_len < zlen p < 2 ^ 30 ->
  (let '(good, n) := cbc_open dig stk kc mac_len seq t v p in if good =? 0 then None else Some n) =
  tls_cbc_open (fun m => tls_mac m) mac_len seq t v p.
Proof.
  intros Hp Hl. pose proof law_block as Hbl. unfold cbc_open, tls_cbc_open.
  rewrite (u32_small (zlen p)), (u32_small (zlen p - 1)) by lia. cbv zeta.
  set (min_len := if _ <? _ then _ else _). set (pad := zget p (zlen p - 1)).
  pose proof (zget_u8 p (zlen p - 1) Hp) as Hpad. fold pad in Hpad.
  assert (mac_len <= min_len <= zlen p - 1 /\
    (pad <=? zlen p - 1 - min_len) = (0 <=? zlen p - (pad + 1) - mac_len)) as [Hmin Hgood].
  { subst min_len. destruct (Z.ltb_spec (mac_len + 256) (zlen p)); rewrite u32_small by lia; lia. }
  clearbody min_len.
  rewrite (u32_small (zlen p - 1 - min_len)), LE_spec, Hgood by lia.
  set (g := 0 <=? zlen p - (pad + 1) - mac_len) in *.
  set (n := if g then zlen p - (pad + 1) - mac_len else min_len - mac_len).
  assert (MUX (b2z g) (u32 (zlen p - 1 - pad)) min_len = n + mac_len) as ->.
  { rewrite MUX_spec by (try lia; apply u32_range). subst n. destruct g eqn:Hg; [|lia]. rewrite u32_small by lia. lia. }
  assert (min_len - mac_len <= n <= zlen p - 1 - mac_len) as Hn by (subst n; destruct g eqn:Hg; lia).
  rewrite (u32_small (n + mac_len - mac_len)), (u32_small (min_len - mac_len)), (u32_small (zlen p - 1 - mac_len)) by lia.
  replace (n + mac_len - mac_len) with n by lia.
  rewrite padding_check_spec by (done || unfold is_u8, is_u32; lia).
  rewrite (padding_check_slice p pad (n + mac_len) min_len (zlen p - 1)) by (done || lia).
  destruct (extract_mac_ok p mac_len n (min_len - mac_len) (zlen p - 1) Hp ltac:(lia) ltac:(lia) ltac:(lia) ltac:(lia) ltac:(lia))
    as (L1 & B1 & E1). set (tmp1 := extract_mac _ _ _ _ _ _) in *.
  rewrite ztake_app_le, (ztake_ge 13 (record_ad _ _ _ _)) by (by rewrite zlen_record_ad).
  pose proof (hmac_init_ok stk kc K mac_len Hstk HK) as Hf.
  apply (hmac_update_ok K mac_len _ [] (record_ad seq t v n)) in Hf; [|cbn [app]; rewrite zlen_record_ad; lia].
  rewrite (outCT_ok K mac_len _ _ p n _ _ Hf) by (done || (cbn [app]; rewrite ?zlen_record_ad; lia)).
  destruct Hf as (_ & _ & ->). rewrite olen_eq. cbn [app]. set (m := record_ad seq t v n ++ ztake n p).
  destruct (tls_mac_ok m) as [L2 B2].
  rewrite mac_check_spec;
    [|done|apply Forall_zblit; [apply Forall_app; split; [apply record_ad_bytes|apply Forall_zeros]|done]|lia|lia|
      rewrite zlen_zblit; rewrite ?zlen_app, ?zlen_record_ad, ?zlen_zeros; lia].
  rewrite ztake_prefix, (ztake_ge mac_len (tls_mac m)), E1, LE_spec, land_b2z by lia.
  assert (forall b : bool, (if b2z b =? 0 then None else Some n) = if b then Some n else None) as -> by (by intros []).
  destruct g eqn:Hg; [|done]. subst n. set (n := zlen p - (pad + 1) - mac_len) in *. subst m. cbn [andb].
  pose proof (padding_last p (n + mac_len) pad ltac:(lia) ltac:(lia) eq_refl) as E.
  replace (zlen p - (n + mac_len)) with (pad + 1) in E by lia. by rewrite (bool_decide_ext _ _ E).
Qed.
End opening.

(** ** Lengths *)

Section lengths.
Context (blen : Z) (Hblen : blen = 8 \/ blen = 16).

Lemma whole_blocks_eq x : 0 <= x < 2 ^ 63 -> whole_blocks blen x = x - x mod blen.
Proof.
  intros Hx. unfold whole_blocks. pose proof (Z.mod_pos_bound x blen ltac:(lia)) as Hm.
  assert (exists k, 0 <= k <= 4 /\ blen = 2 ^ k) as (k & Hk & ->) by (destruct Hblen as [-> | ->]; [by exists 3|by exists 4]).
  assert (Z.land x (2 ^ k - 1) = x mod 2 ^ k) as E by (rewrite Z.sub_1_r, <- Z.ones_equiv; apply Z.land_ones; lia).
  rewrite <- E in *. apply Z.bits_inj'. intros n Hn. rewrite Z.land_spec. unfold u64.
  assert (x - Z.land x (2 ^ k - 1) = Z.ldiff x (2 ^ k - 1)) as ->.
  { rewrite Z.sub_nocarry_ldiff; [|apply Z.bits_inj'; intros m _; rewrite Z.ldiff_spec, Z.land_spec, Z.bits_0; btauto].
    apply Z.bits_inj'. intros m _. rewrite !Z.ldiff_spec, Z.land_spec. btauto. }
  rewrite Z.ldiff_spec. destruct (Z.lt_ge_cases n 64).
  - rewrite Z.mod_pow2_bits_low, Z.lnot_spec by lia. done.
  - rewrite (Z.bits_above_log2 x n); [done|lia|]. destruct (Z.eq_dec x 0) as [->|]; [change (Z.log2 0) with 0; lia|].
    apply Z.log2_lt_pow2; [lia|]. pose proof (Z.pow_le_mono_r 2 63 n). lia.
Qed.
(** What [len] bytes of content take, with the MAC and the padding. *)
Definition sealed (mac_len len : Z) : Z := whole_blocks blen (len + mac_len + blen).
Lemma sealed_spec mac_len len : 0 <= mac_len <= 64 -> 0 <= len < 2 ^ 62 ->
  sealed mac_len len mod blen = 0 /\ len + mac_len < sealed mac_len len <= len + mac_len + blen /\
  blen -! Z.land (len + mac_len) (blen -! 1) = sealed mac_len len - (len + mac_len).
Proof.
  intros Hm Hl. unfold sealed. rewrite whole_blocks_eq by lia. set (x := len + mac_len).
  replace (x + blen) with (x + 1 * blen) by lia. rewrite Z.mod_add by lia. pose proof (Z.mod_pos_bound x blen ltac:(lia)).
  split; [|split; [lia|]].
  - replace (x + 1 * blen - x mod blen) with ((x / blen + 1) * blen); [by apply Z.mod_mul; lia|].
    pose proof (Z.div_mod x blen ltac:(lia)). lia.
  - rewrite (szsub_small blen 1) by lia.
    assert (Z.land x (blen - 1) = x mod blen) as ->.
    { destruct Hblen as [-> | ->]; [apply (Z.land_ones x 3)|apply (Z.land_ones x 4)]; lia. }
    rewrite szsub_small by lia. lia.
Qed.
(** A multiple of the block size that holds content, MAC and a byte of padding holds the rest. *)
Lemma sealed_le mac_len len w : 0 <= mac_len <= 64 -> 0 <= len < 2 ^ 62 -> w mod blen = 0 -> len + mac_len < w ->
  sealed mac_len len <= w.
Proof.
  intros Hm Hl Hw Hlt. destruct (sealed_spec mac_len len Hm Hl) as (E & B & _).
  pose proof (Z.div_mod w blen ltac:(lia)). pose proof (Z.div_mod (sealed mac_len len) blen ltac:(lia)). nia.
Qed.
Lemma check_length_eq {bd} (cc : @br_sslrec_in_cbc_context bd) rlen : 0 <= in_mac_len cc <= 64 ->
  cbc_check_length blen cc rlen =
    ((if in_explicit cc then blen else 0) + sealed (in_mac_len cc) 0 <=? rlen) &&
    (rlen <=? (if in_explicit cc then blen else 0) + whole_blocks blen (16640 + in_mac_len cc)).
Proof.
  intros Hm. unfold cbc_check_length, sealed. rewrite (szadd_small blen), (szadd_small (16384 + 256)) by lia.
  replace (0 + in_mac_len cc + blen) with (blen + in_mac_len cc) by lia. change (16384 + 256) with 16640.
  assert (0 <= whole_blocks blen (blen + in_mac_len cc) <= 80 /\ 0 <= whole_blocks blen (16640 + in_mac_len cc) <= 16704) as [B1 B2].
  { rewrite !whole_blocks_eq by lia. pose proof (Z.mod_pos_bound (blen + in_mac_len cc) blen ltac:(lia)).
    pose proof (Z.mod_pos_bound (16640 + in_mac_len cc) blen ltac:(lia)).
    pose proof (Z.mod_le (blen + in_mac_len cc) blen). pose proof (Z.mod_le (16640 + in_mac_len cc) blen). lia. }
  destruct (in_explicit cc); [rewrite !szadd_small by lia; f_equal; f_equal; lia|done].
Qed.
Lemma check_length_sealed {bd} (cc : @br_sslrec_in_cbc_context bd) len : 0 <= in_mac_len cc <= 64 -> 0 <= len <= 16384 ->
  cbc_check_length blen cc ((if in_explicit cc then blen else 0) + sealed (in_mac_len cc) len) = true.
Proof.
  intros Hm Hl. rewrite check_length_eq by done. set (ml := in_mac_len cc) in *.
  destruct (sealed_spec ml len Hm ltac:(lia)) as (M & S & _).
  pose proof (sealed_le ml 0 (sealed ml len) Hm ltac:(lia) M ltac:(lia)).
  assert (whole_blocks blen (16640 + ml) mod blen = 0 /\ 16640 + ml - blen < whole_blocks blen (16640 + ml)) as [Mw Sw].
  { replace (16640 + ml) with (16640 + ml - blen + blen) by lia.
    destruct (sealed_spec ml (16640 - blen) Hm ltac:(lia)) as (M' & S' & _). unfold sealed in M', S'.
    replace (16640 - blen + ml + blen) with (16640 + ml - blen + blen) in * by lia. split; [done|lia]. }
  pose proof (sealed_le ml len _ Hm ltac:(lia) Mw ltac:(lia)). lia.
Qed.
End lengths.

(** ** What is sealed opens *)

Lemma tls_cbc_open_sealed mac mac_len seq t v x plen m : m = mac (record_ad seq t v (zlen x) ++ x) ->
  zlen m = mac_len -> 0 < plen <= 256 -> zlen x <= 16384 ->
  tls_cbc_open mac mac_len seq t v (x ++ m ++ replicate (Z.to_nat plen) (plen - 1)) = Some (zlen x).
Proof.
  intros Em Lm Hp Hx. set (r := replicate _ _). assert (zlen r = plen) as Lr by (unfold r; rewrite length_replicate; lia).
  unfold tls_cbc_open. set (p := x ++ m ++ r). assert (zlen p = zlen x + mac_len + plen) as Lp by (unfold p; rewrite !zlen_app; lia).
  assert (zget p (zlen p - 1) = plen - 1) as ->.
  { unfold p at 1. rewrite !zget_app_r by (rewrite ?zlen_app; lia). unfold r. rewrite zget_replicate by lia. done. }
  replace (zlen p - (plen - 1 + 1) - mac_len) with (zlen x) by lia. replace (plen - 1 + 1) with plen by lia.
  assert (zslice p (zlen x) mac_len = m) as ->.
  { unfold p. rewrite zslice_app_r, Z.sub_diag, zslice_app_l by lia. rewrite <- Lm. apply zslice_all. }
  assert (zslice p (zlen x + mac_len) plen = r) as ->.
  { unfold p. rewrite zslice_app_r, zslice_app_r by lia. replace (zlen x + mac_len - zlen x - zlen m) with 0 by lia.
    rewrite <- Lr. apply zslice_all. }
  assert (ztake (zlen x) p = x) as -> by (unfold p; rewrite ztake_app_le by lia; apply ztake_ge; lia).
  rewrite <- Em, !bool_decide_true by done. rewrite (proj2 (Z.leb_le 0 _)), (proj2 (Z.leb_le _ 16384)) by lia. done.
Qed.

Lemma put_record_frame buf p t v n body o k : 0 <= p -> p + 5 + zlen body <= zlen buf -> 0 <= o -> 0 <= k ->
  o + k <= p \/ p + 5 + zlen body <= o -> o + k <= zlen buf -> zslice (put_record buf p t v n body) o k = zslice buf o k.
Proof.
  intros Hp Hl Ho Hk Hd Hb. unfold put_record. set (b1 := zblit buf (p + 5) body).
  assert (zlen b1 = zlen buf) as L1 by (apply zlen_zblit; lia).
  set (b2 := zblit b1 p (u8 t :: br_enc16be v)).
  assert (zlen b2 = zlen buf) as L2 by (rewrite <- L1; apply zlen_zblit; simpl length; lia).
  destruct Hd.
  - rewrite zslice_zblit_before by (simpl length; lia). unfold b2. rewrite zslice_zblit_before by (simpl length; lia).
    unfold b1. by rewrite zslice_zblit_before by lia.
  - rewrite zslice_zblit_after by (simpl length; lia). unfold b2. rewrite zslice_zblit_after by (simpl length; lia).
    unfold b1. by rewrite zslice_zblit_after by lia.
Qed.

(** Two pieces written behind the content. *)
Lemma two_blits buf off len m r : 0 <= off -> 0 <= len -> off + len + zlen m + zlen r <= zlen buf -> Forall is_u8 buf ->
  Forall is_u8 m -> Forall is_u8 r ->
  let buf2 := zblit (zblit buf (off + len) m) (off + (len + zlen m)) r in
  zlen buf2 = zlen buf /\ Forall is_u8 buf2 /\
  zslice buf2 off (len + (zlen m + zlen r)) = zslice buf off len ++ m ++ r /\
  forall o k, 0 <= o -> 0 <= k -> o + k <= off + len \/ off + len + zlen m + zlen r <= o -> o + k <= zlen buf ->
    zslice buf2 o k = zslice buf o k.
Proof.
  intros Ho Hl Hb B Bm Br buf2. set (buf1 := zblit buf (off + len) m) in *.
  assert (zlen buf1 = zlen buf) as L1 by (apply zlen_zblit; lia).
  assert (zlen buf2 = zlen buf) as L2 by (rewrite <- L1; apply zlen_zblit; lia).
  split; [done|]. split; [by repeat apply Forall_zblit|]. split.
  - rewrite <- (zslice_app buf2 off len), <- (zslice_app buf2 (off + len) (zlen m)) by lia. f_equal; [|f_equal].
    + unfold buf2. rewrite zslice_zblit_before by lia. unfold buf1. by rewrite zslice_zblit_before by lia.
    + unfold buf2. rewrite zslice_zblit_before by lia. apply zslice_zblit_same; lia.
    + rewrite <- Z.add_assoc. apply zslice_zblit_same; lia.
  - intros o k Hok Hk [Hd|Hd] Hok2.
    + unfold buf2. rewrite zslice_zblit_before by lia. unfold buf1. by rewrite zslice_zblit_before by lia.
    + unfold buf2. rewrite zslice_zblit_after by lia. unfold buf1. by rewrite zslice_zblit_after by lia.
Qed.

Lemma zdrop_zslice (l : list Z) o n k : 0 <= o -> 0 <= k <= n -> o + n <= zlen l -> zdrop k (zslice l o n) = zslice l (o + k) (n - k).
Proof.
  intros Ho Hk Hl. replace n with (k + (n - k)) at 1 by lia. rewrite <- zslice_app by lia.
  assert (zlen (zslice l o k) = k) as L by (apply zlen_zslice; lia).
  rewrite zdrop_app_ge by lia. by rewrite L, Z.sub_diag, zdrop_0.
Qed.

(** ** Records *)

Section decrypting.
Context `{P : PaddingLaws dig H}.
Context (stk : br_hmac_context dig) (Hstk : hash_storage (hdig stk)).
Context (blen : Z) (Hb : blen = 8 \/ blen = 16) {bd : Type} (dec_run : bd -> list Z -> list Z -> option (list Z * list Z)).
Implicit Types (si : br_sslrec_in_cbc_context (bd := bd)).

(** What decryption and the checks make of a record of an acceptable length. *)
Lemma cbc_decrypt_ok si K t v data iv' d : key_ok (in_mac si) K -> 0 < in_mac_len si <= br_digest_size dig ->
  cbc_check_length blen si (zlen d) = true -> dec_run (in_bc si) (in_iv si) data = Some (iv', d) -> Forall is_u8 d ->
  let start := if in_explicit si then blen else 0 in
  cbc_decrypt blen dec_run dig stk si t v data =
    Some (InCbc (u64 (in_seq si + 1)) (in_bc si) (in_mac si) (in_mac_len si) iv' (in_explicit si), d,
     option_map (pair start) (tls_cbc_open (fun m => ztake (in_mac_len si) (HMAC H (block_size dig) K m))
       (in_mac_len si) (in_seq si) t v (zdrop start d))).
Proof.
  intros HK Hm Hc E B start. pose proof law_block. unfold cbc_decrypt. rewrite E. cbn [mbind option_bind]. fold start.
  rewrite check_length_eq in Hc by (done || lia). apply andb_prop in Hc as [H1 H2].
  destruct (sealed_spec blen Hb (in_mac_len si) 0 ltac:(lia) ltac:(lia)) as (_ & Hs & _).
  assert (whole_blocks blen (16640 + in_mac_len si) <= 16704).
  { rewrite whole_blocks_eq by lia. pose proof (Z.mod_pos_bound (16640 + in_mac_len si) blen ltac:(lia)). lia. }
  assert (0 <= start <= 16) by (unfold start; case_match; lia). fold start in H1, H2.
  rewrite <- (cbc_open_ok stk Hstk (in_mac si) K (in_mac_len si) HK Hm (in_seq si) t v (zdrop start d));
    [|by apply Forall_zdrop|rewrite zlen_zdrop by lia; lia].
  destruct (cbc_open _ _ _ _ _ _ _ _) as [good n]. by destruct (good =? 0).
Qed.

End decrypting.

Section records.
Context `{P : PaddingLaws dig H}.
Context (stk : br_hmac_context dig) (Hstk : hash_storage (hdig stk)).
Context {blen : Z} {bd be : Type} {dec_init : list Z -> bd} {enc_init : list Z -> be}.
Context {dec_run : bd -> list Z -> list Z -> option (list Z * list Z)} {enc_run : be -> list Z -> list Z -> option (list Z * list Z)}.
Context `{!CbcCipher blen dec_init enc_init dec_run enc_run}.
Implicit Types (so : br_sslrec_out_cbc_context (be := be)) (si : br_sslrec_in_cbc_context (bd := bd)).
Notation fragment := (cbc_fragment blen enc_run dig stk).
Notation cdecrypt := (cbc_decrypt blen dec_run dig stk).

(** Two contexts with the same keys, sequence number and, without explicit IVs, IV. *)
Definition cbc_linked so si : Prop :=
  exists key K, cbc_key key /\ out_bc so = enc_init key /\ in_bc si = dec_init key /\
    key_ok (out_mac so) K /\ key_ok (in_mac si) K /\
    0 < out_mac_len so <= br_digest_size dig /\ in_mac_len si = out_mac_len so /\ in_seq si = out_seq so /\
    in_explicit si = out_explicit so /\ blen <= zlen (out_iv so) /\ Forall is_u8 (out_iv so) /\
    blen <= zlen (in_iv si) /\ Forall is_u8 (in_iv si) /\ (out_explicit so = false -> in_iv si = out_iv so).

(** A record of [n] bytes of body at [p], that opens to [content]. *)
Definition record_opens (t v : Z) (buf : list Z) (p n : Z) (content : list Z) si (si' : br_sslrec_in_cbc_context (bd := bd)) : Prop :=
  exists body data' off, zlen body = n /\ Forall is_u8 body /\
    zslice buf p (5 + n) = record_header t v n ++ body /\ cbc_check_length blen si n = true /\
    cdecrypt si t v body = Some (si', data', Some (off, zlen content)) /\ zslice data' off (zlen content) = content.

(** The MAC and the padding are written so that the payload opens. *)
Lemma cbc_seal_ok so K t v buf off len : key_ok (out_mac so) K -> 0 < out_mac_len so <= br_digest_size dig ->
  Forall is_u8 buf -> zlen buf < 2 ^ 62 -> 0 <= len <= 16384 -> 0 <= off ->
  let n := sealed blen (out_mac_len so) len in
  off + n <= zlen buf ->
  exists buf', cbc_seal blen dig stk so t v buf off len = (buf', n) /\ zlen buf' = zlen buf /\ Forall is_u8 buf' /\
    tls_cbc_open (fun m => ztake (out_mac_len so) (HMAC H (block_size dig) K m)) (out_mac_len so) (out_seq so) t v
      (zslice buf' off n) = Some len /\
    zslice buf' off len = zslice buf off len /\
    forall o k, 0 <= o -> 0 <= k -> o + k <= off \/ off + n <= o -> o + k <= zlen buf -> zslice buf' o k = zslice buf o k.
Proof.
  intros Ko Hml B L62 Hlen Hoff n Hend. pose proof law_block as Hlb. pose proof cbc_blen as Hb.
  set (ml := out_mac_len so) in *. destruct (sealed_spec blen Hb ml len ltac:(lia) ltac:(lia)) as (_ & Slen & Splen).
  fold n in Slen, Splen. unfold cbc_seal. fold ml. set (content := zslice buf off len).
  assert (zlen content = len) as Lc by (apply zlen_zslice; lia). set (mac := br_hmac_out _ _ _).
  assert (mac = ztake ml (HMAC H (block_size dig) K (record_ad (out_seq so) t v len ++ content))) as Emac.
  { pose proof (hmac_init_ok stk _ K ml Hstk Ko) as Hf.
    apply (hmac_update_ok K ml _ [] (record_ad (out_seq so) t v len)) in Hf; [|cbn [app]; rewrite zlen_record_ad; lia].
    apply (hmac_update_ok K ml _ _ content) in Hf; [|cbn [app]; rewrite zlen_app, zlen_record_ad; lia].
    unfold mac. rewrite (hmac_out_ok K ml _ _ (hdig stk) Hf Hstk). destruct Hf as (_ & _ & ->). cbn [app].
    by rewrite olen_eq by done. }
  destruct (tls_mac_ok K ml Hml (record_ad (out_seq so) t v len ++ content)) as [Lm Bm]. rewrite <- Emac in Lm, Bm.
  rewrite (szadd_small len ml), Splen by lia. rewrite (szadd_small (len + ml)), (szsub_small _ 1) by lia.
  set (plen := n - (len + ml)) in *. replace (len + ml + plen) with n by lia. rewrite (u8_small (plen - 1)) by lia.
  set (r := replicate (Z.to_nat plen) (plen - 1)).
  assert (zlen r = plen) as Lr by (unfold r; rewrite length_replicate; lia).
  assert (Forall is_u8 r) as Br by (apply Forall_replicate; unfold is_u8; lia).
  destruct (two_blits buf off len mac r) as (L2 & B2 & S2 & F2); [lia|lia|lia|done..|].
  rewrite Lm, Lr in S2, F2. replace (len + (ml + plen)) with n in S2 by lia. rewrite Lm in L2, B2.
  eexists. split; [reflexivity|]. split; [done|]. split; [done|]. rewrite S2. split; [|split].
  - pose proof (tls_cbc_open_sealed (fun m => ztake ml (HMAC H (block_size dig) K m)) ml (out_seq so) t v content plen mac) as Ho.
    rewrite Lc in Ho. apply Ho; [done|done|lia|lia].
  - apply F2; lia.
  - intros o k ? ? ? ?. apply F2; lia.
Qed.

Lemma cbc_fragment_ok so si t v buf off len : cbc_linked so si -> Forall is_u8 buf -> zlen buf < 2 ^ 62 ->
  0 <= len <= 16384 ->
  let start := if out_explicit so then blen else 0 in
  let n := start + sealed blen (out_mac_len so) len in
  start + 5 <= off -> off - start + n <= zlen buf ->
  exists so' buf' si', fragment so t v buf off len = Some (so', buf', off - start, off - start + n) /\
    zlen buf' = zlen buf /\ Forall is_u8 buf' /\
    record_opens t v buf' (off - start - 5) n (zslice buf off len) si si' /\
    (forall o k, 0 <= o -> 0 <= k -> o + k <= off - start - 5 \/ off - start + n <= o -> o + k <= zlen buf ->
      zslice buf' o k = zslice buf o k) /\
    cbc_linked so' si' /\ out_explicit so' = out_explicit so /\ out_mac_len so' = out_mac_len so.
Proof.
  intros (key & K & Hkey & Eo & Ei & Ko & Ki & Hml & Eml & Eseq & Eex & Lo & Bo & Li & Bi & Eiv) B L62 Hlen start n Hoff Hend.
  pose proof law_block as Hlb. pose proof cbc_blen as Hb. assert (0 <= start <= 16) as Hst by (unfold start; case_match; lia).
  destruct (sealed_spec blen Hb (out_mac_len so) len ltac:(lia) ltac:(lia)) as (Smod & Slen & _).
  destruct (cbc_seal_ok so K t v buf off len Ko Hml B L62 Hlen ltac:(lia) ltac:(lia)) as (buf1 & E1 & L1 & B1 & Hopen & Hcon & F1).
  unfold cbc_fragment. rewrite E1. set (S := sealed _ _ _) in *.
  assert ((if out_explicit so then (off - blen, S +! blen) else (off, S)) = (off - start, n)) as ->.
  { unfold n, start. destruct (out_explicit so); [rewrite szadd_small by lia|]; f_equal; lia. }
  assert (zlen (zslice buf1 (off - start) n) = n) as Ln by (apply zlen_zslice; lia).
  assert (n mod blen = 0) as Hmod.
  { unfold n, start. destruct (out_explicit so); [rewrite Z.add_comm, <- (Z.mul_1_l blen) at 1; rewrite Z.mod_add by lia|]; done. }
  destruct (cbc_run key _ _ _ Hkey Lo Bo Li Bi (Forall_zslice _ _ (off - start) n B1) ltac:(by rewrite Ln))
    as (iv' & c & iv2' & d & Ec & Ed & Lcc & Bc & Li' & Bi' & Ld & Bd & Li2 & Bi2 & Hz & Hsame).
  rewrite <- Eo in Ec. rewrite Ec. cbn [mbind option_bind].
  assert (zdrop start d = zslice buf1 off S) as Epay.
  { unfold n, start in *. destruct (out_explicit so) eqn:Ex.
    - rewrite Hz, zdrop_zslice by lia. f_equal; lia.
    - rewrite zdrop_0. destruct (Hsame (Eiv eq_refl)) as [_ ->]. f_equal; lia. }
  assert (cbc_check_length blen si n = true) as Hchk.
  { unfold n, S, start. rewrite <- Eml, <- Eex. by apply check_length_sealed; [|lia..]. }
  rewrite Ln in Lcc, Ld.
  destruct (put_record_spec buf1 (off - start - 5) t v n c B1 Bc) as (L2 & B2 & S2); [lia|lia|].
  rewrite <- Ei in Ed.
  pose proof (cbc_decrypt_ok stk Hstk blen Hb dec_run si K t v c iv2' d Ki ltac:(lia) ltac:(by rewrite Ld) Ed Bd) as Hdec.
  cbv zeta in Hdec. rewrite Eex, Eml, Eseq in Hdec. fold start in Hdec. rewrite Epay, Hopen in Hdec. cbn [option_map] in Hdec.
  eexists _, _, _. split; [reflexivity|]. split; [lia|]. split; [done|]. split; [|split; [|split; [|done]]].
  - assert (zlen (zslice buf off len) = len) as Llen by (apply zlen_zslice; lia).
    exists c, d, start. rewrite Llen. split; [done|]. split; [done|]. split; [by rewrite <- S2, Lcc|].
    split; [done|]. split; [exact Hdec|]. unfold zslice at 1. rewrite Epay. rewrite <- Hcon.
    change (ztake len (zslice buf1 off S)) with (zslice (zslice buf1 off S) 0 len). rewrite zslice_zslice by lia. f_equal. lia.
  - intros o k ? ? Hd ?. rewrite put_record_frame by (rewrite ?Lcc; lia). apply F1; lia.
  - exists key, K. cbn [out_bc in_bc out_mac in_mac out_mac_len in_mac_len out_seq in_seq out_explicit in_explicit out_iv in_iv].
    do 12 (split; [done || by rewrite Eseq|]). split; [done|]. intros Ex. by destruct (Hsame (Eiv Ex)).
Qed.

(** Records with these bodies, one after the other; their contents, in order. *)
Definition wire (t v : Z) (bodies : list (list Z)) : list Z :=
  concat (map (fun body => record_header t v (zlen body) ++ body) bodies).
Fixpoint open_records si (t v : Z) (bodies : list (list Z)) : option (br_sslrec_in_cbc_context (bd := bd) * list Z) :=
  match bodies with
  | [] => Some (si, [])
  | body :: bodies =>
      if cbc_check_length blen si (zlen body) then
        '(si, data, r) ← cdecrypt si t v body;
        '(off, n) ← r;
        '(si, rest) ← open_records si t v bodies;
        Some (si, zslice data off n ++ rest)
      else None
  end.

Lemma max_plaintext_room so zl a b len : 0 < out_mac_len so <= 64 -> 592 <= zl < 2 ^ 62 ->
  cbc_max_plaintext blen so 5 zl = (a, b) -> 0 < len -> a + len <= b ->
  a = (if out_explicit so then 5 + blen else 9 + sealed blen (out_mac_len so) 1) /\ len <= 16384 /\
  forall k, 0 <= k <= len -> a + sealed blen (out_mac_len so) k <= zl.
Proof.
  pose proof cbc_blen as Hb. intros Hm Hz E Hp Hl. set (ml := out_mac_len so) in *.
  destruct (sealed_spec blen Hb ml 1 ltac:(lia) ltac:(lia)) as (_ & S1 & _).
  assert (split_room blen ml = 4 + sealed blen ml 1) as Er.
  { unfold split_room, sealed in *. rewrite (szadd_small ml blen), (szadd_small (ml + blen) 1) by lia.
    replace (ml + blen + 1) with (1 + ml + blen) by lia. apply szadd_small. lia. }
  unfold cbc_max_plaintext in E. fold ml in E. rewrite Er in E. rewrite !(szadd_small 5) in E by lia.
  set (start := if out_explicit so then 5 + blen else 5 + (4 + sealed blen ml 1)) in E.
  assert (9 < start <= 100) as Hs by (unfold start; destruct (out_explicit so); lia).
  rewrite (szsub_small zl start), (szadd_small 1 ml) in E by lia. rewrite whole_blocks_eq in E by lia.
  pose proof (Z.mod_pos_bound (zl - start) blen ltac:(lia)). set (w := zl - start - _) in E.
  assert (w mod blen = 0) as Hw.
  { unfold w. pose proof (Z.div_mod (zl - start) blen ltac:(lia)).
    replace (zl - start - (zl - start) mod blen) with ((zl - start) / blen * blen) by lia. apply Z.mod_mul. lia. }
  assert (0 <= w - (1 + ml) < 2 ^ 63 /\ w <= zl - start) as [B W] by (unfold w; lia).
  rewrite (szsub_small w) in E by lia. injection E as Ea Eb.
  rewrite szadd_small in Eb by (destruct (Z.ltb_spec 16384 (w - (1 + ml))); lia).
  assert (len <= w - (1 + ml) /\ len <= 16384) as [Hl1 Hl2] by (destruct (Z.ltb_spec 16384 (w - (1 + ml))); lia).
  split; [rewrite <- Ea; unfold start; destruct (out_explicit so); lia|]. split; [done|]. intros k Hk.
  pose proof (sealed_le blen Hb ml k w ltac:(lia) ltac:(lia) Hw ltac:(lia)). lia.
Qed.

(** Bodies that lie in a row at [p], and open to [content]. *)
Definition records_open (t v : Z) (buf : list Z) (p n : Z) (k : nat) (content : list Z) si (si' : br_sslrec_in_cbc_context (bd := bd)) : Prop :=
  exists bodies, length bodies = k /\ zlen (wire t v bodies) = n /\ zslice buf p n = wire t v bodies /\
    open_records si t v bodies = Some (si', content).
Lemma record_opens_wire t v buf p n content si si' : 0 <= n -> record_opens t v buf p n content si si' ->
  records_open t v buf p (5 + n) 1 content si si'.
Proof.
  intros Hn (body & d & off & <- & B & W & C & D & E). exists [body]. split; [done|]. unfold wire. cbn [map concat].
  rewrite app_nil_r. split; [rewrite zlen_app; done|]. split; [done|]. cbn [open_records]. rewrite C, D. cbn [mbind option_bind].
  by rewrite app_nil_r, E.
Qed.
Lemma records_open_app t v buf p n1 n2 k1 k2 c1 c2 si si1 si2 : 0 <= p -> p + n1 + n2 <= zlen buf ->
  records_open t v buf p n1 k1 c1 si si1 -> records_open t v buf (p + n1) n2 k2 c2 si1 si2 ->
  records_open t v buf p (n1 + n2) (k1 + k2) (c1 ++ c2) si si2.
Proof.
  intros Hp Hl (b1 & <- & <- & W1 & O1) (b2 & <- & <- & W2 & O2). exists (b1 ++ b2).
  assert (wire t v (b1 ++ b2) = wire t v b1 ++ wire t v b2) as Ew by (unfold wire; by rewrite map_app, concat_app).
  split; [apply length_app|]. rewrite Ew. split; [apply zlen_app|]. split; [rewrite <- zslice_app by lia; by rewrite W1, W2|].
  clear W1 W2 Ew Hp Hl. revert si c1 O1. induction b1 as [|b b1 IH]; intros si c1 O1; cbn [app open_records] in *.
  - by injection O1 as -> <-.
  - destruct (cbc_check_length _ _ _); [|done]. destruct (cdecrypt si t v b) as [[[si' d] [[off n]|]]|]; [|done..].
    cbn [mbind option_bind] in *. destruct (open_records si' t v b1) as [[s' rest]|] eqn:E; [|done]. cbn [mbind option_bind] in O1.
    injection O1 as <- <-. rewrite (IH si' rest) by done. cbn [mbind option_bind]. by rewrite app_assoc.
Qed.

(** The explicit IV: at most a block, in front of the data. *)
Lemma explicit_iv so K off buf len : key_ok (out_mac so) K -> Forall is_u8 buf -> blen <= off -> 0 <= len -> off + len <= zlen buf ->
  let hc := br_hmac_update dig (br_hmac_init dig stk (out_mac so) blen) (br_enc64be (out_seq so)) in
  let buf' := zblit buf (off - blen) (br_hmac_out dig (hdig stk) hc) in
  zlen buf' = zlen buf /\ Forall is_u8 buf' /\ zslice buf' off len = zslice buf off len.
Proof.
  intros Ko B Ho Hl Hend hc buf'. pose proof law_block as Hlb. pose proof cbc_blen as Hb.
  pose proof (hmac_init_ok stk _ K blen Hstk Ko) as Hf.
  apply (hmac_update_ok K blen _ [] (br_enc64be (out_seq so))) in Hf; [|change (zlen ([] ++ br_enc64be (out_seq so))) with 8; lia].
  unfold buf'. subst hc. rewrite (hmac_out_ok K blen _ _ (hdig stk) Hf Hstk). destruct Hf as (_ & _ & ->). set (ol := if _ && _ then _ else _).
  assert (0 <= ol <= blen /\ ol <= br_digest_size dig) as Hol.
  { subst ol. rewrite (proj2 (Z.ltb_lt 0 blen)) by lia. destruct (Z.ltb_spec blen (br_digest_size dig)); cbn [andb]; lia. }
  set (m := ztake ol _). assert (zlen m = ol) as Lm by (apply zlen_ztake; rewrite HMAC_size; lia).
  split; [apply zlen_zblit; lia|]. split; [apply Forall_zblit; [done|apply Forall_ztake, HMAC_bytes]|].
  apply zslice_zblit_after; lia.
Qed.

Lemma cbc_encrypt_explicit so si t v buf off len : out_explicit so = true -> cbc_linked so si -> Forall is_u8 buf -> zlen buf < 2 ^ 62 ->
  0 <= len <= 16384 -> 5 + blen <= off -> off + sealed blen (out_mac_len so) len <= zlen buf ->
  exists so' buf' p n si', cbc_encrypt blen enc_run dig stk so t v buf off len = Some (so', buf', p, n) /\
    records_open t v buf' p n 1 (zslice buf off len) si si' /\ cbc_linked so' si'.
Proof.
  intros Ex Hlink B L62 Hlen Hoff Hend. pose proof cbc_blen as Hb. pose proof law_block as Hlb. unfold cbc_encrypt. rewrite Ex.
  pose proof Hlink as (key & K & _ & _ & _ & Ko & _ & Hml & _).
  destruct (sealed_spec blen Hb (out_mac_len so) len ltac:(lia) ltac:(lia)) as (_ & S & _).
  destruct (explicit_iv so K off buf len Ko B ltac:(lia) ltac:(lia) ltac:(lia)) as (L1 & B1 & E1). set (buf1 := zblit buf _ _) in *.
  pose proof (cbc_fragment_ok so si t v buf1 off len Hlink B1 ltac:(lia) Hlen) as Hf. rewrite Ex in Hf.
  destruct Hf as (so' & buf' & si' & -> & L' & B' & Hr & _ & Hlink' & _ & _); [lia|lia|].
  eexists _, _, _, _, si'. split; [reflexivity|]. split; [|done]. rewrite E1 in Hr. apply record_opens_wire in Hr; [|lia].
  by replace (off - blen + (blen + sealed blen (out_mac_len so) len) - (off - blen - 5)) with
    (5 + (blen + sealed blen (out_mac_len so) len)) by lia.
Qed.

Lemma cbc_encrypt_one so si t v buf off len : out_explicit so = false -> (1 <? len) && (t =? BR_SSL_APPLICATION_DATA) = false ->
  cbc_linked so si -> Forall is_u8 buf -> zlen buf < 2 ^ 62 ->
  0 <= len <= 16384 -> 5 <= off -> off + sealed blen (out_mac_len so) len <= zlen buf ->
  exists so' buf' p n si', cbc_encrypt blen enc_run dig stk so t v buf off len = Some (so', buf', p, n) /\
    records_open t v buf' p n 1 (zslice buf off len) si si' /\ cbc_linked so' si'.
Proof.
  intros Ex Ht Hlink B L62 Hlen Hoff Hend. unfold cbc_encrypt. rewrite Ex, Ht.
  pose proof (cbc_fragment_ok so si t v buf off len Hlink B ltac:(lia) Hlen) as Hf. rewrite Ex in Hf.
  destruct Hf as (so' & buf' & si' & -> & L' & B' & Hr & _ & Hlink' & _ & _); [lia|lia|].
  pose proof Hlink as (_ & K & _ & _ & _ & Ko & _ & Hml & _). pose proof cbc_blen as Hb. pose proof law_block as Hlb.
  destruct (sealed_spec blen Hb (out_mac_len so) len ltac:(lia) ltac:(lia)) as (_ & S & _).
  eexists _, _, _, _, si'. split; [reflexivity|]. split; [|done]. apply record_opens_wire in Hr; [|lia]. rewrite Z.sub_0_r in *.
  by replace (off + (0 + sealed blen (out_mac_len so) len) - (off - 5)) with (5 + (0 + sealed blen (out_mac_len so) len)) by lia.
Qed.

(** The first byte in a record of its own, the others in the next record. *)
Lemma cbc_encrypt_two so si t v buf off len : out_explicit so = false -> (1 <? len) && (t =? BR_SSL_APPLICATION_DATA) = true ->
  cbc_linked so si -> Forall is_u8 buf -> zlen buf < 2 ^ 62 -> len <= 16384 ->
  off = 9 + sealed blen (out_mac_len so) 1 -> off + 1 + sealed blen (out_mac_len so) (len - 1) <= zlen buf ->
  exists so' buf' p n si', cbc_encrypt blen enc_run dig stk so t v buf off len = Some (so', buf', p, n) /\
    records_open t v buf' p n 2 (zslice buf off len) si si' /\ cbc_linked so' si'.
Proof.
  intros Ex Ht Hlink B L62 Hlen Hoff Hend. assert (1 < len) as H1 by (apply andb_prop in Ht as [Ht _]; lia).
  unfold cbc_encrypt. rewrite Ex, Ht. pose proof cbc_blen as Hb. pose proof law_block as Hlb.
  pose proof Hlink as (_ & _ & _ & _ & _ & _ & _ & Hml & _). set (ml := out_mac_len so) in *.
  destruct (sealed_spec blen Hb ml 1 ltac:(lia) ltac:(lia)) as (_ & S1 & _).
  destruct (sealed_spec blen Hb ml (len - 1) ltac:(lia) ltac:(lia)) as (_ & S2 & _).
  assert (split_room blen ml = 4 + sealed blen ml 1) as ->.
  { unfold split_room. rewrite (szadd_small ml blen), (szadd_small (ml + blen) 1) by lia. unfold sealed in *.
    replace (ml + blen + 1) with (1 + ml + blen) by lia. apply szadd_small. lia. }
  replace (off - (4 + sealed blen ml 1)) with 5 by lia.
  set (buf0 := zblit buf 5 [zget buf off]).
  assert (zlen buf0 = zlen buf) as L0 by (apply zlen_zblit; cbn [length]; lia).
  assert (Forall is_u8 buf0) as B0 by (apply Forall_zblit; [done|apply Forall_singleton; by apply is_u8_zget]).
  pose proof (cbc_fragment_ok so si t v buf0 5 1 Hlink B0 ltac:(lia) ltac:(lia)) as Hf. rewrite Ex in Hf. fold ml in Hf.
  destruct Hf as (so1 & buf1 & si1 & -> & L1 & B1 & Hr1 & F1 & Hlink1 & Ex1 & Eml1); [lia|lia|].
  cbn [mbind option_bind].
  pose proof (cbc_fragment_ok so1 si1 t v buf1 (off + 1) (len - 1) Hlink1 B1 ltac:(lia) ltac:(lia)) as Hf.
  rewrite Ex1, Eml1 in Hf. fold ml in Hf.
  destruct Hf as (so2 & buf2 & si2 & -> & L2 & B2 & Hr2 & F2 & Hlink2 & _); [lia|lia|].
  eexists _, _, _, _, si2. split; [reflexivity|]. split; [|done]. rewrite !Z.sub_0_r, !Z.add_0_l in *. change (5 - 5) with 0 in *.
  assert (zslice buf0 5 1 ++ zslice buf1 (off + 1) (len - 1) = zslice buf off len) as Ec.
  { replace len with (1 + (len - 1)) at 2 by lia. rewrite <- zslice_app by lia. f_equal.
    - assert (zslice buf0 5 1 = [zget buf off]) as -> by (apply (zslice_zblit_same buf 5 [zget buf off]); cbn [length]; lia).
      apply zget_ext; [rewrite zlen_zslice by lia; done|]. intros i Hi. cbn [length] in Hi. assert (i = 0) as -> by lia.
      rewrite zget_zslice by lia. by rewrite Z.add_0_r.
    - rewrite F1 by lia. apply zslice_zblit_after; cbn [length]; lia. }
  rewrite <- Ec. apply record_opens_wire in Hr1, Hr2; [|lia..].
  replace (off + 1 + sealed blen ml (len - 1)) with (5 + sealed blen ml 1 + (5 + sealed blen ml (len - 1))) by lia.
  apply (records_open_app t v buf2 0 _ _ 1 1 _ _ si si1 si2); [lia|lia| |].
  - destruct Hr1 as (bs & E1 & E2 & E3 & E4). exists bs. rewrite F2 by lia. done.
  - by replace (0 + (5 + sealed blen ml 1)) with (off + 1 - 5) by lia.
Qed.
End records.

(** ** The properties *)

(** C11: for every hash function with the Merkle-Damgard interface and every block
    cipher, opening a CBC record of an accepted length in constant time takes and
    refuses what RFC 5246 says, when the record is made of whole blocks: the payload,
    whatever the cipher makes of the received bytes, is accepted just when it is a
    content of at most 16384 bytes, the HMAC of sequence number, header and content, and
    [pad + 1] bytes equal to [pad], and then the content is what is returned.  On an
    accepted length that is not made of whole blocks, which the code takes to be
    impossible, the decryption runs out of the record. *)
Theorem cbc_opens_rfc5246 `{P : PaddingLaws dig H} `{C : CbcCipher blen bd be dec_init enc_init dec_run enc_run} stk
    (si : br_sslrec_in_cbc_context (bd := bd)) bkey hc key t v data :
  hash_storage (hdig stk) -> hash_storage hc -> zlen key < 2 ^ 61 -> in_mac si = br_hmac_key_init dig hc key ->
  in_bc si = dec_init bkey -> cbc_key bkey -> blen <= zlen (in_iv si) -> Forall is_u8 (in_iv si) ->
  0 < in_mac_len si <= br_digest_size dig -> Forall is_u8 data -> cbc_check_length blen si (zlen data) = true ->
  if zlen data mod blen =? 0 then
    let start := if in_explicit si then blen else 0 in
    exists iv' d, dec_run (dec_init bkey) (in_iv si) data = Some (iv', d) /\ zlen d = zlen data /\
      cbc_decrypt blen dec_run dig stk si t v data =
        Some (InCbc (u64 (in_seq si + 1)) (in_bc si) (in_mac si) (in_mac_len si) iv' (in_explicit si), d,
          option_map (pair start) (tls_cbc_open (fun m => ztake (in_mac_len si) (HMAC H (block_size dig) key m))
            (in_mac_len si) (in_seq si) t v (zdrop start d)))
  else cbc_decrypt blen dec_run dig stk si t v data = None.
Proof.
  intros Hstk Hhc Hk Em Eb Hbk Li Bi Hml B Hc. pose proof (cbc_dec bkey (in_iv si) data Hbk Li Bi B) as Hd.
  destruct (zlen data mod blen =? 0).
  - destruct Hd as (iv' & d & E & Ld & Bd & _). exists iv', d. split; [done|]. split; [done|].
    apply cbc_decrypt_ok; [done|exact cbc_blen|rewrite Em; by apply key_init_ok|done|by rewrite Ld|by rewrite Eb|done].
  - unfold cbc_decrypt. by rewrite Eb, Hd.
Qed.

(** C12: records made by the output side, within the room [max_plaintext] gives, open at
    an input side with the same keys, sequence number and IV: with an explicit IV one
    record, without one two for application data of more than one byte (the first holds
    one byte), which lie next to each other; they open, in order, to the plaintext, and
    both sides go on in step. *)
Theorem cbc_roundtrip `{P : PaddingLaws dig H} `{C : CbcCipher blen bd be dec_init enc_init dec_run enc_run} stk
    (so : br_sslrec_out_cbc_context (be := be)) (si : br_sslrec_in_cbc_context (bd := bd)) t v buf a b len :
  hash_storage (hdig stk) -> cbc_linked (L := L) so si -> Forall is_u8 buf -> 597 <= zlen buf < 2 ^ 62 ->
  cbc_max_plaintext blen so 5 (zlen buf - 5) = (a, b) -> 0 < len -> a + len <= b ->
  exists so' buf' p n si', cbc_encrypt blen enc_run dig stk so t v buf a len = Some (so', buf', p, n) /\
    records_open (blen := blen) (dec_run := dec_run) stk t v buf' p n
      (if negb (out_explicit so) && (1 <? len) && (t =? BR_SSL_APPLICATION_DATA) then 2 else 1)
      (zslice buf a len) si si' /\ cbc_linked (L := L) so' si'.
Proof.
  intros Hstk Hlink B Hl Hm Hp Hab. pose proof law_block as Hlb. pose proof cbc_blen as Hb.
  pose proof Hlink as (_ & _ & _ & _ & _ & _ & _ & Hml & _).
  destruct (max_plaintext_room so (zlen buf - 5) a b len ltac:(lia) ltac:(lia) Hm Hp Hab) as (Ea & Hlen & Hroom).
  pose proof (Hroom len ltac:(lia)) as Hend. pose proof (Hroom (len - 1) ltac:(lia)) as Hend1.
  destruct (sealed_spec blen Hb (out_mac_len so) 1 ltac:(lia) ltac:(lia)) as (_ & S1 & _).
  destruct (out_explicit so) eqn:Ex; cbn [negb andb].
  - apply cbc_encrypt_explicit; (done || lia).
  - destruct ((1 <? len) && (t =? BR_SSL_APPLICATION_DATA)) eqn:Ht.
    + apply cbc_encrypt_two; (done || lia).
    + apply cbc_encrypt_one; (done || lia).
Qed.

(** The length check of an incoming CBC record tests bounds only: one byte more than
    the least record is accepted though the cipher takes whole blocks. *)
Theorem cbc_accepts_partial_blocks {bd} blen (si : br_sslrec_in_cbc_context (bd := bd)) : blen = 8 \/ blen = 16 -> 0 <= in_mac_len si <= 64 ->
  exists n, cbc_check_length blen si n = true /\ n mod blen <> 0.
Proof.
  intros Hb Hm. pose proof (check_length_sealed blen Hb si 16384 Hm ltac:(lia)) as H1.
  pose proof (sealed_spec blen Hb (in_mac_len si) 0 ltac:(lia) ltac:(lia)) as (M & S & _).
  pose proof (sealed_spec blen Hb (in_mac_len si) 16384 ltac:(lia) ltac:(lia)) as (_ & S' & _).
  rewrite check_length_eq in H1 by done. set (start := if in_explicit si then blen else 0) in *.
  exists (start + sealed blen (in_mac_len si) 0 + 1). rewrite check_length_eq by done. fold start. split; [lia|].
  assert (start mod blen = 0) as Hs by (unfold start; case_match; [apply Z.mod_same; lia|apply Z.mod_0_l; lia]).
  set (s0 := sealed blen (in_mac_len si) 0) in *. pose proof (Z.div_mod start blen ltac:(lia)). pose proof (Z.div_mod s0 blen ltac:(lia)).
  rewrite <- (Z.mod_unique (start + s0 + 1) blen (start / blen + s0 / blen) 1); lia.
Qed.

(** ** AES-128 and SHA-256, without explicit IVs *)

Definition aes_out : br_sslrec_out_cbc_context (be := aes_keys) :=
  out_cbc_init 16 aes_init br_sha256_vtable (Hmac (dig := br_sha256_vtable) sha256_slot [] 0) (seqZ 0 16) (seqZ 100 32) 32 (Some (seqZ 32 16)).
Definition aes_in : br_sslrec_in_cbc_context (bd := aes_keys) :=
  in_cbc_init 16 aes_init br_sha256_vtable (Hmac (dig := br_sha256_vtable) sha256_slot [] 0) (seqZ 0 16) (seqZ 100 32) 32 (Some (seqZ 32 16)).
Lemma aes_linked : cbc_linked (L := sha256_laws) aes_out aes_in.
Proof.
  exists (seqZ 0 16), (seqZ 100 32). split; [split; [by left|by apply bytes_dec]|]. do 2 (split; [reflexivity|]).
  assert (key_ok (L := sha256_laws) (br_hmac_key_init br_sha256_vtable sha256_slot (seqZ 100 32)) (seqZ 100 32)) as Hk
    by (by apply (key_init_ok (L := sha256_laws))).
  split; [exact Hk|]. split; [exact Hk|].
  split; [done|]. do 4 (split; [done|]). split; [by apply bytes_dec|]. split; [done|]. split; [by apply bytes_dec|done].
Qed.

(** A record with the three bytes 8, 9 and 10. *)
Definition aes_stk : br_hmac_context br_sha256_vtable := Hmac (dig := br_sha256_vtable) sha256_slot [] 0.
Definition aes_record : list Z := Eval vm_compute in
  match cbc_encrypt 16 br_aes_small_cbcenc_run br_sha256_vtable aes_stk aes_out 22 0x0301 (seqZ 0 100) 8 3 with
  | Some (_, buf, _, _) => zslice buf 8 48
  | None => []
  end.
(** The record opens.  With a byte more, the decryption runs out of it. *)
Lemma cbc_opens_rfc5246_witness :
  let open data := cbc_decrypt 16 br_aes_small_cbcdec_run br_sha256_vtable aes_stk aes_in 22 0x0301 data in
  (exists si d, open aes_record = Some (si, d, Some (0, 3))) /\ open (aes_record ++ [0]) = None.
Proof.
  cbv zeta.
  assert (in_mac aes_in = br_hmac_key_init br_sha256_vtable sha256_slot (seqZ 100 32)) as Ek by reflexivity.
  assert (in_bc aes_in = aes_init (seqZ 0 16)) as Eb by reflexivity.
  assert (aes_key (seqZ 0 16)) as Hkey by (split; [by left|by apply bytes_dec]).
  assert (16 <= zlen (in_iv aes_in)) as Li by (vm_compute; discriminate).
  assert (Forall is_u8 (in_iv aes_in)) as Bi by (by apply bytes_dec).
  assert (0 < in_mac_len aes_in <= br_digest_size br_sha256_vtable) as Hml by (vm_compute; split; [reflexivity|discriminate]).
  pose proof (fun data => cbc_opens_rfc5246 (P := sha256_pad) aes_stk aes_in (seqZ 0 16) sha256_slot (seqZ 100 32) 22 0x0301 data
    eq_refl eq_refl eq_refl Ek Eb Hkey Li Bi Hml) as Hopen.
  split.
  - pose proof (Hopen aes_record (bytes_dec aes_record eq_refl) eq_refl) as Ho.
    change (zlen aes_record mod 16 =? 0) with true in Ho. destruct Ho as (iv' & d & Ed & _ & Ho).
    eexists _, d. etransitivity; [exact Ho|]. f_equal. f_equal. vm_compute in Ed. injection Ed as _ <-. vm_compute. reflexivity.
  - exact (Hopen (aes_record ++ [0]) (bytes_dec (aes_record ++ [0]) eq_refl) eq_refl).
Defined.

(** Five bytes of application data make two records. *)
Lemma cbc_roundtrip_witness :
  exists so' buf' p n si', cbc_encrypt 16 br_aes_small_cbcenc_run br_sha256_vtable aes_stk aes_out 23 0x0301 (replicate 700 7) 57 5 =
      Some (so', buf', p, n) /\
    records_open (blen := 16) (dec_run := br_aes_small_cbcdec_run) aes_stk 23 0x0301 buf' p n 2 [7; 7; 7; 7; 7] aes_in si' /\
    cbc_linked (L := sha256_laws) so' si'.
Proof.
  apply (cbc_roundtrip (P := sha256_pad) aes_stk aes_out aes_in 23 0x0301 (replicate 700 7) 57 648 5 eq_refl aes_linked);
    [by apply Forall_replicate|done|vm_compute; reflexivity|done|done].
Defined.

Lemma cbc_accepts_partial_blocks_witness : exists n, cbc_check_length 16 aes_in n = true /\ n mod 16 <> 0.
Proof. by apply cbc_accepts_partial_blocks; [right|]. Defined.
