(* ===== verification/Kdf.v ===== *)
(** * Kdf: the constructions over HMAC and hash functions

    [kdf/hkdf.c], [ssl/prf.c] with the three TLS PRF of [prf_md5sha1.c],
    [prf_sha256.c] and [prf_sha384.c], [rand/hmac_drbg.c] and [hash/mgf1.c].  In
    every function [stk] is the contents of the hash contexts its frame holds
    before they are initialised. *)
From S2P Require Import Prelude.
From S2P Require Import Words.
From S2P Require Import Hash.
From S2P Require Import HashSpec.
From S2P Require Import Hmac.

(** ** HKDF (kdf/hkdf.c) *)

(** The union [u] holds the HMAC context while input is injected, then the key
    computed from it. *)
Record br_hkdf_context {dig : br_hash_class} : Type := Hkdf {
  hk_u : br_hmac_context dig + br_hmac_key_context;
  hk_buf : list Z;
  hk_ptr : Z;
  dig_len : Z;
  chunk_num : Z }.
Arguments br_hkdf_context : clear implicits.
Arguments Hkdf {dig}.
#[export] Instance eta_hkdf {dig} : Eta (br_hkdf_context dig) :=
  fun c => Hkdf (hk_u c) (hk_buf c) (hk_ptr c) (dig_len c) (chunk_num c).

Section kdf.
Context (dig : br_hash_class) (stk : hctx dig).

(** An [br_hmac_context] on the stack. *)
Definition hmac_slot : br_hmac_context dig := Hmac stk [] 0.

(** [None] is [BR_HKDF_NO_SALT]. *)
Definition br_hkdf_init (hc : br_hkdf_context dig) (salt : option (list Z)) : br_hkdf_context dig :=
  let salt := match salt with
              | None => zeros (br_digest_size dig)
              | Some salt => salt
              end in
  let kc := br_hmac_key_init dig stk salt in
  let ctx := br_hmac_init dig hmac_slot kc 0 in
  hc <| hk_u := inl ctx |> <| dig_len := br_hmac_size dig ctx |>.

(** The next three read the member of the union that was last written; [None] is
    a call in the wrong order. *)
Definition br_hkdf_inject (hc : br_hkdf_context dig) (ikm : list Z) : option (br_hkdf_context dig) :=
  match hk_u hc with
  | inl ctx => Some (hc <| hk_u := inl (br_hmac_update dig ctx ikm) |>)
  | inr _ => None
  end.

Definition br_hkdf_flip (hc : br_hkdf_context dig) : option (br_hkdf_context dig) :=
  match hk_u hc with
  | inl ctx =>
      let tmp := br_hmac_out dig stk ctx in
      let kc := br_hmac_key_init dig stk (ztake (dig_len hc) tmp) in
      Some (hc <| hk_u := inr kc |> <| hk_ptr := dig_len hc |> <| chunk_num := 0 |>)
  | inr _ => None
  end.

(** One block of output into [buf]; [None] when the chunk number reaches 256. *)
Definition hkdf_block (kc : br_hmac_key_context) (info : list Z) (hc : br_hkdf_context dig)
    : br_hkdf_context dig * bool :=
  let hc := hc <| chunk_num := u32 (chunk_num hc + 1) |> in
  if chunk_num hc =? 256 then (hc, false)
  else
    let x := u8 (chunk_num hc) in
    let ctx := br_hmac_init dig hmac_slot kc 0 in
    let ctx := if negb (x =? 1) then br_hmac_update dig ctx (ztake (dig_len hc) (hk_buf hc)) else ctx in
    let ctx := br_hmac_update dig ctx info in
    let ctx := br_hmac_update dig ctx [x] in
    let hc := hc <| hk_buf := zblit (hk_buf hc) 0 (br_hmac_out dig stk ctx) |> in
    (hc <| hk_ptr := 0 |>, true).

(** [while (out_len > 0)]: [out] is what has been written. *)
Fixpoint hkdf_loop (fuel : nat) (kc : br_hmac_key_context) (info : list Z) (hc : br_hkdf_context dig)
    (out : list Z) (out_len : Z) : option (br_hkdf_context dig * list Z) :=
  match fuel with
  | O => None
  | S fuel =>
      if out_len <=? 0 then Some (hc, out)
      else
        let '(hc, go) := if hk_ptr hc =? dig_len hc then hkdf_block kc info hc else (hc, true) in
        if negb go then Some (hc, out)
        else
          let clen := dig_len hc - hk_ptr hc in
          let clen := if out_len <? clen then out_len else clen in
          let out := out ++ zslice (hk_buf hc) (hk_ptr hc) clen in
          let out_len := out_len - clen in
          hkdf_loop fuel kc info (hc <| hk_ptr := hk_ptr hc + clen |>) out out_len
  end.
(** Returns the context and the bytes written; their number is the result. *)
Definition br_hkdf_produce (hc : br_hkdf_context dig) (info : list Z) (out_len : Z)
    : option (br_hkdf_context dig * list Z) :=
  match hk_u hc with
  | inl _ => None
  | inr kc => hkdf_loop (S (Z.to_nat out_len)) kc info hc [] out_len
  end.

(** ** TLS PRF (ssl/prf.c) *)

(** [for (label_len = 0; label[label_len]; label_len ++)]. *)
Fixpoint strlen (s : list Z) : nat :=
  match s with
  | [] => 0
  | b :: s => if b =? 0 then 0 else S (strlen s)
  end.

Definition seed_updates (seed : list (list Z)) (hc : br_hmac_context dig) : br_hmac_context dig :=
  fold_left (br_hmac_update dig) seed hc.

(** [for (;;)]: the bytes of [buf] still to be masked. *)
Fixpoint phash_loop (fuel : nat) (kc : br_hmac_key_context) (hc : br_hmac_context dig) (a label : list Z)
    (seed : list (list Z)) (buf : list Z) : option (list Z) :=
  match fuel with
  | O => None
  | S fuel =>
      let hlen := br_digest_size dig in
      let hc := br_hmac_init dig hc kc 0 in
      let hc := br_hmac_update dig hc (ztake hlen a) in
      let hc := br_hmac_update dig hc label in
      let hc := seed_updates seed hc in
      let tmp := br_hmac_out dig stk hc in
      let u := Z.min hlen (zlen buf) in
      let done := zxor (ztake u buf) (ztake u tmp) in
      let buf := zdrop u buf in
      if zlen buf =? 0 then Some done
      else
        let hc := br_hmac_init dig hc kc 0 in
        let hc := br_hmac_update dig hc (ztake hlen a) in
        let a := br_hmac_out dig stk hc in
        rest ← phash_loop fuel kc hc a label seed buf; Some (done ++ rest)
  end.
(** The new contents of [dst]. *)
Definition br_tls_phash (dst secret label : list Z) (seed : list (list Z)) : option (list Z) :=
  if zlen dst =? 0 then Some dst
  else
    let label := take (strlen label) label in
    let kc := br_hmac_key_init dig stk secret in
    let hc := br_hmac_init dig hmac_slot kc 0 in
    let hc := br_hmac_update dig hc label in
    let hc := seed_updates seed hc in
    let a := br_hmac_out dig stk hc in
    phash_loop (length dst) kc hc a label seed dst.

(** ** HMAC_DRBG (rand/hmac_drbg.c) *)

(** [K] and [V], 64 bytes each. *)
Record br_hmac_drbg_context : Type := Drbg { drbg_K : list Z; drbg_V : list Z }.
Notation hlen := (br_digest_size dig).

(** [V = HMAC(K, V)], the step every function makes. *)
Definition drbg_step (kc : br_hmac_key_context) (hc : br_hmac_context dig) (V : list Z)
    : br_hmac_context dig * list Z :=
  let hc := br_hmac_init dig hc kc 0 in
  let hc := br_hmac_update dig hc (ztake hlen V) in
  (hc, zblit V 0 (br_hmac_out dig stk hc)).

(** [K = HMAC(K, V || x || seed)], and the new key. *)
Definition drbg_rekey (kc : br_hmac_key_context) (hc : br_hmac_context dig) (x : Z) (seed K V : list Z)
    : br_hmac_context dig * list Z * br_hmac_key_context :=
  let hc := br_hmac_init dig hc kc 0 in
  let hc := br_hmac_update dig hc (ztake hlen V) in
  let hc := br_hmac_update dig hc [x] in
  let hc := br_hmac_update dig hc seed in
  let K := zblit K 0 (br_hmac_out dig stk hc) in
  (hc, K, br_hmac_key_init dig stk (ztake hlen K)).

Definition br_hmac_drbg_update (ctx : br_hmac_drbg_context) (seed : list Z) : br_hmac_drbg_context :=
  let '(Drbg K V) := ctx in
  let kc := br_hmac_key_init dig stk (ztake hlen K) in
  let '(hc, K, kc) := drbg_rekey kc hmac_slot 0x00 seed K V in
  let '(hc, V) := drbg_step kc hc V in
  if zlen seed =? 0 then Drbg K V
  else
    let '(hc, K, kc) := drbg_rekey kc hc 0x01 seed K V in
    let '(hc, V) := drbg_step kc hc V in
    Drbg K V.

Definition br_hmac_drbg_init (ctx : br_hmac_drbg_context) (seed : list Z) : br_hmac_drbg_context :=
  let ctx := Drbg (zblit (drbg_K ctx) 0 (replicate (Z.to_nat hlen) 0x00))
                  (zblit (drbg_V ctx) 0 (replicate (Z.to_nat hlen) 0x01)) in
  br_hmac_drbg_update ctx seed.

(** [while (len > 0)]; each round writes at least one byte: [fuel] is [len]. *)
Fixpoint drbg_loop (fuel : nat) (kc : br_hmac_key_context) (hc : br_hmac_context dig) (V out : list Z)
    (len : Z) : br_hmac_context dig * list Z * list Z :=
  match fuel with
  | O => (hc, V, out)
  | S fuel =>
      if len <=? 0 then (hc, V, out)
      else
        let '(hc, V) := drbg_step kc hc V in
        let clen := hlen in
        let clen := if len <? clen then len else clen in
        drbg_loop fuel kc hc V (out ++ ztake clen V) (len - clen)
  end.
Definition br_hmac_drbg_generate (ctx : br_hmac_drbg_context) (len : Z) : br_hmac_drbg_context * list Z :=
  let '(Drbg K V) := ctx in
  let kc := br_hmac_key_init dig stk (ztake hlen K) in
  let '(hc, V, out) := drbg_loop (Z.to_nat len) kc hmac_slot V [] len in
  let hc := br_hmac_init dig hc kc 0 in
  let hc := br_hmac_update dig hc (ztake hlen V) in
  let hc := br_hmac_update dig hc [0x00] in
  let K := zblit K 0 (br_hmac_out dig stk hc) in
  let kc := br_hmac_key_init dig stk (ztake hlen K) in
  let '(hc, V) := drbg_step kc hc V in
  (Drbg K V, out).

(** ** MGF1 (hash/mgf1.c) *)

(** [for (u = 0, c = 0; u < len; u += hlen, c ++)]. *)
Fixpoint mgf1_loop (fuel : nat) (seed : list Z) (u c : Z) (buf : list Z) : option (list Z) :=
  match fuel with
  | O => None
  | S fuel =>
      if u <? zlen buf then
        let hc := hinit dig stk in
        let hc := hupdate dig hc seed in
        let hc := hupdate dig hc (br_enc32be c) in
        let tmp := hout dig hc in
        let n := Z.min hlen (zlen buf - u) in
        let buf := zblit buf u (zxor (zslice buf u n) (ztake n tmp)) in
        mgf1_loop fuel seed (szadd u hlen) (add32 c 1) buf
      else Some buf
  end.
Definition br_mgf1_xor (data seed : list Z) : option (list Z) :=
  mgf1_loop (S (length data)) seed 0 0 data.
End kdf.

(** ** The PRF of TLS 1.0 and 1.2 (prf_md5sha1.c, prf_sha256.c, prf_sha384.c) *)

Definition br_tls10_prf (stk5 : hctx br_md5_vtable) (stk1 : hctx br_sha1_vtable) (len : Z)
    (secret label : list Z) (seed : list (list Z)) : option (list Z) :=
  let slen := Z.shiftr (szadd (zlen secret) 1) 1 in
  let dst := zeros len in
  dst ← br_tls_phash br_md5_vtable stk5 dst (ztake slen secret) label seed;
  br_tls_phash br_sha1_vtable stk1 dst (zslice secret (zlen secret - slen) slen) label seed.
Definition br_tls12_sha256_prf (stk : hctx br_sha256_vtable) (len : Z) (secret label : list Z)
    (seed : list (list Z)) : option (list Z) :=
  br_tls_phash br_sha256_vtable stk (zeros len) secret label seed.
Definition br_tls12_sha384_prf (stk : hctx br_sha384_vtable) (len : Z) (secret label : list Z)
    (seed : list (list Z)) : option (list Z) :=
  br_tls_phash br_sha384_vtable stk (zeros len) secret label seed.
