(* ===== verification/KdfSpec.v ===== *)
(** * KdfSpec: HKDF is RFC 5869, the TLS PRF are RFC 2246 and RFC 5246, HMAC_DRBG
    is NIST SP 800-90A and MGF1 is PKCS#1

    Everything is proved against the interface [HashLaws] of the hash function and
    the HMAC lemmas of [Hmac]. *)
From S2P Require Import Prelude.
From S2P Require Import Words.
From S2P Require Import Hash.
From S2P Require Import HashSpec.
From S2P Require Import Hmac.
From S2P Require Import Kdf.

Section spec.
Context `{L : HashLaws dig H} (stk : hctx dig) (Hstk : hash_storage stk).
Notation blen := (block_size dig).
Notation hlen := (br_digest_size dig).
Notation HM := (HMAC H blen).

Lemma hlen_pos : 0 < hlen <= 64.
Proof. pose proof law_block. lia. Qed.
Lemma slot_storage : hash_storage (hdig (hmac_slot dig stk)).
Proof. exact Hstk. Qed.

(** ** HKDF *)

Section okm.
Context (prk info : list Z).
(** T(n) of RFC 5869, 2.3, and T(1) | ... | T(n). *)
Fixpoint hkdf_T (n : nat) : list Z :=
  match n with
  | O => []
  | S n => HM prk (hkdf_T n ++ info ++ [Z.of_nat (S n)])
  end.
Fixpoint okm (n : nat) : list Z :=
  match n with
  | O => []
  | S k => okm k ++ hkdf_T (S k)
  end.

Lemma zlen_T n : zlen (hkdf_T (S n)) = hlen.
Proof. apply HMAC_size. Qed.
Lemma zlen_okm n : zlen (okm n) = hlen * Z.of_nat n.
Proof. induction n as [|n IH]; [simpl; lia|]. cbn [okm]. rewrite zlen_app, IH, zlen_T. lia. Qed.
Lemma okm_prefix n k : exists rest, okm (n + k) = okm n ++ rest.
Proof.
  induction k as [|k [rest IH]]; [exists []; by rewrite Nat.add_0_r, app_nil_r|].
  rewrite Nat.add_succ_r. cbn [okm]. rewrite IH, <- (assoc_L (++)). eauto.
Qed.
(** Block [n] inside the whole output. *)
Lemma okm_block n N ptr len : (S n <= N)%nat -> 0 <= ptr -> 0 <= len -> ptr + len <= hlen ->
  zslice (okm N) (hlen * Z.of_nat n + ptr) len = zslice (hkdf_T (S n)) ptr len.
Proof.
  intros. destruct (okm_prefix (S n) (N - S n)) as [rest E]. replace (S n + (N - S n))%nat with N in E by lia.
  pose proof hlen_pos. pose proof (zlen_okm n). pose proof (zlen_T n).
  rewrite E. cbn [okm]. rewrite zslice_app_l by (rewrite ?zlen_app; lia).
  rewrite zslice_app_r by lia. f_equal. lia.
Qed.
End okm.

(** A context in the expand phase that has produced [pos] bytes. *)
Definition hkdf_at (prk info : list Z) (hc : br_hkdf_context dig) (pos : Z) : Prop :=
  exists kc n, hk_u hc = inr kc /\ key_ok kc prk /\ dig_len hc = hlen /\ zlen (hk_buf hc) = 64 /\
    chunk_num hc = Z.of_nat n /\ (n <= 255)%nat /\ 0 <= hk_ptr hc <= hlen /\
    (n = O -> hk_ptr hc = hlen) /\ (n <> O -> ztake hlen (hk_buf hc) = hkdf_T prk info n) /\
    pos = hlen * Z.of_nat n - hlen + hk_ptr hc.
(** After the 255 blocks, once more has been asked for. *)
Definition hkdf_exhausted (prk : list Z) (hc : br_hkdf_context dig) : Prop :=
  exists kc, hk_u hc = inr kc /\ key_ok kc prk /\ dig_len hc = hlen /\ zlen (hk_buf hc) = 64 /\
    chunk_num hc = 256 /\ hk_ptr hc = hlen.

(** The block computed when all of [buf] has been used. *)
Lemma hkdf_block_ok prk info kc hc n : key_ok kc prk -> dig_len hc = hlen -> zlen (hk_buf hc) = 64 ->
  blen + hlen + zlen info + 1 < 2 ^ 61 -> 0 <= chunk_num hc < 2 ^ 31 -> chunk_num hc <> 255 ->
  chunk_num hc mod 256 = Z.of_nat n -> (n <= 254)%nat ->
  (n <> O -> ztake hlen (hk_buf hc) = hkdf_T prk info n) ->
  hkdf_block dig stk kc info hc =
    (Hkdf (hk_u hc) (zblit (hk_buf hc) 0 (hkdf_T prk info (S n))) 0 hlen (chunk_num hc + 1), true).
Proof.
  intros Hk Hd Hb Hl Hc Hc' Hm Hn Ht. unfold hkdf_block.
  set (hc1 := hc <| chunk_num := u32 (chunk_num hc + 1) |>).
  assert (chunk_num hc1 = chunk_num hc + 1) as E1 by (subst hc1; cbn; apply u32_small; lia).
  assert (hk_u hc1 = hk_u hc /\ hk_buf hc1 = hk_buf hc /\ dig_len hc1 = hlen /\ hk_ptr hc1 = hk_ptr hc)
    as (E2 & E3 & E4 & E5) by done.
  clearbody hc1. rewrite E1, (proj2 (Z.eqb_neq (chunk_num hc + 1) 256)) by lia.
  assert (u8 (chunk_num hc + 1) = Z.of_nat (S n)) as ->.
  { unfold u8. change (2 ^ 8) with 256. rewrite Z.add_mod, Hm by lia. change (1 mod 256) with 1. rewrite Z.mod_small; lia. }
  rewrite E3, E4. set (c := br_hmac_update dig _ [Z.of_nat (S n)]).
  assert (br_hmac_out dig stk c = hkdf_T prk info (S n)) as ->; [|by destruct hc1; cbn in *; subst].
  subst c. pose proof (zlen_T prk info (pred n)) as HT. cbn [hkdf_T]. destruct n as [|n].
  - apply (mac_ok (hmac_slot dig stk) kc prk [info; [1]] stk slot_storage Hk Hstk). cbn [concat].
    rewrite !zlen_app. cbn [length]. lia.
  - rewrite (proj2 (Z.eqb_neq (Z.of_nat (S (S n))) 1)) by lia. cbn [negb]. rewrite Ht by done.
    destruct (mac_ok (hmac_slot dig stk) kc prk [hkdf_T prk info (S n); info; [Z.of_nat (S (S n))]] stk
      slot_storage Hk Hstk) as [E _]; [|exact E].
    cbn [concat pred] in *. rewrite !zlen_app. cbn [length]. lia.
Qed.

Section expand.
Context (prk info : list Z) (Hl : blen + hlen + zlen info + 1 < 2 ^ 61).
Notation OKM := (okm prk info 255).
Notation at_pos := (hkdf_at prk info).

Lemma at_bounds hc pos : at_pos hc pos -> 0 <= pos <= hlen * 255.
Proof. intros (kc & n & _ & _ & _ & _ & _ & Hn & Hp & Hz & _ & ->). pose proof hlen_pos. destruct n; nia. Qed.

(** Taking [c] bytes of the block in [buf]. *)
Lemma take_block hc pos c : at_pos hc pos -> 0 <= c -> hk_ptr hc + c <= hlen -> hk_ptr hc < hlen ->
  zslice (hk_buf hc) (hk_ptr hc) c = zslice OKM pos c /\ at_pos (hc <| hk_ptr := hk_ptr hc + c |>) (pos + c).
Proof.
  intros (kc & n & Hu & Hk & Hd & Hb & Hn & Hn' & Hp & Hz & Ht & ->) Hc Hc' Hlt. pose proof hlen_pos.
  destruct n as [|n]; [specialize (Hz eq_refl); lia|]. specialize (Ht ltac:(done)). split.
  - replace (hlen * Z.of_nat (S n) - hlen + hk_ptr hc) with (hlen * Z.of_nat n + hk_ptr hc) by lia.
    rewrite okm_block, <- Ht by lia. rewrite <- (ztake_zdrop hlen (hk_buf hc)) at 1.
    rewrite zslice_app_l; [done|lia..|]. rewrite zlen_ztake; lia.
  - exists kc, (S n). cbn. do 6 (split; [done|]). split; [lia|]. do 2 (split; [done|]). lia.
Qed.

(** Filling [buf] with the next block, or finding that there is none. *)
Lemma next_block kc hc pos : at_pos hc pos -> hk_u hc = inr kc -> hk_ptr hc = hlen ->
  if pos <? hlen * 255
  then exists hc', hkdf_block dig stk kc info hc = (hc', true) /\ at_pos hc' pos /\ hk_u hc' = inr kc /\ hk_ptr hc' = 0
  else exists hc', hkdf_block dig stk kc info hc = (hc', false) /\ hkdf_exhausted prk hc'.
Proof.
  intros (kc' & n & Hu & Hk & Hd & Hb & Hn & Hn' & Hp & Hz & Ht & ->) Hu' Hptr. pose proof hlen_pos.
  assert (kc' = kc) as -> by congruence. rewrite Hptr. destruct (Z.ltb_spec (hlen * Z.of_nat n - hlen + hlen) (hlen * 255)).
  - assert (n <= 254)%nat by nia. rewrite (hkdf_block_ok prk info kc hc n) by (try done; rewrite ?Z.mod_small; lia).
    eexists. split; [reflexivity|]. split; [|done]. exists kc, (S n). cbn [hk_u hk_buf hk_ptr dig_len chunk_num].
    pose proof (zlen_T prk info n) as HT. split; [done|]. split; [done|]. split; [done|].
    split; [rewrite zlen_zblit; lia|]. split; [lia|]. split; [lia|]. split; [lia|]. split; [done|].
    split; [|lia]. intros _. pose proof (zslice_zblit_same (hk_buf hc) 0 (hkdf_T prk info (S n)) ltac:(lia) ltac:(lia)) as E.
    rewrite HT in E. exact E.
  - assert (n = 255%nat) as -> by nia. unfold hkdf_block.
    assert (u32 (chunk_num hc + 1) = 256) as E by (rewrite Hn; reflexivity).
    eexists. cbn [chunk_num setf]. rewrite E. change (256 =? 256) with true. split; [reflexivity|].
    exists kc. cbn. split_and!; done.
Qed.

Lemma hkdf_loop_ok fuel kc hc out len pos : at_pos hc pos -> hk_u hc = inr kc -> 0 <= len < Z.of_nat fuel ->
  exists hc', hkdf_loop dig stk fuel kc info hc out len =
      Some (hc', out ++ zslice OKM pos (Z.min len (hlen * 255 - pos))) /\
    (if pos + len <=? hlen * 255 then at_pos hc' (pos + len) else hkdf_exhausted prk hc').
Proof.
  revert hc out len pos. induction fuel as [|fuel IH]; intros hc out len pos Hat Hu Hlen; [lia|].
  pose proof (at_bounds hc pos Hat) as Hpos. pose proof hlen_pos. cbn [hkdf_loop].
  assert (dig_len hc = hlen) as Hd by (by destruct Hat as (? & ? & _ & _ & ? & _)).
  destruct (Z.leb_spec len 0) as [Hle|Hgt].
  { assert (len = 0) as -> by lia. rewrite Z.min_l, zslice_0, app_nil_r, Z.add_0_r, (proj2 (Z.leb_le pos _)) by lia. eauto. }
  assert (forall h, at_pos h pos -> hk_u h = inr kc -> hk_ptr h < hlen ->
    exists hc', (let clen := dig_len h - hk_ptr h in let clen := if len <? clen then len else clen in
      hkdf_loop dig stk fuel kc info (h <| hk_ptr := hk_ptr h + clen |>) (out ++ zslice (hk_buf h) (hk_ptr h) clen)
        (len - clen)) = Some (hc', out ++ zslice OKM pos (Z.min len (hlen * 255 - pos))) /\
    (if pos + len <=? hlen * 255 then at_pos hc' (pos + len) else hkdf_exhausted prk hc')) as Hstep.
  { intros h Hh Hhu Hptr. assert (dig_len h = hlen) as -> by (by destruct Hh as (? & ? & _ & _ & ? & _)). cbv zeta.
    set (c := if _ <? _ then _ else _). assert (c = Z.min len (hlen - hk_ptr h)) as Ec
      by (subst c; destruct (Z.ltb_spec len (hlen - hk_ptr h)); lia). clearbody c.
    assert (0 <= hk_ptr h) by (destruct Hh as (? & ? & _ & _ & _ & _ & _ & _ & ? & _); lia).
    destruct (take_block h pos c Hh) as [Es Hat']; [lia..|]. rewrite Es.
    pose proof (at_bounds _ _ Hat').
    destruct (IH _ (out ++ zslice OKM pos c) (len - c) _ Hat' Hhu) as (hc' & E & Hend); [lia|].
    exists hc'. rewrite E. replace (pos + c + (len - c)) with (pos + len) in Hend by lia. split; [|done].
    rewrite <- (assoc_L (++)), zslice_app by (rewrite ?zlen_okm; lia). do 4 f_equal. lia. }
  rewrite Hd. destruct (Z.eqb_spec (hk_ptr hc) hlen) as [He|He].
  - pose proof (next_block kc hc pos Hat Hu He) as Hn. destruct (Z.ltb_spec pos (hlen * 255)).
    + destruct Hn as (h & -> & Hh & Hhu & Hh0). cbn [negb]. apply Hstep; [done..|lia].
    + destruct Hn as (h & -> & Hh). cbn [negb]. exists h.
      rewrite (proj2 (Z.leb_gt (pos + len) _)), (zslice_neg OKM), app_nil_r by lia. done.
  - assert (hk_ptr hc < hlen) as Hlt by (destruct Hat as (? & ? & _ & _ & _ & _ & _ & _ & ? & _); lia).
    exact (Hstep hc Hat Hu Hlt).
Qed.

Lemma produce_ok hc len pos : at_pos hc pos -> 0 <= len ->
  exists hc', br_hkdf_produce dig stk hc info len = Some (hc', zslice OKM pos (Z.min len (hlen * 255 - pos))) /\
    (if pos + len <=? hlen * 255 then at_pos hc' (pos + len) else hkdf_exhausted prk hc').
Proof.
  intros Hat Hlen. pose proof Hat as (kc & ? & Hu & _). unfold br_hkdf_produce. rewrite Hu.
  apply (hkdf_loop_ok _ kc hc [] len pos Hat Hu). lia.
Qed.
End expand.

(** The extract phase. *)
Definition hkdf_extracting (salt : list Z) (hc : br_hkdf_context dig) (ikm : list Z) : Prop :=
  exists ctx, hk_u hc = inl ctx /\ hmac_fed salt 0 ctx ikm /\ dig_len hc = hlen /\ zlen (hk_buf hc) = 64.
Definition salt_bytes (salt : option (list Z)) : list Z :=
  match salt with None => zeros hlen | Some s => s end.

Lemma hkdf_init_ok hc salt : zlen (hk_buf hc) = 64 -> zlen (salt_bytes salt) < 2 ^ 61 ->
  hkdf_extracting (salt_bytes salt) (br_hkdf_init dig stk hc salt) [].
Proof.
  intros Hb Hs. unfold br_hkdf_init. fold (salt_bytes salt).
  pose proof (key_init_ok stk _ Hstk Hs) as Hk. pose proof (hmac_init_ok (hmac_slot dig stk) _ _ 0 slot_storage Hk) as Hf.
  eexists. split; [reflexivity|]. split; [exact Hf|]. split; [|exact Hb]. by destruct Hf as (_ & _ & E).
Qed.
Lemma hkdf_inject_ok salt hc m x : hkdf_extracting salt hc m -> blen + zlen (m ++ x) < 2 ^ 61 ->
  exists hc', br_hkdf_inject dig hc x = Some hc' /\ hkdf_extracting salt hc' (m ++ x).
Proof.
  intros (ctx & Hu & Hf & Hd & Hb) Hl. unfold br_hkdf_inject. rewrite Hu. eexists. split; [reflexivity|].
  eexists. split; [reflexivity|]. split; [by apply hmac_update_ok|done].
Qed.
Lemma hkdf_flip_ok salt hc m info : hkdf_extracting salt hc m ->
  exists hc', br_hkdf_flip dig stk hc = Some hc' /\ hkdf_at (HM salt m) info hc' 0.
Proof.
  intros (ctx & Hu & Hf & Hd & Hb). unfold br_hkdf_flip. rewrite Hu. eexists. split; [reflexivity|].
  pose proof hlen_pos. eexists _, O. split; [reflexivity|].
  rewrite (hmac_out_full salt ctx m stk Hf Hstk), Hd, ztake_ge by (rewrite HMAC_size; lia).
  split; [apply key_init_ok; [exact Hstk|rewrite HMAC_size; lia]|]. cbn.
  rewrite Hd. split; [done|]. split; [done|]. split; [done|]. split; [lia|]. split; [lia|]. split; [done|]. split; [done|lia].
Qed.

(** A whole run: [init], [inject] calls, [flip]; then [produce] calls. *)
Definition hkdf_extract (hc : br_hkdf_context dig) (salt : option (list Z)) (ikms : list (list Z)) :
    option (br_hkdf_context dig) :=
  hc ← fold_left (fun o ikm => hc ← o; br_hkdf_inject dig hc ikm) ikms (Some (br_hkdf_init dig stk hc salt));
  br_hkdf_flip dig stk hc.
Fixpoint hkdf_expand (hc : br_hkdf_context dig) (info : list Z) (lens : list Z) :
    option (br_hkdf_context dig * list Z) :=
  match lens with
  | [] => Some (hc, [])
  | len :: lens =>
      '(hc, out) ← br_hkdf_produce dig stk hc info len;
      '(hc, rest) ← hkdf_expand hc info lens; Some (hc, out ++ rest)
  end.
Definition sum (l : list Z) : Z := fold_right Z.add 0 l.

Lemma hkdf_extract_ok hc salt ikms info : zlen (hk_buf hc) = 64 -> zlen (salt_bytes salt) < 2 ^ 61 ->
  blen + zlen (concat ikms) < 2 ^ 61 ->
  exists hc', hkdf_extract hc salt ikms = Some hc' /\ hkdf_at (HM (salt_bytes salt) (concat ikms)) info hc' 0.
Proof.
  intros Hb Hs Hl. pose proof (hkdf_init_ok hc salt Hb Hs) as He. unfold hkdf_extract.
  assert (forall h m, hkdf_extracting (salt_bytes salt) h m -> blen + zlen (m ++ concat ikms) < 2 ^ 61 ->
    exists h', fold_left (fun o ikm => hc ← o; br_hkdf_inject dig hc ikm) ikms (Some h) = Some h' /\
      hkdf_extracting (salt_bytes salt) h' (m ++ concat ikms)) as Hfold.
  { clear. induction ikms as [|x xs IH]; intros h m Hh Hl; [exists h; by rewrite app_nil_r|].
    cbn [fold_left concat] in *. rewrite (assoc_L (++)) in *.
    destruct (hkdf_inject_ok _ h m x Hh) as (h' & E & Hh'); [pose proof (zlen_app (m ++ x) (concat xs)); lia|].
    cbn [mbind option_bind]. rewrite E. by apply IH. }
  destruct (Hfold _ [] He Hl) as (h' & -> & Hh'). cbn [mbind option_bind]. by apply (hkdf_flip_ok _ _ _ info).
Qed.
Lemma hkdf_expand_ok prk info hc pos lens : blen + hlen + zlen info + 1 < 2 ^ 61 -> hkdf_at prk info hc pos ->
  Forall (fun n => 0 <= n) lens -> pos + sum lens <= hlen * 255 ->
  exists hc', hkdf_expand hc info lens = Some (hc', zslice (okm prk info 255) pos (sum lens)) /\
    hkdf_at prk info hc' (pos + sum lens).
Proof.
  intros Hl. revert hc pos. induction lens as [|n lens IH]; intros hc pos Hat Hn Hs; cbn [hkdf_expand sum fold_right] in *.
  { exists hc. by rewrite zslice_0, Z.add_0_r. }
  apply Forall_cons in Hn as [Hn Hns]. pose proof (at_bounds prk info hc pos Hat). fold (sum lens) in *.
  assert (0 <= sum lens) by (clear -Hns; induction Hns; cbn; [lia|unfold sum in *; lia]).
  destruct (produce_ok prk info Hl hc n pos Hat Hn) as (h & E & Hh). rewrite E.
  rewrite (proj2 (Z.leb_le (pos + n) _)), Z.min_l in * by lia. cbn [mbind option_bind].
  destruct (IH h (pos + n) Hh Hns) as (h' & E' & Hh'); [lia|]. rewrite E'. cbn [mbind option_bind].
  exists h'. rewrite zslice_app by (rewrite ?zlen_okm; lia). by rewrite Z.add_assoc.
Qed.

End spec.

Lemma exhausted_restarts `{L : HashLaws dig H} stk prk info hc n : hash_storage stk ->
  block_size dig + br_digest_size dig + zlen info + 1 < 2 ^ 61 -> hkdf_exhausted prk hc ->
  0 < n <= br_digest_size dig ->
  exists hc', br_hkdf_produce dig stk hc info n = Some (hc', ztake n (okm (H := H) (dig := dig) prk info 255)).
Proof.
  intros Hstk Hl (kc & Hu & Hk & Hd & Hb & Hc & Hp) Hn. unfold br_hkdf_produce. rewrite Hu.
  destruct (Z.to_nat n) as [|m] eqn:Em; [lia|]. cbn [hkdf_loop].
  rewrite (proj2 (Z.leb_gt n 0)), Hp, Hd, Z.eqb_refl by lia.
  rewrite (hkdf_block_ok stk Hstk prk info kc hc 0) by (try done; rewrite ?Hc; try done; lia).
  cbn [negb hk_ptr dig_len hk_buf]. rewrite Z.sub_0_r.
  set (c := if _ <? _ then _ else _). assert (c = n) as -> by (subst c; destruct (Z.ltb_spec n (br_digest_size dig)); lia).
  rewrite Z.sub_diag. cbn [Z.leb Z.compare]. eexists. do 2 f_equal. cbn [app].
  pose proof (zlen_T (dig := dig) prk info 0) as HT.
  pose proof (okm_block (dig := dig) prk info 0 255 0 n ltac:(lia) ltac:(lia) ltac:(lia) ltac:(lia)) as E.
  rewrite Z.mul_0_r, Z.add_0_l in E. change (ztake n ?l) with (zslice l 0 n).
  rewrite E. unfold zblit. change (ztake 0 (hk_buf hc)) with (@nil Z). cbn [app].
  rewrite zslice_app_l by lia. done.
Qed.

(** C27: HKDF as RFC 5869 defines it: a context given a salt (or the default one)
    and input material in any number of pieces yields, whatever the lengths asked
    for by the successive calls, the consecutive bytes of T(1) | T(2) | ...; the
    request that goes beyond 255 blocks gets what is left. *)
Theorem hkdf_rfc5869 `{L : HashLaws dig H} stk hc salt ikms info lens len :
  hash_storage stk -> zlen (hk_buf hc) = 64 -> zlen (salt_bytes (dig := dig) salt) < 2 ^ 61 ->
  block_size dig + zlen (concat ikms) < 2 ^ 61 ->
  block_size dig + br_digest_size dig + zlen info + 1 < 2 ^ 61 ->
  Forall (fun n => 0 <= n) lens -> sum lens <= br_digest_size dig * 255 -> 0 <= len ->
  let prk := HMAC H (block_size dig) (salt_bytes (dig := dig) salt) (concat ikms) in
  exists hc1 hc2 hc3 out out',
    hkdf_extract stk hc salt ikms = Some hc1 /\ hkdf_expand stk hc1 info lens = Some (hc2, out) /\
    br_hkdf_produce dig stk hc2 info len = Some (hc3, out') /\
    out ++ out' = ztake (Z.min (sum lens + len) (br_digest_size dig * 255))
                    (okm (H := H) (dig := dig) prk info 255).
Proof.
  intros Hstk Hb Hs Hi Hl Hn Hsum Hlen prk.
  destruct (hkdf_extract_ok stk Hstk hc salt ikms info Hb Hs Hi) as (hc1 & E1 & H1).
  destruct (hkdf_expand_ok stk Hstk prk info hc1 0 lens Hl H1 Hn Hsum) as (hc2 & E2 & H2).
  destruct (produce_ok stk Hstk prk info Hl hc2 len _ H2 Hlen) as (hc3 & E3 & _).
  exists hc1, hc2, hc3. eexists _, _. split; [exact E1|]. split; [exact E2|]. split; [exact E3|].
  assert (0 <= sum lens) by (clear -Hn; induction Hn; cbn; [lia|unfold sum in *; lia]).
  pose proof (hlen_pos (dig := dig)).
  change (ztake ?n ?l) with (zslice l 0 n).
  rewrite (zslice_app _ 0 (sum lens)) by (rewrite ?zlen_okm; lia).
  f_equal. lia.
Qed.

(** a limit that is not kept: RFC 5869 and the documentation of
    [br_hkdf_produce] bound the whole output to 255 blocks, but the request that
    finds the chunk number at 256 leaves it there, and the next request computes
    block 257 as block 1: it gets the first bytes of the output a second time. *)
Theorem hkdf_restarts `{L : HashLaws dig H} stk hc salt ikms info lens len n :
  hash_storage stk -> zlen (hk_buf hc) = 64 -> zlen (salt_bytes (dig := dig) salt) < 2 ^ 61 ->
  block_size dig + zlen (concat ikms) < 2 ^ 61 ->
  block_size dig + br_digest_size dig + zlen info + 1 < 2 ^ 61 ->
  Forall (fun n => 0 <= n) lens -> sum lens <= br_digest_size dig * 255 < sum lens + len ->
  0 < n <= br_digest_size dig ->
  let prk := HMAC H (block_size dig) (salt_bytes (dig := dig) salt) (concat ikms) in
  exists hc1 hc2 hc3 hc4 out out',
    hkdf_extract stk hc salt ikms = Some hc1 /\ hkdf_expand stk hc1 info lens = Some (hc2, out) /\
    br_hkdf_produce dig stk hc2 info len = Some (hc3, out') /\ zlen out' < len /\
    br_hkdf_produce dig stk hc3 info n = Some (hc4, ztake n (okm (H := H) (dig := dig) prk info 255)).
Proof.
  intros Hstk Hb Hs Hi Hl Hn [Hsum Hover] Hlen prk.
  destruct (hkdf_extract_ok stk Hstk hc salt ikms info Hb Hs Hi) as (hc1 & E1 & H1).
  destruct (hkdf_expand_ok stk Hstk prk info hc1 0 lens Hl H1 Hn Hsum) as (hc2 & E2 & H2).
  destruct (produce_ok stk Hstk prk info Hl hc2 len _ H2 ltac:(lia)) as (hc3 & E3 & H3).
  rewrite (proj2 (Z.leb_gt _ _)) in H3 by lia.
  destruct (exhausted_restarts stk prk info hc3 n Hstk Hl H3 Hlen) as (hc4 & E4).
  exists hc1, hc2, hc3, hc4. eexists _, _. split; [exact E1|]. split; [exact E2|]. split; [exact E3|]. split; [|exact E4].
  assert (0 <= sum lens) by (clear -Hn; induction Hn; cbn; [lia|unfold sum in *; lia]).
  pose proof (hlen_pos (dig := dig)). rewrite Z.add_0_l, zlen_zslice by (rewrite ?zlen_okm; lia). lia.
Qed.

Definition hkdf_demo : br_hkdf_context br_sha256_vtable := Hkdf (inr (HmacKey [] [])) (zeros 64) 0 0 0.
Definition demo_prk : list Z := HMAC SHA256 64 (zeros 32) [1; 2; 3].

Lemma hkdf_rfc5869_witness :
  exists hc1 hc2 hc3 out out',
    hkdf_extract sha256_slot hkdf_demo None [[1]; [2; 3]] = Some hc1 /\
    hkdf_expand sha256_slot hc1 [9] [10; 50] = Some (hc2, out) /\
    br_hkdf_produce br_sha256_vtable sha256_slot hc2 [9] 5 = Some (hc3, out') /\
    out ++ out' = ztake 65 (okm (H := SHA256) (dig := br_sha256_vtable) demo_prk [9] 255).
Proof.
  apply (hkdf_rfc5869 (L := sha256_laws) sha256_slot hkdf_demo None [[1]; [2; 3]] [9] [10; 50] 5);
    first [reflexivity | repeat constructor; discriminate | discriminate].
Defined.

Lemma hkdf_restarts_witness :
  exists hc1 hc2 hc3 hc4 out out',
    hkdf_extract sha256_slot hkdf_demo None [[1]; [2; 3]] = Some hc1 /\
    hkdf_expand sha256_slot hc1 [9] [8160] = Some (hc2, out) /\
    br_hkdf_produce br_sha256_vtable sha256_slot hc2 [9] 1 = Some (hc3, out') /\ zlen out' < 1 /\
    br_hkdf_produce br_sha256_vtable sha256_slot hc3 [9] 4 =
      Some (hc4, ztake 4 (okm (H := SHA256) (dig := br_sha256_vtable) demo_prk [9] 255)).
Proof.
  apply (hkdf_restarts (L := sha256_laws) sha256_slot hkdf_demo None [[1]; [2; 3]] [9] [8160] 1 4);
    first [reflexivity | repeat constructor; discriminate | split; [discriminate|reflexivity]
      | split; [reflexivity|discriminate]].
Defined.
