(* ===== verification/PrfSpec.v ===== *)
(** * PrfSpec: the TLS PRF are those of RFC 2246 and RFC 5246, HMAC_DRBG is the one
    of NIST SP 800-90A, MGF1 the one of PKCS#1 *)
From S2P Require Import Prelude.
From S2P Require Import Words.
From S2P Require Import Hash.
From S2P Require Import HashSpec.
From S2P Require Import Hmac.
From S2P Require Import Kdf.

Section spec.
Context `{L : HashLaws dig H} (stk : hctx dig) (Hstk : hash_storage stk).
Notation blen := (block_size dig).
Notation hlen := (br_digest_size dig).
Notation HM := (HMAC H blen).

Lemma digest_pos : 0 < hlen <= 64.
Proof. pose proof law_block. lia. Qed.
Lemma slot_ok : hash_storage (hdig (hmac_slot dig stk)).
Proof. exact Hstk. Qed.

(** ** P_hash of RFC 2246, 5 and RFC 5246, 5 *)

(** HMAC(secret, A(i) + seed) + HMAC(secret, A(i+1) + seed) + ..., [n] terms,
    where [a] is A(i). *)
Fixpoint P_hash_from (n : nat) (secret a seed : list Z) : list Z :=
  match n with
  | O => []
  | S n => HM secret (a ++ seed) ++ P_hash_from n secret (HM secret a) seed
  end.
Definition P_hash (n : nat) (secret seed : list Z) : list Z := P_hash_from n secret (HM secret seed) seed.

Lemma zlen_P_hash n secret a seed : zlen (P_hash_from n secret a seed) = hlen * Z.of_nat n.
Proof.
  revert a. induction n as [|n IH]; intros a; cbn [P_hash_from]; [simpl; lia|].
  rewrite zlen_app, HMAC_size, IH. lia.
Qed.

Lemma mac_seeds ctx kc K xs seed : hash_storage (hdig ctx) -> key_ok kc K ->
  blen + zlen (concat xs) + zlen (concat seed) < 2 ^ 61 ->
  let c := seed_updates dig seed (fold_left (br_hmac_update dig) xs (br_hmac_init dig ctx kc 0)) in
  br_hmac_out dig stk c = HM K (concat xs ++ concat seed) /\ hash_storage (hdig c).
Proof.
  intros Hc Hk Hl. unfold seed_updates. rewrite <- fold_left_app, <- concat_app. apply mac_ok; [done..|].
  rewrite concat_app, zlen_app. lia.
Qed.

Lemma phash_loop_ok fuel kc secret hc a label seed buf : key_ok kc secret -> hash_storage (hdig hc) ->
  zlen a = hlen -> 0 < zlen buf <= Z.of_nat fuel ->
  blen + hlen + zlen label + zlen (concat seed) < 2 ^ 61 ->
  phash_loop dig stk fuel kc hc a label seed buf =
    Some (zxor buf (P_hash_from fuel secret a (label ++ concat seed))).
Proof.
  intros Hk. revert hc a buf. induction fuel as [|fuel IH]; intros hc a buf Hc Ha Hb Hl; [lia|].
  pose proof digest_pos. cbn [phash_loop P_hash_from]. rewrite (ztake_ge hlen a) by lia.
  destruct (mac_seeds hc kc secret [a; label] seed Hc Hk) as [E1 S1];
    [cbn [concat]; rewrite app_nil_r, zlen_app; lia|].
  cbn [fold_left concat] in E1, S1. rewrite app_nil_r, <- (assoc_L (++)) in E1. rewrite E1.
  set (hc1 := seed_updates _ _ _) in *. clearbody hc1.
  destruct (mac_ok hc1 kc secret [a] stk S1 Hk Hstk) as [E2 S2]; [cbn [concat]; rewrite app_nil_r; lia|].
  cbn [fold_left concat] in E2, S2. rewrite app_nil_r in E2. rewrite E2.
  set (tmp := HM secret (a ++ label ++ concat seed)). assert (zlen tmp = hlen) as Lt by apply HMAC_size.
  set (rest := P_hash_from _ _ _ _). destruct (Z.le_gt_cases (zlen buf) hlen) as [Hle|Hgt].
  - rewrite Z.min_r, zdrop_ge, ztake_ge by lia. cbn [length Z.of_nat Z.eqb].
    rewrite zxor_take, zxor_long by lia. done.
  - rewrite Z.min_l by lia. rewrite (proj2 (Z.eqb_neq (zlen (zdrop hlen buf)) 0)) by (rewrite zlen_zdrop; lia).
    rewrite IH; [|exact S2|apply HMAC_size|rewrite zlen_zdrop; lia|exact Hl].
    cbn [mbind option_bind]. f_equal. rewrite (ztake_ge hlen tmp) by lia.
    rewrite <- (ztake_zdrop hlen buf) at 3. rewrite zxor_app by (rewrite zlen_ztake; lia). done.
Qed.

Lemma phash_ok dst secret label seed : zlen secret < 2 ^ 61 ->
  blen + hlen + zlen label + zlen (concat seed) < 2 ^ 61 ->
  br_tls_phash dig stk dst secret label seed =
    Some (zxor dst (P_hash (length dst) secret (take (strlen label) label ++ concat seed))).
Proof.
  intros Hs Hl. unfold br_tls_phash. destruct (Z.eqb_spec (zlen dst) 0) as [He|He].
  { by destruct dst. }
  set (lab := take (strlen label) label).
  assert (zlen lab <= zlen label) by (subst lab; rewrite length_take; lia). pose proof digest_pos.
  pose proof (key_init_ok stk secret Hstk Hs) as Hk.
  destruct (mac_seeds (hmac_slot dig stk) _ secret [lab] seed slot_ok Hk) as [E1 S1];
    [cbn [concat]; rewrite app_nil_r; lia|].
  cbn [fold_left concat] in E1, S1. rewrite app_nil_r in E1. rewrite E1. unfold P_hash.
  apply phash_loop_ok; [done|done|apply HMAC_size|lia|lia].
Qed.

(** Enough terms are enough terms. *)
Lemma P_hash_from_more n m secret a seed : exists r, P_hash_from (n + m) secret a seed = P_hash_from n secret a seed ++ r.
Proof.
  revert a. induction n as [|n IH]; intros a; [by eexists|]. cbn [P_hash_from Nat.add].
  destruct (IH (HM secret a)) as [r ->]. exists r. by rewrite (assoc_L (++)).
Qed.
End spec.

(** RFC 5246, 5: the output is the first [len] bytes of P_hash. *)
Lemma tls12_prf_ok `{L : HashLaws dig H} stk len secret label seed : hash_storage stk ->
  0 <= len -> zlen secret < 2 ^ 61 ->
  block_size dig + br_digest_size dig + zlen label + zlen (concat seed) < 2 ^ 61 ->
  br_tls_phash dig stk (zeros len) secret label seed =
    Some (ztake len (P_hash (H := H) (dig := dig) (Z.to_nat len) secret (take (strlen label) label ++ concat seed))).
Proof.
  intros Hstk Hn Hs Hl. rewrite (phash_ok stk Hstk) by done. unfold zeros at 2. rewrite length_replicate.
  pose proof (digest_pos (dig := dig)). rewrite zxor_zeros; [done|].
  unfold P_hash. rewrite (zlen_P_hash (L := L)). nia.
Qed.

(** C28: the PRF of TLS 1.2 is the first bytes of P_SHA256 (or P_SHA384) of secret
    and label + seed, for a label that ends at its NUL byte and a seed in any number
    of chunks; that of TLS 1.0 and 1.1 is P_MD5 over the first half of the secret
    xored with P_SHA1 over its second half, where the halves share the middle byte
    of a secret of odd length. *)
Theorem tls_prf_rfc len secret label seed :
  0 <= len -> zlen secret < 2 ^ 61 -> 192 + zlen label + zlen (concat seed) < 2 ^ 61 ->
  let s := take (strlen label) label ++ concat seed in
  let n := Z.to_nat len in
  let half := (zlen secret + 1) / 2 in
  (forall stk, zlen (mbuf stk) = 64 -> br_tls12_sha256_prf stk len secret label seed =
    Some (ztake len (P_hash (H := SHA256) (dig := br_sha256_vtable) n secret s))) /\
  (forall stk, zlen (mbuf stk) = 128 -> br_tls12_sha384_prf stk len secret label seed =
    Some (ztake len (P_hash (H := SHA384) (dig := br_sha384_vtable) n secret s))) /\
  (forall stk5 stk1, zlen (mbuf stk5) = 64 -> zlen (mbuf stk1) = 64 ->
    br_tls10_prf stk5 stk1 len secret label seed =
    Some (zxor (ztake len (P_hash (H := MD5) (dig := br_md5_vtable) n (ztake half secret) s))
               (P_hash (H := SHA1) (dig := br_sha1_vtable) n (zdrop (zlen secret - half) secret) s))).
Proof.
  intros Hn Hs Hl s n half. split; [|split].
  - intros stk Hstk. apply (tls12_prf_ok (L := sha256_laws) stk); [exact Hstk|done..|].
    change (block_size br_sha256_vtable) with 64. change (br_digest_size br_sha256_vtable) with 32. lia.
  - intros stk Hstk. apply (tls12_prf_ok (L := sha384_laws) stk); [exact Hstk|done..|].
    change (block_size br_sha384_vtable) with 128. change (br_digest_size br_sha384_vtable) with 48. lia.
  - intros stk5 stk1 H5 H1. unfold br_tls10_prf. rewrite szadd_small, Z.shiftr_div_pow2 by lia. change (2 ^ 1) with 2.
    fold half. assert (0 <= half <= zlen secret) by (subst half; Z.div_mod_to_equations; lia).
    rewrite (tls12_prf_ok (L := md5_laws) stk5); [|exact H5|done|rewrite zlen_ztake; lia|].
    2:{ change (block_size br_md5_vtable) with 64. change (br_digest_size br_md5_vtable) with 16. lia. }
    cbn [mbind option_bind]. set (P := P_hash _ _ _).
    assert (zlen (ztake len P) = len) as Lp.
    { apply zlen_ztake. split; [done|]. subst P. unfold P_hash. rewrite (zlen_P_hash (L := md5_laws)).
      change (br_digest_size br_md5_vtable) with 16. lia. }
    unfold zslice. rewrite (ztake_ge half (zdrop _ _)) by (rewrite zlen_zdrop; lia).
    rewrite (phash_ok (L := sha1_laws) stk1); [|exact H1|rewrite zlen_zdrop; lia|].
    2:{ change (block_size br_sha1_vtable) with 64. change (br_digest_size br_sha1_vtable) with 20. lia. }
    fold s. do 2 f_equal. f_equal. subst n. lia.
Qed.

Lemma tls_prf_rfc_witness :
  let label := [0x6b; 0x65; 0x79; 0; 7] in
  br_tls12_sha256_prf sha256_slot 40 [1; 2; 3] label [[4]; [5; 6]] =
    Some (ztake 40 (P_hash (H := SHA256) (dig := br_sha256_vtable) (Z.to_nat 40) [1; 2; 3]
      (take (strlen label) label ++ concat [[4]; [5; 6]]))) /\
  take (strlen label) label = [0x6b; 0x65; 0x79].
Proof.
  intros label. split; [|reflexivity].
  destruct (tls_prf_rfc 40 [1; 2; 3] label [[4]; [5; 6]]) as [E _]; [discriminate|reflexivity|reflexivity|].
  exact (E sha256_slot eq_refl).
Defined.

(** ** HMAC_DRBG of SP 800-90A, 10.1.2 *)

Section drbg.
Context `{L : HashLaws dig H} (stk : hctx dig) (Hstk : hash_storage stk).
Notation blen := (block_size dig).
Notation hlen := (br_digest_size dig).
Notation HM := (HMAC H blen).

(** HMAC_DRBG_Update. *)
Definition DRBG_update (data K V : list Z) : list Z * list Z :=
  let K := HM K (V ++ [0x00] ++ data) in
  let V := HM K V in
  if zlen data =? 0 then (K, V)
  else let K := HM K (V ++ [0x01] ++ data) in (K, HM K V).
(** The loop of HMAC_DRBG_Generate: [n] blocks and the last V. *)
Fixpoint DRBG_blocks (n : nat) (K V : list Z) : list Z * list Z :=
  match n with
  | O => ([], V)
  | S n => let V := HM K V in let '(out, V') := DRBG_blocks n K V in (V ++ out, V')
  end.
Definition DRBG_generate (len : Z) (K V : list Z) : list Z * (list Z * list Z) :=
  let '(out, V) := DRBG_blocks (Z.to_nat ((len + hlen - 1) / hlen)) K V in
  (ztake len out, DRBG_update [] K V).
Definition DRBG_instantiate (seed : list Z) : list Z * list Z :=
  DRBG_update seed (replicate (Z.to_nat hlen) 0x00) (replicate (Z.to_nat hlen) 0x01).

(** A context in the state [(K, V)]. *)
Definition array_is (b x : list Z) : Prop := zlen b = 64 /\ zlen x = hlen /\ ztake hlen b = x.
Definition drbg_is (ctx : br_hmac_drbg_context) (KV : list Z * list Z) : Prop :=
  array_is (drbg_K ctx) KV.1 /\ array_is (drbg_V ctx) KV.2.

Lemma array_blit b x : zlen b = 64 -> zlen x = hlen -> array_is (zblit b 0 x) x.
Proof.
  intros Hb Hx. pose proof law_block. split; [rewrite zlen_zblit; lia|]. split; [done|].
  rewrite <- Hx. pose proof (zslice_zblit_same b 0 x ltac:(lia) ltac:(lia)) as E. exact E.
Qed.

Lemma blit_key Ka x : zlen Ka = 64 -> zlen x = hlen ->
  array_is (zblit Ka 0 x) x /\ key_ok (br_hmac_key_init dig stk (ztake hlen (zblit Ka 0 x))) x.
Proof.
  intros Hb Hx. pose proof (array_blit Ka x Hb Hx) as Ha. split; [exact Ha|]. destruct Ha as (_ & _ & ->).
  pose proof law_block. apply key_init_ok; [exact Hstk|lia].
Qed.

Lemma drbg_step_ok kc K hc V x : key_ok kc K -> hash_storage (hdig hc) -> array_is V x ->
  let r := drbg_step dig stk kc hc V in hash_storage (hdig r.1) /\ array_is r.2 (HM K x).
Proof.
  intros Hk Hc (Hb & Hx & E). unfold drbg_step. rewrite E. cbn [fst snd]. pose proof law_block.
  destruct (mac_ok hc kc K [x] stk Hc Hk Hstk) as [Em Hs]; [cbn [concat]; rewrite app_nil_r; lia|].
  cbn [fold_left concat] in Em, Hs. rewrite app_nil_r in Em. rewrite Em. split; [done|].
  apply array_blit; [done|apply HMAC_size].
Qed.
Lemma drbg_rekey_ok kc K hc b seed Ka V x : key_ok kc K -> hash_storage (hdig hc) -> array_is V x ->
  zlen Ka = 64 -> blen + hlen + 1 + zlen seed < 2 ^ 61 ->
  let r := drbg_rekey dig stk kc hc b seed Ka V in
  let K' := HM K (x ++ [b] ++ seed) in
  hash_storage (hdig r.1.1) /\ array_is r.1.2 K' /\ key_ok r.2 K'.
Proof.
  intros Hk Hc (Hb & Hx & E) HKa Hl. unfold drbg_rekey. rewrite E. cbn [fst snd].
  destruct (mac_ok hc kc K [x; [b]; seed] stk Hc Hk Hstk) as [Em Hs].
  { cbn [concat]. rewrite app_nil_r, !zlen_app. cbn [length]. lia. }
  cbn [fold_left concat] in Em, Hs. rewrite app_nil_r in Em. rewrite Em.
  split; [done|]. apply blit_key; [done|apply HMAC_size].
Qed.

Lemma drbg_update_ok ctx K V seed : drbg_is ctx (K, V) -> blen + hlen + 1 + zlen seed < 2 ^ 61 ->
  drbg_is (br_hmac_drbg_update dig stk ctx seed) (DRBG_update seed K V).
Proof.
  destruct ctx as [Ka Va]. intros [HK HV] Hl. cbn [drbg_K drbg_V fst snd] in *. pose proof HK as (HK1 & HK2 & HK3).
  unfold br_hmac_drbg_update, DRBG_update. rewrite HK3. pose proof law_block.
  pose proof (key_init_ok stk K Hstk ltac:(lia)) as Hk.
  destruct (drbg_rekey_ok _ K (hmac_slot dig stk) 0x00 seed Ka Va V Hk Hstk HV HK1 Hl) as (Hs & HKa & Hkc).
  destruct (drbg_rekey _ _ _ _ _ _ _ _) as [[hc1 K1] kc1]. cbn [fst snd] in *.
  destruct (drbg_step_ok kc1 _ hc1 Va V Hkc Hs HV) as [Hs2 HV2].
  destruct (drbg_step _ _ _ _ _) as [hc2 V2]. cbn [fst snd] in *.
  destruct (zlen seed =? 0); [by split|].
  destruct (drbg_rekey_ok kc1 _ hc2 0x01 seed K1 V2 _ Hkc Hs2 HV2 ltac:(apply HKa) Hl) as (Hs3 & HK3' & Hkc3).
  destruct (drbg_rekey _ _ _ _ _ _ _ _) as [[hc3 K3] kc3]. cbn [fst snd] in *.
  destruct (drbg_step_ok kc3 _ hc3 V2 _ Hkc3 Hs3 HV2) as [_ HV4].
  destruct (drbg_step _ _ _ _ _) as [hc4 V4]. cbn [fst snd] in *. by split.
Qed.

Lemma drbg_loop_ok kc K fuel hc V x out len : key_ok kc K -> hash_storage (hdig hc) -> array_is V x ->
  0 <= len <= Z.of_nat fuel ->
  let r := drbg_loop dig stk fuel kc hc V out len in
  let s := DRBG_blocks (Z.to_nat ((len + hlen - 1) / hlen)) K x in
  hash_storage (hdig r.1.1) /\ array_is r.1.2 s.2 /\ r.2 = out ++ ztake len s.1.
Proof.
  intros Hk. pose proof law_block.
  assert (forall l, l <= 0 -> 0 <= l -> Z.to_nat ((l + hlen - 1) / hlen) = 0%nat) as Hz.
  { intros l ? ?. rewrite Z.div_small by lia. done. }
  revert hc V x out len. induction fuel as [|fuel IH]; intros hc V x out len Hc HV Hl; cbv zeta.
  { rewrite Hz, ztake_le0 by lia. cbn. by rewrite app_nil_r. }
  cbn [drbg_loop]. destruct (Z.leb_spec len 0) as [Hle|Hgt].
  { rewrite Hz, ztake_le0 by lia. cbn. by rewrite app_nil_r. }
  destruct (drbg_step_ok kc K hc V x Hk Hc HV) as [Hs1 HV1].
  destruct (drbg_step _ _ _ _ _) as [hc1 V1]. cbn [fst snd] in Hs1, HV1.
  set (c := if _ <? _ then _ else _). assert (c = Z.min len hlen) as Ec
    by (subst c; destruct (Z.ltb_spec len hlen); lia). clearbody c.
  specialize (IH hc1 V1 _ (out ++ ztake c V1) (len - c) Hs1 HV1 ltac:(lia)). cbv zeta in IH.
  assert (Z.to_nat ((len + hlen - 1) / hlen) = S (Z.to_nat ((len - c + hlen - 1) / hlen))) as ->.
  { destruct (Z.le_gt_cases len hlen).
    - rewrite (Hz (len - c)) by lia. replace (len + hlen - 1) with (len - 1 + 1 * hlen) by lia.
      rewrite Z.div_add, Z.div_small by lia. done.
    - replace (len + hlen - 1) with (len - c + hlen - 1 + 1 * hlen) by lia. rewrite Z.div_add by lia.
      assert (0 <= (len - c + hlen - 1) / hlen) by (apply Z.div_pos; lia). lia. }
  cbn [DRBG_blocks]. destruct (DRBG_blocks _ K (HM K x)) as [o V']. cbn [fst snd] in *.
  destruct IH as (I1 & I2 & I3). split; [exact I1|]. split; [exact I2|]. rewrite I3, <- (assoc_L (++)). f_equal.
  destruct HV1 as (Hb & Hx & E). rewrite <- E in *. destruct (Z.le_gt_cases len hlen).
  - rewrite (ztake_le0 (len - c)), app_nil_r, ztake_app_le by lia. replace c with len by lia.
    rewrite <- (ztake_zdrop hlen V1) at 1. by rewrite ztake_app_le by lia.
  - replace c with hlen by lia. rewrite ztake_app_ge by lia. by rewrite Hx.
Qed.

Lemma drbg_generate_ok ctx K V len : drbg_is ctx (K, V) -> 0 <= len -> blen + hlen + 1 < 2 ^ 61 ->
  let r := br_hmac_drbg_generate dig stk ctx len in
  r.2 = (DRBG_generate len K V).1 /\ drbg_is r.1 (DRBG_generate len K V).2.
Proof.
  destruct ctx as [Ka Va]. intros [HK HV] Hn Hl. cbn [drbg_K drbg_V fst snd] in *. pose proof HK as (HK1 & HK2 & HK3).
  unfold br_hmac_drbg_generate, DRBG_generate. rewrite HK3. pose proof law_block.
  pose proof (key_init_ok stk K Hstk ltac:(lia)) as Hk.
  destruct (drbg_loop_ok _ K (Z.to_nat len) (hmac_slot dig stk) Va V [] len Hk Hstk HV ltac:(lia)) as (Hs1 & HV1 & Eo).
  destruct (drbg_loop _ _ _ _ _ _ _ _) as [[hc1 V1] o1]. destruct (DRBG_blocks _ K V) as [out V']. cbn [fst snd] in *.
  pose proof HV1 as (_ & HV2 & E). rewrite E.
  destruct (mac_ok hc1 _ K [V'; [0x00]] stk Hs1 Hk Hstk) as [Em Hs2].
  { cbn [concat]. rewrite app_nil_r, !zlen_app. cbn [length]. lia. }
  cbn [fold_left concat] in Em, Hs2. rewrite app_nil_r in Em. rewrite Em.
  set (K' := HM K (V' ++ [0x00])). destruct (blit_key Ka K' HK1 (HMAC_size _ _ _)) as [HK' Hkc].
  destruct (drbg_step_ok _ K' _ V1 V' Hkc Hs2 HV1) as [_ HV3].
  destruct (drbg_step _ _ _ _ _) as [hc3 V3]. cbn [fst snd] in *. unfold DRBG_update. cbn [length Z.of_nat Z.eqb].
  rewrite app_nil_r. fold K'. split; [exact Eo|]. by split.
Qed.
Lemma drbg_init_ok ctx seed : zlen (drbg_K ctx) = 64 -> zlen (drbg_V ctx) = 64 ->
  blen + hlen + 1 + zlen seed < 2 ^ 61 ->
  drbg_is (br_hmac_drbg_init dig stk ctx seed) (DRBG_instantiate seed).
Proof.
  intros HK HV Hl. unfold br_hmac_drbg_init, DRBG_instantiate. pose proof law_block.
  apply drbg_update_ok; [|done]. split; cbn [drbg_K drbg_V fst snd]; (apply array_blit; [done|rewrite length_replicate; lia]).
Qed.

(** A history: generate requests and additional seeds after the first one. *)
Inductive drbg_op : Type := Generate (len : Z) | Reseed (seed : list Z).
Definition op_ok (o : drbg_op) : Prop :=
  match o with
  | Generate len => 0 <= len
  | Reseed seed => blen + hlen + 1 + zlen seed < 2 ^ 61
  end.
(** The bytes that each request gets. *)
Fixpoint drbg_run (ctx : br_hmac_drbg_context) (ops : list drbg_op) : list (list Z) :=
  match ops with
  | [] => []
  | Generate len :: ops => let '(ctx, out) := br_hmac_drbg_generate dig stk ctx len in out :: drbg_run ctx ops
  | Reseed seed :: ops => drbg_run (br_hmac_drbg_update dig stk ctx seed) ops
  end.
Fixpoint DRBG_run (KV : list Z * list Z) (ops : list drbg_op) : list (list Z) :=
  match ops with
  | [] => []
  | Generate len :: ops => let '(out, KV) := DRBG_generate len KV.1 KV.2 in out :: DRBG_run KV ops
  | Reseed seed :: ops => DRBG_run (DRBG_update seed KV.1 KV.2) ops
  end.
Lemma drbg_run_ok ctx KV ops : drbg_is ctx KV -> Forall op_ok ops -> drbg_run ctx ops = DRBG_run KV ops.
Proof.
  intros Hc Ho. revert ctx KV Hc. induction Ho as [|[len|seed] ops Hop _ IH]; intros ctx [K V] Hc; [done|..];
    cbn [drbg_run DRBG_run fst snd op_ok] in *; pose proof law_block.
  - pose proof (drbg_generate_ok ctx K V len Hc Hop ltac:(lia)) as [E1 E2].
    destruct (br_hmac_drbg_generate _ _ _ _) as [ctx' out]. destruct (DRBG_generate _ _ _) as [out' KV'].
    cbn [fst snd] in *. by rewrite E1, (IH _ _ E2).
  - by apply IH, drbg_update_ok.
Qed.
End drbg.

(** C29: the random generator, instantiated with a seed and asked for any sequence
    of outputs and reseedings, is the HMAC_DRBG of NIST SP 800-90A (10.1.2) without
    its reseed counter: each request gets the leftmost bytes of the chain of V and
    is followed by an update without additional input. *)
Theorem hmac_drbg_sp800_90a `{L : HashLaws dig H} stk ctx seed ops :
  hash_storage stk -> zlen (drbg_K ctx) = 64 -> zlen (drbg_V ctx) = 64 ->
  block_size dig + br_digest_size dig + 1 + zlen seed < 2 ^ 61 -> Forall (op_ok (dig := dig)) ops ->
  drbg_run stk (br_hmac_drbg_init dig stk ctx seed) ops =
    DRBG_run (H := H) (dig := dig) (DRBG_instantiate (H := H) (dig := dig) seed) ops.
Proof. intros Hstk HK HV Hl Ho. apply (drbg_run_ok stk Hstk); [|done]. by apply drbg_init_ok. Qed.

Lemma hmac_drbg_sp800_90a_witness :
  let ctx := Drbg (zeros 64) (zeros 64) in
  let ops := [Generate 5; Reseed [7]; Generate 40] in
  drbg_run sha256_slot (br_hmac_drbg_init br_sha256_vtable sha256_slot ctx [1; 2; 3]) ops =
    DRBG_run (H := SHA256) (dig := br_sha256_vtable) (DRBG_instantiate (H := SHA256) (dig := br_sha256_vtable) [1; 2; 3]) ops.
Proof.
  intros ctx ops. apply (hmac_drbg_sp800_90a (L := sha256_laws) sha256_slot ctx [1; 2; 3] ops);
    first [reflexivity | repeat constructor; first [discriminate | reflexivity]].
Defined.

(** ** MGF1 of PKCS#1, B.2.1 *)

Section mgf1.
Context `{L : HashLaws dig H} (stk : hctx dig) (Hstk : hash_storage stk).
Notation hlen := (br_digest_size dig).

(** Hash(seed | C) for [n] values of the counter. *)
Fixpoint MGF1_from (n : nat) (c : Z) (seed : list Z) : list Z :=
  match n with
  | O => []
  | S n => H (seed ++ br_enc32be c) ++ MGF1_from n (c + 1) seed
  end.
Definition MGF1 (seed : list Z) (len : Z) : list Z := ztake len (MGF1_from (Z.to_nat len) 0 seed).

Lemma zlen_MGF1_from n c seed : zlen (MGF1_from n c seed) = hlen * Z.of_nat n.
Proof.
  revert c. induction n as [|n IH]; intros c; cbn [MGF1_from]; [simpl; lia|].
  rewrite zlen_app, law_size, IH. lia.
Qed.

Lemma zblit_app_mid (pre rest x : list Z) : zlen x <= zlen rest ->
  zblit (pre ++ rest) (zlen pre) x = pre ++ x ++ zdrop (zlen x) rest.
Proof.
  intros. unfold zblit. rewrite ztake_app_le, ztake_ge, zdrop_app_ge by lia. do 3 f_equal. lia.
Qed.

Lemma mgf1_loop_ok fuel seed u c pre rest N : u = zlen pre -> zlen rest < Z.of_nat fuel ->
  zlen rest <= Z.of_nat N ->
  0 <= c -> c * hlen = u -> c * hlen + zlen rest <= 2 ^ 32 * hlen -> zlen seed + 4 < 2 ^ 61 ->
  mgf1_loop dig stk fuel seed u c (pre ++ rest) =
    Some (pre ++ zxor rest (MGF1_from N c seed)).
Proof.
  revert u c pre rest N. induction fuel as [|fuel IH]; intros u c pre rest N Hu Hf HN Hc Hcu Hlim Hl; [lia|].
  pose proof law_block. cbn [mgf1_loop]. rewrite zlen_app, <- Hu.
  destruct (Z.ltb_spec u (u + zlen rest)) as [Hlt|Hge].
  2:{ assert (rest = []) as -> by (destruct rest; [done|cbn [length] in *; lia]). done. }
  assert (hash_absorbed (hupdate dig (hupdate dig (hinit dig stk) seed) (br_enc32be c)) (seed ++ br_enc32be c)) as Ha.
  { assert (zlen (seed ++ br_enc32be c) < 2 ^ 61) by (rewrite zlen_app, zlen_enc32be; lia).
    apply law_update; [|done]. apply (law_update _ [] seed); [by apply law_init|cbn [app]; lia]. }
  rewrite (law_out _ _ Ha). set (x := H (seed ++ br_enc32be c)).
  assert (zlen x = hlen) as Lx by apply law_size.
  destruct N as [|k]; [lia|]. cbn [MGF1_from]. fold x.
  replace (u + zlen rest - u) with (zlen rest) by lia. set (n := Z.min hlen (zlen rest)).
  rewrite zslice_app_r by lia. replace (u - zlen pre) with 0 by lia.
  change (zslice rest 0 n) with (ztake n rest). set (y := zxor (ztake n rest) (ztake n x)).
  assert (zlen y = n) as Ly by (subst y; rewrite zlen_zxor; rewrite !zlen_ztake; lia).
  rewrite Hu, zblit_app_mid, Ly by lia. rewrite <- Hu.
  destruct (Z.le_gt_cases (zlen rest) hlen) as [Hle|Hgt].
  - assert (n = zlen rest) as En by lia. assert (y = zxor rest x) as ->
      by (subst y; rewrite En, ztake_ge, zxor_take by lia; done).
    rewrite zdrop_ge, app_nil_r by lia. destruct fuel as [|fuel]; [lia|]. cbn [mgf1_loop].
    rewrite zxor_long by lia. rewrite zlen_app, zlen_zxor by lia. 
    assert (hlen * c <= hlen * 2 ^ 32) by lia.
    rewrite szadd_small by lia. by rewrite (proj2 (Z.ltb_ge (u + hlen) _)) by lia.
  - assert (n = hlen) as En by lia. rewrite (assoc_L (++)).
    assert (hlen * c <= hlen * 2 ^ 32) by lia. rewrite szadd_small by lia.
    assert (c + 1 < 2 ^ 32) by nia. unfold add32. rewrite u32_small by lia.
    rewrite (IH (u + hlen) (c + 1) (pre ++ y) (zdrop n rest) k); rewrite ?zlen_app, ?zlen_zdrop; try lia.
    rewrite <- (assoc_L (++)). do 2 f_equal. subst y. rewrite (ztake_ge n x) by lia.
    rewrite <- zxor_app by (rewrite zlen_ztake; lia). by rewrite ztake_zdrop.
Qed.
End mgf1.

(** [br_mgf1_xor] masks the data in place with MGF1 of the seed as PKCS#1
    defines it, for data of at most 2^32 hash lengths. *)
Theorem mgf1_pkcs1 `{L : HashLaws dig H} stk data seed : hash_storage stk -> zlen seed + 4 < 2 ^ 61 ->
  zlen data <= 2 ^ 32 * br_digest_size dig ->
  br_mgf1_xor dig stk data seed = Some (zxor data (MGF1 (H := H) seed (zlen data))).
Proof.
  intros Hstk Hs Hd. unfold br_mgf1_xor, MGF1. rewrite zxor_take, Nat2Z.id.
  by apply (mgf1_loop_ok stk Hstk _ seed 0 0 [] data); try lia.
Qed.

Lemma mgf1_pkcs1_witness :
  br_mgf1_xor br_sha256_vtable sha256_slot (zeros 40) [1; 2; 3] =
    Some (zxor (zeros 40) (MGF1 (H := SHA256) [1; 2; 3] (zlen (zeros 40)))).
Proof. apply (mgf1_pkcs1 (L := sha256_laws)); first [reflexivity | discriminate]. Defined.
