(* ===== verification/WebSocket.v ===== *)
(** * WebSocket: the unified connections of [gfns_conn.c] and the WebSocket client of [gfns_ws.c]

    A connection is a socket, with a TLS context or without; a WebSocket is a
    connection and a flag.  The socket calls and the [tlsv3_client_*] functions,
    which [gfns_conn.c] calls and no file of the repository defines, are the
    class [Sockets] over a state [W] of the world.  C strings are the lists of
    their bytes, without the terminating NUL. *)
From Stdlib Require Import String Ascii.
From S2P Require Import Prelude.
From S2P Require Import Effects.

(** The bytes of a string literal. *)
Definition str (s : string) : list Z := map (fun a => Z.of_nat (nat_of_ascii a)) (list_ascii_of_string s).
Definition crlf : list Z := [13; 10].

(** [T] is the type of TLS client contexts.  A read yields [None] for a negative
    result and the bytes otherwise; a write yields its result. *)
Class Sockets (W T : Type) := {
  getaddrinfo : W -> list Z -> Z -> W * option Z;
  sock_socket : W -> Z -> W * option Z;
  sock_connect : W -> Z -> Z -> W * bool;
  sock_close : W -> Z -> W;
  sock_recv : W -> Z -> Z -> W * option (list Z);
  sock_send : W -> Z -> list Z -> W * Z;
  tlsv3_client_connect : W -> Z -> list Z -> W * option T;
  tlsv3_client_free : W -> T -> W;
  tlsv3_client_read : W -> T -> Z -> W * option (list Z);
  tlsv3_client_write : W -> T -> list Z -> W * Z;
  mem_alloc : W -> Z -> W * bool }.

(** ** Connections (gfns_conn.c) *)

Record gfns_conn {T : Type} : Type := GfnsConn { csock : Z; is_tls : bool; tls_ctx : option T }.
Arguments gfns_conn : clear implicits.
Arguments GfnsConn {T}.

Section conn.
Context {W T : Type} `{!Sockets W T}.
(** [sizeof(struct gfns_conn)] and [sizeof(struct gfns_ws)]. *)
Context (sizeof_conn sizeof_ws : Z).
Notation conn := (gfns_conn T).

Definition act {A} (f : W -> W * A) : M W A := fun w => let '(w, a) := f w in Some (a, w).
Definition act' (f : W -> W) : M W unit := fun w => Some (tt, f w).

Definition tcp_connect_raw (host : list Z) (port : Z) : M W (option Z) :=
  let! res := act (fun w => getaddrinfo w host port) in
  match res with
  | None => mret' None
  | Some ai =>
      let! s := act (fun w => sock_socket w ai) in
      match s with
      | None => mret' None
      | Some s =>
          let! ok := act (fun w => sock_connect w s ai) in
          if negb ok then act' (fun w => sock_close w s) ;;! mret' None else mret' (Some s)
      end
  end.

Definition gfns_tcp_connect (host : list Z) (port : Z) : M W (option conn) :=
  let! s := tcp_connect_raw host port in
  match s with
  | None => mret' None
  | Some s =>
      let! ok := act (fun w => mem_alloc w sizeof_conn) in
      if negb ok then act' (fun w => sock_close w s) ;;! mret' None
      else mret' (Some (GfnsConn s false None))
  end.

Definition gfns_tls_connect (host : list Z) (port : Z) : M W (option conn) :=
  let! s := tcp_connect_raw host port in
  match s with
  | None => mret' None
  | Some s =>
      let! ctx := act (fun w => tlsv3_client_connect w s host) in
      match ctx with
      | None => act' (fun w => sock_close w s) ;;! mret' None
      | Some ctx =>
          let! ok := act (fun w => mem_alloc w sizeof_conn) in
          if negb ok then
            act' (fun w => tlsv3_client_free w ctx) ;;! act' (fun w => sock_close w s) ;;! mret' None
          else mret' (Some (GfnsConn s true (Some ctx)))
      end
  end.

(** The result as an [int], and the bytes stored at [buf]. *)
Definition gfns_conn_read (c : option conn) (len : Z) : M W (Z * list Z) :=
  match c with
  | None => mret' (-1, [])
  | Some c =>
      let! r := match is_tls c, tls_ctx c with
                | true, Some ctx => act (fun w => tlsv3_client_read w ctx len)
                | true, None => fun _ => None
                | false, _ => act (fun w => sock_recv w (csock c) len)
                end in
      match r with
      | None => mret' (-1, [])
      | Some bs => mret' (i32 (zlen bs), bs)
      end
  end.
Definition gfns_conn_write (c : option conn) (buf : list Z) : M W Z :=
  match c with
  | None => mret' (-1)
  | Some c =>
      match is_tls c, tls_ctx c with
      | true, Some ctx => act (fun w => tlsv3_client_write w ctx buf)
      | true, None => fun _ => None
      | false, _ => act (fun w => sock_send w (csock c) buf)
      end
  end.

Definition gfns_conn_close (c : option conn) : M W Z :=
  match c with
  | None => mret' (-1)
  | Some c =>
      match is_tls c, tls_ctx c with
      | true, Some ctx => act' (fun w => tlsv3_client_free w ctx)
      | true, None => fun _ => None
      | false, _ => mret' tt
      end ;;!
      act' (fun w => sock_close w (csock c)) ;;! mret' 0
  end.

Definition gfns_conn_get_fd (c : option conn) : Z := match c with Some c => csock c | None => -1 end.

(** ** WebSockets (gfns_ws.c) *)

Record gfns_ws : Type := GfnsWs { ws_conn : conn; is_client : bool; closed : bool }.

(** [snprintf(req, 512, ...)]: the literal that stands for the subprotocol is an
    argument of the format, not a format. *)
Definition ws_request (host path : list Z) (subprotocol : option (list Z)) : list Z :=
  str "GET " ++ path ++ str " HTTP/1.1" ++ crlf ++
  str "Host: " ++ host ++ crlf ++
  str "Upgrade: websocket" ++ crlf ++
  str "Connection: Upgrade" ++ crlf ++
  str "Sec-WebSocket-Version: 13" ++ crlf ++
  str "Sec-WebSocket-Key: dGhlIHNhbXBsZSBub25jZQ==" ++ crlf ++
  (match subprotocol with Some _ => str "Sec-WebSocket-Protocol: %s" ++ crlf | None => [] end) ++
  crlf.
Definition ws_send_handshake (ws : gfns_ws) (host path : list Z) (subprotocol : option (list Z)) : M W Z :=
  let req := ztake 511 (ws_request host path subprotocol) in
  let! r := gfns_conn_write (Some (ws_conn ws)) req in
  if r <? 0 then mret' (-1)
  else
    let! rb := gfns_conn_read (Some (ws_conn ws)) 512 in
    let '(n, _) := rb in
    if n <=? 0 then mret' (-1) else mret' 0.

Definition gfns_ws_connect (c : option conn) (host path : option (list Z)) (subprotocol : option (list Z)) :
    M W (option gfns_ws) :=
  match c, host, path with
  | Some c, Some host, Some path =>
      let! ok := act (fun w => mem_alloc w sizeof_ws) in
      if negb ok then mret' None
      else
        let ws := GfnsWs c true false in
        let! r := ws_send_handshake ws host path subprotocol in
        if r <? 0 then mret' None else mret' (Some ws)
  | _, _, _ => mret' None
  end.

Definition ws_mask : list Z := [0x12; 0x34; 0x56; 0x78].
(** [hdr[..hlen]]. *)
Definition ws_header (opcode len : Z) : list Z :=
  let mask_bit := 0x80 in
  [Z.lor 0x80 (Z.land opcode 0x0F)] ++
  (if len <=? 125 then [Z.lor mask_bit (u8 len)]
   else if len <=? 0xFFFF then
     [Z.lor mask_bit 126; Z.land (Z.shiftr len 8) 0xFF; Z.land len 0xFF]
   else Z.lor mask_bit 127 :: map (fun i => u8 (Z.shiftr len (8 * i))) [7; 6; 5; 4; 3; 2; 1; 0]) ++
  ws_mask.
(** [tmp[i] = src[i] ^ mask[i & 3]]. *)
Definition mask_payload (mask src : list Z) : list Z :=
  imap (fun i b => Z.lxor b (zget mask (Z.land (Z.of_nat i) 3))) src.

Definition ws_send_frame (ws : option gfns_ws) (opcode : Z) (data : list Z) : M W Z :=
  match ws with
  | None => mret' (-1)
  | Some ws =>
      if closed ws then mret' (-1)
      else
        let len := zlen data in
        let! r := gfns_conn_write (Some (ws_conn ws)) (ws_header opcode len) in
        if r <? 0 then mret' (-1)
        else if 0 <? len then
          let! ok := act (fun w => mem_alloc w len) in
          if negb ok then mret' (-1)
          else
            let! r := gfns_conn_write (Some (ws_conn ws)) (mask_payload ws_mask data) in
            if r <? 0 then mret' (-1) else mret' 0
        else mret' 0
  end.
Definition gfns_ws_send (ws : option gfns_ws) (opcode : Z) (data : list Z) : M W Z :=
  ws_send_frame ws opcode data.

(** What [gfns_ws_recv] returns and stores: its result, [opcode_out], the buffer
    and [len_out]. *)
Record ws_received : Type := WsReceived {
  ws_ret : Z; opcode_out : option Z; ws_buf : list Z; len_out : option Z }.

(** [if (gfns_conn_read(ws->conn, p, n) != n) return -1]. *)
Definition ws_read_exactly (ws : gfns_ws) (n : Z) : M W (option (list Z)) :=
  let! rb := gfns_conn_read (Some (ws_conn ws)) n in
  let '(r, bs) := rb in
  mret' (if negb (r =? i32 n) then None else Some bs).

Definition be_value (ext : list Z) : Z := fold_left (fun len b => Z.lor (u64 (Z.shiftl len 8)) b) ext 0.

(** The two bytes of the header, then the length. *)
Definition ws_recv_length (ws : gfns_ws) (len : Z) : M W (option Z) :=
  if len =? 126 then
    let! ext := ws_read_exactly ws 2 in
    mret' ((fun ext => Z.lor (Z.shiftl (zget ext 0) 8) (zget ext 1)) <$> ext)
  else if len =? 127 then
    let! ext := ws_read_exactly ws 8 in
    mret' (be_value <$> ext)
  else mret' (Some len).

(** [buf] is the caller's buffer, of [buf_size] bytes; [opcode_out] and [len_out]
    are not null. *)
Definition gfns_ws_recv (ws : option gfns_ws) (buf : list Z) : M W ws_received :=
  let buf_size := zlen buf in
  let err buf := mret' (WsReceived (-1) None buf None) in
  match ws with
  | None => err buf
  | Some ws =>
      if closed ws then err buf
      else
        let! h2 := ws_read_exactly ws 2 in
        match h2 with
        | None => err buf
        | Some h2 =>
            let opcode := Z.land (zget h2 0) 0x0F in
            let mask := negb (Z.land (zget h2 1) 0x80 =? 0) in
            let! len := ws_recv_length ws (Z.land (zget h2 1) 0x7F) in
            match len with
            | None => err buf
            | Some len =>
                let! ok := (if mask then
                              let! k := ws_read_exactly ws 4 in
                              mret' (match k with Some _ => true | None => false end)
                            else mret' true) in
                if negb ok then err buf
                else if buf_size <? len then err buf
                else
                  let! rb := gfns_conn_read (Some (ws_conn ws)) len in
                  let '(r, bs) := rb in
                  let! buf := mlift (write_at buf 0 bs) in
                  if negb (r =? i32 len) then err buf
                  else mret' (WsReceived 0 (Some opcode) buf (Some len))
            end
        end
  end.

Definition GFNS_WS_OP_CLOSE : Z := 0x8.
Definition gfns_ws_close (ws : option gfns_ws) : M W (Z * option gfns_ws) :=
  match ws with
  | None => mret' (-1, None)
  | Some s =>
      if closed s then mret' (-1, ws)
      else ws_send_frame ws GFNS_WS_OP_CLOSE [] ;;! mret' (0, Some (GfnsWs (ws_conn s) (is_client s) true))
  end.

(** *** URLs *)

(** [strchr(p, '/')]: what precedes the slash, and what follows from it on. *)
Fixpoint split_slash (p : list Z) : option (list Z * list Z) :=
  match p with
  | [] => None
  | b :: q => if b =? 47 then Some ([], p)
              else match split_slash q with Some (h, s) => Some (b :: h, s) | None => None end
  end.
Definition starts_with (pre s : list Z) : bool := bool_decide (ztake (zlen pre) s = pre).
(** [is_secure], [host] and [path], for buffers of [host_sz] and [path_sz] bytes. *)
Definition parse_url (host_sz path_sz : Z) (url : list Z) : option (bool * list Z * list Z) :=
  let rest :=
    if starts_with (str "wss://") url then Some (true, zdrop 6 url)
    else if starts_with (str "ws://") url then Some (false, zdrop 5 url) else None in
  match rest with
  | None => None
  | Some (is_secure, p) =>
      match split_slash p with
      | None => None
      | Some (host, slash) =>
          if host_sz <=? zlen host then None
          else Some (is_secure, host, ztake (path_sz - 1) slash)
      end
  end.

Definition gfns_ws_open_url (url : list Z) : M W (option gfns_ws) :=
  match parse_url 256 256 url with
  | None => mret' None
  | Some (is_secure, host, path) =>
      let! conn := (if is_secure then gfns_tls_connect host 443 else gfns_tcp_connect host 80) in
      match conn with
      | None => mret' None
      | Some c => gfns_ws_connect (Some c) (Some host) (Some path) None
      end
  end.
End conn.
Arguments gfns_ws : clear implicits.
Arguments GfnsWs {T}.
