(* ===== verification/WebSocketSpec.v ===== *)
(** * WebSocketSpec: frames on the wire, descriptors, URLs

    Frames are read back by a parser of RFC 6455 (section 5.2); a transport is
    described by the bytes it has still to deliver ([rx]), those it has taken
    ([tx]) and the set of open descriptors. *)
From Stdlib Require Import String.
From stdpp Require Import gmap.
From S2P Require Import Prelude.
From S2P Require Import Words.
From S2P Require Import Effects.
From S2P Require Import JsonFrame.
From S2P Require Import WebSocket.

(** ** RFC 6455, 5.2 *)

Record frame : Type := Frame { fin : bool; opcode : Z; key : option (list Z); raw : list Z }.
(** The application's bytes. *)
Definition payload (f : frame) : list Z :=
  match key f with Some k => mask_payload k (raw f) | None => raw f end.

(** The first frame of a stream, when it is complete, and what follows. *)
Definition ws_parse (s : list Z) : option (frame * list Z) :=
  if zlen s <? 2 then None
  else
    let n7 := zget s 1 mod 128 in
    let ext := if n7 =? 126 then 2 else if n7 =? 127 then 8 else 0 in
    let n := if n7 =? 126 then br_dec16be (zdrop 2 s)
             else if n7 =? 127 then br_dec64be (zdrop 2 s) else n7 in
    let masked := 128 <=? zget s 1 in
    let o := 2 + ext + (if masked then 4 else 0) in
    if zlen s <? o + n then None
    else Some (Frame (128 <=? zget s 0) (zget s 0 mod 16)
                 (if masked then Some (zslice s (2 + ext) 4) else None) (zslice s o n),
               zdrop (o + n) s).

Lemma mask_involutive k d : mask_payload k (mask_payload k d) = d.
Proof.
  unfold mask_payload. apply list_eq. intros i. rewrite !list_lookup_imap.
  destruct (d !! i) as [b|]; [|done]. cbn. f_equal. by rewrite Z.lxor_assoc, Z.lxor_nilpotent, Z.lxor_0_r.
Qed.
Lemma zlen_mask k d : zlen (mask_payload k d) = zlen d.
Proof. unfold mask_payload. by rewrite length_imap. Qed.

Lemma lor_128 x : 0 <= x < 128 -> Z.lor 128 x = 128 + x.
Proof. intros. exact (lor_add 7 1 x ltac:(lia) ltac:(lia)). Qed.
Lemma ws_byte0 op : Z.lor 0x80 (Z.land op 0x0F) = 128 + op mod 16.
Proof.
  change 0x0F with (Z.ones 4). rewrite Z.land_ones by lia. pose proof (Z.mod_pos_bound op 16). apply lor_128. lia.
Qed.

(** The sizes of a frame that is there. *)
Definition ext_size (n7 : Z) : Z := if n7 =? 126 then 2 else if n7 =? 127 then 8 else 0.
Definition frame_in (s : list Z) (f : frame) : Prop :=
  let n7 := zget s 1 mod 128 in
  let o := 2 + ext_size n7 + (if 128 <=? zget s 1 then 4 else 0) in
  o + zlen (raw f) <= zlen s /\
  zlen (raw f) = (if n7 =? 126 then br_dec16be (zdrop 2 s)
                  else if n7 =? 127 then br_dec64be (zdrop 2 s) else n7).
Lemma ws_parse_in s f rest : Forall is_u8 s -> ws_parse s = Some (f, rest) -> frame_in s f.
Proof.
  intros Hb. unfold ws_parse. destruct (Z.ltb_spec (zlen s) 2); [done|]. fold (ext_size (zget s 1 mod 128)).
  set (n7 := zget s 1 mod 128). set (n := if n7 =? 126 then _ else _). set (o := 2 + ext_size n7 + _).
  assert (0 <= n) as Hn.
  { pose proof (Z.mod_pos_bound (zget s 1) 128). pose proof (Forall_zdrop _ 2 s Hb) as Hd.
    pose proof (dec32be_range _ Hd) as H1. pose proof (dec32be_range _ (Forall_zdrop _ 4 _ Hd)) as H2.
    unfold is_u32 in *. subst n. destruct (n7 =? 126); [apply dec16be_range; done|].
    destruct (n7 =? 127); [|subst n7; lia]. unfold br_dec64be. apply Z.lor_nonneg.
    split; [apply Z.shiftl_nonneg|]; lia. }
  assert (0 <= o) by (subst o; unfold ext_size; repeat case_match; lia).
  destruct (Z.ltb_spec (zlen s) (o + n)); [done|]. intros [= <- <-]. unfold frame_in. cbn [raw].
  fold n7. fold o. rewrite zlen_zslice by lia. split; [lia|reflexivity].
Qed.

(** Reading a stream whose front is known. *)
Lemma zslice_mid (pre x post : list Z) o n : o = zlen pre -> n = zlen x -> zslice (pre ++ x ++ post) o n = x.
Proof.
  intros -> ->. rewrite zslice_app_r, Z.sub_diag by lia. unfold zslice. rewrite zdrop_0.
  rewrite ztake_app_le by lia. by apply ztake_ge.
Qed.
Lemma zdrop_len (pre post : list Z) o : o = zlen pre -> zdrop o (pre ++ post) = post.
Proof. intros ->. rewrite zdrop_app_ge by lia. by rewrite Z.sub_diag, zdrop_0. Qed.

Lemma ws_parse_front (b0 b1 : Z) (ext key' p later : list Z) :
  zlen ext = (if b1 mod 128 =? 126 then 2 else if b1 mod 128 =? 127 then 8 else 0) ->
  zlen key' = (if 128 <=? b1 then 4 else 0) ->
  zlen p = (if b1 mod 128 =? 126 then br_dec16be (ext ++ key' ++ p ++ later)
            else if b1 mod 128 =? 127 then br_dec64be (ext ++ key' ++ p ++ later) else b1 mod 128) ->
  ws_parse ([b0; b1] ++ ext ++ key' ++ p ++ later) =
    Some (Frame (128 <=? b0) (b0 mod 16) (if 128 <=? b1 then Some key' else None) p, later).
Proof.
  intros Hext Hkey Hlen. unfold ws_parse. set (s := _ ++ ext ++ _).
  assert (zlen s = 2 + zlen ext + zlen key' + zlen p + zlen later) as L
    by (subst s; rewrite !zlen_app; cbn [length]; lia).
  change (zget s 0) with b0. change (zget s 1) with b1.
  change (zdrop 2 s) with (ext ++ key' ++ p ++ later).
  rewrite <- Hlen, <- Hext, <- Hkey, L, (proj2 (Z.ltb_ge _ 2)), (proj2 (Z.ltb_ge _ _)) by lia.
  assert (zslice s (2 + zlen ext) (zlen key') = key') as Ek.
  { subst s. rewrite (assoc_L (++)). apply zslice_mid; [rewrite zlen_app; cbn [length]; lia|done]. }
  assert (zslice s (2 + zlen ext + zlen key') (zlen p) = p) as Ep.
  { subst s. rewrite !(assoc_L (++)), <- (assoc_L (++) _ p). apply zslice_mid; [rewrite !zlen_app; cbn [length]; lia|done]. }
  assert (zdrop (2 + zlen ext + zlen key' + zlen p) s = later) as Ed.
  { subst s. rewrite !(assoc_L (++)). apply zdrop_len. rewrite !zlen_app. cbn [length]. lia. }
  rewrite Ep, Ed. destruct (128 <=? b1); [|done]. rewrite Hkey in Ek. by rewrite Ek.
Qed.

(** The bytes of a 64-bit length. *)
Lemma enc64be_bytes' x : br_enc64be x = map (fun i => u8 (Z.shiftr x (8 * i))) [7; 6; 5; 4; 3; 2; 1; 0].
Proof.
  unfold br_enc64be, br_enc32be. cbn [map app].
  rewrite !u8_shiftr_u32, !Z.shiftr_shiftr by lia.
  rewrite !u8_u32. change (8 * 0) with 0. rewrite Z.shiftr_0_r. reflexivity.
Qed.

(** What [ws_send_frame] writes is one frame, with the masking key of the code. *)
Definition ws_wire (op : Z) (data : list Z) : list Z :=
  ws_header op (zlen data) ++ mask_payload ws_mask data.
Lemma ws_wire_parses op data later : zlen data < 2 ^ 63 ->
  exists f, ws_parse (ws_wire op data ++ later) = Some (f, later) /\
    fin f = true /\ opcode f = op mod 16 /\ key f = Some ws_mask /\ payload f = data.
Proof.
  intros Hl. exists (Frame true (op mod 16) (Some ws_mask) (mask_payload ws_mask data)).
  split; [|split_and!; try done; apply mask_involutive].
  unfold ws_wire, ws_header. rewrite ws_byte0. set (b0 := 128 + op mod 16). set (len := zlen data) in *.
  pose proof (Z.mod_pos_bound op 16). assert (0 <= len) by lia.
  assert ((128 <=? b0) = true) as E0 by lia.
  assert (b0 mod 16 = op mod 16) as E1.
  { subst b0. rewrite <- (Z.mod_mod op 16) at 2 by lia. rewrite Z.add_comm. by apply (Z.mod_add _ 8 16). }
  set (m := mask_payload ws_mask data). assert (zlen m = len) as Lm by apply zlen_mask.
  assert (forall b1 ext, (if len <=? 125 then [Z.lor 128 (u8 len)]
      else if len <=? 0xFFFF then [Z.lor 128 126; Z.land (Z.shiftr len 8) 255; Z.land len 255]
      else Z.lor 128 127 :: map (fun i => u8 (Z.shiftr len (8 * i))) [7; 6; 5; 4; 3; 2; 1; 0]) = b1 :: ext ->
    (128 <=? b1) = true -> zlen ext = (if b1 mod 128 =? 126 then 2 else if b1 mod 128 =? 127 then 8 else 0) ->
    zlen m = (if b1 mod 128 =? 126 then br_dec16be (ext ++ ws_mask ++ m ++ later)
            else if b1 mod 128 =? 127 then br_dec64be (ext ++ ws_mask ++ m ++ later) else b1 mod 128) ->
    ws_parse ((([b0] ++ (if len <=? 125 then [Z.lor 128 (u8 len)]
      else if len <=? 0xFFFF then [Z.lor 128 126; Z.land (Z.shiftr len 8) 255; Z.land len 255]
      else Z.lor 128 127 :: map (fun i => u8 (Z.shiftr len (8 * i))) [7; 6; 5; 4; 3; 2; 1; 0]) ++ ws_mask) ++ m) ++ later) =
      Some (Frame true (op mod 16) (Some ws_mask) m, later)) as Hgo.
  { intros b1 ext -> Hm He Hn. rewrite <- !(assoc_L (++)).
    change ([b0] ++ (b1 :: ext) ++ ws_mask ++ m ++ later) with ([b0; b1] ++ ext ++ ws_mask ++ m ++ later).
    rewrite (ws_parse_front b0 b1 ext ws_mask m later He); [|by rewrite Hm|exact Hn].
    by rewrite Hm, E0, E1. }
  destruct (Z.leb_spec len 125) as [H1|H1]; [|destruct (Z.leb_spec len 0xFFFF) as [H2|H2]].
  - eapply Hgo; [reflexivity|..]; rewrite u8_small, lor_128 by lia.
    + lia.
    + rewrite Z.add_comm, (Z.mod_add _ 1 128), Z.mod_small by lia. by rewrite !(proj2 (Z.eqb_neq _ _)) by lia.
    + rewrite Z.add_comm, (Z.mod_add _ 1 128), Z.mod_small by lia. by rewrite !(proj2 (Z.eqb_neq _ _)) by lia.
  - eapply Hgo; [reflexivity|reflexivity|reflexivity|]. change (Z.lor 128 126 mod 128 =? 126) with true. cbv iota.
    change (Z.land ?x 255) with (Z.land x (Z.ones 8)). rewrite !Z.land_ones by lia.
    change ([?a; ?b] ++ ?l) with (a :: b :: l). rewrite dec16be_sum by (apply (is_u8_u8 _)).
    rewrite Lm, Z.shiftr_div_pow2 by lia. rewrite (Z.mod_small (len / 2 ^ 8)); Z.div_mod_to_equations; lia.
  - eapply Hgo; [reflexivity|reflexivity|reflexivity|]. change (Z.lor 128 127 mod 128 =? 126) with false.
    change (Z.lor 128 127 mod 128 =? 127) with true. cbv iota. rewrite Lm.
    rewrite <- (dec_enc64be len (ws_mask ++ m ++ later)) at 1 by lia. by rewrite enc64be_bytes'.
Qed.

(** ** Transports *)

(** What the code relies on: a read takes at most [n] bytes off the incoming
    stream and reports their number, or fails and takes none; a write adds a
    prefix of what it is given to the outgoing stream and reports its length. *)
Class Transport {W T : Type} `{!Sockets W T} (c : gfns_conn T) (rx tx : W -> list Z) : Prop := {
  tr_bytes : forall w, Forall is_u8 (rx w);
  tr_read : forall n w, 0 <= n < 2 ^ 31 -> exists r bs w', gfns_conn_read (Some c) n w = Some ((r, bs), w') /\
    tx w' = tx w /\ rx w = bs ++ rx w' /\ zlen bs <= n /\ (r = zlen bs \/ r < 0 /\ bs = []);
  tr_write : forall bs w, exists r w', gfns_conn_write (Some c) bs w = Some (r, w') /\
    rx w' = rx w /\ r <= zlen bs /\ tx w' = tx w ++ ztake r bs;
  tr_alloc : forall n w, rx (mem_alloc (T := T) w n).1 = rx w /\ tx (mem_alloc (T := T) w n).1 = tx w }.

(** [be_value] of eight bytes. *)
Lemma be_value_step v b : 0 <= v < 2 ^ 56 -> is_u8 b ->
  Z.lor (u64 (Z.shiftl v 8)) b = v * 256 + b.
Proof.
  unfold is_u8. intros. rewrite Z.shiftl_mul_pow2 by lia. change (2 ^ 8) with 256. rewrite u64_small by lia.
  exact (lor_add 8 v b ltac:(lia) ltac:(lia)).
Qed.
Lemma be_value_dec64be ext m : zlen ext = 8 -> Forall is_u8 ext -> be_value ext = br_dec64be (ext ++ m).
Proof.
  intros Hl Hb. do 8 (destruct ext as [|? ext]; [cbn [length] in Hl; lia|]). destruct ext; [|cbn [length] in Hl; lia].
  repeat match goal with H : Forall _ (_ :: _) |- _ => apply Forall_cons in H as [? H] end.
  unfold be_value. cbn [fold_left]. unfold is_u8 in *.
  change (u64 (Z.shiftl 0 8)) with 0. rewrite Z.lor_0_l.
  repeat match goal with |- context [Z.lor (u64 (Z.shiftl ?v 8)) ?b] =>
    lazymatch v with context [Z.lor] => fail | _ => rewrite (be_value_step v b) by (unfold is_u8; lia) end end.
  unfold br_dec64be. change (zdrop 4 ((?a :: ?b :: ?d :: ?e :: ?l) ++ m)) with (l ++ m). cbn [app].
  rewrite !dec32be_sum by done. rewrite lor_shiftl_add by lia. lia.
Qed.
Lemma land_7F b : Z.land b 0x7F = b mod 128.
Proof. change 0x7F with (Z.ones 7). by apply Z.land_ones. Qed.
Lemma land_0F b : Z.land b 0x0F = b mod 16.
Proof. change 0x0F with (Z.ones 4). by apply Z.land_ones. Qed.
Lemma land_80 b : is_u8 b -> (Z.land b 0x80 =? 0) = negb (128 <=? b).
Proof.
  unfold is_u8. intros. change 0x80 with (2 ^ 7). 
  assert (Z.land b (2 ^ 7) = Z.b2z (Z.testbit b 7) * 2 ^ 7) as ->.
  { rewrite <- Z.shiftl_mul_pow2 by lia. apply Z.bits_inj'. intros i Hi. rewrite Z.land_spec, Z.pow2_bits_eqb, Z.shiftl_spec by lia.
    destruct (Z.eqb_spec 7 i) as [<-|Hne]; [rewrite Z.sub_diag, andb_true_r; by destruct (Z.testbit b 7)|].
    rewrite andb_false_r. symmetry. destruct (Z.lt_ge_cases i 7); [apply Z.testbit_neg_r; lia|].
    destruct (Z.testbit b 7); [|apply Z.bits_0]. cbn [Z.b2z]. apply (bound_bits 1 1); lia. }
  pose proof (Z.testbit_spec' b 7 ltac:(lia)) as E. destruct (Z.leb_spec (2 ^ 7) b).
  - replace (b / 2 ^ 7) with 1 in E by (change (2 ^ 7) with 128; Z.div_mod_to_equations; lia). rewrite E. reflexivity.
  - rewrite Z.div_small in E by (change (2 ^ 7) with 128; lia). rewrite E. reflexivity.
Qed.

Section transport.
Context {W T : Type} `{!Sockets W T} (c : gfns_conn T) (rx tx : W -> list Z) `{!Transport c rx tx}.
Context (cl : bool).
Notation ws := (GfnsWs c cl false).

(** A transport that waits until it has all the bytes asked for. *)
Definition full_reads : Prop := forall n w r bs w', 0 <= n < 2 ^ 31 -> n <= zlen (rx w) ->
  gfns_conn_read (Some c) n w = Some ((r, bs), w') -> r = n /\ zlen bs = n.

(** Bytes [bs] have been taken off the incoming stream. *)
Definition took (w w' : W) (bs : list Z) : Prop := tx w' = tx w /\ rx w = bs ++ rx w'.

Lemma read_exactly_wp n w : 0 < n < 2 ^ 31 ->
  wp (ws_read_exactly ws n) (fun o w' => exists bs, took w w' bs /\
    match o with Some b => b = bs /\ zlen b = n | None => full_reads -> zlen (rx w) < n end) w.
Proof.
  intros Hn. destruct (tr_read n w ltac:(lia)) as (r & bs & w' & E & Ht & Hr & Hl & Hres).
  unfold ws_read_exactly. apply wp_bind. apply (wp_intro _ _ w (r, bs) w'); [exact E|].
  apply wp_ret. exists bs. split; [done|]. rewrite i32_small by lia.
  destruct (Z.eqb_spec r n) as [->|Hne]; cbn [negb].
  - destruct Hres as [?|[? ->]]; [done|lia].
  - intros Hf. apply Z.lt_nge. intros Hge. specialize (Hf n w r bs w' ltac:(lia) ltac:(lia) E). lia.
Qed.
Lemma took_trans w1 w2 w3 a b : took w1 w2 a -> took w2 w3 b -> took w1 w3 (a ++ b).
Proof. intros [H1 H2] [H3 H4]. split; [congruence|]. by rewrite H2, H4, (assoc_L (++)). Qed.
Lemma took_bytes w w' bs : took w w' bs -> Forall is_u8 bs.
Proof. intros [_ E]. pose proof (tr_bytes w) as H. rewrite E in H. by apply Forall_app in H as [? _]. Qed.

(** The length field: its extension [ext] and its value. *)
Lemma recv_length_wp n7 w : 0 <= n7 < 128 ->
  wp (ws_recv_length ws n7) (fun o w' => exists ext, took w w' ext /\
    match o with
    | None => full_reads -> zlen (rx w) < (if n7 =? 126 then 2 else if n7 =? 127 then 8 else 0)
    | Some n => zlen ext = (if n7 =? 126 then 2 else if n7 =? 127 then 8 else 0) /\ 0 <= n /\
        forall m, n = (if n7 =? 126 then br_dec16be (ext ++ m)
                       else if n7 =? 127 then br_dec64be (ext ++ m) else n7)
    end) w.
Proof.
  intros Hn. unfold ws_recv_length. destruct (Z.eqb_spec n7 126) as [->|H6].
  { apply wp_bind. eapply wp_mono; [by apply read_exactly_wp|]. intros o w' (bs & Ht & Ho). apply wp_ret.
    exists bs. split; [done|]. destruct o as [b|]; [|done]. destruct Ho as [-> Hl]. cbn [fmap option_fmap option_map].
    split; [done|]. split.
    - pose proof (is_u8_zget bs 0 (took_bytes _ _ _ Ht)). pose proof (is_u8_zget bs 1 (took_bytes _ _ _ Ht)).
      unfold is_u8 in *. apply Z.lor_nonneg. split; [apply Z.shiftl_nonneg|]; lia.
    - intros m. unfold br_dec16be. by rewrite !zget_app_l by lia. }
  destruct (Z.eqb_spec n7 127) as [->|H7].
  { apply wp_bind. eapply wp_mono; [by apply read_exactly_wp|]. intros o w' (bs & Ht & Ho). apply wp_ret.
    exists bs. split; [done|]. destruct o as [b|]; [|done]. destruct Ho as [-> Hl]. cbn [fmap option_fmap option_map].
    pose proof (took_bytes _ _ _ Ht) as Hb. split; [done|]. split; [|intros m; by apply be_value_dec64be].
    rewrite (be_value_dec64be bs []) by done. unfold br_dec64be.
    apply Z.lor_nonneg. rewrite app_nil_r. split; [apply Z.shiftl_nonneg|];
      match goal with |- 0 <= br_dec32be ?l => apply (dec32be_range l) end; auto with words. }
  apply wp_ret. exists []. split; [by split|]. split; [done|]. split; [lia|done].
Qed.

(** The optional key. *)
Lemma recv_key_wp (masked : bool) w :
  wp (if masked then let! k := ws_read_exactly ws 4 in mret' (match k with Some _ => true | None => false end)
      else mret' true)
     (fun ok w' => exists k, took w w' k /\
       if ok then zlen k = if masked then 4 else 0
       else full_reads -> zlen (rx w) < if masked then 4 else 0) w.
Proof.
  destruct masked; [|apply wp_ret; exists []; by split].
  apply wp_bind. eapply wp_mono; [by apply read_exactly_wp|]. intros o w' (bs & Ht & Ho). apply wp_ret.
  exists bs. split; [done|]. destruct o; [by destruct Ho as [-> ?]|exact Ho].
Qed.

(** On a transport that waits, an error means that the pending frame is
    incomplete or longer than the buffer. *)
Definition refused (buf : list Z) (w : W) : Prop :=
  full_reads -> forall f rest, ws_parse (rx w) = Some (f, rest) -> zlen buf < zlen (raw f).

(** The outcome of [gfns_ws_recv]: on success one whole frame has been taken off
    the stream and its payload is in the buffer, as it was on the wire. *)
Definition recv_outcome (buf : list Z) (w : W) (r : ws_received) (w' : W) : Prop :=
  zlen (ws_buf r) = zlen buf /\
  exists bs, took w w' bs /\
    ((ws_ret r = -1 /\ WebSocket.opcode_out r = None /\ len_out r = None /\ refused buf w) \/
     (ws_ret r = 0 /\ exists f, (forall later, ws_parse (bs ++ later) = Some (f, later)) /\
        WebSocket.opcode_out r = Some (opcode f) /\ len_out r = Some (zlen (raw f)) /\
        ztake (zlen (raw f)) (ws_buf r) = raw f)).

Lemma ws_recv_wp buf w : zlen buf < 2 ^ 31 ->
  wp (gfns_ws_recv (Some ws) buf) (recv_outcome buf w) w.
Proof.
  intros Hbuf. unfold gfns_ws_recv. cbn [closed].
  assert (forall w' bs b, took w w' bs -> zlen b = zlen buf -> refused buf w ->
    wp (mret' (WsReceived (-1) None b None)) (recv_outcome buf w) w') as Herr.
  { intros w' bs b Ht Hl Hwhy. apply wp_ret. split; [done|]. exists bs. split; [done|]. by left. }
  apply wp_bind. eapply wp_mono; [by apply read_exactly_wp|]. intros o w1 (h & T1 & Ho).
  destruct o as [h2|].
  2:{ eapply Herr; [done..|]. intros Hf f rest Hp. unfold ws_parse in Hp. by rewrite (proj2 (Z.ltb_lt _ 2)) in Hp by auto. }
  destruct Ho as [-> Hh].
  destruct h as [|b0 [|b1 [|]]]; [cbn [length] in Hh; lia..| |cbn [length] in Hh; lia].
  pose proof (took_bytes _ _ _ T1) as Hb. apply Forall_cons in Hb as [Hb0 Hb]. apply Forall_cons in Hb as [Hb1 _].
  change (zget [b0; b1] 0) with b0. change (zget [b0; b1] 1) with b1.
  rewrite land_7F, land_0F, land_80, negb_involutive by done.
  pose proof (Z.mod_pos_bound b1 128) as Hm.
  (* what a pending frame would say *)
  assert (forall f rest, ws_parse (rx w) = Some (f, rest) ->
    2 + ext_size (b1 mod 128) + (if 128 <=? b1 then 4 else 0) + zlen (raw f) <= 2 + zlen (rx w1) /\
    zlen (raw f) = (if b1 mod 128 =? 126 then br_dec16be (rx w1)
                    else if b1 mod 128 =? 127 then br_dec64be (rx w1) else b1 mod 128)) as Hpend.
  { intros f rest Hp. apply ws_parse_in in Hp; [|apply tr_bytes]. destruct T1 as [_ T1]. rewrite T1 in Hp.
    destruct Hp as [H1 H2]. change (zget ([b0; b1] ++ rx w1) 1) with b1 in *.
    change (zdrop 2 ([b0; b1] ++ rx w1)) with (rx w1) in H2. rewrite zlen_app in H1. split; [exact H1|exact H2]. }
  apply wp_bind. eapply wp_mono; [apply recv_length_wp; lia|]. intros o w2 (ext & T2 & Hn).
  pose proof (took_trans _ _ _ _ _ T1 T2) as T12. pose proof T2 as [_ E2]. destruct o as [n|].
  2:{ eapply Herr; [done..|]. intros Hf f rest Hp. specialize (Hn Hf). apply Hpend in Hp as [Hp _].
      unfold ext_size in Hp. destruct (128 <=? b1); lia. }
  destruct Hn as (He & Hn0 & Hn). fold (ext_size (b1 mod 128)) in He.
  assert (forall f rest, ws_parse (rx w) = Some (f, rest) ->
    (if 128 <=? b1 then 4 else 0) + n <= zlen (rx w2) /\ zlen (raw f) = n) as Hpend2.
  { intros f rest Hp. apply Hpend in Hp as [H1 H2]. rewrite E2 in H1, H2. rewrite <- (Hn (rx w2)) in H2.
    rewrite zlen_app in H1. lia. }
  apply wp_bind. eapply wp_mono; [apply recv_key_wp|]. intros ok w3 (k & T3 & Hk).
  pose proof (took_trans _ _ _ _ _ T12 T3) as T123. pose proof T3 as [_ E3]. destruct ok; cbn [negb].
  2:{ eapply Herr; [done..|]. intros Hf f rest Hp. specialize (Hk Hf). apply Hpend2 in Hp. lia. }
  destruct (Z.ltb_spec (zlen buf) n) as [Hbig|Hfit].
  { eapply Herr; [done..|]. intros Hf f rest Hp. apply Hpend2 in Hp. lia. }
  destruct (tr_read n w3 ltac:(lia)) as (r & p & w4 & E & Ht & Hr & Hl & Hres).
  pose proof (took_trans _ _ _ _ _ T123 (conj Ht Hr)) as T4.
  apply wp_bind. apply (wp_intro _ _ w3 (r, p) w4); [exact E|].
  apply wp_bind. eapply wp_lift; [apply write_at_ok; lia|].
  rewrite i32_small by lia. assert (zlen (zblit buf 0 p) = zlen buf) as Lb by (apply zlen_zblit; lia).
  destruct (Z.eqb_spec r n) as [->|Hne]; cbn [negb].
  2:{ eapply Herr; [done..|]. intros Hf f rest Hp. apply Hpend2 in Hp as [Hp _].
      assert (zlen (rx w2) = zlen k + zlen (rx w3)) by (rewrite E3, zlen_app; lia).
      specialize (Hf n w3 r p w4 ltac:(lia) ltac:(lia) E). lia. }
  apply wp_ret. split; [done|]. eexists. split; [exact T4|]. right. split; [done|].
  assert (zlen p = n) as Hp by (destruct Hres as [?|[? ->]]; [done|cbn [length] in *; lia]).
  exists (Frame (128 <=? b0) (b0 mod 16) (if 128 <=? b1 then Some k else None) p). cbn [opcode raw].
  split; [|split; [done|]; split; [by rewrite Hp|]; rewrite Hp; pose proof (zslice_zblit_same buf 0 p ltac:(lia) ltac:(lia)) as Es;
    rewrite Hp in Es; exact Es].
  intros later. rewrite <- !(assoc_L (++)). apply ws_parse_front; [done|done|]. rewrite Hp. apply Hn.
Qed.

(** A transport that takes all it is given or fails. *)
Definition full_writes : Prop := forall bs w r w',
  gfns_conn_write (Some c) bs w = Some (r, w') -> 0 <= r -> r = zlen bs.

Lemma conn_write_wp bs w : wp (gfns_conn_write (Some c) bs) (fun r w' =>
  rx w' = rx w /\ r <= zlen bs /\ tx w' = tx w ++ ztake r bs /\ (full_writes -> 0 <= r -> r = zlen bs)) w.
Proof.
  destruct (tr_write bs w) as (r & w' & E & H1 & H2 & H3). apply (wp_intro _ _ w r w'); [exact E|].
  split_and!; [done..|]. intros Hf. exact (Hf _ _ _ _ E).
Qed.

Lemma ws_send_wp op data w : wp (gfns_ws_send (Some ws) op data) (fun r w' =>
  rx w' = rx w /\ (r = 0 \/ r = -1) /\
  exists n1 n2, n1 <= zlen (ws_header op (zlen data)) /\ n2 <= zlen data /\
    tx w' = tx w ++ ztake n1 (ws_header op (zlen data)) ++ ztake n2 (mask_payload ws_mask data) /\
    (r = 0 -> 0 <= n1 /\ 0 <= n2 /\ (full_writes -> tx w' = tx w ++ ws_wire op data))) w.
Proof.
  unfold gfns_ws_send, ws_send_frame. cbn [closed WebSocket.ws_conn]. set (h := ws_header op (zlen data)).
  apply wp_bind. eapply wp_mono; [apply conn_write_wp|]. intros n1 w1 (R1 & L1 & X1 & F1).
  destruct (Z.ltb_spec n1 0) as [Hneg|Hpos].
  { apply wp_ret. split; [done|]. split; [by right|]. exists n1, 0.
    split; [done|]. split; [lia|]. split; [|done]. by rewrite X1, (ztake_le0 0), app_nil_r. }
  destruct (Z.ltb_spec 0 (zlen data)) as [Hd|Hd].
  2:{ apply wp_ret. split; [done|]. split; [by left|]. exists n1, 0. assert (data = []) as -> by (destruct data; [done|cbn [length] in *; lia]).
      split; [done|]. split; [done|]. split; [by rewrite X1, (ztake_le0 0), app_nil_r|].
      intros _. split; [done|]. split; [done|]. intros Hf. rewrite X1, (F1 Hf Hpos), ztake_ge by lia.
      unfold ws_wire. cbn. by rewrite app_nil_r. }
  destruct (tr_alloc (zlen data) w1) as [A1 A2].
  apply wp_bind. unfold act. destruct (mem_alloc w1 (zlen data)) as [w2 ok] eqn:Ea. cbn [fst] in *.
  apply (wp_intro _ _ w1 ok w2); [by rewrite Ea|]. destruct ok; cbn [negb].
  2:{ apply wp_ret. split; [congruence|]. split; [by right|]. exists n1, 0. split; [done|]. split; [lia|].
      split; [|done]. by rewrite A2, X1, (ztake_le0 0), app_nil_r. }
  apply wp_bind. eapply wp_mono; [apply conn_write_wp|]. intros n2 w3 (R3 & L3 & X3 & F3). rewrite zlen_mask in *.
  assert (tx w3 = tx w ++ ztake n1 h ++ ztake n2 (mask_payload ws_mask data)) as X
    by (by rewrite X3, A2, X1, (assoc_L (++))).
  destruct (Z.ltb_spec n2 0); (apply wp_ret; split; [congruence|]; split; [tauto|]; exists n1, n2; split_and!; try done).
  intros _. split; [done|]. split; [done|]. intros Hf. rewrite X, (F1 Hf Hpos), (F3 Hf) by lia.
  rewrite !ztake_ge by (rewrite ?zlen_mask; lia). done.
Qed.
End transport.

(** ** Descriptors *)

(** The set of open descriptors: [socket] adds one that was not there, [close]
    removes one, nothing else changes it. *)
Class FdLaws (W T : Type) `{!Sockets W T} (fds : W -> gset Z) : Prop := {
  fd_socket : forall w ai w' s, sock_socket (T := T) w ai = (w', s) ->
    match s with Some s => s ∉ fds w /\ fds w' = {[s]} ∪ fds w | None => fds w' = fds w end;
  fd_close : forall w s, fds (sock_close (T := T) w s) = fds w ∖ {[s]};
  fd_other :
    (forall w h p, fds (getaddrinfo (T := T) w h p).1 = fds w) /\
    (forall w s a, fds (sock_connect (T := T) w s a).1 = fds w) /\
    (forall w s n, fds (sock_recv (T := T) w s n).1 = fds w) /\
    (forall w s b, fds (sock_send (T := T) w s b).1 = fds w) /\
    (forall w s h, fds (tlsv3_client_connect (T := T) w s h).1 = fds w) /\
    (forall w t, fds (tlsv3_client_free (T := T) w t) = fds w) /\
    (forall w t n, fds (tlsv3_client_read (T := T) w t n).1 = fds w) /\
    (forall w t b, fds (tlsv3_client_write (T := T) w t b).1 = fds w) /\
    (forall w n, fds (mem_alloc (T := T) w n).1 = fds w) }.

Section fds.
Context {W T : Type} `{!Sockets W T} (fds : W -> gset Z) `{!FdLaws W T fds} (sz szw : Z).
Notation conn := (gfns_conn T).

Lemma act_wp {A} (f : W -> W * A) w : (forall w, fds (f w).1 = fds w) ->
  wp (act f) (fun a w' => f w = (w', a) /\ fds w' = fds w) w.
Proof.
  intros Hf. specialize (Hf w). unfold act. destruct (f w) as [w' a] eqn:E. apply (wp_intro _ _ w a w'); [by rewrite E|done].
Qed.
Lemma sock_close_wp s (w : W) (Q : unit -> W -> Prop) : Q tt (sock_close (T := T) w s) ->
  wp (act' (fun w => sock_close (T := T) w s)) Q w.
Proof. intros. by eapply wp_intro. Qed.

(** The descriptors after a call that yields [o], from [F]. *)
Definition opened (F : gset Z) (o : option Z) (w : W) : Prop :=
  match o with Some s => s ∉ F /\ fds w = {[s]} ∪ F | None => fds w = F end.

Lemma closed_again (F : gset Z) s w : s ∉ F -> fds w = {[s]} ∪ F -> fds (sock_close (T := T) w s) = F.
Proof. intros Hs E. rewrite fd_close, E. apply set_eq. intros x. rewrite elem_of_difference, elem_of_union, elem_of_singleton. split; [tauto|]. intros Hx. split; [by right|]. by intros ->. Qed.

Lemma tcp_connect_raw_wp host port w : wp (tcp_connect_raw (T := T) host port) (opened (fds w)) w.
Proof.
  destruct fd_other as (G & C & _). unfold tcp_connect_raw.
  apply wp_bind. eapply wp_mono; [apply act_wp; intros; apply G|]. intros [ai|] w1 [_ E1]; [|by apply wp_ret].
  apply wp_bind. unfold act at 1. destruct (sock_socket w1 ai) as [w2 s] eqn:Es. pose proof (fd_socket _ _ _ _ Es) as Hs.
  apply (wp_intro _ _ w1 s w2); [by rewrite Es|]. rewrite E1 in Hs. destruct s as [s|]; [|by apply wp_ret].
  destruct Hs as [Hs1 Hs2]. apply wp_bind. eapply wp_mono; [apply act_wp; intros; apply C|].
  intros ok w3 [_ E3]. destruct ok; cbn [negb]; [apply wp_ret; split; congruence|].
  apply wp_bind, sock_close_wp, wp_ret. cbn [opened]. apply closed_again; congruence.
Qed.

Definition conn_opened (F : gset Z) (o : option conn) (w : W) : Prop :=
  opened F (csock <$> o) w /\ match o with Some c => is_tls c = true -> is_Some (tls_ctx c) | None => True end.

Lemma tcp_connect_wp host port w : wp (gfns_tcp_connect (T := T) sz host port) (conn_opened (fds w)) w.
Proof.
  destruct fd_other as (_ & _ & _ & _ & _ & _ & _ & _ & A). unfold gfns_tcp_connect.
  apply wp_bind. eapply wp_mono; [apply tcp_connect_raw_wp|]. intros [s|] w1 Ho; [|by apply wp_ret].
  destruct Ho as [Hs E1]. apply wp_bind. eapply wp_mono; [apply act_wp; intros; apply A|]. intros ok w2 [_ E2].
  destruct ok; cbn [negb]; [apply wp_ret; split; [split; [done|cbn; congruence]|done]|].
  apply wp_bind, sock_close_wp, wp_ret. split; [|done]. apply closed_again; congruence.
Qed.
Lemma tls_connect_wp host port w : wp (gfns_tls_connect (T := T) sz host port) (conn_opened (fds w)) w.
Proof.
  destruct fd_other as (_ & _ & _ & _ & C & Fr & _ & _ & A). unfold gfns_tls_connect.
  apply wp_bind. eapply wp_mono; [apply tcp_connect_raw_wp|]. intros [s|] w1 Ho; [|by apply wp_ret].
  destruct Ho as [Hs E1]. apply wp_bind. eapply wp_mono; [apply act_wp; intros; apply C|]. intros [ctx|] w2 [_ E2].
  2:{ apply wp_bind, sock_close_wp, wp_ret. split; [|done]. apply closed_again; congruence. }
  apply wp_bind. eapply wp_mono; [apply act_wp; intros; apply A|]. intros ok w3 [_ E3].
  destruct ok; cbn [negb]; [apply wp_ret; split; [split; [done|cbn; congruence]|by eexists]|].
  apply wp_bind. eapply wp_intro; [reflexivity|]. cbv beta. apply wp_bind, sock_close_wp, wp_ret. split; [|done].
  apply closed_again; [done|]. rewrite Fr. congruence.
Qed.
Lemma conn_close_wp c w : (is_tls c = true -> is_Some (tls_ctx c)) ->
  wp (gfns_conn_close (T := T) (Some c)) (fun r w' => r = 0 /\ fds w' = fds w ∖ {[csock c]}) w.
Proof.
  intros Hc. destruct fd_other as (_ & _ & _ & _ & _ & Fr & _). unfold gfns_conn_close.
  apply wp_bind. eapply (wp_mono _ (fun _ w' => fds w' = fds w)).
  - destruct (is_tls c); [|by apply wp_ret]. destruct (Hc eq_refl) as [t ->]. eapply wp_intro; [reflexivity|]. apply Fr.
  - intros [] w1 E1. apply wp_bind, sock_close_wp, wp_ret. by rewrite fd_close, E1.
Qed.
Lemma conn_read_fds c n w : (is_tls c = true -> is_Some (tls_ctx c)) ->
  wp (gfns_conn_read (T := T) (Some c) n) (fun _ w' => fds w' = fds w) w.
Proof.
  intros Hc. destruct fd_other as (_ & _ & R & _ & _ & _ & TR & _). unfold gfns_conn_read.
  apply wp_bind. eapply (wp_mono _ (fun _ w' => fds w' = fds w)).
  - destruct (is_tls c); [destruct (Hc eq_refl) as [t ->]|]; (eapply wp_mono; [by apply act_wp|by intros ? ? [_ ?]]).
  - intros [bs|] w1 E1; by apply wp_ret.
Qed.
Lemma conn_write_fds c b w : (is_tls c = true -> is_Some (tls_ctx c)) ->
  wp (gfns_conn_write (T := T) (Some c) b) (fun _ w' => fds w' = fds w) w.
Proof.
  intros Hc. destruct fd_other as (_ & _ & _ & S & _ & _ & _ & TS & _). unfold gfns_conn_write.
  destruct (is_tls c); [destruct (Hc eq_refl) as [t ->]|]; (eapply wp_mono; [by apply act_wp|by intros ? ? [_ ?]]).
Qed.
Lemma ws_connect_fds c host path sub w : (is_tls c = true -> is_Some (tls_ctx c)) ->
  wp (gfns_ws_connect (T := T) szw (Some c) (Some host) (Some path) sub)
     (fun o w' => fds w' = fds w /\ match o with Some s => ws_conn s = c | None => True end) w.
Proof.
  intros Hc. destruct fd_other as (_ & _ & _ & _ & _ & _ & _ & _ & A). unfold gfns_ws_connect.
  apply wp_bind. eapply wp_mono; [apply act_wp; intros; apply A|]. intros ok w1 [_ E1].
  destruct ok; cbn [negb]; [|by apply wp_ret]. apply wp_bind.
  eapply (wp_mono _ (fun _ w' => fds w' = fds w)).
  - unfold ws_send_handshake. cbn [ws_conn]. apply wp_bind. eapply wp_mono; [by apply conn_write_fds|].
    intros r w2 E2. destruct (r <? 0); [apply wp_ret; congruence|].
    apply wp_bind. eapply wp_mono; [by apply conn_read_fds|]. intros [n bs] w3 E3.
    destruct (n <=? 0); apply wp_ret; congruence.
  - intros r w2 E2. destruct (r <? 0); apply wp_ret; done.
Qed.
End fds.

(** ** URLs *)

Lemma split_slash_spec p h s : split_slash p = Some (h, s) <->
  p = h ++ s /\ 47 ∉ h /\ exists rest, s = 47 :: rest.
Proof.
  revert h s. induction p as [|b p IH]; intros h s; cbn [split_slash].
  { split; [done|]. intros (E & _ & rest & ->). by destruct h. }
  destruct (Z.eqb_spec b 47) as [->|Hb].
  - split; [intros [= <- <-]; split; [done|split; [apply not_elem_of_nil|eauto]]|].
    intros (E & Hh & rest & ->). destruct h as [|x h]; [by injection E as ->|]. injection E as <- ->.
    by apply not_elem_of_cons in Hh as [? _].
  - destruct (split_slash p) as [[h' s']|] eqn:Es.
    + split.
      * intros [= <- <-]. destruct (IH h' s') as [H _]. destruct (H eq_refl) as (-> & Hh & Hr).
        split; [done|]. split; [|done]. rewrite not_elem_of_cons. done.
      * intros (E & Hh & rest & ->). destruct h as [|x h]; [injection E as -> ->; done|]. injection E as -> ->.
        apply not_elem_of_cons in Hh as [? ?].
        destruct (IH h (47 :: rest)) as [_ Hex]. specialize (Hex ltac:(eauto)). congruence.
    + split; [done|]. intros (E & Hh & rest & ->). destruct h as [|x h]; [injection E as -> ->; done|]. injection E as -> ->.
      apply not_elem_of_cons in Hh as [? ?]. destruct (IH h (47 :: rest)) as [_ Hex]. specialize (Hex ltac:(eauto)). congruence.
Qed.
Lemma starts_with_spec pre s : starts_with pre s = true <-> exists rest, s = pre ++ rest.
Proof.
  unfold starts_with. rewrite bool_decide_eq_true. split.
  - intros E. exists (zdrop (zlen pre) s). rewrite <- E at 1. by rewrite ztake_zdrop.
  - intros [rest ->]. rewrite ztake_app_le by lia. by apply ztake_ge.
Qed.
Definition scheme (secure : bool) : list Z := if secure then str "wss://" else str "ws://".

Lemma parse_url_spec hs ps url secure host path : parse_url hs ps url = Some (secure, host, path) <->
  exists rest, url = scheme secure ++ host ++ 47 :: rest /\ 47 ∉ host /\ zlen host < hs /\
    path = ztake (ps - 1) (47 :: rest).
Proof.
  unfold parse_url.
  assert (forall sec p,
    (match split_slash p with
     | Some (h, sl) => if hs <=? zlen h then None else Some (sec, h, ztake (ps - 1) sl)
     | None => None end) = Some (secure, host, path) <->
    sec = secure /\ exists rest, p = host ++ 47 :: rest /\ 47 ∉ host /\ zlen host < hs /\ path = ztake (ps - 1) (47 :: rest)) as Hp.
  { intros sec p. split.
    - destruct (split_slash p) as [[h sl]|] eqn:Es; [|done]. destruct (Z.leb_spec hs (zlen h)); [done|].
      intros [= <- <- <-]. apply split_slash_spec in Es as (-> & Hh & rest & ->). split; [done|]. by exists rest.
    - intros (-> & rest & -> & Hh & Hl & ->).
      destruct (split_slash_spec (host ++ 47 :: rest) host (47 :: rest)) as [_ H]. rewrite H by eauto.
      by rewrite (proj2 (Z.leb_gt hs _)) by lia. }
  destruct (starts_with (str "wss://") url) eqn:E1; [|destruct (starts_with (str "ws://") url) eqn:E2].
  - apply starts_with_spec in E1 as [r ->]. change (zdrop 6 (str "wss://" ++ r)) with r. rewrite Hp. split.
    + intros (<- & rest & -> & H). by exists rest.
    + intros (rest & E & H). destruct secure; [|by injection E]. apply app_inv_head in E. split; [done|]. by exists rest.
  - apply starts_with_spec in E2 as [r ->]. change (zdrop 5 (str "ws://" ++ r)) with r. rewrite Hp. split.
    + intros (<- & rest & -> & H). by exists rest.
    + intros (rest & E & H). destruct secure; [|apply app_inv_head in E; split; [done|]; by exists rest].
      assert (starts_with (str "wss://") (str "ws://" ++ r) = true) by (apply starts_with_spec; eauto). congruence.
  - split; [done|]. intros (rest & -> & _). exfalso. destruct secure.
    + assert (starts_with (str "wss://") (scheme true ++ host ++ 47 :: rest) = true) by (apply starts_with_spec; eauto). congruence.
    + assert (starts_with (str "ws://") (scheme false ++ host ++ 47 :: rest) = true) by (apply starts_with_spec; eauto). congruence.
Qed.
