(* ===== verification/WebSocketThms.v ===== *)
(** * WebSocketThms: what the WebSocket client promises, and a transport to run it on *)
From Stdlib Require Import String.
From stdpp Require Import gmap.
From S2P Require Import Prelude.
From S2P Require Import Words.
From S2P Require Import Effects.
From S2P Require Import WebSocket.
From S2P Require Import WebSocketSpec.

Section claims.
Context {W T : Type} `{!Sockets W T} (c : gfns_conn T) (rx tx : W -> list Z) `{!Transport c rx tx} (cl : bool).
Notation ws := (GfnsWs c cl false).
Notation frame := WebSocketSpec.frame.

(** C30: [gfns_ws_send] returns 0 or -1 and, on a transport that takes all it is
    given or fails, 0 means that exactly one frame went out, which a parser of
    RFC 6455 reads back whatever follows: final, with the opcode, masked, and its
    unmasked payload is the data, for each of the three encodings of the length. *)
Theorem ws_send_rfc6455 op data w : zlen data < 2 ^ 63 ->
  wp (gfns_ws_send (Some ws) op data) (fun r w' => rx w' = rx w /\ (r = 0 \/ r = -1) /\
    (full_writes c -> r = 0 -> exists wire, tx w' = tx w ++ wire /\
       forall later, exists f : frame, ws_parse (wire ++ later) = Some (f, later) /\
         fin f = true /\ opcode f = op mod 16 /\ key f = Some ws_mask /\ payload f = data)) w.
Proof.
  intros Hl. eapply wp_mono; [apply (ws_send_wp c rx tx)|]. intros r w' (R & Hr & n1 & n2 & _ & _ & _ & H0).
  split; [done|]. split; [done|]. intros Hf ->. exists (ws_wire op data). destruct (H0 eq_refl) as (_ & _ & H). split; [auto|].
  intros later. by apply ws_wire_parses.
Qed.

(** short writes go unnoticed.  [gfns_ws_send] looks only at the sign of what
    the transport returns: when the transport takes part of the header or part of
    the payload, the rest is never sent and the result is still 0. *)
Theorem ws_send_truncates op data w n1 w1 w2 n2 w3 :
  gfns_conn_write (Some c) (ws_header op (zlen data)) w = Some (n1, w1) -> 0 <= n1 ->
  data <> [] -> mem_alloc (T := T) w1 (zlen data) = (w2, true) ->
  gfns_conn_write (Some c) (mask_payload ws_mask data) w2 = Some (n2, w3) -> 0 <= n2 ->
  gfns_ws_send (Some ws) op data w = Some (0, w3) /\
  tx w3 = tx w ++ ztake n1 (ws_header op (zlen data)) ++ ztake n2 (mask_payload ws_mask data).
Proof.
  intros E1 H1 Hd Ea E2 H2. split.
  - unfold gfns_ws_send, ws_send_frame. cbn [closed ws_conn]. rewrite (run_bind _ _ _ _ _ E1).
    rewrite (proj2 (Z.ltb_ge n1 0)) by lia. rewrite (proj2 (Z.ltb_lt 0 (zlen data))) by (destruct data; [done|cbn [length]; lia]).
    rewrite (run_bind _ _ _ true w2) by (unfold act; by rewrite Ea). cbn [negb].
    rewrite (run_bind _ _ _ _ _ E2). by rewrite (proj2 (Z.ltb_ge n2 0)) by lia.
  - destruct (tr_write (c := c) (rx := rx) (tx := tx) (ws_header op (zlen data)) w) as (r & w' & E & _ & _ & X1).
    destruct (tr_write (c := c) (rx := rx) (tx := tx) (mask_payload ws_mask data) w2) as (r' & w'' & E' & _ & _ & X2).
    destruct (tr_alloc (c := c) (rx := rx) (tx := tx) (zlen data) w1) as [_ A]. rewrite Ea in A. cbn [fst] in A.
    rewrite E1 in E. injection E as <- <-. rewrite E2 in E'. injection E' as <- <-.
    by rewrite X2, A, X1, (assoc_L (++)).
Qed.

(** C31: [gfns_ws_recv] returns, never writes outside the buffer, and returns 0 or
    -1.  0 means that exactly one frame has been taken off the stream, and that the
    buffer holds its payload as it is on the wire; -1 leaves [opcode_out] and
    [len_out] alone.  On a transport that waits for all the bytes asked for, a
    complete frame that fits the buffer is always delivered. *)
Theorem ws_recv_one_frame buf w : zlen buf < 2 ^ 31 ->
  wp (gfns_ws_recv (Some ws) buf) (fun r w' => recv_outcome c rx tx buf w r w' /\
    (full_reads c rx -> forall f rest, ws_parse (rx w) = Some (f, rest) -> zlen (raw f) <= zlen buf ->
       ws_ret r = 0 /\ rx w' = rest /\ opcode_out r = Some (opcode f) /\ len_out r = Some (zlen (raw f)) /\
       ztake (zlen (raw f)) (ws_buf r) = raw f)) w.
Proof.
  intros Hb. eapply wp_mono; [by apply (ws_recv_wp c rx tx)|]. intros r w' Ho. split; [exact Ho|].
  destruct Ho as (_ & bs & [_ Ex] & Hr). intros Hf f rest Hp Hfit.
  destruct Hr as [(_ & _ & _ & Hwhy)|(H0 & f' & Hp' & Hop & Hlen & Hbuf)].
  - specialize (Hwhy Hf f rest Hp). lia.
  - rewrite Ex, Hp' in Hp. injection Hp as <- <-. done.
Qed.

(** a masked frame is delivered masked: its key is read and dropped, and the
    buffer holds the bytes of the wire, not the application's. *)
Theorem ws_recv_keeps_mask buf w f k rest : zlen buf < 2 ^ 31 -> full_reads c rx ->
  ws_parse (rx w) = Some (f, rest) -> key f = Some k -> zlen (raw f) <= zlen buf ->
  wp (gfns_ws_recv (Some ws) buf) (fun r w' => ws_ret r = 0 /\ rx w' = rest /\
    ztake (zlen (raw f)) (ws_buf r) = mask_payload k (payload f)) w.
Proof.
  intros Hb Hf Hp Hk Hfit. eapply wp_mono; [by apply (ws_recv_wp c rx tx)|].
  intros r w' (_ & bs & [_ Ex] & [(_ & _ & _ & Hwhy)|(H0 & f' & Hp' & _ & _ & Hbuf)]).
  - specialize (Hwhy Hf f rest Hp). lia.
  - rewrite Ex, Hp' in Hp. injection Hp as <- <-. split; [done|]. split; [done|].
    unfold payload. rewrite Hk, mask_involutive. exact Hbuf.
Qed.

(** after [gfns_ws_close], and on a null pointer, [send], [recv] and [close]
    return -1 and touch nothing; [gfns_ws_close] itself reports success whether or
    not the close frame could be sent. *)
Theorem ws_closed_refuses op data buf w :
  wp (gfns_ws_close (Some ws)) (fun o w' => o = (0, Some (GfnsWs c cl true)) /\ rx w' = rx w) w /\
  forall s, s = None \/ s = Some (GfnsWs c cl true) ->
    gfns_ws_send s op data w = Some (-1, w) /\
    gfns_ws_recv s buf w = Some (WsReceived (-1) None buf None, w) /\
    gfns_ws_close s w = Some ((-1, s), w).
Proof.
  split; [|by intros s [-> | ->]]. unfold gfns_ws_close. cbn [closed]. apply wp_bind.
  eapply wp_mono; [apply (ws_send_wp c rx tx cl GFNS_WS_OP_CLOSE [])|]. intros r w' (R & _). by apply wp_ret.
Qed.
End claims.

Section descriptors.
Context {W T : Type} `{!Sockets W T} (fds : W -> gset Z) `{!FdLaws W T fds} (sz szw : Z).

(** C32: descriptors.  A failed TCP or TLS connection leaves the set of open
    descriptors as it was, on every error path; a successful one adds exactly its
    socket, and closing the connection removes exactly that one. *)
Theorem connections_release host port (tls : bool) w :
  wp (if tls then gfns_tls_connect (T := T) sz host port else gfns_tcp_connect (T := T) sz host port)
     (fun o w' => match o with
      | None => fds w' = fds w
      | Some c => csock c ∉ fds w /\ fds w' = {[csock c]} ∪ fds w /\
          wp (gfns_conn_close (Some c)) (fun r w'' => r = 0 /\ fds w'' = fds w) w'
      end) w.
Proof.
  assert (forall o w', conn_opened fds (fds w) o w' -> match o with
    | None => fds w' = fds w
    | Some c => csock c ∉ fds w /\ fds w' = {[csock c]} ∪ fds w /\
        wp (gfns_conn_close (Some c)) (fun r w'' => r = 0 /\ fds w'' = fds w) w' end) as H.
  { intros [c|] w' [Ho Hc]; [|exact Ho]. destruct Ho as [H1 H2]. split; [done|]. split; [done|].
    eapply wp_mono; [by apply (conn_close_wp fds)|]. intros r w'' [-> E]. split; [done|].
    rewrite E, <- (fd_close (T := T)). by apply (closed_again fds). }
  destruct tls; (eapply wp_mono; [|exact H]); [by apply (tls_connect_wp fds)|by apply (tcp_connect_wp fds)].
Qed.

(** [gfns_ws_open_url] abandons its connection.  When the URL is good and the
    connection succeeds but the WebSocket cannot be set up, it returns a null
    pointer and the socket stays open, with no one left to close it. *)
Theorem ws_open_url_leaks url secure host path c w w1 w2 :
  parse_url 256 256 url = Some (secure, host, path) ->
  (if secure then gfns_tls_connect sz host 443 else gfns_tcp_connect sz host 80) w = Some (Some c, w1) ->
  gfns_ws_connect (T := T) szw (Some c) (Some host) (Some path) None w1 = Some (None, w2) ->
  gfns_ws_open_url sz szw url w = Some (None, w2) /\ csock c ∉ fds w /\ fds w2 = {[csock c]} ∪ fds w.
Proof.
  intros Hu Hc Hw. split.
  - unfold gfns_ws_open_url. rewrite Hu. by rewrite (run_bind _ _ _ _ _ Hc).
  - assert (conn_opened fds (fds w) (Some c) w1) as [[H1 H2] Hctx].
    { destruct secure; (eapply wp_elim; [|exact Hc]); [by apply (tls_connect_wp fds)|by apply (tcp_connect_wp fds)]. }
    pose proof (ws_connect_fds fds szw c host path None w1 Hctx) as Hwp.
    pose proof (wp_elim _ _ _ _ _ Hwp Hw) as [E _]. split; [exact H1|]. by rewrite E, H2.
Qed.
End descriptors.

(** C33: [parse_url] accepts exactly [ws://host/...] and [wss://host/...] with a
    host that contains no slash and fits its buffer, and cuts the path to the size of its
    own; everything between the scheme and the slash, a port included, is the
    host. *)
Theorem parse_url_accepts url secure host path : parse_url 256 256 url = Some (secure, host, path) <->
  exists rest, url = scheme secure ++ host ++ 47 :: rest /\ 47 ∉ host /\ zlen host < 256 /\
    path = ztake 255 (47 :: rest).
Proof. apply parse_url_spec. Qed.

(** ** A transport *)

(** The bytes to come, the bytes sent, the most one write takes, the open
    descriptors. *)
Record net : Type := Net { nrx : list Z; ntx : list Z; ncap : Z; nfds : gset Z }.
Definition net_recv (w : net) (n : Z) : net * option (list Z) :=
  (Net (zdrop n (nrx w)) (ntx w) (ncap w) (nfds w), Some (map u8 (ztake n (nrx w)))).
Definition net_send (w : net) (bs : list Z) : net * Z :=
  let n := Z.min (ncap w) (zlen bs) in
  (Net (nrx w) (ntx w ++ ztake n bs) (ncap w) (nfds w), n).
#[export] Instance net_sockets : Sockets net unit := {
  getaddrinfo w h p := (w, Some 1);
  sock_socket w ai := let s : Z := fresh (nfds w) in (Net (nrx w) (ntx w) (ncap w) ({[s]} ∪ nfds w), Some s);
  sock_connect w s a := (w, true);
  sock_close w s := Net (nrx w) (ntx w) (ncap w) (nfds w ∖ {[s]});
  sock_recv w s n := net_recv w n;
  sock_send w s bs := net_send w bs;
  tlsv3_client_connect w s h := (w, Some tt);
  tlsv3_client_free w t := w;
  tlsv3_client_read w t n := net_recv w n;
  tlsv3_client_write w t bs := (Net (nrx w) (ntx w ++ bs) (ncap w) (nfds w), zlen bs);
  mem_alloc w n := (w, true) }.
Definition net_rx (w : net) : list Z := map u8 (nrx w).
Definition net_conn : gfns_conn unit := GfnsConn 3 false None.
Definition net_tls : gfns_conn unit := GfnsConn 3 true (Some tt).

#[export] Instance net_fds : FdLaws net unit nfds.
Proof.
  split.
  - intros w ai w' s [= <- <-]. split; [apply is_fresh|done].
  - done.
  - by split_and!.
Qed.
Lemma map_u8_bytes l : Forall is_u8 (map u8 l).
Proof. apply Forall_forall. intros x Hx. apply list_elem_of_fmap in Hx as (y & -> & _). apply is_u8_u8. Qed.
#[export] Instance net_transport : Transport net_conn net_rx ntx.
Proof.
  split.
  - intros w. apply map_u8_bytes.
  - intros n w Hn. eexists _, _, _. split; [reflexivity|]. unfold net_rx. cbn [nrx ntx].
    assert (zlen (map u8 (ztake n (nrx w))) <= n) as Hl.
    { rewrite length_map. destruct (Z.le_ge_cases n (zlen (nrx w))); [rewrite zlen_ztake; lia|rewrite ztake_ge; lia]. }
    split; [done|]. split; [by rewrite <- map_app, ztake_zdrop|]. split; [exact Hl|]. left. apply i32_small. lia.
  - intros bs w. eexists _, _. split; [reflexivity|]. cbn [ntx]. split; [done|]. split; [lia|done].
  - done.
Qed.
#[export] Instance net_tls_transport : Transport net_tls net_rx ntx.
Proof.
  split.
  - intros w. apply map_u8_bytes.
  - intros n w Hn. exact (tr_read (c := net_conn) (rx := net_rx) (tx := ntx) n w Hn).
  - intros bs w. eexists _, _. split; [reflexivity|]. cbn [ntx]. split; [done|]. split; [lia|].
    by rewrite ztake_ge by lia.
  - done.
Qed.
Lemma net_full_writes : full_writes net_tls.
Proof. intros bs w r w' E _. by injection E as <- <-. Qed.
Lemma net_full_reads : full_reads net_conn net_rx.
Proof.
  intros n w r bs w' Hn Hle E. injection E as <- <- _. unfold net_rx in Hle. rewrite !length_map in *.
  rewrite zlen_ztake by lia. split; [|done]. apply i32_small. lia.
Qed.

(** A close frame and a text frame, from a server; a masked frame. *)
Definition server_bytes : list Z := [0x81; 3; 0x61; 0x62; 0x63; 0x88; 0].
Definition masked_bytes : list Z := [0x81; 0x82; 1; 2; 3; 4; 0x60; 0x60].

Lemma ws_send_rfc6455_witness :
  wp (gfns_ws_send (Some (GfnsWs net_tls true false)) 1 [0x61; 0x62])
    (fun r w' => r = 0 -> exists wire, ntx w' = [7] ++ wire /\
       exists f, ws_parse (wire ++ [1; 2]) = Some (f, [1; 2]) /\ payload f = [0x61; 0x62])
    (Net [] [7] 1000 ∅).
Proof.
  eapply wp_mono; [apply (ws_send_rfc6455 net_tls net_rx ntx true 1 [0x61; 0x62]); reflexivity|].
  intros r w' (_ & _ & H) H0. destruct (H net_full_writes H0) as (wire & E & Hp). exists wire. split; [exact E|].
  destruct (Hp [1; 2]) as (f & E' & _ & _ & _ & Hf). exists f. split; [exact E'|exact Hf].
Defined.

Lemma ws_send_truncates_witness :
  let w := Net [] [] 3 ∅ in
  let h := ws_header 1 2 in
  let m := mask_payload ws_mask [0x61; 0x62] in
  exists w3, gfns_ws_send (Some (GfnsWs net_conn true false)) 1 [0x61; 0x62] w = Some (0, w3) /\
    ntx w3 = ntx w ++ ztake 3 h ++ ztake 2 m.
Proof.
  intros w h m. exists (net_send (net_send w h).1 m).1.
  apply (ws_send_truncates net_conn net_rx ntx true 1 [0x61; 0x62] w 3 (net_send w h).1 (net_send w h).1 2);
    first [reflexivity | discriminate].
Defined.

Lemma ws_recv_one_frame_witness :
  wp (gfns_ws_recv (Some (GfnsWs net_conn true false)) (zeros 10))
    (fun r w' => ws_ret r = 0 /\ net_rx w' = [0x88; 0] /\ ztake 3 (ws_buf r) = [0x61; 0x62; 0x63])
    (Net server_bytes [] 1000 ∅).
Proof.
  eapply wp_mono; [apply (ws_recv_one_frame net_conn net_rx ntx true (zeros 10)); reflexivity|].
  intros r w' [_ H]. specialize (H net_full_reads (Frame true 1 None [0x61; 0x62; 0x63]) [0x88; 0]).
  destruct H as (H1 & H2 & _ & _ & H3); [reflexivity|discriminate|]. split; [exact H1|]. split; [exact H2|exact H3].
Defined.

Lemma ws_recv_keeps_mask_witness :
  wp (gfns_ws_recv (Some (GfnsWs net_conn true false)) (zeros 10))
    (fun r w' => ws_ret r = 0 /\ net_rx w' = [] /\ ztake 2 (ws_buf r) = mask_payload [1; 2; 3; 4] [0x61; 0x62])
    (Net masked_bytes [] 1000 ∅).
Proof.
  apply (ws_recv_keeps_mask net_conn net_rx ntx true (zeros 10) (Net masked_bytes [] 1000 ∅)
    (Frame true 1 (Some [1; 2; 3; 4]) [0x60; 0x60]) [1; 2; 3; 4] []);
    first [exact net_full_reads | reflexivity | discriminate].
Defined.

Lemma ws_closed_refuses_witness :
  gfns_ws_send (Some (GfnsWs net_conn true true)) 1 [0x61] (Net [] [] 1000 ∅) = Some (-1, Net [] [] 1000 ∅).
Proof.
  destruct (ws_closed_refuses net_conn net_rx ntx true 1 [0x61] [] (Net [] [] 1000 ∅)) as [_ H].
  exact (proj1 (H (Some (GfnsWs net_conn true true)) (or_intror eq_refl))).
Defined.

Lemma connections_release_witness :
  wp (gfns_tcp_connect (T := unit) 24 [0x68] 80) (fun o w' => match o with
      | None => nfds w' = ∅
      | Some c => csock c ∉ (∅ : gset Z) /\ nfds w' = {[csock c]} ∪ ∅ /\
          wp (gfns_conn_close (Some c)) (fun r w'' => r = 0 /\ nfds w'' = ∅) w'
      end) (Net [] [] 1000 ∅).
Proof. exact (connections_release nfds 24 [0x68] 80 false (Net [] [] 1000 ∅)). Defined.

(** The server closes without answering the handshake. *)
Lemma ws_open_url_leaks_witness :
  let w := Net [] [] 1000 ∅ in
  exists (c : gfns_conn unit) w2, gfns_ws_open_url (T := unit) 24 16 (str "ws://h/") w = Some (None, w2) /\
    csock c ∉ nfds w /\ nfds w2 = {[csock c]} ∪ nfds w.
Proof.
  intros w. destruct (gfns_tcp_connect (T := unit) 24 (str "h") 80 w) as [[[c|] w1]|] eqn:E; [|vm_compute in E; discriminate..].
  destruct (gfns_ws_connect (T := unit) 16 (Some c) (Some (str "h")) (Some (str "/")) None w1) as [[[s|] w2]|] eqn:E2;
    [exfalso; vm_compute in E; injection E as <- <-; vm_compute in E2; discriminate| |
     exfalso; vm_compute in E; injection E as <- <-; vm_compute in E2; discriminate].
  exists c, w2. apply (ws_open_url_leaks nfds 24 16 (str "ws://h/") false (str "h") (str "/") c w w1 w2);
    [reflexivity|exact E|exact E2].
Defined.
