(* ===== verification/Lru.v ===== *)
(** * Lru: the session cache of ssl/ssl_lru.c

    Entries of 100 bytes lie in a block of bytes supplied by the caller.  Each is
    on a doubly linked list, most recently used first, and in a binary search
    tree ordered by the masked session ID; addresses are 32-bit offsets in the
    block.  The operations are programs over the cache; every access to the block
    is checked, so that one outside it gives no result. *)
From S2P Require Import Prelude.
From S2P Require Import Words.
From S2P Require Import Effects.
From S2P Require Import Hash.
From S2P Require Import Hmac.
From S2P Require Import Kdf.

Definition SESSION_ID_LEN : Z := 32.
Definition MASTER_SECRET_LEN : Z := 48.
Definition SESSION_ID_OFF : Z := 0.
Definition MASTER_SECRET_OFF : Z := 32.
Definition VERSION_OFF : Z := 80.
Definition CIPHER_SUITE_OFF : Z := 82.
Definition LIST_PREV_OFF : Z := 84.
Definition LIST_NEXT_OFF : Z := 88.
Definition TREE_LEFT_OFF : Z := 92.
Definition TREE_RIGHT_OFF : Z := 96.
Definition LRU_ENTRY_LEN : Z := 100.
Definition ADDR_NULL : Z := 0xFFFFFFFF.

(** [br_ssl_session_parameters], less the length of the ID, which the cache does
    not look at. *)
Record br_ssl_session_parameters : Type := SessionParameters {
  session_id : list Z; version : Z; cipher_suite : Z; master_secret : list Z }.
#[export] Instance eta_session_parameters : Eta br_ssl_session_parameters := fun p =>
  SessionParameters (session_id p) (version p) (cipher_suite p) (master_secret p).

(** The vtable pointer apart, and [hash]: it is the hash function [dig] of the
    section, that of the generators of the server contexts that use the cache. *)
Record br_ssl_session_cache_lru : Type := Lru {
  store : list Z; store_len : Z; store_ptr : Z; index_key : list Z; init_done : bool;
  head : Z; tail : Z; root : Z }.
#[export] Instance eta_lru : Eta br_ssl_session_cache_lru := fun c =>
  Lru (store c) (store_len c) (store_ptr c) (index_key c) (init_done c) (head c) (tail c) (root c).
Notation lru := br_ssl_session_cache_lru.

(** ** Fields of the entries *)

(** [cc->store + a], [n] bytes. *)
Definition load_bytes (a n : Z) : M lru (list Z) :=
  let! cc := mget in mlift (read_at (store cc) a n).
Definition save_bytes (a : Z) (bs : list Z) : M lru unit :=
  let! cc := mget in
  let! st := mlift (write_at (store cc) a bs) in
  mset (fun cc => cc <| store := st |>).

(** The macro GETSET. *)
Definition GETSET_get (off x : Z) : M lru Z := let! b := load_bytes (x + off) 4 in mret' (br_dec32be b).
Definition GETSET_set (off x val : Z) : M lru unit := save_bytes (x + off) (br_enc32be val).
Definition get_prev : Z -> M lru Z := GETSET_get LIST_PREV_OFF.
Definition get_next : Z -> M lru Z := GETSET_get LIST_NEXT_OFF.
Definition get_left : Z -> M lru Z := GETSET_get TREE_LEFT_OFF.
Definition get_right : Z -> M lru Z := GETSET_get TREE_RIGHT_OFF.
Definition set_prev : Z -> Z -> M lru unit := GETSET_set LIST_PREV_OFF.
Definition set_next : Z -> Z -> M lru unit := GETSET_set LIST_NEXT_OFF.
Definition set_left : Z -> Z -> M lru unit := GETSET_set TREE_LEFT_OFF.
Definition set_right : Z -> Z -> M lru unit := GETSET_set TREE_RIGHT_OFF.

(** ** The search tree *)

(** [memcmp], of which only the sign is specified. *)
Fixpoint memcmp (a b : list Z) : Z :=
  match a, b with
  | x :: a, y :: b => if x =? y then memcmp a b else x - y
  | _, _ => 0
  end.

(** The loop of [find_node], from the node [x], reached by the link [y]: the node
    and the last link followed. *)
Fixpoint find_loop (fuel : nat) (id : list Z) (x y : Z) : M lru (Z * Z) :=
  match fuel with
  | O => fun _ => None
  | S fuel =>
      if x =? ADDR_NULL then mret' (ADDR_NULL, y)
      else
        let! b := load_bytes (x + SESSION_ID_OFF) SESSION_ID_LEN in
        let r := memcmp id b in
        if r <? 0 then let! x' := get_left x in find_loop fuel id x' (add32 x TREE_LEFT_OFF)
        else if r =? 0 then mret' (x, y)
        else let! x' := get_right x in find_loop fuel id x' (add32 x TREE_RIGHT_OFF)
  end.
(** There are at most [store_len / 100] nodes on a path. *)
Definition lru_fuel (cc : lru) : nat := S (Z.to_nat (store_len cc)).
Definition find_node (id : list Z) : M lru (Z * Z) :=
  let! cc := mget in find_loop (lru_fuel cc) id (root cc) ADDR_NULL.

(** The two loops of [find_replacement_node]: from [y1], reached by the link [y2],
    as long as there is a child [get], at offset [off]. *)
Fixpoint replacement_loop (fuel : nat) (get : Z -> M lru Z) (off y1 y2 : Z) : M lru (Z * Z) :=
  match fuel with
  | O => fun _ => None
  | S fuel =>
      let! z := get y1 in
      if z =? ADDR_NULL then mret' (y1, y2)
      else replacement_loop fuel get off z (add32 y1 off)
  end.
Definition find_replacement_node (x : Z) : M lru (Z * Z) :=
  let! cc := mget in
  let! y1 := get_left x in
  if negb (y1 =? ADDR_NULL) then
    replacement_loop (lru_fuel cc) get_right TREE_RIGHT_OFF y1 (add32 x TREE_LEFT_OFF)
  else
    let! y1 := get_right x in
    if negb (y1 =? ADDR_NULL) then
      replacement_loop (lru_fuel cc) get_left TREE_LEFT_OFF y1 (add32 x TREE_RIGHT_OFF)
    else mret' (ADDR_NULL, ADDR_NULL).

Definition set_link (alx x : Z) : M lru unit :=
  if alx =? ADDR_NULL then mset (fun cc => cc <| root := x |>)
  else save_bytes alx (br_enc32be x).

Definition remove_node (x : Z) : M lru unit :=
  let! id := load_bytes (x + SESSION_ID_OFF) SESSION_ID_LEN in
  let! (_, alx) := find_node id in
  let! (y, aly) := find_replacement_node x in
  if negb (y =? ADDR_NULL) then
    let! z := get_left y in
    let! z := (if z =? ADDR_NULL then get_right y else mret' z) in
    set_link aly z ;;!
    set_link alx y ;;!
    (let! l := get_left x in set_left y l) ;;!
    (let! r := get_right x in set_right y r)
  else set_link alx ADDR_NULL.

(** ** The operations *)

Section lru.
Context (dig : br_hash_class) (stk : hctx dig).

Definition mask_id (key src : list Z) : list Z :=
  let hkc := br_hmac_key_init dig stk key in
  let hc := br_hmac_init dig (hmac_slot dig stk) hkc SESSION_ID_LEN in
  let hc := br_hmac_update dig hc src in
  zblit src 0 (br_hmac_out dig stk hc).

(** The generator is that of the server context of the call. *)
Definition lru_save (rng : br_hmac_drbg_context) (params : br_ssl_session_parameters) :
    M lru br_hmac_drbg_context :=
  let! cc := mget in
  if store_len cc <? LRU_ENTRY_LEN then mret' rng
  else
    let! rng := (if negb (init_done cc) then
                   let '(rng, key) := br_hmac_drbg_generate dig stk rng 32 in
                   mset (fun cc => cc <| index_key := key |> <| init_done := true |>) ;;! mret' rng
                 else mret' rng) in
    let! cc := mget in
    let id := mask_id (index_key cc) (session_id params) in
    let! (f, _) := find_node id in
    if negb (f =? ADDR_NULL) then mret' rng
    else
      let! x := (if store_len cc -! LRU_ENTRY_LEN <? store_ptr cc then
                   let x := tail cc in
                   let! p := get_prev x in
                   mset (fun cc => cc <| tail := p |>) ;;!
                   (if p =? ADDR_NULL then mset (fun cc => cc <| head := ADDR_NULL |>)
                    else set_next p ADDR_NULL) ;;!
                   remove_node x ;;! mret' x
                 else
                   let x := u32 (store_ptr cc) in
                   mset (fun cc => cc <| store_ptr := store_ptr cc +! LRU_ENTRY_LEN |>) ;;! mret' x) in
      let! (_, alx) := find_node id in
      set_link alx x ;;!
      set_left x ADDR_NULL ;;!
      set_right x ADDR_NULL ;;!
      let! cc := mget in
      (if head cc =? ADDR_NULL then mset (fun cc => cc <| tail := x |>) else set_prev (head cc) x) ;;!
      set_prev x ADDR_NULL ;;!
      (let! cc := mget in set_next x (head cc)) ;;!
      mset (fun cc => cc <| head := x |>) ;;!
      save_bytes (x + SESSION_ID_OFF) id ;;!
      save_bytes (x + MASTER_SECRET_OFF) (ztake MASTER_SECRET_LEN (master_secret params)) ;;!
      save_bytes (x + VERSION_OFF) (br_enc16be (version params)) ;;!
      save_bytes (x + CIPHER_SUITE_OFF) (br_enc16be (cipher_suite params)) ;;!
      mret' rng.

(** The end of [lru_load]: a node found away from the head moves there. *)
Definition lru_to_head (x : Z) : M lru unit :=
  let! cc := mget in
  if negb (x =? head cc) then
    let! p := get_prev x in
    let! n := get_next x in
    set_next p n ;;!
    (if n =? ADDR_NULL then mset (fun cc => cc <| tail := p |>) else set_prev n p) ;;!
    (let! cc := mget in set_prev (head cc) x) ;;!
    (let! cc := mget in set_next x (head cc)) ;;!
    set_prev x ADDR_NULL ;;!
    mset (fun cc => cc <| head := x |>)
  else mret' tt.

(** The result, and [params] with the fields that were filled. *)
Definition lru_load (params : br_ssl_session_parameters) : M lru (Z * br_ssl_session_parameters) :=
  let! cc := mget in
  if negb (init_done cc) then mret' (0, params)
  else
    let id := mask_id (index_key cc) (session_id params) in
    let! (x, _) := find_node id in
    if negb (x =? ADDR_NULL) then
      let! b := load_bytes (x + VERSION_OFF) 2 in
      let v := br_dec16be b in
      if v =? 0 then mret' (0, params)
      else
        let! b := load_bytes (x + CIPHER_SUITE_OFF) 2 in
        let! ms := load_bytes (x + MASTER_SECRET_OFF) MASTER_SECRET_LEN in
        let params := params <| version := v |> <| cipher_suite := br_dec16be b |> <| master_secret := ms |> in
        lru_to_head x ;;! mret' (1, params)
    else mret' (0, params).

Definition br_ssl_session_cache_lru_init (cc : lru) (st : list Z) (len : Z) : lru :=
  Lru st len 0 (index_key cc) false ADDR_NULL ADDR_NULL ADDR_NULL.

Definition br_ssl_session_cache_lru_forget (id : list Z) : M lru unit :=
  let! cc := mget in
  if negb (init_done cc) then mret' tt
  else
    let mid := mask_id (index_key cc) id in
    let! (addr, _) := find_node mid in
    if negb (addr =? ADDR_NULL) then save_bytes (addr + VERSION_OFF) (br_enc16be 0) else mret' tt.
End lru.
