(* ===== verification/LruTree.v ===== *)
(** * LruTree: the shapes the session cache keeps in its block

    Pure facts about search trees with parent contexts and about doubly linked
    lists, laid out in fields that are functions of the address: what it means for
    a field to hold a shape, and how a shape changes when one link is written. *)
From Stdlib Require Import Sorted.
From stdpp Require Import sets functions.
From S2P Require Import Prelude.
From S2P Require Import Lru.

(** ** The order of [memcmp] *)

Lemma memcmp_refl a : memcmp a a = 0.
Proof. induction a as [|x a IH]; [done|]. cbn. by rewrite Z.eqb_refl. Qed.
Lemma memcmp_eq a b : length a = length b -> memcmp a b = 0 -> a = b.
Proof.
  revert b. induction a as [|x a IH]; intros [|y b] Hl; try done. cbn.
  destruct (Z.eqb_spec x y) as [->|]; [|lia]. intros. f_equal. apply IH; [by injection Hl|done].
Qed.
Lemma memcmp_opp a b : memcmp a b = - memcmp b a.
Proof.
  revert b. induction a as [|x a IH]; intros [|y b]; try done. cbn. rewrite (Z.eqb_sym y x).
  destruct (x =? y); [apply IH|lia].
Qed.
Lemma memcmp_trans a b c : length a = length b -> memcmp a b < 0 -> memcmp b c < 0 -> memcmp a c < 0.
Proof.
  revert b c. induction a as [|x a IH]; intros [|y b] [|z c] Hl; try done. cbn.
  intros H1 H2. destruct (Z.eqb_spec x y), (Z.eqb_spec y z), (Z.eqb_spec x z); try lia.
  apply (IH b c); [by injection Hl|exact H1|exact H2].
Qed.

(** ** Trees and contexts *)

Inductive tree : Type := Leaf | Bin (l : tree) (x : Z) (r : tree).
#[export] Instance tree_eq_dec : EqDecision tree.
Proof. solve_decision. Defined.
(** A step down: to the left of a node, whose right subtree is kept, or to the
    right.  A context lists the steps from the hole up. *)
Inductive frame : Type := FL (x : Z) (r : tree) | FR (l : tree) (x : Z).

Fixpoint elems (t : tree) : list Z :=
  match t with Leaf => [] | Bin l x r => elems l ++ x :: elems r end.
Fixpoint plug (s : tree) (c : list frame) : tree :=
  match c with
  | [] => s
  | FL x r :: c => plug (Bin s x r) c
  | FR l x :: c => plug (Bin l x s) c
  end.
Fixpoint cpre (c : list frame) : list Z :=
  match c with [] => [] | FL _ _ :: c => cpre c | FR l x :: c => cpre c ++ elems l ++ [x] end.
Fixpoint cpost (c : list frame) : list Z :=
  match c with [] => [] | FL x r :: c => x :: elems r ++ cpost c | FR _ _ :: c => cpost c end.
Definition cnodes (c : list frame) : list Z := cpre c ++ cpost c.

(** The address of the link that holds the hole. *)
Definition link (c : list frame) : Z :=
  match c with
  | [] => ADDR_NULL
  | FL x _ :: _ => x + TREE_LEFT_OFF
  | FR _ x :: _ => x + TREE_RIGHT_OFF
  end.

Lemma elems_plug s c : elems (plug s c) = cpre c ++ elems s ++ cpost c.
Proof.
  revert s. induction c as [|[x r|l x] c IH]; intros s; cbn; rewrite ?app_nil_r; [done| |];
    rewrite IH; cbn; rewrite <- ?(assoc_L (++)); cbn; rewrite <- ?(assoc_L (++)); done.
Qed.
Lemma plug_app s c c' : plug s (c ++ c') = plug (plug s c) c'.
Proof. revert s. induction c as [|[] c IH]; intros s; cbn; auto. Qed.
Lemma link_app c c' : c <> [] -> link (c ++ c') = link c.
Proof. by destruct c. Qed.
Lemma cpre_app c c' : cpre (c ++ c') = cpre c' ++ cpre c.
Proof. induction c as [|[] c IH]; cbn; rewrite ?app_nil_r, ?IH, <- ?(assoc_L (++)); done. Qed.
Lemma cpost_app c c' : cpost (c ++ c') = cpost c ++ cpost c'.
Proof. induction c as [|[] c IH]; cbn; rewrite ?IH, <- ?(assoc_L (++)); done. Qed.

(** A tree of [elems] without repetition: the parts are apart. *)
Lemma NoDup_plug s c : NoDup (elems (plug s c)) ->
  NoDup (elems s) /\ NoDup (cnodes c) /\ (forall x, x ∈ elems s -> x ∉ cnodes c).
Proof.
  rewrite elems_plug. intros H.
  assert (cpre c ++ elems s ++ cpost c ≡ₚ elems s ++ cnodes c) as E by (unfold cnodes; solve_Permutation).
  rewrite E in H. apply NoDup_app in H as (? & ? & ?). eauto.
Qed.

Section layout.
Implicit Types L R : Z -> Z.

Fixpoint tree_at L R (a : Z) (t : tree) : Prop :=
  match t with
  | Leaf => a = ADDR_NULL
  | Bin l x r => a = x /\ tree_at L R (L x) l /\ tree_at L R (R x) r
  end.
(** From the root [rt], the context leads to a link that holds [a]. *)
Fixpoint ctx_at L R (rt a : Z) (c : list frame) : Prop :=
  match c with
  | [] => rt = a
  | FL x r :: c => L x = a /\ tree_at L R (R x) r /\ ctx_at L R rt x c
  | FR l x :: c => R x = a /\ tree_at L R (L x) l /\ ctx_at L R rt x c
  end.
Definition same_on L R L' R' (xs : list Z) : Prop := forall x, x ∈ xs -> L' x = L x /\ R' x = R x.

Lemma tree_at_same L R L' R' a t : same_on L R L' R' (elems t) -> tree_at L R a t -> tree_at L' R' a t.
Proof.
  revert a. induction t as [|l IHl x r IHr]; intros a Hs; [done|]. cbn. intros (-> & Hl & Hr).
  destruct (Hs x) as [-> ->]; [cbn; set_solver|]. split; [done|].
  split; [apply IHl|apply IHr]; try done; intros y Hy; apply Hs; cbn; set_solver.
Qed.
Lemma ctx_at_same L R L' R' rt a c : same_on L R L' R' (cnodes c) -> ctx_at L R rt a c -> ctx_at L' R' rt a c.
Proof.
  revert a. induction c as [|[x r|l x] c IH]; intros a Hs; [done| |]; cbn; intros (<- & Ht & Hc);
    (destruct (Hs x) as [-> ->]; [unfold cnodes; cbn; set_solver|]);
    (split; [done|]; split; [eapply tree_at_same; [|done]|apply IH; [|done]];
     intros y Hy; apply Hs; unfold cnodes in *; cbn; set_solver).
Qed.
Lemma tree_plug L R rt s c : tree_at L R rt (plug s c) <-> exists a, ctx_at L R rt a c /\ tree_at L R a s.
Proof.
  revert s. induction c as [|[x r|l x] c IH]; intros s; cbn.
  - split; [by exists rt|]. by intros (a & -> & ?).
  - rewrite IH. cbn. split.
    + intros (a & Hc & -> & Hl & Hr). eauto 6.
    + intros (a & (<- & Hr & Hc) & Ht). eauto 6.
  - rewrite IH. cbn. split.
    + intros (a & Hc & -> & Hl & Hr). eauto 6.
    + intros (a & (<- & Hr & Hc) & Ht). eauto 6.
Qed.

(** Writing the link of a context. *)
Lemma ctx_relink_left L R rt a x r c a' : NoDup (cnodes (FL x r :: c)) ->
  ctx_at L R rt a (FL x r :: c) -> ctx_at (<[x:=a']> L) R rt a' (FL x r :: c).
Proof.
  intros Hn (_ & Ht & Hc). unfold cnodes in Hn. cbn in Hn. apply NoDup_app in Hn as (_ & Hd & Hn).
  apply NoDup_cons in Hn as [Hx _]. split; [by rewrite fn_lookup_insert|].
  split; [apply (tree_at_same L R); [|done]|apply (ctx_at_same L R); [|done]];
    intros y Hy; (split; [|done]); apply fn_lookup_insert_ne; intros <-.
  - apply Hx. set_solver.
  - unfold cnodes in Hy. set_solver.
Qed.
Lemma ctx_relink_right L R rt a x l c a' : NoDup (cnodes (FR l x :: c)) ->
  ctx_at L R rt a (FR l x :: c) -> ctx_at L (<[x:=a']> R) rt a' (FR l x :: c).
Proof.
  intros Hn (_ & Ht & Hc). unfold cnodes in Hn. cbn in Hn.
  assert ((cpre c ++ elems l ++ [x]) ++ cpost c ≡ₚ x :: elems l ++ cpre c ++ cpost c) as E by solve_Permutation.
  rewrite E in Hn. apply NoDup_cons in Hn as [Hx _]. split; [by rewrite fn_lookup_insert|].
  split; [apply (tree_at_same L R); [|done]|apply (ctx_at_same L R); [|done]];
    intros y Hy; (split; [done|]); apply fn_lookup_insert_ne; intros <-; apply Hx; unfold cnodes in *; set_solver.
Qed.

(** A tree of at most [n] addresses is no deeper than [n]. *)
Lemma tree_at_node L R a t : a <> ADDR_NULL -> tree_at L R a t ->
  exists l r, t = Bin l a r /\ tree_at L R (L a) l /\ tree_at L R (R a) r.
Proof. destruct t as [|l x r]; [done|]. intros _ (-> & ?). eauto. Qed.
Lemma tree_at_null L R t : (forall x, x ∈ elems t -> x <> ADDR_NULL) -> tree_at L R ADDR_NULL t -> t = Leaf.
Proof. destruct t as [|l x r]; [done|]. intros H (<- & _). exfalso. by apply (H ADDR_NULL); [cbn; set_solver|]. Qed.
End layout.

(** ** Doubly linked lists *)

(** [p] is before the list, [n] after it. *)
Definition first (n : Z) (l : list Z) : Z := match l with [] => n | x :: _ => x end.
Fixpoint final (p : Z) (l : list Z) : Z := match l with [] => p | x :: l => final x l end.
Fixpoint dll (P N : Z -> Z) (p : Z) (l : list Z) (n : Z) : Prop :=
  match l with
  | [] => True
  | x :: l => P x = p /\ N x = first n l /\ dll P N x l n
  end.

Lemma first_app n l l' : first n (l ++ l') = first (first n l') l.
Proof. by destruct l. Qed.
Lemma final_app p l l' : final p (l ++ l') = final (final p l) l'.
Proof. revert p. induction l as [|x l IH]; intros p; cbn; auto. Qed.
Lemma dll_app P N p l l' n :
  dll P N p (l ++ l') n <-> dll P N p l (first n l') /\ dll P N (final p l) l' n.
Proof.
  revert p. induction l as [|x l IH]; intros p; cbn; [tauto|]. rewrite IH, first_app. tauto.
Qed.
Lemma dll_same P N P' N' p l n : (forall x, x ∈ l -> P' x = P x /\ N' x = N x) ->
  dll P N p l n -> dll P' N' p l n.
Proof.
  revert p. induction l as [|x l IH]; intros p Hs; [done|]. cbn. intros (<- & E & Hl).
  destruct (Hs x) as [-> ->]; [by left|]. split; [done|]. split; [done|].
  apply IH; [|done]. intros y Hy. apply Hs. by right.
Qed.
Lemma dll_set_first P N p h l n q : NoDup (h :: l) -> dll P N p (h :: l) n -> dll (<[h:=q]> P) N q (h :: l) n.
Proof.
  intros [Hh _]%NoDup_cons (_ & E & Hl). cbn. rewrite fn_lookup_insert. split; [done|]. split; [done|].
  eapply dll_same; [|exact Hl]. intros y Hy. split; [|done]. apply fn_lookup_insert_ne. by intros <-.
Qed.
Lemma final_elem p l : l <> [] -> final p l ∈ l.
Proof.
  revert p. induction l as [|x l IH]; intros p; [done|]. intros _. cbn.
  destruct l as [|y l]; [by left|]. right. by apply IH.
Qed.
Lemma dll_set_final P N p l n n' : NoDup l -> l <> [] -> dll P N p l n -> dll P (<[final p l:=n']> N) p l n'.
Proof.
  revert p. induction l as [|x l IH]; intros p; [done|]. intros [Hx Hn]%NoDup_cons _ (HP & HN & Hl). cbn.
  destruct l as [|y l]; [by rewrite fn_lookup_insert|].
  assert (final x (y :: l) <> x) as Hne by (intros E; apply Hx; rewrite <- E at 1; by apply final_elem).
  rewrite fn_lookup_insert_ne by done. split; [done|]. split; [done|]. by apply IH.
Qed.
Lemma final_cons p x l : final p (x :: l) = final x l.
Proof. done. Qed.
Lemma final_ne p q l : l <> [] -> final p l = final q l.
Proof. by destruct l. Qed.

(** [x] moves from the middle to the front. *)
Lemma dll_to_front P N h l1 x l2 : NoDup ((h :: l1) ++ x :: l2) ->
  dll P N ADDR_NULL ((h :: l1) ++ x :: l2) ADDR_NULL ->
  let p := final ADDR_NULL (h :: l1) in
  let n := first ADDR_NULL l2 in
  let P1 := match l2 with [] => P | n :: _ => <[n:=p]> P end in
  dll (<[x:=ADDR_NULL]> (<[h:=x]> P1)) (<[x:=h]> (<[p:=n]> N)) ADDR_NULL (x :: (h :: l1) ++ l2) ADDR_NULL.
Proof.
  intros Hn Hl p n P1. apply dll_app in Hl as [H1 [HP [HN H2]]]. cbn [first] in H1.
  apply NoDup_app in Hn as (Hn1 & Hd & [Hx Hn2]%NoDup_cons).
  assert (x ∉ h :: l1) as Hx1 by (intros Hin; apply (Hd x Hin); by left).
  assert (forall y, y ∈ h :: l1 -> y ∉ l2) as Hd2 by (intros y Hy Hy2; apply (Hd y Hy); by right).
  assert (p ∈ h :: l1) as Hp by (by apply final_elem).
  change (dll ?P ?N ?p (x :: ?l) ?n) with (P x = p /\ N x = first n l /\ dll P N x l n).
  rewrite !fn_lookup_insert. split; [done|]. split; [done|]. apply dll_app. split.
  - pose proof (dll_set_final _ _ _ _ _ n Hn1 ltac:(done) H1) as H. fold p in H.
    apply (dll_set_first _ _ _ _ _ _ x Hn1) in H. eapply dll_same; [|exact H].
    intros y Hy. assert (x <> y) by (intros <-; done). rewrite !(fn_lookup_insert_ne _ x) by done. split; [|done].
    destruct (decide (h = y)) as [<-|]; [by rewrite !fn_lookup_insert|]. rewrite !fn_lookup_insert_ne by done.
    subst P1. destruct l2 as [|m l2]; [done|]. apply fn_lookup_insert_ne. intros <-. apply (Hd2 m Hy). by left.
  - destruct l2 as [|m l2]; [done|]. apply (dll_set_first _ _ _ _ _ _ p Hn2) in H2.
    replace (final x (h :: l1)) with p by (by apply final_ne). eapply dll_same; [|exact H2].
    intros y Hy. assert (x <> y) by (intros <-; done). rewrite !(fn_lookup_insert_ne _ x) by done.
    split; apply fn_lookup_insert_ne; intros <-; [apply (Hd2 h); [by left|done]|by apply (Hd2 p)].
Qed.

(** [x], which is not in the list, is put at the front. *)
Lemma dll_push P N l x : NoDup l -> x ∉ l -> dll P N ADDR_NULL l ADDR_NULL ->
  dll (<[x:=ADDR_NULL]> match l with [] => P | h :: _ => <[h:=x]> P end) (<[x:=first ADDR_NULL l]> N)
    ADDR_NULL (x :: l) ADDR_NULL.
Proof.
  intros Hn Hx Hl. cbn [dll]. rewrite !fn_lookup_insert. split; [done|]. split; [done|].
  destruct l as [|h l]; [done|]. apply (dll_set_first _ _ _ _ _ _ x Hn) in Hl. eapply dll_same; [|exact Hl].
  intros y Hy. by rewrite !(fn_lookup_insert_ne _ x) by (intros <-; done).
Qed.

(** The last element is cut off. *)
Lemma dll_pop P N l x : NoDup (l ++ [x]) -> l <> [] -> dll P N ADDR_NULL (l ++ [x]) ADDR_NULL ->
  dll P (<[final ADDR_NULL l:=ADDR_NULL]> N) ADDR_NULL l ADDR_NULL.
Proof. intros (Hn & _)%NoDup_app Hne (Hl & _)%dll_app. by eapply dll_set_final. Qed.
