(* ===== verification/LruSpec.v ===== *)
(** * LruSpec: the primitives of the session cache on an abstract layout

    A [view] of the block gives, for each address of an entry, its links and its
    data.  Every primitive of [Lru] acts on the view as on a record of functions;
    the searches find the place of an identifier, the removal of a node leaves a
    search tree with one node less. *)
From Stdlib Require Import Sorted.
From stdpp Require Import sets functions sorting.
From S2P Require Import Prelude.
From S2P Require Import Words.
From S2P Require Import Effects.
From S2P Require Import Lru.
From S2P Require Import LruTree.

(** What an entry stands for. *)
Record entry : Type := Entry { e_id : list Z; e_secret : list Z; e_version : Z; e_suite : Z }.
Record view : Type := View { vP : Z -> Z; vN : Z -> Z; vL : Z -> Z; vR : Z -> Z; vD : Z -> entry }.
#[export] Instance eta_view : Eta view := fun v => View (vP v) (vN v) (vL v) (vR v) (vD v).

Definition node_ok (len x : Z) : Prop := 0 <= x /\ x mod 100 = 0 /\ x + 100 <= len.
Definition fld (off : Z) (st : list Z) (x : Z) : Z := br_dec32be (zslice st (x + off) 4).
Definition data (st : list Z) (x : Z) : entry :=
  Entry (zslice st x 32) (zslice st (x + 32) 48)
    (br_dec16be (zslice st (x + 80) 2)) (br_dec16be (zslice st (x + 82) 2)).

(** [cc] holds [v]. *)
Record rep (cc : lru) (v : view) : Prop := Rep {
  rep_len : zlen (store cc) = store_len cc;
  rep_small : store_len cc < 2 ^ 32;
  rep_prev : forall x, node_ok (store_len cc) x -> fld LIST_PREV_OFF (store cc) x = vP v x;
  rep_next : forall x, node_ok (store_len cc) x -> fld LIST_NEXT_OFF (store cc) x = vN v x;
  rep_left : forall x, node_ok (store_len cc) x -> fld TREE_LEFT_OFF (store cc) x = vL v x;
  rep_right : forall x, node_ok (store_len cc) x -> fld TREE_RIGHT_OFF (store cc) x = vR v x;
  rep_data : forall x, node_ok (store_len cc) x -> data (store cc) x = vD v x }.

(** The links outside the block do not matter. *)
Lemma rep_block cc cc' v : rep cc v -> store cc' = store cc -> store_len cc' = store_len cc -> rep cc' v.
Proof. intros [] Es El. constructor; rewrite ?Es, ?El; done. Qed.

(** Two entries are the same or apart. *)
Lemma node_apart len x y : node_ok len x -> node_ok len y -> x <> y -> x + 100 <= y \/ y + 100 <= x.
Proof.
  intros (_ & Hx & _) (_ & Hy & _) Hn.
  pose proof (Z.div_mod x 100 ltac:(lia)). pose proof (Z.div_mod y 100 ltac:(lia)).
  assert (x / 100 <> y / 100) by lia. lia.
Qed.
Lemma node_null len x : node_ok len x -> len < 2 ^ 32 -> x <> ADDR_NULL.
Proof. unfold node_ok, ADDR_NULL. lia. Qed.
Lemma node_add32 len x off : node_ok len x -> len < 2 ^ 32 -> 0 <= off < 100 -> add32 x off = x + off.
Proof. intros (? & ? & ?) ??. apply u32_small. lia. Qed.
Lemma node_eqb len x : node_ok len x -> len < 2 ^ 32 -> (x =? ADDR_NULL) = false.
Proof. intros. apply Z.eqb_neq. by eapply node_null. Qed.

(** Reading after a write of [bs] at offset [off] of the entry [x]. *)
Lemma slice_other (st : list Z) len x y off bs o n : zlen st = len -> node_ok len x -> node_ok len y ->
  0 <= off -> off + zlen bs <= 100 -> 0 <= o -> 0 <= n -> o + n <= 100 ->
  (y <> x \/ o + n <= off \/ off + zlen bs <= o) ->
  zslice (zblit st (x + off) bs) (y + o) n = zslice st (y + o) n.
Proof.
  intros Hl Hx Hy ????? Hd. pose proof (Nat2Z.is_nonneg (length bs)).
  assert (y + o + n <= x + off \/ x + off + zlen bs <= y + o) as [?|?].
  { destruct (decide (y = x)) as [->|Hn]; [lia|]. pose proof (node_apart _ _ _ Hx Hy ltac:(done)). lia. }
  - destruct Hx as (? & _ & ?), Hy as (? & _ & ?). apply zslice_zblit_before; lia.
  - destruct Hx as (? & _ & ?), Hy as (? & _ & ?). apply zslice_zblit_after; lia.
Qed.
Lemma slice_same (st : list Z) len x off bs : zlen st = len -> node_ok len x -> 0 <= off -> off + zlen bs <= 100 ->
  zslice (zblit st (x + off) bs) (x + off) (zlen bs) = bs.
Proof. intros Hl (? & _ & ?) ??. apply zslice_zblit_same; lia. Qed.

Lemma fld_set st len x y off o val : zlen st = len -> node_ok len x -> node_ok len y ->
  0 <= off <= 96 -> 0 <= o <= 96 -> off mod 4 = 0 -> o mod 4 = 0 -> is_u32 val ->
  fld o (zblit st (x + off) (br_enc32be val)) y = if decide (y = x /\ o = off) then val else fld o st y.
Proof.
  intros Hl Hx Hy ?? H1 H2 Hv. unfold fld. assert (zlen (br_enc32be val) = 4) as L4 by done.
  destruct (decide _) as [[-> ->]|Hn].
  - rewrite <- L4 at 1. rewrite (slice_same _ len) by (done || lia).
    rewrite <- (app_nil_r (br_enc32be val)). by apply dec_enc32be.
  - rewrite (slice_other _ len); [done|done..|lia|lia|lia|lia|lia|].
    rewrite L4. destruct (decide (y = x)) as [->|]; [right|by left].
    assert (o <> off) by tauto.
    pose proof (Z.div_mod o 4 ltac:(lia)). pose proof (Z.div_mod off 4 ltac:(lia)).
    assert (o / 4 <> off / 4) by lia. lia.
Qed.
Lemma data_set st len x y off bs : zlen st = len -> node_ok len x -> node_ok len y ->
  84 <= off -> off + zlen bs <= 100 -> data (zblit st (x + off) bs) y = data st y.
Proof.
  intros Hl Hx Hy ??. unfold data. rewrite <- (Z.add_0_r y) at 1 5.
  by rewrite !(slice_other st len) by (done || lia).
Qed.
Lemma fld_keep st len x y off bs o : zlen st = len -> node_ok len x -> node_ok len y ->
  0 <= off -> off + zlen bs <= 84 -> 84 <= o <= 96 -> fld o (zblit st (x + off) bs) y = fld o st y.
Proof. intros. unfold fld. by rewrite (slice_other st len) by (done || lia). Qed.

(** ** The primitives *)

Lemma wp_save cc a bs (Q : unit -> lru -> Prop) : zlen (store cc) = store_len cc ->
  0 <= a -> a + zlen bs <= store_len cc ->
  Q tt (cc <| store := zblit (store cc) a bs |>) -> wp (save_bytes a bs) Q cc.
Proof.
  intros Hl ?? HQ. unfold save_bytes. wp_step. wp_step. wp_step.
  eapply wp_lift; [apply write_at_ok; lia|]. by wp_step.
Qed.

Section prims.
Context (cc : lru) (v : view) (R : rep cc v).
Notation ok := (node_ok (store_len cc)).
Implicit Types (x a : Z).

Lemma wp_load_bytes a n (Q : list Z -> lru -> Prop) : 0 <= a -> 0 <= n -> a + n <= store_len cc ->
  Q (zslice (store cc) a n) cc -> wp (load_bytes a n) Q cc.
Proof.
  intros ??? HQ. unfold load_bytes. wp_step. wp_step.
  eapply wp_lift; [|exact HQ]. apply read_at_ok; rewrite ?(rep_len _ _ R); lia.
Qed.
Lemma wp_save_bytes a bs (Q : unit -> lru -> Prop) : 0 <= a -> a + zlen bs <= store_len cc ->
  Q tt (cc <| store := zblit (store cc) a bs |>) -> wp (save_bytes a bs) Q cc.
Proof. apply wp_save, R. Qed.

Lemma wp_GETSET_get off x (Q : Z -> lru -> Prop) : ok x -> 0 <= off <= 96 ->
  Q (fld off (store cc) x) cc -> wp (GETSET_get off x) Q cc.
Proof.
  intros (? & ? & ?) ? HQ. unfold GETSET_get. wp_step. apply wp_load_bytes; try lia. by wp_step.
Qed.
Lemma wp_get_prev x (Q : Z -> lru -> Prop) : ok x -> Q (vP v x) cc -> wp (get_prev x) Q cc.
Proof. intros Hx HQ. apply wp_GETSET_get; [done|by vm_compute|]. by rewrite (rep_prev _ _ R). Qed.
Lemma wp_get_next x (Q : Z -> lru -> Prop) : ok x -> Q (vN v x) cc -> wp (get_next x) Q cc.
Proof. intros Hx HQ. apply wp_GETSET_get; [done|by vm_compute|]. by rewrite (rep_next _ _ R). Qed.
Lemma wp_get_left x (Q : Z -> lru -> Prop) : ok x -> Q (vL v x) cc -> wp (get_left x) Q cc.
Proof. intros Hx HQ. apply wp_GETSET_get; [done|by vm_compute|]. by rewrite (rep_left _ _ R). Qed.
Lemma wp_get_right x (Q : Z -> lru -> Prop) : ok x -> Q (vR v x) cc -> wp (get_right x) Q cc.
Proof. intros Hx HQ. apply wp_GETSET_get; [done|by vm_compute|]. by rewrite (rep_right _ _ R). Qed.

(** Identifiers are 32 bytes. *)
Lemma id_len x : ok x -> zlen (e_id (vD v x)) = 32.
Proof.
  intros Hx. rewrite <- (rep_data _ _ R x Hx). cbn. destruct Hx as (? & ? & ?).
  apply zlen_zslice; rewrite ?(rep_len _ _ R); lia.
Qed.
Lemma wp_load_id x (Q : list Z -> lru -> Prop) : ok x ->
  Q (e_id (vD v x)) cc -> wp (load_bytes (x + SESSION_ID_OFF) SESSION_ID_LEN) Q cc.
Proof.
  intros Hx HQ. destruct Hx as (? & ? & ?). apply wp_load_bytes; unfold SESSION_ID_OFF, SESSION_ID_LEN; try lia.
  rewrite <- (rep_data _ _ R x) in HQ by done. cbn in HQ. by rewrite Z.add_0_r.
Qed.

(** A new view, of a cache with another block. *)
Definition stored (st : list Z) : lru := cc <| store := st |>.
Lemma rep_set_link off x a : ok x -> is_u32 a -> In off [84; 88; 92; 96] ->
  let cc' := stored (zblit (store cc) (x + off) (br_enc32be a)) in
  let upd o (f : Z -> Z) := if o =? off then <[x:=a]> f else f in
  rep cc' (View (upd 84 (vP v)) (upd 88 (vN v)) (upd 92 (vL v)) (upd 96 (vR v)) (vD v)).
Proof.
  intros Hx Ha Ho cc' upd. pose proof (rep_len _ _ R) as Hl. assert (zlen (br_enc32be a) = 4) as L4 by done.
  assert (0 <= off <= 96 /\ 84 <= off /\ off mod 4 = 0) as (? & ? & ?)
    by (cbn in Ho; destruct Ho as [<-|[<-|[<-|[<-|[]]]]]; vm_compute; intuition congruence).
  assert (forall o f, 84 <= o <= 96 -> o mod 4 = 0 -> (forall y, ok y -> fld o (store cc) y = f y) ->
    forall y, ok y -> fld o (store cc') y = upd o f y) as Hf.
  { intros o f ?? Hf y Hy. cbn. rewrite (fld_set _ (store_len cc)) by (done || lia). subst upd. cbn.
    destruct (Z.eqb_spec o off) as [->|?], (decide _) as [[-> ?]|Hn]; try done; rewrite ?fn_lookup_insert; try done.
    - rewrite fn_lookup_insert_ne; [by apply Hf|]. intros <-. by apply Hn.
    - by apply Hf. }
  destruct R. constructor; cbn -[Z.pow zblit].
  - rewrite zlen_zblit; [done| |]; destruct Hx as (? & ? & ?); lia.
  - done.
  - by apply Hf.
  - by apply Hf.
  - by apply Hf.
  - by apply Hf.
  - intros y Hy. rewrite (data_set _ (store_len cc)) by (done || lia). auto.
Qed.

Lemma wp_set_prev x a (Q : unit -> lru -> Prop) : ok x -> is_u32 a ->
  (forall st, let cc' := stored st in rep cc' (v <| vP := <[x:=a]> (vP v) |>) -> Q tt cc') -> wp (set_prev x a) Q cc.
Proof.
  intros Hx Ha HQ. destruct Hx as (? & ? & ?). apply wp_save_bytes; unfold LIST_PREV_OFF; cbn [length br_enc32be]; try lia.
  apply HQ. apply (rep_set_link 84 x a); cbn; auto. done.
Qed.
Lemma wp_set_next x a (Q : unit -> lru -> Prop) : ok x -> is_u32 a ->
  (forall st, let cc' := stored st in rep cc' (v <| vN := <[x:=a]> (vN v) |>) -> Q tt cc') -> wp (set_next x a) Q cc.
Proof.
  intros Hx Ha HQ. destruct Hx as (? & ? & ?). apply wp_save_bytes; unfold LIST_NEXT_OFF; cbn [length br_enc32be]; try lia.
  apply HQ. apply (rep_set_link 88 x a); cbn; auto. done.
Qed.
Lemma wp_set_left x a (Q : unit -> lru -> Prop) : ok x -> is_u32 a ->
  (forall st, let cc' := stored st in rep cc' (v <| vL := <[x:=a]> (vL v) |>) -> Q tt cc') -> wp (set_left x a) Q cc.
Proof.
  intros Hx Ha HQ. destruct Hx as (? & ? & ?). apply wp_save_bytes; unfold TREE_LEFT_OFF; cbn [length br_enc32be]; try lia.
  apply HQ. apply (rep_set_link 92 x a); cbn; auto. done.
Qed.
Lemma wp_set_right x a (Q : unit -> lru -> Prop) : ok x -> is_u32 a ->
  (forall st, let cc' := stored st in rep cc' (v <| vR := <[x:=a]> (vR v) |>) -> Q tt cc') -> wp (set_right x a) Q cc.
Proof.
  intros Hx Ha HQ. destruct Hx as (? & ? & ?). apply wp_save_bytes; unfold TREE_RIGHT_OFF; cbn [length br_enc32be]; try lia.
  apply HQ. apply (rep_set_link 96 x a); cbn; auto. done.
Qed.
End prims.

(** ** Searching *)

Definition idlt (D : Z -> entry) (x y : Z) : Prop := memcmp (e_id (D x)) (e_id (D y)) < 0.
Definition root_of (s : tree) : Z := match s with Leaf => ADDR_NULL | Bin _ x _ => x end.
Lemma root_elem s : s <> Leaf -> root_of s ∈ elems s.
Proof. destruct s; [done|]. intros _. cbn. set_solver. Qed.
Lemma tree_at_root L R a t : tree_at L R a t -> a = root_of t.
Proof. destruct t; cbn; tauto. Qed.

(** The tree of [cc]: the entries [xs], in the order of their identifiers. *)
Record tree_ok (cc : lru) (v : view) (t : tree) : Prop := TreeOk {
  tree_root : tree_at (vL v) (vR v) (root cc) t;
  tree_nodes : Forall (node_ok (store_len cc)) (elems t);
  tree_sorted : StronglySorted (idlt (vD v)) (elems t) }.

Lemma sorted_NoDup D xs : StronglySorted (idlt D) xs -> NoDup xs.
Proof.
  induction 1 as [|x xs Hs IH Hf]; constructor; [|done]. intros Hx.
  rewrite Forall_forall in Hf. specialize (Hf x Hx). unfold idlt in Hf. rewrite memcmp_refl in Hf. lia.
Qed.
Lemma sorted_inj D xs x y : StronglySorted (idlt D) xs -> x ∈ xs -> y ∈ xs ->
  e_id (D x) = e_id (D y) -> x = y.
Proof.
  induction 1 as [|z xs Hs IH Hf]; intros Hx Hy E; [set_solver|]. rewrite Forall_forall in Hf.
  apply elem_of_cons in Hx as [->|Hx], Hy as [->|Hy]; [done| | |by apply IH].
  - specialize (Hf y Hy). unfold idlt in Hf. rewrite E, memcmp_refl in Hf. lia.
  - specialize (Hf x Hx). unfold idlt in Hf. rewrite E, memcmp_refl in Hf. lia.
Qed.
(** Entries fit in the block. *)
Lemma nodes_fit len xs : NoDup xs -> Forall (node_ok len) xs -> zlen xs * 100 <= Z.max 0 len.
Proof.
  intros Hn Hf. pose (f := fun x => Z.to_nat (x / 100)).
  assert (forall x, x ∈ xs -> 0 <= x /\ x = 100 * (x / 100) /\ x + 100 <= len) as Hx.
  { intros x Hx. rewrite Forall_forall in Hf. destruct (Hf x Hx) as (? & ? & ?).
    pose proof (Z.div_mod x 100 ltac:(lia)). lia. }
  assert (NoDup (map f xs)) as Hm.
  { apply NoDup_fmap_2_strong; [|done]. intros x y H1 H2 E. unfold f in E.
    destruct (Hx x H1) as (? & ? & _), (Hx y H2) as (? & ? & _).
    assert (0 <= x / 100 /\ 0 <= y / 100) by (split; apply Z.div_pos; lia). lia. }
  assert (map f xs ⊆+ seq 0 (Z.to_nat (len / 100))) as Hs.
  { apply NoDup_submseteq; [done|]. intros n (x & -> & H1)%list_elem_of_fmap.
    destruct (Hx x H1) as (? & E & ?). apply elem_of_seq. unfold f.
    assert (0 <= x / 100) by (apply Z.div_pos; lia).
    assert (x / 100 < len / 100) by (pose proof (Z.div_mod len 100 ltac:(lia)); pose proof (Z.mod_pos_bound len 100 ltac:(lia)); lia).
    lia. }
  apply submseteq_length in Hs. rewrite length_map, length_seq in Hs.
  pose proof (Z.div_mod len 100 ltac:(lia)). pose proof (Z.mod_pos_bound len 100 ltac:(lia)). lia.
Qed.

Section search.
Context (cc : lru) (v : view) (R : rep cc v) (t : tree) (T : tree_ok cc v t).
Notation ok := (node_ok (store_len cc)).
Notation D := (vD v).

(** Where the search for [id] ends: at the subtree [s] of the tree. *)
Record found (id : list Z) (s : tree) (c : list frame) : Prop := Found {
  found_tree : t = plug s c;
  found_low : Forall (fun z => memcmp (e_id (D z)) id < 0) (cpre c);
  found_high : Forall (fun z => memcmp id (e_id (D z)) < 0) (cpost c) }.

Lemma tree_elems s c : t = plug s c -> forall z, z ∈ elems s -> ok z.
Proof.
  intros -> z Hz. pose proof (tree_nodes _ _ _ T) as Hn. rewrite Forall_forall in Hn. apply Hn.
  rewrite elems_plug. set_solver.
Qed.
Lemma tree_ctx s c : t = plug s c -> Forall ok (cnodes c).
Proof.
  intros E. pose proof (tree_nodes _ _ _ T) as Hn. rewrite E, elems_plug in Hn.
  apply Forall_app in Hn as [? [? ?]%Forall_app]. by apply Forall_app.
Qed.
Lemma tree_sub s c : t = plug s c -> StronglySorted (idlt D) (elems s).
Proof.
  intros E. pose proof (tree_sorted _ _ _ T) as Hs. rewrite E, elems_plug in Hs.
  apply StronglySorted_app in Hs as (_ & _ & Hs). by apply StronglySorted_app in Hs as (_ & Hs & _).
Qed.
Lemma tree_apart s c : t = plug s c ->
  NoDup (elems s) /\ NoDup (cnodes c) /\ (forall x, x ∈ elems s -> x ∉ cnodes c).
Proof. intros E. apply NoDup_plug. rewrite <- E. eapply sorted_NoDup, tree_sorted, T. Qed.
Lemma tree_size s c : t = plug s c -> zlen (elems s) * 100 <= Z.max 0 (store_len cc).
Proof.
  intros E. apply nodes_fit; [by destruct (tree_apart _ _ E)|]. apply Forall_forall. by apply (tree_elems s c).
Qed.

Lemma found_down id l x r c : found id (Bin l x r) c -> zlen id = 32 ->
  (memcmp id (e_id (D x)) < 0 -> found id l (FL x r :: c)) /\
  (memcmp id (e_id (D x)) > 0 -> found id r (FR l x :: c)).
Proof.
  intros [E Hlo Hhi] Hid. pose proof (tree_sub _ _ E) as Hs. cbn in Hs.
  apply StronglySorted_app in Hs as (Hlx & _ & Hr). apply StronglySorted_inv in Hr as [_ Hr].
  assert (forall z, z ∈ elems (Bin l x r) -> length (e_id (D z)) = length id) as Hl.
  { intros z Hz. apply Nat2Z.inj. rewrite Hid. apply (id_len cc v R). by apply (tree_elems _ _ E). }
  split; intros Hc; constructor; try done; cbn.
  - constructor; [lia|]. apply Forall_app. split; [|done]. rewrite Forall_forall in Hr. apply Forall_forall.
    intros z Hz. apply (memcmp_trans _ (e_id (D x))); [symmetry; apply Hl; cbn; set_solver|lia|by apply Hr].
  - apply Forall_app. split; [done|]. rewrite memcmp_opp in Hc. apply Forall_app. split; [|constructor; [lia|done]].
    apply Forall_forall. intros z Hz. apply (memcmp_trans _ (e_id (D x))); [|apply Hlx; set_solver|lia].
    rewrite !Hl by (cbn; set_solver). done.
Qed.

Lemma wp_find_loop id (Q : Z * Z -> lru -> Prop) : zlen id = 32 ->
  (forall s c, found id s c -> match s with Leaf => True | Bin _ x _ => e_id (D x) = id end ->
    Q (root_of s, link c) cc) ->
  forall fuel s c, found id s c -> (length (elems s) < fuel)%nat ->
  wp (find_loop fuel id (root_of s) (link c)) Q cc.
Proof.
  intros Hid HQ fuel. induction fuel as [|fuel IH]; intros s c Hf Hl; [lia|]. cbn [find_loop].
  destruct s as [|l x r].
  { cbn [root_of]. rewrite Z.eqb_refl. wp_step. by apply (HQ Leaf). }
  assert (ok x) as Hx by (apply (tree_elems _ _ (found_tree _ _ _ Hf)); cbn; set_solver).
  pose proof (rep_small _ _ R) as Hsm.
  assert (ctx_at (vL v) (vR v) (root cc) x c /\ tree_at (vL v) (vR v) x (Bin l x r)) as [_ (_ & Hal & Har)].
  { pose proof (tree_root _ _ _ T) as Ht. rewrite (found_tree _ _ _ Hf), tree_plug in Ht.
    destruct Ht as (a & Hc & Ha). by destruct Ha as (-> & ?). }
  cbn [root_of]. rewrite (node_eqb (store_len cc)) by done.
  destruct (found_down _ _ _ _ _ Hf Hid) as [Hdl Hdr].
  cbn in Hl. rewrite length_app in Hl. cbn in Hl.
  wp_step. apply (wp_load_id cc v R); [done|].
  destruct (Z.ltb_spec (memcmp id (e_id (D x))) 0) as [Hlt|Hge].
  { wp_step. apply (wp_get_left cc v R); [done|]. rewrite (node_add32 (store_len cc)) by (done || by vm_compute).
    rewrite (tree_at_root _ _ _ _ Hal). apply (IH l (FL x r :: c)); [auto|lia]. }
  destruct (Z.eqb_spec (memcmp id (e_id (D x))) 0) as [E|Hne].
  { wp_step. apply (HQ (Bin l x r)); [done|]. apply memcmp_eq in E; [done|].
    apply Nat2Z.inj. rewrite Hid. symmetry. by apply (id_len cc v R). }
  wp_step. apply (wp_get_right cc v R); [done|]. rewrite (node_add32 (store_len cc)) by (done || by vm_compute).
  rewrite (tree_at_root _ _ _ _ Har). apply (IH r (FR l x :: c)); [apply Hdr; lia|lia].
Qed.

Lemma wp_find_node id (Q : Z * Z -> lru -> Prop) : zlen id = 32 ->
  (forall s c, found id s c -> match s with Leaf => True | Bin _ x _ => e_id (D x) = id end ->
    Q (root_of s, link c) cc) ->
  wp (find_node id) Q cc.
Proof.
  intros Hid HQ. unfold find_node. wp_step. wp_step. rewrite (tree_at_root _ _ _ _ (tree_root _ _ _ T)).
  apply (wp_find_loop id Q Hid HQ (lru_fuel cc) t []); [by constructor|].
  pose proof (tree_size t [] eq_refl). unfold lru_fuel. lia.
Qed.
End search.

(** ** Changing the tree *)

(** The tree links of the entries [xs], and the root, may have changed. *)
Record retree (cc cc' : lru) (v v' : view) (xs : list Z) : Prop := Retree {
  retree_cc : cc' = cc <| store := store cc' |> <| root := root cc' |>;
  retree_v : v' = v <| vL := vL v' |> <| vR := vR v' |>;
  retree_same : forall y, y ∉ xs -> vL v' y = vL v y /\ vR v' y = vR v y }.

Lemma retree_trans cc1 cc2 cc3 v1 v2 v3 xs : retree cc1 cc2 v1 v2 xs -> retree cc2 cc3 v2 v3 xs ->
  retree cc1 cc3 v1 v3 xs.
Proof.
  intros [Ec Ev Hs] [Ec' Ev' Hs']. constructor.
  - by rewrite Ec', Ec.
  - by rewrite Ev', Ev.
  - intros y Hy. destruct (Hs y Hy) as [<- <-]. by apply Hs'.
Qed.
Lemma retree_mono cc cc' v v' xs ys : retree cc cc' v v' xs -> (forall x, x ∈ xs -> x ∈ ys) -> retree cc cc' v v' ys.
Proof. intros [? ? Hs] Hi. constructor; [done..|]. intros y Hy. apply Hs. auto. Qed.
Lemma retree_len cc cc' v v' xs : retree cc cc' v v' xs -> store_len cc' = store_len cc.
Proof. intros [-> _ _]. done. Qed.
Lemma retree_data cc cc' v v' xs : retree cc cc' v v' xs -> vD v' = vD v.
Proof. intros [_ -> _]. done. Qed.
Lemma retree_on cc cc' v v' xs ys : retree cc cc' v v' xs -> (forall y, y ∈ ys -> y ∉ xs) ->
  same_on (vL v) (vR v) (vL v') (vR v') ys.
Proof. intros [_ _ Hs] Hd y Hy. by apply Hs, Hd. Qed.

Lemma is_u32_node len x : node_ok len x -> len < 2 ^ 32 -> is_u32 x.
Proof. unfold node_ok, is_u32. lia. Qed.
Lemma is_u32_null : is_u32 ADDR_NULL.
Proof. by vm_compute. Qed.
Lemma is_u32_root len s : (forall z, z ∈ elems s -> node_ok len z) -> len < 2 ^ 32 -> is_u32 (root_of s).
Proof.
  destruct s as [|l x r]; intros Hs Hl; [apply is_u32_null|]. apply (is_u32_node len); [|done]. apply Hs. cbn. set_solver.
Qed.

Lemma wp_set_link cc v a c a' (Q : unit -> lru -> Prop) : rep cc v ->
  ctx_at (vL v) (vR v) (root cc) a c -> Forall (node_ok (store_len cc)) (cnodes c) -> NoDup (cnodes c) -> is_u32 a' ->
  (forall cc' v', rep cc' v' -> retree cc cc' v v' (cnodes c) ->
     ctx_at (vL v') (vR v') (root cc') a' c -> Q tt cc') ->
  wp (set_link (link c) a') Q cc.
Proof.
  intros R Hc Hok Hn Ha HQ. pose proof (rep_small _ _ R). rewrite Forall_forall in Hok. unfold set_link.
  destruct c as [|[x r|l x] c].
  - cbn [link]. rewrite Z.eqb_refl. wp_step. apply (HQ (cc <| root := a' |>) v); [by destruct R| |done].
    constructor; [by destruct cc|by destruct v|done].
  - assert (node_ok (store_len cc) x) as Hx by (apply Hok; unfold cnodes; cbn; set_solver).
    cbn [link]. replace (_ =? _) with false by (unfold node_ok, TREE_LEFT_OFF, ADDR_NULL in *; lia).
    apply (wp_set_left cc v R); [done..|]. intros st cc' R'.
    apply (HQ cc' _ R'); [|by apply (ctx_relink_left _ _ _ a)]. constructor; [by destruct cc|by destruct v|].
    intros y Hy. split; [|done]. apply fn_lookup_insert_ne. intros <-. apply Hy. unfold cnodes. cbn. set_solver.
  - assert (node_ok (store_len cc) x) as Hx by (apply Hok; unfold cnodes; cbn; set_solver).
    cbn [link]. replace (_ =? _) with false by (unfold node_ok, TREE_RIGHT_OFF, ADDR_NULL in *; lia).
    apply (wp_set_right cc v R); [done..|]. intros st cc' R'.
    apply (HQ cc' _ R'); [|by apply (ctx_relink_right _ _ _ a)]. constructor; [by destruct cc|by destruct v|].
    intros y Hy. split; [done|]. apply fn_lookup_insert_ne. intros <-. apply Hy. unfold cnodes. cbn. set_solver.
Qed.

Section replace.
Context (cc : lru) (v : view) (R : rep cc v).
Notation ok := (node_ok (store_len cc)).
Notation at_ := (tree_at (vL v) (vR v)).

Lemma wp_replace_right (Q : Z * Z -> lru -> Prop) fuel : forall s c1,
  s <> Leaf -> at_ (root_of s) s -> (forall z, z ∈ elems s -> ok z) -> (length (elems s) < fuel)%nat ->
  (forall c' l' y, s = plug (Bin l' y Leaf) c' -> cpost c' = [] -> Q (y, link (c' ++ c1)) cc) ->
  wp (replacement_loop fuel get_right TREE_RIGHT_OFF (root_of s) (link c1)) Q cc.
Proof.
  pose proof (rep_small _ _ R). induction fuel as [|fuel IH]; intros [|l x r] c1 Hs Ha Hok Hl HQ; [lia|lia|done|].
  assert (ok x) as Hx by (apply Hok; cbn; set_solver). destruct Ha as (_ & _ & Har). pose proof (tree_at_root _ _ _ _ Har) as Er.
  cbn [replacement_loop root_of]. wp_step. apply (wp_get_right cc v R); [done|]. rewrite Er.
  destruct (decide (r = Leaf)) as [->|Hn].
  { cbn [root_of]. rewrite Z.eqb_refl. wp_step. by apply (HQ [] l x). }
  cbn in Hl. rewrite length_app in Hl. cbn in Hl. pose proof (root_elem _ Hn).
  rewrite (node_eqb (store_len cc)) by ((apply Hok; cbn; set_solver) || done).
  rewrite (node_add32 (store_len cc)) by (done || by vm_compute).
  apply (IH r (FR l x :: c1)); [done|by rewrite <- Er|intros z Hz; apply Hok; cbn; set_solver|lia|].
  intros c' l' y E Hp. specialize (HQ (c' ++ [FR l x]) l' y).
  rewrite plug_app, cpost_app, <- (assoc_L (++)) in HQ. apply HQ; [by rewrite <- E|by rewrite Hp].
Qed.
Lemma wp_replace_left (Q : Z * Z -> lru -> Prop) fuel : forall s c1,
  s <> Leaf -> at_ (root_of s) s -> (forall z, z ∈ elems s -> ok z) -> (length (elems s) < fuel)%nat ->
  (forall c' r' y, s = plug (Bin Leaf y r') c' -> cpre c' = [] -> Q (y, link (c' ++ c1)) cc) ->
  wp (replacement_loop fuel get_left TREE_LEFT_OFF (root_of s) (link c1)) Q cc.
Proof.
  pose proof (rep_small _ _ R). induction fuel as [|fuel IH]; intros [|l x r] c1 Hs Ha Hok Hl HQ; [lia|lia|done|].
  assert (ok x) as Hx by (apply Hok; cbn; set_solver). destruct Ha as (_ & Hal & _). pose proof (tree_at_root _ _ _ _ Hal) as El.
  cbn [replacement_loop root_of]. wp_step. apply (wp_get_left cc v R); [done|]. rewrite El.
  destruct (decide (l = Leaf)) as [->|Hn].
  { cbn [root_of]. rewrite Z.eqb_refl. wp_step. by apply (HQ [] r x). }
  cbn in Hl. rewrite length_app in Hl. cbn in Hl. pose proof (root_elem _ Hn).
  rewrite (node_eqb (store_len cc)) by ((apply Hok; cbn; set_solver) || done).
  rewrite (node_add32 (store_len cc)) by (done || by vm_compute).
  apply (IH l (FL x r :: c1)); [done|by rewrite <- El|intros z Hz; apply Hok; cbn; set_solver|lia|].
  intros c' r' y E Hp. specialize (HQ (c' ++ [FL x r]) r' y).
  rewrite plug_app, cpre_app, <- (assoc_L (++)) in HQ. apply HQ; [by rewrite <- E|by rewrite Hp].
Qed.

(** The replacement [y] of the node [x]: with [s1], its only subtree, in its place,
    the subtrees of [x] become [l2] and [r2]. *)
Record replaced (l r : tree) (x : Z) (c1 : list frame) (s1 : tree) (y : Z) (l2 r2 : tree) : Prop := Replaced {
  repl_link : c1 <> [];
  repl_node : Bin l x r = plug (Bin s1 y Leaf) c1 \/ Bin l x r = plug (Bin Leaf y s1) c1;
  repl_tree : plug s1 c1 = Bin l2 x r2;
  repl_elems : elems l ++ elems r = elems l2 ++ y :: elems r2 }.

Lemma wp_find_replacement_node l x r (Q : Z * Z -> lru -> Prop) :
  at_ x (Bin l x r) -> (forall z, z ∈ elems (Bin l x r) -> ok z) ->
  (Z.of_nat (length (elems (Bin l x r))) * 100 <= Z.max 0 (store_len cc)) ->
  (l = Leaf -> r = Leaf -> Q (ADDR_NULL, ADDR_NULL) cc) ->
  (forall c1 s1 y l2 r2, replaced l r x c1 s1 y l2 r2 -> Q (y, link c1) cc) ->
  wp (find_replacement_node x) Q cc.
Proof.
  intros (_ & Hal & Har) Hok Hsz HQ0 HQ. pose proof (rep_small _ _ R).
  assert (ok x) as Hx by (apply Hok; cbn; set_solver).
  pose proof (tree_at_root _ _ _ _ Hal) as El. pose proof (tree_at_root _ _ _ _ Har) as Er.
  cbn in Hsz. rewrite length_app in Hsz. cbn in Hsz.
  unfold find_replacement_node. wp_step. wp_step. wp_step. apply (wp_get_left cc v R); [done|]. rewrite El.
  destruct (decide (l = Leaf)) as [Hl|Hl].
  - subst l. cbn [root_of]. rewrite Z.eqb_refl. cbn [negb]. wp_step. apply (wp_get_right cc v R); [done|]. rewrite Er.
    destruct (decide (r = Leaf)) as [->|Hn]; [cbn [root_of]; rewrite Z.eqb_refl; cbn [negb]; wp_step; by apply HQ0|].
    pose proof (root_elem _ Hn).
    rewrite (node_eqb (store_len cc)) by ((apply Hok; cbn; set_solver) || done). cbn [negb].
    rewrite (node_add32 (store_len cc)) by (done || by vm_compute).
    apply (wp_replace_left Q _ r [FR Leaf x]); [done|by rewrite <- Er|intros z Hz; apply Hok; cbn; set_solver|unfold lru_fuel; lia|].
    intros c' r' y E Hp. apply (HQ (c' ++ [FR Leaf x]) r' y Leaf (plug r' c')). constructor.
    + by destruct c'.
    + right. rewrite plug_app. by rewrite <- E.
    + by rewrite plug_app.
    + rewrite E, !elems_plug, Hp. cbn. done.
  - pose proof (root_elem _ Hl).
    rewrite (node_eqb (store_len cc)) by ((apply Hok; cbn; set_solver) || done). cbn [negb].
    rewrite (node_add32 (store_len cc)) by (done || by vm_compute).
    apply (wp_replace_right Q _ l [FL x r]); [done|by rewrite <- El|intros z Hz; apply Hok; cbn; set_solver|unfold lru_fuel; lia|].
    intros c' l' y El' Hp. apply (HQ (c' ++ [FL x r]) l' y (plug l' c') r). constructor.
    + by destruct c'.
    + left. rewrite plug_app. by rewrite <- El'.
    + by rewrite plug_app.
    + rewrite El', !elems_plug, Hp. cbn. rewrite <- !(assoc_L (++)). done.
Qed.
End replace.

Lemma sorted_remove {A} (Rl : A -> A -> Prop) a x b : StronglySorted Rl (a ++ x :: b) -> StronglySorted Rl (a ++ b).
Proof.
  intros (H1 & H2 & H3)%StronglySorted_app. apply StronglySorted_inv in H3 as [H3 _]. apply StronglySorted_app.
  split; [|done]. intros y z Hy Hz. apply H1; [done|by right].
Qed.

(** A tree with the node [x] taken out of the middle. *)
Lemma tree_ok_remove cc cc' v v' t t' a x b : tree_ok cc v t -> store_len cc' = store_len cc -> vD v' = vD v ->
  tree_at (vL v') (vR v') (root cc') t' -> elems t = a ++ x :: b -> elems t' = a ++ b ->
  tree_ok cc' v' t' /\ elems t ≡ₚ x :: elems t'.
Proof.
  intros [_ Hn Hs] El ED Hr E E'. rewrite E in *. split; [constructor|].
  - done.
  - rewrite E', El. apply Forall_app in Hn as [? [? ?]%Forall_cons]. by apply Forall_app.
  - rewrite E', ED. by eapply sorted_remove.
  - rewrite E'. solve_Permutation.
Qed.

Section remove.
Context (cc : lru) (v : view) (R : rep cc v).

(** The child that takes the place of the replacement node. *)
Lemma wp_only_child s1 y (Q : Z -> lru -> Prop) : node_ok (store_len cc) y ->
  (forall z, z ∈ elems s1 -> node_ok (store_len cc) z) ->
  tree_at (vL v) (vR v) y (Bin s1 y Leaf) \/ tree_at (vL v) (vR v) y (Bin Leaf y s1) ->
  (tree_at (vL v) (vR v) (root_of s1) s1 -> Q (root_of s1) cc) ->
  wp (let! z := get_left y in if z =? ADDR_NULL then get_right y else mret' z) Q cc.
Proof.
  intros Hy Hok Hat HQ. pose proof (rep_small _ _ R). wp_step. apply (wp_get_left cc v R); [done|].
  destruct Hat as [(_ & Hs & Hn)|(_ & Hn & Hs)]; cbn in Hn; pose proof (tree_at_root _ _ _ _ Hs) as E; rewrite E in Hs.
  - rewrite E. destruct (decide (s1 = Leaf)) as [->|Hne].
    + cbn [root_of]. rewrite Z.eqb_refl. apply (wp_get_right cc v R); [done|]. rewrite Hn. by apply HQ.
    + rewrite (node_eqb (store_len cc)) by ((by apply Hok, root_elem) || done). wp_step. by apply HQ.
  - rewrite Hn, Z.eqb_refl. apply (wp_get_right cc v R); [done|]. rewrite E. by apply HQ.
Qed.

(** The replacement node [y] takes the place of [x], whose subtrees are [l2] and
    [r2], in the context [c]. *)
Lemma wp_adopt x y l2 r2 c (Q : unit -> lru -> Prop) :
  ctx_at (vL v) (vR v) (root cc) x c -> tree_at (vL v) (vR v) x (Bin l2 x r2) ->
  NoDup (y :: x :: elems l2 ++ elems r2 ++ cnodes c) ->
  Forall (node_ok (store_len cc)) (y :: x :: elems l2 ++ elems r2 ++ cnodes c) ->
  (forall cc' v', rep cc' v' -> retree cc cc' v v' (y :: cnodes c) ->
     tree_at (vL v') (vR v') (root cc') (plug (Bin l2 y r2) c) -> Q tt cc') ->
  wp (set_link (link c) y ;;! (let! l := get_left x in set_left y l) ;;! (let! r := get_right x in set_right y r)) Q cc.
Proof.
  intros Hc (_ & Hl & Hr) Hn Hok HQ. pose proof (rep_small _ _ R).
  apply Forall_cons in Hok as [Hy Hok]. apply Forall_cons in Hok as [Hx Hok].
  apply Forall_app in Hok as [Hokl [Hokr Hokc]%Forall_app].
  apply NoDup_cons in Hn as [Hyn Hn]. apply NoDup_cons in Hn as [Hxn Hn].
  apply NoDup_app in Hn as (_ & Hln & Hn). apply NoDup_app in Hn as (_ & Hrn & Hn).
  wp_step. apply (wp_set_link cc v x); [done..|by eapply is_u32_node|]. intros cc1 v1 R1 S1 Hc1.
  pose proof (retree_len _ _ _ _ _ S1) as E1. rewrite <- E1 in *.
  destruct (retree_on _ _ _ _ _ [x] S1) with (x := x) as [EL ER]; [set_solver..|].
  rewrite <- EL in Hl. rewrite <- ER in Hr.
  apply (tree_at_same _ _ (vL v1) (vR v1)) in Hl; [|apply (retree_on _ _ _ _ _ _ S1); set_solver].
  apply (tree_at_same _ _ (vL v1) (vR v1)) in Hr; [|apply (retree_on _ _ _ _ _ _ S1); set_solver].
  wp_step. wp_step. apply (wp_get_left cc1 v1 R1); [done|].
  assert (forall s, Forall (node_ok (store_len cc1)) (elems s) -> is_u32 (root_of s)) as H32.
  { intros s Hs. apply (is_u32_root (store_len cc1)); [|done]. by apply Forall_forall. }
  pose proof (tree_at_root _ _ _ _ Hl) as Rl. pose proof (tree_at_root _ _ _ _ Hr) as Rr.
  rewrite Rl. apply (wp_set_left cc1 v1 R1); [done|by apply H32|]. intros st cc2 R2.
  wp_step. apply (wp_get_right cc2 _ R2); [done|]. cbn [vR]. change (vR v1 x) with (vR v1 x).
  replace (vR (v1 <| vL := _ |>) x) with (root_of r2) by (by rewrite <- Rr).
  apply (wp_set_right cc2 _ R2); [done|by apply H32|]. intros st' cc3 R3. set (v3 := setf _ (setf _ v1)) in *.
  assert (same_on (vL v1) (vR v1) (vL v3) (vR v3) (x :: elems l2 ++ elems r2 ++ cnodes c)) as Hs.
  { intros z Hz. split; apply fn_lookup_insert_ne; intros <-; done. }
  apply (HQ cc3 v3 R3).
  - apply (retree_trans _ cc1 _ _ v1); [eapply retree_mono; [exact S1|]; set_solver|].
    constructor; [by destruct cc1|by destruct v1|]. intros z Hz.
    split; apply fn_lookup_insert_ne; intros <-; apply Hz; by left.
  - apply tree_plug. exists y. split.
    + eapply ctx_at_same; [|exact Hc1]. intros z Hz. apply Hs. set_solver.
    + cbn [tree_at]. split; [done|].
      replace (vL v3 y) with (vL v1 x) by (rewrite Rl; symmetry; apply fn_lookup_insert).
      replace (vR v3 y) with (vR v1 x) by (rewrite Rr; symmetry; apply fn_lookup_insert).
      split; (eapply tree_at_same; [|eassumption]); intros z Hz; apply Hs; set_solver.
Qed.
End remove.

Section remove_node.
Context (cc : lru) (v : view) (R : rep cc v) (t : tree) (T : tree_ok cc v t).
Context (Q : unit -> lru -> Prop) (l r : tree) (x : Z) (c : list frame) (E : t = plug (Bin l x r) c).
Context (HQ : forall cc' v' t', rep cc' v' -> retree cc cc' v v' (elems t) -> tree_ok cc' v' t' ->
  elems t ≡ₚ x :: elems t' -> Q tt cc').
Notation ok := (node_ok (store_len cc)).

Lemma removed cc' v' t' : rep cc' v' -> retree cc cc' v v' (elems t) ->
  tree_at (vL v') (vR v') (root cc') t' -> elems t' = cpre c ++ (elems l ++ elems r) ++ cpost c -> Q tt cc'.
Proof.
  intros R' S' Ht' El. destruct (tree_ok_remove cc cc' v v' t t' (cpre c ++ elems l) x (elems r ++ cpost c)) as [T' P'];
    [done|by eapply retree_len|by eapply retree_data|done|..].
  - rewrite E, elems_plug. cbn. by rewrite <- !(assoc_L (++)).
  - by rewrite El, <- !(assoc_L (++)).
  - by apply (HQ cc' v' t').
Qed.
Lemma in_tree z : z ∈ elems l ++ x :: elems r \/ z ∈ cnodes c -> z ∈ elems t.
Proof. intros Hz. rewrite E, elems_plug. unfold cnodes in Hz. cbn. set_solver. Qed.

Lemma wp_remove_leaf : l = Leaf -> r = Leaf -> wp (set_link (link c) ADDR_NULL) Q cc.
Proof.
  intros El Er. pose proof (tree_root _ _ _ T) as Hr. rewrite E in Hr. apply tree_plug in Hr as (a & Hc & _).
  destruct (tree_apart cc v t T _ _ E) as (_ & Hnc & _).
  apply (wp_set_link cc v a); [done|done|by eapply tree_ctx|done|apply is_u32_null|]. intros cc' v' R' S' Hc'.
  apply (removed cc' v' (plug Leaf c)); [done| | |].
  - eapply retree_mono; [done|]. intros z Hz. apply in_tree. by right.
  - apply tree_plug. by exists ADDR_NULL.
  - by rewrite elems_plug, El, Er.
Qed.

Lemma wp_remove_inner c1 s1 y l2 r2 : replaced l r x c1 s1 y l2 r2 ->
  wp (let! z := get_left y in
      let! z := (if z =? ADDR_NULL then get_right y else mret' z) in
      set_link (link c1) z ;;!
      set_link (link c) y ;;! (let! l := get_left x in set_left y l) ;;! (let! r := get_right x in set_right y r)) Q cc.
Proof.
  intros [Hl1 Hnode Htree Helems]. pose proof (rep_small _ _ R) as Hsm.
  assert (exists sy, t = plug sy (c1 ++ c) /\ (sy = Bin s1 y Leaf \/ sy = Bin Leaf y s1)) as (sy & Ey & Hsy)
    by (rewrite E; destruct Hnode as [-> | ->]; rewrite <- plug_app; eauto).
  destruct (tree_apart cc v t T _ _ Ey) as (_ & Hnc2 & Hd2). pose proof (tree_ctx cc v t T _ _ Ey) as Hokc2.
  pose proof (tree_elems cc v R t T _ _ Ey) as Hokx.
  pose proof (tree_root _ _ _ T) as Hroot. rewrite Ey in Hroot. apply tree_plug in Hroot as (a & Hc2 & Hay).
  assert (a = y) as -> by (by destruct Hsy as [-> | ->], Hay).
  assert (forall z, z ∈ y :: elems s1 -> z ∈ elems sy) as Hin by (destruct Hsy as [-> | ->]; cbn; set_solver).
  rewrite <- (link_app c1 c Hl1).
  apply (wp_bind_assoc (get_left y) (fun z => if z =? ADDR_NULL then get_right y else mret' z)). wp_step.
  apply (wp_only_child cc v R s1 y); [apply Hokx, Hin; by left|intros z Hz; apply Hokx, Hin; by right|by destruct Hsy as [-> | ->]; eauto|].
  intros Hs1. wp_step. apply (wp_set_link cc v y); [done..| |].
  { apply (is_u32_root (store_len cc)); [|done]. intros z Hz. apply Hokx, Hin. by right. }
  intros cc1 v1 R1 S1 Hc1. pose proof (retree_len _ _ _ _ _ S1) as E1.
  apply (tree_at_same _ _ (vL v1) (vR v1)) in Hs1; [|apply (retree_on _ _ _ _ _ _ S1); intros z Hz; apply Hd2, Hin; by right].
  assert (tree_at (vL v1) (vR v1) (root cc1) (plug (Bin l2 x r2) c)) as Ht1.
  { rewrite <- Htree, <- plug_app. apply tree_plug. eauto. }
  apply tree_plug in Ht1 as (a & Hc1' & Hx1). assert (a = x) as -> by (by destruct Hx1).
  assert (elems t ≡ₚ y :: x :: elems l2 ++ elems r2 ++ cnodes c) as P.
  { rewrite E, elems_plug. cbn. assert (elems l ++ elems r ≡ₚ y :: elems l2 ++ elems r2) as Pe by (rewrite Helems; solve_Permutation).
    transitivity (x :: (elems l ++ elems r) ++ cnodes c); [unfold cnodes; solve_Permutation|]. rewrite Pe. solve_Permutation. }
  apply (wp_adopt cc1 v1 R1 x y l2 r2 c); [done|done| | |].
  - rewrite <- P. eapply sorted_NoDup, tree_sorted, T.
  - rewrite <- P, E1. apply (tree_nodes _ _ _ T).
  - intros cc' v' R' S' Ht'.
    apply (removed cc' v' (plug (Bin l2 y r2) c)); [done| |done|].
    + apply (retree_trans _ cc1 _ _ v1); (eapply retree_mono; [done|]).
      * intros z Hz. rewrite Ey, elems_plug. unfold cnodes in Hz. set_solver.
      * intros z Hz. rewrite P. set_solver.
    + rewrite elems_plug, Helems. done.
Qed.
End remove_node.

Lemma wp_remove_node cc v t x (Q : unit -> lru -> Prop) : rep cc v -> tree_ok cc v t -> x ∈ elems t ->
  (forall cc' v' t', rep cc' v' -> retree cc cc' v v' (elems t) -> tree_ok cc' v' t' ->
     elems t ≡ₚ x :: elems t' -> Q tt cc') ->
  wp (remove_node x) Q cc.
Proof.
  intros R T Hxt HQ. pose proof (tree_nodes _ _ _ T) as Hn. rewrite Forall_forall in Hn. pose proof (rep_small _ _ R) as Hsm.
  unfold remove_node. wp_step. apply (wp_load_id cc v R); [auto|]. wp_step.
  apply (wp_find_node cc v R t T); [apply (id_len cc v R); auto|]. intros s c [E Hlo Hhi] Hs.
  assert (exists l r, s = Bin l x r) as (l & r & ->).
  { rewrite E, elems_plug in Hxt. rewrite Forall_forall in Hlo, Hhi.
    apply elem_of_app in Hxt as [Hx|[Hx|Hx]%elem_of_app].
    - specialize (Hlo x Hx). cbn in Hlo. rewrite memcmp_refl in Hlo. lia.
    - destruct s as [|l x' r]; [cbn in Hx; set_solver|]. pose proof (tree_sub cc v t T _ _ E) as Hss.
      rewrite (sorted_inj (vD v) _ x' x Hss); [eauto|cbn; set_solver|done|done].
    - specialize (Hhi x Hx). cbn in Hhi. rewrite memcmp_refl in Hhi. lia. }
  pose proof (tree_root _ _ _ T) as Hroot. rewrite E in Hroot. apply tree_plug in Hroot as (a & _ & HaB).
  assert (a = x) as -> by (by destruct HaB).
  wp_step. apply (wp_find_replacement_node cc v R l x r); [done|by apply (tree_elems cc v R t T _ _ E)|by eapply tree_size| |].
  - intros El Er. rewrite Z.eqb_refl. cbn [negb]. by apply (wp_remove_leaf cc v R t T Q l r x c).
  - intros c1 s1 y l2 r2 Hr. rewrite (node_eqb (store_len cc)); [|apply (tree_elems cc v R t T _ _ E)|done].
    + by apply (wp_remove_inner cc v R t T Q l r x c E HQ c1 s1 y l2 r2).
    + assert (y ∈ elems l ++ elems r) as Hy by (rewrite (repl_elems _ _ _ _ _ _ _ _ Hr); set_solver). cbn. set_solver.
Qed.

(** ** Filling a new entry *)

(** The four writes that end [lru_save]. *)
Definition filled (st : list Z) (x : Z) (e : entry) : list Z :=
  let st := zblit st (x + SESSION_ID_OFF) (e_id e) in
  let st := zblit st (x + MASTER_SECRET_OFF) (e_secret e) in
  let st := zblit st (x + VERSION_OFF) (br_enc16be (e_version e)) in
  zblit st (x + CIPHER_SUITE_OFF) (br_enc16be (e_suite e)).
Record entry_ok (e : entry) : Prop := EntryOk {
  eo_id : zlen (e_id e) = 32; eo_secret : zlen (e_secret e) = 48;
  eo_version : is_u16 (e_version e); eo_suite : is_u16 (e_suite e) }.

(** Arithmetic on the offsets of an entry. *)
Ltac fill_side :=
  first [done | by left | unfold CIPHER_SUITE_OFF, VERSION_OFF, MASTER_SECRET_OFF, SESSION_ID_OFF in *;
    cbn [length br_enc16be]; lia].

Section fill.
Context (st : list Z) (len x : Z) (e : entry) (Hl : zlen st = len) (Hx : node_ok len x) (He : entry_ok e).
Let st1 := zblit st (x + SESSION_ID_OFF) (e_id e).
Let st2 := zblit st1 (x + MASTER_SECRET_OFF) (e_secret e).
Let st3 := zblit st2 (x + VERSION_OFF) (br_enc16be (e_version e)).
Lemma filled_lens : zlen st1 = len /\ zlen st2 = len /\ zlen st3 = len /\ zlen (filled st x e) = len.
Proof.
  destruct He as [E1 E2 _ _], Hx as (? & _ & ?).
  assert (zlen st1 = len) as L1 by (unfold st1, SESSION_ID_OFF; rewrite zlen_zblit; lia).
  assert (zlen st2 = len) as L2 by (unfold st2, MASTER_SECRET_OFF; rewrite zlen_zblit; lia).
  assert (zlen st3 = len) as L3 by (unfold st3, VERSION_OFF; rewrite zlen_zblit; cbn [length br_enc16be]; lia).
  split_and!; [done..|]. unfold filled. fold st1 st2 st3. unfold CIPHER_SUITE_OFF.
  rewrite zlen_zblit; cbn [length br_enc16be]; lia.
Qed.
Lemma filled_fld y o : node_ok len y -> 84 <= o <= 96 -> fld o (filled st x e) y = fld o st y.
Proof.
  intros Hy Ho. destruct He as [E1 E2 _ _], filled_lens as (L1 & L2 & L3 & _).
  unfold filled. fold st1 st2 st3.
  rewrite (fld_keep st3 len) by fill_side. unfold st3. rewrite (fld_keep st2 len) by fill_side.
  unfold st2. rewrite (fld_keep st1 len) by fill_side. unfold st1. by rewrite (fld_keep st len) by fill_side.
Qed.
Lemma filled_slice y o n : node_ok len y -> 0 <= o -> 0 <= n -> o + n <= 100 -> y <> x ->
  zslice (filled st x e) (y + o) n = zslice st (y + o) n.
Proof.
  intros Hy ????. destruct He as [E1 E2 _ _], filled_lens as (L1 & L2 & L3 & _).
  unfold filled. fold st1 st2 st3.
  rewrite (slice_other st3 len) by fill_side. unfold st3. rewrite (slice_other st2 len) by fill_side.
  unfold st2. rewrite (slice_other st1 len) by fill_side. unfold st1. by rewrite (slice_other st len) by fill_side.
Qed.
Lemma filled_other y : node_ok len y -> y <> x -> data (filled st x e) y = data st y.
Proof.
  intros Hy Hne. unfold data. rewrite <- (Z.add_0_r y) at 1 5.
  by rewrite !filled_slice by (done || lia).
Qed.
Lemma filled_data : data (filled st x e) x = e.
Proof.
  destruct He as [E1 E2 E3 E4], filled_lens as (L1 & L2 & L3 & _).
  pose proof (Nat2Z.is_nonneg (length (e_id e))).
  assert (forall v, zlen (br_enc16be v) = 2) as L16 by done.
  assert (forall S, data S x = Entry (zslice S (x + 0) 32) (zslice S (x + 32) 48)
    (br_dec16be (zslice S (x + 80) 2)) (br_dec16be (zslice S (x + 82) 2))) as -> by (intros; by rewrite Z.add_0_r).
  unfold filled. fold st1 st2 st3. unfold CIPHER_SUITE_OFF.
  rewrite !(slice_other st3 len x x 82) by fill_side.
  replace (zslice (zblit st3 _ _) (x + 82) 2) with (br_enc16be (e_suite e))
    by (rewrite <- (L16 (e_suite e)) at 1; symmetry; apply (slice_same st3 len); fill_side).
  unfold st3, VERSION_OFF.
  rewrite !(slice_other st2 len x x 80) by fill_side.
  replace (zslice (zblit st2 _ _) (x + 80) 2) with (br_enc16be (e_version e))
    by (rewrite <- (L16 (e_version e)) at 1; symmetry; apply (slice_same st2 len); fill_side).
  unfold st2, MASTER_SECRET_OFF.
  rewrite (slice_other st1 len x x 32 _ 0) by (done || lia).
  replace (zslice (zblit st1 _ _) (x + 32) 48) with (e_secret e)
    by (rewrite <- E2; symmetry; apply (slice_same st1 len); done || lia).
  unfold st1, SESSION_ID_OFF.
  replace (zslice (zblit st _ _) (x + 0) 32) with (e_id e)
    by (rewrite <- E1 at 1; symmetry; apply (slice_same st len); done || lia).
  rewrite <- (app_nil_r (br_enc16be (e_version e))), <- (app_nil_r (br_enc16be (e_suite e))).
  rewrite !dec_enc16be by done. by destruct e.
Qed.
End fill.

Lemma wp_fill {A} cc v x e (k : M lru A) (Q : A -> lru -> Prop) : rep cc v -> node_ok (store_len cc) x -> entry_ok e ->
  (forall st, let cc' := stored cc st in rep cc' (v <| vD := <[x:=e]> (vD v) |>) -> wp k Q cc') ->
  wp (save_bytes (x + SESSION_ID_OFF) (e_id e) ;;! save_bytes (x + MASTER_SECRET_OFF) (e_secret e) ;;!
      save_bytes (x + VERSION_OFF) (br_enc16be (e_version e)) ;;!
      save_bytes (x + CIPHER_SUITE_OFF) (br_enc16be (e_suite e)) ;;! k) Q cc.
Proof.
  intros R Hx He HQ. destruct (filled_lens (store cc) (store_len cc) x e (rep_len _ _ R) Hx He) as (L1 & L2 & L3 & L4).
  assert (0 <= x /\ x + 100 <= store_len cc) as [? ?] by (destruct Hx; lia). pose proof (eo_id e He). pose proof (eo_secret e He).
  assert (forall v, zlen (br_enc16be v) = 2) as L16 by done.
  unfold SESSION_ID_OFF, MASTER_SECRET_OFF, VERSION_OFF, CIPHER_SUITE_OFF in *.
  wp_step. apply wp_save; [apply R|lia..|].
  wp_step. apply wp_save; [exact L1|lia|change (x + 32 + zlen (e_secret e) <= store_len cc); lia|].
  wp_step. apply wp_save; [exact L2|lia|change (x + 80 + 2 <= store_len cc); lia|].
  wp_step. apply wp_save; [exact L3|lia|change (x + 82 + 2 <= store_len cc); lia|].
  apply (HQ (filled (store cc) x e)). destruct R as [R1 R2 R3 R4 R5 R6 R7].
  constructor; [exact L4|exact R2| | | | |]; intros y Hy; change (node_ok (store_len cc) y) in Hy.
  - change (fld LIST_PREV_OFF (filled (store cc) x e) y = vP v y). by rewrite (filled_fld _ (store_len cc)); auto.
  - change (fld LIST_NEXT_OFF (filled (store cc) x e) y = vN v y). by rewrite (filled_fld _ (store_len cc)); auto.
  - change (fld TREE_LEFT_OFF (filled (store cc) x e) y = vL v y). by rewrite (filled_fld _ (store_len cc)); auto.
  - change (fld TREE_RIGHT_OFF (filled (store cc) x e) y = vR v y). by rewrite (filled_fld _ (store_len cc)); auto.
  - change (data (filled (store cc) x e) y = (<[x:=e]> (vD v)) y). destruct (decide (x = y)) as [<-|Hne].
    + rewrite fn_lookup_insert. by apply (filled_data _ (store_len cc)).
    + rewrite fn_lookup_insert_ne by done. rewrite (filled_other _ (store_len cc)); auto.
Qed.

(** ** Linking a new entry *)

Lemma wp_link_new {A} cc v x c (k : M lru A) (Q : A -> lru -> Prop) : rep cc v ->
  ctx_at (vL v) (vR v) (root cc) ADDR_NULL c -> Forall (node_ok (store_len cc)) (cnodes c) -> NoDup (cnodes c) ->
  node_ok (store_len cc) x -> x ∉ cnodes c ->
  (forall cc' v', rep cc' v' -> retree cc cc' v v' (x :: cnodes c) ->
     tree_at (vL v') (vR v') (root cc') (plug (Bin Leaf x Leaf) c) -> wp k Q cc') ->
  wp (set_link (link c) x ;;! set_left x ADDR_NULL ;;! set_right x ADDR_NULL ;;! k) Q cc.
Proof.
  intros R Hc Hok Hn Hx Hxc HQ. wp_step.
  apply (wp_set_link cc v ADDR_NULL); [done..|eapply is_u32_node; [done|apply R]|]. intros cc1 v1 R1 S1 Hc1.
  pose proof (retree_len _ _ _ _ _ S1) as E1. rewrite <- E1 in Hx.
  wp_step. apply (wp_set_left cc1 v1 R1); [done|apply is_u32_null|]. intros st cc2 R2.
  wp_step. apply (wp_set_right cc2 _ R2); [done|apply is_u32_null|]. intros st' cc3 R3. set (v3 := setf _ (setf _ v1)) in *.
  apply (HQ cc3 v3 R3).
  - apply (retree_trans _ cc1 _ _ v1); [eapply retree_mono; [exact S1|]; set_solver|].
    constructor; [by destruct cc1|by destruct v1|]. intros z Hz.
    split; apply fn_lookup_insert_ne; intros <-; apply Hz; by left.
  - apply tree_plug. exists x. split.
    + eapply ctx_at_same; [|exact Hc1]. intros z Hz. split; apply fn_lookup_insert_ne; intros <-; done.
    + cbn [tree_at]. split; [done|]. split; apply fn_lookup_insert.
Qed.
Lemma wp_push {A} cc v l x (k : M lru A) (Q : A -> lru -> Prop) : rep cc v ->
  dll (vP v) (vN v) ADDR_NULL l ADDR_NULL -> head cc = first ADDR_NULL l -> tail cc = final ADDR_NULL l ->
  NoDup l -> x ∉ l -> node_ok (store_len cc) x -> (forall y, y ∈ l -> node_ok (store_len cc) y) ->
  (forall cc' v', rep cc' v' -> cc' = cc <| store := store cc' |> <| head := x |> <| tail := final ADDR_NULL (x :: l) |> ->
     v' = v <| vP := vP v' |> <| vN := vN v' |> -> dll (vP v') (vN v') ADDR_NULL (x :: l) ADDR_NULL -> wp k Q cc') ->
  wp (let! cc := mget in
      (if head cc =? ADDR_NULL then mset (fun cc => cc <| tail := x |>) else set_prev (head cc) x) ;;!
      set_prev x ADDR_NULL ;;!
      (let! cc := mget in set_next x (head cc)) ;;!
      mset (fun cc => cc <| head := x |>) ;;! k) Q cc.
Proof.
  intros R Hd Hh Ht Hn Hx Hok Hokl HQ. pose proof (dll_push _ _ _ _ Hn Hx Hd) as Hd'. pose proof (rep_small _ _ R) as Hsm.
  wp_step. wp_step. wp_step. rewrite Hh.
  assert (is_u32 x) as Hx32 by (by eapply is_u32_node). assert (is_u32 (first ADDR_NULL l)) as Hf32.
  { destruct l; [apply is_u32_null|]. eapply is_u32_node; [|done]. apply Hokl. by left. }
  assert (forall cc1 v1, rep cc1 v1 -> cc1 = cc <| store := store cc1 |> <| tail := final ADDR_NULL (x :: l) |> ->
    v1 = v <| vP := match l with [] => vP v | h :: _ => <[h:=x]> (vP v) end |> ->
    wp (set_prev x ADDR_NULL ;;! (let! cc := mget in set_next x (head cc)) ;;!
        mset (fun cc => cc <| head := x |>) ;;! k) Q cc1) as Hend.
  { intros cc1 v1 R1 E1 ->. assert (store_len cc1 = store_len cc) as El by (by rewrite E1).
    assert (head cc1 = head cc) as Eh by (by rewrite E1).
    wp_step. apply (wp_set_prev cc1 _ R1); [by rewrite El|apply is_u32_null|]. intros st2 cc2 R2.
    wp_step. wp_step. wp_step. replace (head cc2) with (first ADDR_NULL l) by (rewrite <- Hh; by symmetry).
    apply (wp_set_next cc2 _ R2); [change (node_ok (store_len cc1) x); by rewrite El|done|]. intros st3 cc3 R3.
    wp_step. wp_step. eapply HQ; [by eapply (rep_block cc3 _ _ R3)| |by destruct v|exact Hd'].
    subst cc3 cc2. rewrite E1. by destruct cc. }
  destruct l as [|h l]; cbn [first].
  - rewrite Z.eqb_refl. wp_step. eapply Hend; [by eapply (rep_block cc _ _ R)|by destruct cc|by destruct v].
  - rewrite (node_eqb (store_len cc)) by ((apply Hokl; by left) || done).
    apply (wp_set_prev cc _ R); [apply Hokl; by left|done|]. intros st1 cc1 R1. apply (Hend _ _ R1); [|done].
    subst cc1. change (final ADDR_NULL (x :: h :: l)) with (final ADDR_NULL (h :: l)). rewrite <- Ht. by destruct cc.
Qed.
