(* ===== verification/LruThms.v ===== *)
(** * LruThms: the session cache is a bounded list in order of use

    The specification is a list of entries, most recently used first, of at most
    [store_len / 100] entries: saving puts an entry at the front and drops the
    last one when there is no room, loading moves an entry to the front, forgetting
    disables it.  Any history of calls answers as the specification does. *)
From Stdlib Require Import Sorted.
From stdpp Require Import sets functions sorting.
From S2P Require Import Prelude.
From S2P Require Import Words.
From S2P Require Import Effects.
From S2P Require Import Hash.
From S2P Require Import HashSpec.
From S2P Require Import Hmac.
From S2P Require Import Kdf.
From S2P Require Import Lru.
From S2P Require Import LruTree.
From S2P Require Import LruSpec.

(** What no change of the structures touches. *)
Definition frozen (cc : lru) : Z * Z * list Z * bool := (store_len cc, store_ptr cc, index_key cc, init_done cc).

(** The structures of [cc] hold the entries at [l], most recently used first. *)
Record shaped (cc : lru) (v : view) (l : list Z) (t : tree) : Prop := Shaped {
  sh_rep : rep cc v;
  sh_tree : tree_ok cc v t;
  sh_perm : elems t ≡ₚ l;
  sh_dll : dll (vP v) (vN v) ADDR_NULL l ADDR_NULL;
  sh_head : head cc = first ADDR_NULL l;
  sh_tail : tail cc = final ADDR_NULL l }.

Section shaped.
Context (cc : lru) (v : view) (l : list Z) (t : tree) (S : shaped cc v l t).
Lemma sh_ok x : x ∈ l -> node_ok (store_len cc) x.
Proof.
  destruct S as [_ [_ Hn _] P _ _ _]. intros Hx. rewrite Forall_forall in Hn. apply Hn. by rewrite P.
Qed.
Lemma sh_NoDup : NoDup l.
Proof. destruct S as [_ [_ _ Hs] P _ _ _]. rewrite <- P. by eapply sorted_NoDup. Qed.
Lemma sh_small : store_len cc < 2 ^ 32.
Proof. apply S. Qed.
Lemma sh_u32 x : x ∈ l -> is_u32 x.
Proof. intros Hx. eapply is_u32_node; [by apply sh_ok|apply sh_small]. Qed.
Lemma sh_first : is_u32 (first ADDR_NULL l).
Proof.
  pose proof sh_u32 as H. clear S. destruct l as [|x l1]; [apply is_u32_null|]. apply H. by left.
Qed.

(** What a search finds. *)
Lemma sh_absent id c : found v t id Leaf c -> id ∉ map (fun x => e_id (vD v x)) l.
Proof.
  intros [E Hlo Hhi] (x & Ex & Hx)%list_elem_of_fmap. rewrite <- (sh_perm _ _ _ _ S) in Hx.
  rewrite E, elems_plug in Hx. rewrite Forall_forall in Hlo, Hhi.
  apply elem_of_app in Hx as [Hx|Hx]; [specialize (Hlo x Hx)|specialize (Hhi x Hx)]; cbn in *;
    rewrite Ex, memcmp_refl in *; lia.
Qed.
Lemma sh_present id l' x r c : found v t id (Bin l' x r) c -> x ∈ l.
Proof. intros [E _ _]. rewrite <- (sh_perm _ _ _ _ S), E, elems_plug. cbn. set_solver. Qed.

(** An entry found away from the head moves to the head. *)
Lemma wp_lru_to_head l1 x l2 (Q : unit -> lru -> Prop) : l = l1 ++ x :: l2 ->
  (forall cc' v', shaped cc' v' (x :: l1 ++ l2) t -> vD v' = vD v -> frozen cc' = frozen cc -> Q tt cc') ->
  wp (lru_to_head x) Q cc.
Proof.
  intros El HQ. pose proof (sh_rep _ _ _ _ S) as R. pose proof sh_NoDup as Hn. pose proof sh_ok as Hok.
  pose proof sh_u32 as H32. pose proof (sh_dll _ _ _ _ S) as Hd. pose proof (sh_head _ _ _ _ S) as Hh.
  pose proof sh_small as Hsm. pose proof (sh_tail _ _ _ _ S) as Hta. pose proof (sh_tree _ _ _ _ S) as [Ht1 Ht2 Ht3].
  unfold lru_to_head. wp_step. wp_step. rewrite Hh.
  destruct l1 as [|h l1].
  { rewrite El. cbn [first app]. rewrite Z.eqb_refl. cbn [negb]. wp_step. apply (HQ cc v); [|done..].
    cbn [app] in *. by rewrite <- El. }
  rewrite El in Hn, Hok, H32, Hd, Hta |- *. pose proof (dll_to_front _ _ _ _ _ _ Hn Hd) as Hd'.
  apply dll_app in Hd as [H1 [HP [HN H2]]]. cbn [app first] in *.
  set (p := final ADDR_NULL (h :: l1)) in *.
  assert (p ∈ h :: l1) as Hp by (by apply final_elem).
  assert (p ∈ h :: l1 ++ x :: l2) as Hp' by (change (p ∈ (h :: l1) ++ x :: l2); set_solver).
  assert (x ∈ h :: l1 ++ x :: l2) as Hx' by set_solver.
  assert (x <> h) as Hxh by (intros ->; apply NoDup_cons in Hn as [Hn _]; set_solver).
  replace (x =? h) with false by lia. cbn [negb].
  wp_step. apply (wp_get_prev cc v R); [auto|]. rewrite HP.
  wp_step. apply (wp_get_next cc v R); [auto|]. rewrite HN.
  wp_step. apply (wp_set_next cc v R); [auto|destruct l2 as [|n l2]; [apply is_u32_null|apply H32; set_solver]|].
  intros st1 cc1 R1. wp_step.
  assert (forall cc2 v2, rep cc2 v2 -> frozen cc2 = frozen cc1 -> head cc2 = head cc1 -> root cc2 = root cc1 ->
    tail cc2 = final p l2 ->
    v2 = (v <| vN := <[p:=first ADDR_NULL l2]> (vN v) |>) <| vP := match l2 with [] => vP v | n :: _ => <[n:=p]> (vP v) end |> ->
    wp ((let! cc := mget in set_prev (head cc) x) ;;! (let! cc := mget in set_next x (head cc)) ;;!
        set_prev x ADDR_NULL ;;! mset (fun cc => cc <| head := x |>)) Q cc2) as Hend.
  { intros cc2 v2 R2 F2 Eh2 Er2 Et2 ->. assert (store_len cc2 = store_len cc) as El2 by (by injection F2).
    assert (head cc2 = h) as Hh2 by (rewrite Eh2; change (head cc = h); by rewrite Hh, El).
    wp_step. wp_step. wp_step. rewrite Hh2. apply (wp_set_prev cc2 _ R2); [rewrite El2; apply Hok; by left|auto|].
    intros st3 cc3 R3. wp_step. wp_step. wp_step. replace (head cc3) with h by (symmetry; exact Hh2).
    apply (wp_set_next cc3 _ R3); [change (node_ok (store_len cc2) x); rewrite El2; auto|apply H32; by left|].
    intros st4 cc4 R4. wp_step.
    apply (wp_set_prev cc4 _ R4); [change (node_ok (store_len cc2) x); rewrite El2; auto|apply is_u32_null|].
    intros st5 cc5 R5. wp_step. set (v5 := setf _ _) in R5.
    apply (HQ (cc5 <| head := x |>) v5); [|done|done].
    constructor.
    - by destruct R5.
    - constructor; [change (tree_at (vL v) (vR v) (root cc2) t); by rewrite Er2| |done].
      change (Forall (node_ok (store_len cc2)) (elems t)). by rewrite El2.
    - rewrite (sh_perm _ _ _ _ S), El. cbn [app]. solve_Permutation.
    - exact Hd'.
    - done.
    - change (tail cc2 = final x ((h :: l1) ++ l2)). rewrite final_app, Et2. done. }
  destruct l2 as [|n l2]; cbn [first].
  - rewrite Z.eqb_refl. wp_step. eapply Hend; [by apply (rep_block cc1 _ _ R1)|done..].
  - rewrite (node_eqb (store_len cc)) by ((apply Hok; set_solver) || done).
    apply (wp_set_prev cc1 _ R1); [apply Hok; set_solver|auto|]. intros st2 cc2 R2. apply (Hend _ _ R2); [done..| |done].
    change (tail cc = final p (n :: l2)). rewrite Hta. change (h :: l1 ++ x :: n :: l2) with ((h :: l1) ++ x :: n :: l2). by rewrite final_app.
Qed.
End shaped.

Lemma sorted_data D D' xs : (forall y, y ∈ xs -> D' y = D y) ->
  StronglySorted (idlt D) xs -> StronglySorted (idlt D') xs.
Proof.
  intros He. induction 1 as [|x xs Hs IH Hf]; constructor.
  - apply IH. intros y Hy. apply He. by right.
  - rewrite Forall_forall in *. intros y Hy. unfold idlt. rewrite !He; [by apply Hf|by right|by left].
Qed.
Lemma sorted_insert D x e a b : x ∉ a ++ b -> StronglySorted (idlt D) (a ++ b) ->
  Forall (fun z => memcmp (e_id (D z)) (e_id e) < 0) a -> Forall (fun z => memcmp (e_id e) (e_id (D z)) < 0) b ->
  StronglySorted (idlt (<[x:=e]> D)) (a ++ x :: b).
Proof.
  intros Hx Hs Ha Hb. rewrite Forall_forall in Ha, Hb.
  assert (forall y, y ∈ a ++ b -> (<[x:=e]> D) y = D y) as He
    by (intros y Hy; apply fn_lookup_insert_ne; by intros <-).
  apply (sorted_data _ (<[x:=e]> D)) in Hs; [|done]. apply StronglySorted_app in Hs as (H1 & H2 & H3).
  apply StronglySorted_app. split; [|split; [done|constructor; [done|]]].
  - intros y z Hy [->|Hz]%elem_of_cons; [|by apply H1]. unfold idlt. rewrite fn_lookup_insert, He; [auto|set_solver].
  - apply Forall_forall. intros z Hz. unfold idlt. rewrite fn_lookup_insert, He; [auto|set_solver].
Qed.

(** A fresh entry, whose identifier is not in the cache, is linked and filled. *)
Lemma wp_insert {A} cc v l t x e (k : M lru A) (Q : A -> lru -> Prop) : shaped cc v l t ->
  node_ok (store_len cc) x -> x ∉ l -> entry_ok e -> e_id e ∉ map (fun y => e_id (vD v y)) l ->
  (forall cc' v' t', shaped cc' v' (x :: l) t' -> vD v' = <[x:=e]> (vD v) -> frozen cc' = frozen cc -> wp k Q cc') ->
  wp (let! (_, alx) := find_node (e_id e) in
      set_link alx x ;;! set_left x ADDR_NULL ;;! set_right x ADDR_NULL ;;!
      let! cc := mget in
      (if head cc =? ADDR_NULL then mset (fun cc => cc <| tail := x |>) else set_prev (head cc) x) ;;!
      set_prev x ADDR_NULL ;;!
      (let! cc := mget in set_next x (head cc)) ;;!
      mset (fun cc => cc <| head := x |>) ;;!
      save_bytes (x + SESSION_ID_OFF) (e_id e) ;;! save_bytes (x + MASTER_SECRET_OFF) (e_secret e) ;;!
      save_bytes (x + VERSION_OFF) (br_enc16be (e_version e)) ;;!
      save_bytes (x + CIPHER_SUITE_OFF) (br_enc16be (e_suite e)) ;;! k) Q cc.
Proof.
  intros S Hx Hxl He Hid HQ. pose proof (sh_rep _ _ _ _ S) as R. pose proof (sh_tree _ _ _ _ S) as T.
  pose proof (sh_perm _ _ _ _ S) as P.
  wp_step. apply (wp_find_node cc v R t T); [apply He|]. intros s c Hf Hs.
  assert (s = Leaf) as ->.
  { destruct s as [|l' y r]; [done|]. exfalso. apply Hid. apply list_elem_of_fmap. exists y.
    split; [done|]. by eapply sh_present. }
  clear Hs. destruct Hf as [E Hlo Hhi]. pose proof (tree_root _ _ _ T) as Hr. rewrite E in Hr.
  apply tree_plug in Hr as (a & Hc & ->). destruct (tree_apart cc v t T _ _ E) as (_ & Hnc & _).
  assert (elems t = cpre c ++ cpost c) as Ec by (by rewrite E, elems_plug).
  assert (x ∉ cnodes c) as Hxc by (unfold cnodes; by rewrite <- Ec, P).
  apply (wp_link_new cc v); [done|done|by eapply tree_ctx|done..|]. intros cc1 v1 R1 S1 Ht1.
  pose proof (retree_cc _ _ _ _ _ S1) as E1. pose proof (retree_v _ _ _ _ _ S1) as Ev1.
  assert (store_len cc1 = store_len cc) as El1 by (by rewrite E1).
  apply (wp_push cc1 v1 l x); [done|rewrite Ev1; apply S|rewrite E1; apply S|rewrite E1; apply S|by eapply sh_NoDup|done|by rewrite El1|
    rewrite El1; by eapply sh_ok|].
  intros cc2 v2 R2 E2 Ev2 Hd2. assert (store_len cc2 = store_len cc) as El2 by (by rewrite E2).
  apply (wp_fill cc2 v2 x e); [done|by rewrite El2|done|]. intros st cc3 R3.
  set (v3 := setf _ v2) in R3. apply (HQ cc3 v3 (plug (Bin Leaf x Leaf) c)).
  - constructor; [exact R3| | |exact Hd2|subst cc3; rewrite E2; done|subst cc3; rewrite E2; done].
    + assert (elems (plug (Bin Leaf x Leaf) c) = cpre c ++ x :: cpost c) as En by (by rewrite elems_plug).
      pose proof (tree_nodes _ _ _ T) as Hok. pose proof (tree_sorted _ _ _ T) as Hst. rewrite Ec in Hok, Hst.
      apply Forall_app in Hok as [? ?]. constructor.
      * change (tree_at (vL v2) (vR v2) (root cc2) (plug (Bin Leaf x Leaf) c)). rewrite E2, Ev2. exact Ht1.
      * rewrite En. change (store_len cc3) with (store_len cc2). rewrite El2. apply Forall_app. split; [done|]. by constructor.
      * assert (vD v2 = vD v) as ED by (by rewrite Ev2, Ev1).
        change (vD v3) with (<[x:=e]> (vD v2)). rewrite ED, En. apply sorted_insert; done.
    + rewrite elems_plug. cbn [elems app]. rewrite <- P, Ec. solve_Permutation.
  - change (vD v3) with (<[x:=e]> (vD v2)). by rewrite Ev2, Ev1.
  - subst cc3. rewrite E2, E1. done.
Qed.

(** The last entry of the list is evicted. *)
Lemma wp_evict {A} cc v l x t (k : M lru A) (Q : A -> lru -> Prop) : shaped cc v (l ++ [x]) t ->
  (forall cc' v' t', shaped cc' v' l t' -> vD v' = vD v -> frozen cc' = frozen cc -> wp k Q cc') ->
  wp (let! p := get_prev x in
      mset (fun cc => cc <| tail := p |>) ;;!
      (if p =? ADDR_NULL then mset (fun cc => cc <| head := ADDR_NULL |>) else set_next p ADDR_NULL) ;;!
      remove_node x ;;! k) Q cc.
Proof.
  intros S HQ. pose proof (sh_rep _ _ _ _ S) as R. pose proof (sh_tree _ _ _ _ S) as T.
  pose proof (sh_perm _ _ _ _ S) as P. pose proof (sh_dll _ _ _ _ S) as Hd. pose proof (sh_NoDup _ _ _ _ S) as Hn.
  pose proof (sh_ok _ _ _ _ S) as Hok. pose proof (sh_head _ _ _ _ S) as Hh. pose proof (rep_small _ _ R) as Hsm.
  assert (vP v x = final ADDR_NULL l) as Hp by (by apply dll_app in Hd as [_ [? _]]).
  wp_step. apply (wp_get_prev cc v R); [apply Hok; set_solver|]. rewrite Hp. wp_step. wp_step. wp_step.
  assert (forall cc1 v1, rep cc1 v1 -> cc1 = cc <| store := store cc1 |> <| head := first ADDR_NULL l |> <| tail := final ADDR_NULL l |> ->
    v1 = v <| vN := vN v1 |> -> dll (vP v1) (vN v1) ADDR_NULL l ADDR_NULL -> wp (remove_node x ;;! k) Q cc1) as Hend.
  { intros cc1 v1 R1 E1 Ev1 Hd1. assert (store_len cc1 = store_len cc) as El by (by rewrite E1).
    wp_step. apply (wp_remove_node cc1 v1 t); [done| |rewrite P; set_solver|].
    { destruct T. constructor; [rewrite E1, Ev1; done|by rewrite El|rewrite Ev1; done]. }
    intros cc2 v2 t2 R2 S2 T2 P2. pose proof (retree_cc _ _ _ _ _ S2) as E2. pose proof (retree_v _ _ _ _ _ S2) as Ev2.
    apply (HQ cc2 v2 t2); [constructor; [done|done| | | |]| |].
    - rewrite P in P2. apply (Permutation_cons_inv (a := x)). rewrite <- P2. solve_Permutation.
    - rewrite Ev2. exact Hd1.
    - rewrite E2, E1. done.
    - rewrite E2, E1. done.
    - rewrite Ev2, Ev1. done.
    - rewrite E2, E1. done. }
  destruct (decide (l = [])) as [->|Hne].
  - cbn [final]. rewrite Z.eqb_refl. wp_step. eapply Hend; [by eapply (rep_block cc _ _ R)|by destruct cc|by destruct v|done].
  - pose proof (final_elem ADDR_NULL l Hne) as Hf. assert (node_ok (store_len cc) (final ADDR_NULL l)) as Hfo by (apply Hok; set_solver).
    rewrite (node_eqb (store_len cc)) by done. set (cc0 := setf _ cc).
    apply (wp_set_next cc0 v); [by eapply (rep_block cc)|done|apply is_u32_null|]. intros st cc1 R1.
    apply (Hend _ _ R1); [|by destruct v|by apply (dll_pop _ _ _ x)].
    assert (head cc = first ADDR_NULL l) as Hh' by (rewrite Hh; by destruct l).
    subst cc1 cc0. rewrite <- Hh'. by destruct cc.
Qed.

(** ** The specification *)

(** The index function, once it is chosen, and the entries. *)
Record cache : Type := Cache { c_key : option (list Z); c_entries : list entry }.

Section spec.
Context (dig : br_hash_class) (stk : hctx dig) (index : list Z -> list Z -> list Z).
Notation P := br_ssl_session_parameters.

(** Takes the entry of identifier [id] out of the list. *)
Fixpoint cache_take (id : list Z) (s : list entry) : option (entry * list entry) :=
  match s with
  | [] => None
  | e :: s =>
      if bool_decide (e_id e = id) then Some (e, s)
      else match cache_take id s with Some (e', s') => Some (e', e :: s') | None => None end
  end.
Definition disable (e : entry) : entry := Entry (e_id e) (e_secret e) 0 (e_suite e).

(** [cap] is the number of entries that fit. *)
Definition cache_save (cap : nat) (rng : br_hmac_drbg_context) (p : P) (s : cache) : br_hmac_drbg_context * cache :=
  if decide (cap = 0%nat) then (rng, s)
  else
    let '(rng, key) := match c_key s with Some key => (rng, key) | None => br_hmac_drbg_generate dig stk rng 32 end in
    let e := Entry (index key (session_id p)) (master_secret p) (version p) (cipher_suite p) in
    (rng, Cache (Some key)
            (if bool_decide (e_id e ∈ map e_id (c_entries s)) then c_entries s
             else e :: take (cap - 1) (c_entries s))).
Definition cache_load (p : P) (s : cache) : (Z * P) * cache :=
  match c_key s with
  | None => ((0, p), s)
  | Some key =>
      match cache_take (index key (session_id p)) (c_entries s) with
      | None => ((0, p), s)
      | Some (e, rest) =>
          if e_version e =? 0 then ((0, p), s)
          else ((1, SessionParameters (session_id p) (e_version e) (e_suite e) (e_secret e)), Cache (Some key) (e :: rest))
      end
  end.
Definition cache_forget (id : list Z) (s : cache) : cache :=
  match c_key s with
  | None => s
  | Some key =>
      Cache (Some key) (map (fun e => if bool_decide (e_id e = index key id) then disable e else e) (c_entries s))
  end.

(** The calls of the cache, and what they answer. *)
Inductive lru_call : Type :=
| Save (rng : br_hmac_drbg_context) (p : P)
| Load (p : P)
| Forget (id : list Z).
Inductive lru_answer : Type :=
| Saved (rng : br_hmac_drbg_context)
| Loaded (r : Z) (p : P)
| Forgotten.

Definition call_ok (c : lru_call) : Prop :=
  match c with
  | Save _ p => zlen (session_id p) = 32 /\ zlen (master_secret p) = 48 /\ is_u16 (version p) /\ is_u16 (cipher_suite p)
  | Load p => zlen (session_id p) = 32
  | Forget id => zlen id = 32
  end.

Definition cache_call (cap : nat) (c : lru_call) (s : cache) : lru_answer * cache :=
  match c with
  | Save rng p => let '(rng, s) := cache_save cap rng p s in (Saved rng, s)
  | Load p => let '((r, p), s) := cache_load p s in (Loaded r p, s)
  | Forget id => (Forgotten, cache_forget id s)
  end.
Fixpoint cache_calls (cap : nat) (cs : list lru_call) (s : cache) : list lru_answer :=
  match cs with
  | [] => []
  | c :: cs => let '(a, s) := cache_call cap c s in a :: cache_calls cap cs s
  end.

Definition run_call (c : lru_call) : M lru lru_answer :=
  match c with
  | Save rng p => let! rng := lru_save dig stk rng p in mret' (Saved rng)
  | Load p => let! (r, p) := lru_load dig stk p in mret' (Loaded r p)
  | Forget id => br_ssl_session_cache_lru_forget dig stk id ;;! mret' Forgotten
  end.
Fixpoint run_calls (cs : list lru_call) : M lru (list lru_answer) :=
  match cs with
  | [] => mret' []
  | c :: cs => let! a := run_call c in let! r := run_calls cs in mret' (a :: r)
  end.
End spec.

(** ** Refinement *)

(** [cc] implements [s]. *)
Record implements (cc : lru) (s : cache) (v : view) (l : list Z) (t : tree) : Prop := Implements {
  im_shape : shaped cc v l t;
  im_ptr : store_ptr cc = 100 * zlen l;
  im_below : Forall (fun x => x + 100 <= store_ptr cc) l;
  im_room : store_ptr cc <= store_len cc;
  im_entries : c_entries s = map (vD v) l;
  im_key : c_key s = if init_done cc then Some (index_key cc) else None;
  im_start : init_done cc = false -> l = [];
  im_klen : init_done cc = true -> zlen (index_key cc) <= 32 }.
Definition refines (cc : lru) (s : cache) : Prop := exists v l t, implements cc s v l t.

Lemma shaped_block cc cc' v l t : shaped cc v l t -> store cc' = store cc -> store_len cc' = store_len cc ->
  head cc' = head cc -> tail cc' = tail cc -> root cc' = root cc -> shaped cc' v l t.
Proof.
  intros [? [] ? ? ? ?] Es El Eh Et Er. constructor; rewrite ?Eh, ?Et; try done; [by apply (rep_block cc)|].
  constructor; rewrite ?Er, ?El; done.
Qed.
Lemma frozen_eq cc cc' : frozen cc' = frozen cc -> store_len cc' = store_len cc /\ store_ptr cc' = store_ptr cc /\
  index_key cc' = index_key cc /\ init_done cc' = init_done cc.
Proof. unfold frozen. intros E. by injection E. Qed.

Lemma cache_take_absent id s : id ∉ map e_id s -> cache_take id s = None.
Proof.
  induction s as [|e s IH]; intros Hn; [done|]. cbn. rewrite bool_decide_eq_false_2; [|intros <-; apply Hn; by left].
  rewrite IH; [done|]. intros Hi. apply Hn. by right.
Qed.
Lemma cache_take_present id a e b : id ∉ map e_id a -> e_id e = id -> cache_take id (a ++ e :: b) = Some (e, a ++ b).
Proof.
  induction a as [|f a IH]; intros Hn He; cbn.
  - by rewrite bool_decide_eq_true_2.
  - rewrite bool_decide_eq_false_2; [|intros <-; apply Hn; by left].
    rewrite IH; [done| |done]. intros Hi. apply Hn. by right.
Qed.

Section present.
Context (cc : lru) (v : view) (l : list Z) (t : tree) (S : shaped cc v l t).
(** Where an entry that was found is in the list. *)
Lemma present_split x : x ∈ l -> exists l1 l2, l = l1 ++ x :: l2 /\ e_id (vD v x) ∉ map e_id (map (vD v) l1).
Proof.
  intros Hx. destruct (list_elem_of_split_l _ _ Hx) as (l1 & l2 & E & Hn). exists l1, l2. split; [done|].
  rewrite map_map. intros (y & Ey & Hy)%list_elem_of_fmap. apply Hn.
  rewrite (sorted_inj (vD v) (elems t) x y); [done|apply S|..]; rewrite ?(sh_perm _ _ _ _ S), ?E; set_solver.
Qed.
End present.

(** A new version, for an entry that is disabled. *)
Lemma wp_set_version cc v x n (Q : unit -> lru -> Prop) : rep cc v -> node_ok (store_len cc) x -> is_u16 n ->
  (forall st, let cc' := stored cc st in
     rep cc' (v <| vD := <[x:=Entry (e_id (vD v x)) (e_secret (vD v x)) n (e_suite (vD v x))]> (vD v) |>) -> Q tt cc') ->
  wp (save_bytes (x + VERSION_OFF) (br_enc16be n)) Q cc.
Proof.
  intros R Hx Hn HQ. destruct (Hx) as (? & _ & ?). unfold VERSION_OFF.
  assert (zlen (br_enc16be n) = 2) as L16 by done. pose proof (rep_len _ _ R) as Hl.
  apply wp_save; [done|lia|lia|]. apply HQ. destruct R as [R1 R2 R3 R4 R5 R6 R7].
  assert (forall o y, node_ok (store_len cc) y -> 84 <= o <= 96 ->
    fld o (zblit (store cc) (x + 80) (br_enc16be n)) y = fld o (store cc) y) as Hf.
  { intros. apply (fld_keep _ (store_len cc)); done || lia. }
  constructor; [change (zlen (zblit (store cc) (x + 80) (br_enc16be n)) = store_len cc); rewrite zlen_zblit; lia|done| | | | |];
    intros y Hy; change (node_ok (store_len cc) y) in Hy.
  - etransitivity; [by apply Hf|exact (R3 y Hy)].
  - etransitivity; [by apply Hf|exact (R4 y Hy)].
  - etransitivity; [by apply Hf|exact (R5 y Hy)].
  - etransitivity; [by apply Hf|exact (R6 y Hy)].
  - change (data (zblit (store cc) (x + 80) (br_enc16be n)) y =
      (<[x:=Entry (e_id (vD v x)) (e_secret (vD v x)) n (e_suite (vD v x))]> (vD v)) y).
    assert (forall st, data st y = Entry (zslice st (y + 0) 32) (zslice st (y + 32) 48)
      (br_dec16be (zslice st (y + 80) 2)) (br_dec16be (zslice st (y + 82) 2))) as Hdt by (intros; by rewrite Z.add_0_r).
    destruct (decide (x = y)) as [<-|Hne].
    + rewrite fn_lookup_insert, <- (R7 x Hy), !Hdt. cbn [e_id e_secret e_suite].
      rewrite !(slice_other (store cc) (store_len cc) x x 80 _ 0), !(slice_other (store cc) (store_len cc) x x 80 _ 32),
        !(slice_other (store cc) (store_len cc) x x 80 _ 82) by (done || lia).
      rewrite <- L16 at 1. rewrite (slice_same (store cc) (store_len cc)) by (done || lia).
      rewrite <- (app_nil_r (br_enc16be n)). by rewrite dec_enc16be.
    + rewrite fn_lookup_insert_ne, <- (R7 y Hy), !Hdt by done. by rewrite !(slice_other (store cc) (store_len cc)) by (done || lia).
Qed.

Lemma is_u16_0 : is_u16 0.
Proof. by vm_compute. Qed.

Section ops.
Context (dig : br_hash_class) (stk : hctx dig) (index : list Z -> list Z -> list Z).
Context (Hindex : forall key id, zlen key <= 32 -> zlen id = 32 ->
  mask_id dig stk key id = index key id /\ zlen (index key id) = 32).
Context (Hgen : forall rng, zlen (br_hmac_drbg_generate dig stk rng 32).2 <= 32).
Context (cc : lru) (s : cache) (v : view) (l : list Z) (t : tree) (I : implements cc s v l t).

(** The state after a change that keeps the allocated entries. *)
Lemma implements_keep cc' s' v' l' t' : shaped cc' v' l' t' -> frozen cc' = frozen cc -> l' ≡ₚ l ->
  c_entries s' = map (vD v') l' -> c_key s' = c_key s -> implements cc' s' v' l' t'.
Proof.
  intros S' F P Ee Ek. destruct (frozen_eq _ _ F) as (E1 & E2 & E3 & E4). destruct I.
  constructor; rewrite ?E1, ?E2, ?E3, ?E4, ?P, ?Ek; try done.
  intros Hi. rewrite (im_start0 Hi) in P. symmetry in P. by apply Permutation.Permutation_nil in P.
Qed.

Lemma wp_forget id (Q : unit -> lru -> Prop) : zlen id = 32 ->
  (forall cc', refines cc' (cache_forget index id s) -> store_len cc' = store_len cc -> Q tt cc') ->
  wp (br_ssl_session_cache_lru_forget dig stk id) Q cc.
Proof.
  intros Hid HQ. unfold br_ssl_session_cache_lru_forget. wp_step. wp_step.
  unfold cache_forget in HQ. rewrite (im_key _ _ _ _ _ I) in HQ.
  destruct (init_done cc) eqn:Ei; cbn [negb]; [|wp_step; apply HQ; [by exists v, l, t|done]].
  pose proof (im_klen _ _ _ _ _ I Ei) as Hk. destruct (Hindex (index_key cc) id Hk Hid) as [-> Hlen].
  set (mid := index (index_key cc) id) in *. pose proof (im_shape _ _ _ _ _ I) as S.
  pose proof (sh_rep _ _ _ _ S) as R. pose proof (sh_tree _ _ _ _ S) as T. pose proof (im_entries _ _ _ _ _ I) as Ee.
  wp_step. apply (wp_find_node cc v R t T); [done|]. intros [|l' x r] c Hf Hs; cbn [root_of].
  - rewrite Z.eqb_refl. cbn [negb]. wp_step. apply HQ; [|done]. exists v, l, t.
    apply implements_keep; [done..| |by rewrite (im_key _ _ _ _ _ I), Ei]. cbn [c_entries]. rewrite Ee, map_map.
    apply map_ext_in. intros y Hy%list_elem_of_In. rewrite bool_decide_eq_false_2; [done|].
    intros E. apply (sh_absent _ _ _ _ S _ _ Hf). apply list_elem_of_fmap. eauto.
  - pose proof (sh_present _ _ _ _ S _ _ _ _ _ Hf) as Hx. pose proof (sh_ok _ _ _ _ S x Hx) as Hxo.
    rewrite (node_eqb (store_len cc)) by (done || apply R). cbn [negb].
    apply (wp_set_version cc v); [done|done|apply is_u16_0|]. intros st cc' R'. apply HQ; [|done].
    set (v' := setf _ v) in R'. exists v', l, t.
    assert (forall y, e_id (vD v' y) = e_id (vD v y)) as Hids.
    { intros y. change (vD v') with (<[x:=Entry (e_id (vD v x)) (e_secret (vD v x)) 0 (e_suite (vD v x))]> (vD v)).
      destruct (decide (x = y)) as [<-|]; [by rewrite fn_lookup_insert|by rewrite fn_lookup_insert_ne]. }
    apply implements_keep; [|done..| |by rewrite (im_key _ _ _ _ _ I), Ei].
    + destruct S as [_ [? ? Hst] ? ? ? ?]. constructor; try done. constructor; try done.
      revert Hst. clear -Hids. induction 1; constructor; [done|]. rewrite Forall_forall in *.
      intros y Hy. unfold idlt. rewrite !Hids. by apply H.
    + cbn [c_entries]. rewrite Ee, map_map. apply map_ext_in. intros y Hy%list_elem_of_In.
      change (vD v') with (<[x:=Entry (e_id (vD v x)) (e_secret (vD v x)) 0 (e_suite (vD v x))]> (vD v)).
      destruct (decide (x = y)) as [<-|Hne].
      * rewrite fn_lookup_insert, bool_decide_eq_true_2 by done. done.
      * rewrite fn_lookup_insert_ne by done. rewrite bool_decide_eq_false_2; [done|]. intros E. apply Hne.
        apply (sorted_inj (vD v) (elems t)); [apply T|..]; rewrite ?(sh_perm _ _ _ _ S); try done. by rewrite E.
Qed.

Lemma wp_load p (Q : Z * br_ssl_session_parameters -> lru -> Prop) : zlen (session_id p) = 32 ->
  (forall cc', refines cc' (cache_load index p s).2 -> store_len cc' = store_len cc -> Q (cache_load index p s).1 cc') ->
  wp (lru_load dig stk p) Q cc.
Proof.
  intros Hid HQ. unfold lru_load. wp_step. wp_step.
  unfold cache_load in HQ. rewrite (im_key _ _ _ _ _ I) in HQ.
  destruct (init_done cc) eqn:Ei; cbn [negb]; [|wp_step; apply HQ; [by exists v, l, t|done]].
  pose proof (im_klen _ _ _ _ _ I Ei) as Hk. destruct (Hindex (index_key cc) (session_id p) Hk Hid) as [-> Hlen].
  set (mid := index (index_key cc) (session_id p)) in *. pose proof (im_shape _ _ _ _ _ I) as S.
  pose proof (sh_rep _ _ _ _ S) as R. pose proof (sh_tree _ _ _ _ S) as T.
  assert (refines cc s) as Hs by (by exists v, l, t). rewrite (im_entries _ _ _ _ _ I) in HQ.
  wp_step. apply (wp_find_node cc v R t T); [done|]. intros [|l' x r] c Hf Hx; cbn [root_of].
  { rewrite Z.eqb_refl. cbn [negb]. wp_step. rewrite cache_take_absent in HQ; [by apply HQ|].
    rewrite map_map. by eapply sh_absent. }
  pose proof (sh_present _ _ _ _ S _ _ _ _ _ Hf) as Hxl. pose proof (sh_ok _ _ _ _ S x Hxl) as Hxo.
  destruct (present_split _ _ _ _ S x Hxl) as (l1 & l2 & El & Hn). rewrite Hx in Hn.
  rewrite El, map_app in HQ. cbn [map] in HQ. rewrite (cache_take_present mid) in HQ by done.
  destruct Hxo as (Hx0 & Hxm & Hx1). pose proof (rep_data _ _ R x ltac:(done)) as HD. cbn in HD.
  rewrite (node_eqb (store_len cc)) by (done || apply R). cbn [negb].
  wp_step. apply (wp_load_bytes cc v R); unfold VERSION_OFF; [lia..|].
  replace (br_dec16be _) with (e_version (vD v x)) by (by rewrite <- HD).
  destruct (e_version (vD v x) =? 0); [wp_step; by apply HQ|].
  wp_step. apply (wp_load_bytes cc v R); unfold CIPHER_SUITE_OFF; [lia..|].
  wp_step. apply (wp_load_bytes cc v R); unfold MASTER_SECRET_OFF, MASTER_SECRET_LEN; [lia..|].
  wp_step. apply (wp_lru_to_head cc v l t S l1 x l2 _ El). intros cc' v' S' ED F. wp_step.
  assert (cc' = cc' -> store_len cc' = store_len cc) as El' by (intros _; by apply frozen_eq).
  replace (br_dec16be (zslice (store cc) (x + 82) 2)) with (e_suite (vD v x)) by (by rewrite <- HD).
  replace (zslice (store cc) (x + 32) 48) with (e_secret (vD v x)) by (by rewrite <- HD).
  apply (HQ cc'); [|by apply El'].
  exists v', (x :: l1 ++ l2), t. apply implements_keep; [done|done|rewrite El; solve_Permutation| |by rewrite (im_key _ _ _ _ _ I), Ei].
  cbn [c_entries map]. by rewrite ED, map_app.
Qed.

(** The generator gives the index key at the first save. *)
Lemma wp_init_key {A} rng (k : br_hmac_drbg_context -> M lru A) (Q : A -> lru -> Prop) :
  let r := match c_key s with Some key => (rng, key) | None => br_hmac_drbg_generate dig stk rng 32 end in
  (forall cc', implements cc' (Cache (Some r.2) (c_entries s)) v l t -> index_key cc' = r.2 -> init_done cc' = true ->
     zlen r.2 <= 32 -> store_len cc' = store_len cc -> wp (k r.1) Q cc') ->
  wp (let! rng := (if negb (init_done cc) then
                     let '(rng, key) := br_hmac_drbg_generate dig stk rng 32 in
                     mset (fun cc => cc <| index_key := key |> <| init_done := true |>) ;;! mret' rng
                   else mret' rng) in k rng) Q cc.
Proof.
  intros r HQ. subst r. rewrite (im_key _ _ _ _ _ I) in HQ. wp_step.
  destruct (init_done cc) eqn:Ei; cbn [negb].
  - wp_step. pose proof (im_klen _ _ _ _ _ I Ei). apply (HQ cc); try done.
    destruct I. constructor; try done. by rewrite Ei.
  - pose proof (Hgen rng) as Hl. destruct (br_hmac_drbg_generate dig stk rng 32) as [rng' key] eqn:Eg. cbn [fst snd] in *.
    wp_step. wp_step. wp_step. pose proof (im_start _ _ _ _ _ I Ei). set (cc1 := setf _ (setf _ cc)).
    apply (HQ cc1); try done. destruct I. constructor; try done. by apply (shaped_block cc).
Qed.
End ops.

Lemma elem_of_take_in {A} n (l : list A) x : x ∈ take n l -> x ∈ l.
Proof. intros Hx. rewrite <- (take_drop n l). apply elem_of_app. by left. Qed.

(** Room for a new entry [x]: the entries that stay are those at [l]. *)
Record room (cc cc' : lru) (v : view) (x : Z) (v' : view) (l : list Z) (t' : tree) : Prop := Room {
  ro_shape : shaped cc' v' l t';
  ro_data : vD v' = vD v;
  ro_node : node_ok (store_len cc') x;
  ro_fresh : x ∉ l;
  ro_ptr : store_ptr cc' = 100 * (zlen l + 1);
  ro_below : Forall (fun y => y + 100 <= store_ptr cc') (x :: l);
  ro_fits : store_ptr cc' <= store_len cc';
  ro_same : store_len cc' = store_len cc /\ index_key cc' = index_key cc /\ init_done cc' = init_done cc }.
Definition capacity (cc : lru) : nat := Z.to_nat (store_len cc / LRU_ENTRY_LEN).

Lemma wp_room cc s v l t (Q : Z -> lru -> Prop) : implements cc s v l t -> LRU_ENTRY_LEN <= store_len cc ->
  (forall x cc' v' l' t', room cc cc' v x v' l' t' -> map (vD v) l' = take (capacity cc - 1) (c_entries s) -> Q x cc') ->
  wp (if store_len cc -! LRU_ENTRY_LEN <? store_ptr cc then
        let x := tail cc in
        let! p := get_prev x in
        mset (fun cc => cc <| tail := p |>) ;;!
        (if p =? ADDR_NULL then mset (fun cc => cc <| head := ADDR_NULL |>) else set_next p ADDR_NULL) ;;!
        remove_node x ;;! mret' x
      else
        let x := u32 (store_ptr cc) in
        mset (fun cc => cc <| store_ptr := store_ptr cc +! LRU_ENTRY_LEN |>) ;;! mret' x) Q cc.
Proof.
  intros [S Hp Hb Hr Ee Ek Hs Hkl] Hlen HQ. pose proof (sh_small _ _ _ _ S) as Hsm.
  unfold LRU_ENTRY_LEN in *. szsimp. rewrite Ee in HQ.
  assert (capacity cc = Z.to_nat (store_len cc / 100)) as Ec by done.
  pose proof (Z.div_mod (store_len cc) 100 ltac:(lia)). pose proof (Z.mod_pos_bound (store_len cc) 100 ltac:(lia)).
  destruct (Z.ltb_spec (store_len cc - 100) (store_ptr cc)) as [Hfull|Hroom].
  - assert (length l = capacity cc) as Hc by lia. assert (l <> []) as Hne by (intros ->; cbn in Hp; lia).
    destruct (exists_last Hne) as (l0 & x & ->). rewrite (sh_tail _ _ _ _ S), final_app. cbn [final].
    pose proof (sh_NoDup _ _ _ _ S) as Hn. apply NoDup_app in Hn as (Hn0 & Hd & _).
    assert (node_ok (store_len cc) x) as Hx by (apply (sh_ok _ _ _ _ S); set_solver).
    apply (wp_evict cc v l0 x t _ _ S). intros cc' v' t' S' ED F. destruct (frozen_eq _ _ F) as (E1 & E2 & E3 & E4).
    rewrite length_app in Hc, Hp. cbn in Hc, Hp.
    wp_step. apply (HQ x cc' v' l0 t').
    + constructor; rewrite ?E1, ?E2; try done; [intros Hi; apply (Hd x Hi); by left|lia|].
      apply Forall_app in Hb as [? Hb]. apply Forall_cons in Hb as [? _]. by constructor.
    + rewrite map_app, take_app_le by (rewrite length_map; lia). symmetry. apply take_ge. rewrite length_map. lia.
  - pose proof (Nat2Z.is_nonneg (length l)). rewrite u32_small by lia. wp_step. wp_step. wp_step. szsimp.
    set (cc' := setf _ cc). apply (HQ (store_ptr cc) cc' v l t).
    + constructor; try done.
      * by apply (shaped_block cc).
      * split; [lia|]. split; [|change (store_ptr cc + 100 <= store_len cc); lia]. rewrite Hp, Z.mul_comm. by apply Z.mod_mul.
      * intros Hi. rewrite Forall_forall in Hb. specialize (Hb _ Hi). lia.
      * change (store_ptr cc + 100 = 100 * (zlen l + 1)). lia.
      * constructor; [done|]. eapply Forall_impl; [exact Hb|]. intros y Hy. change (y + 100 <= store_ptr cc + 100). cbn in Hy. lia.
      * change (store_ptr cc + 100 <= store_len cc). lia.
    + symmetry. apply take_ge. rewrite length_map. lia.
Qed.

Section refine.
Context (dig : br_hash_class) (stk : hctx dig) (index : list Z -> list Z -> list Z).
Context (Hindex : forall key id, zlen key <= 32 -> zlen id = 32 ->
  mask_id dig stk key id = index key id /\ zlen (index key id) = 32).
Context (Hgen : forall rng, zlen (br_hmac_drbg_generate dig stk rng 32).2 <= 32).

Lemma wp_lru_save cc s v l t rng p (Q : br_hmac_drbg_context -> lru -> Prop) : implements cc s v l t ->
  call_ok (Save rng p) ->
  (forall cc', refines cc' (cache_save dig stk index (capacity cc) rng p s).2 -> store_len cc' = store_len cc ->
     Q (cache_save dig stk index (capacity cc) rng p s).1 cc') ->
  wp (lru_save dig stk rng p) Q cc.
Proof.
  intros I (Hid & Hms & Hv & Hcs) HQ. unfold lru_save. wp_step. wp_step. unfold cache_save in HQ.
  destruct (Z.ltb_spec (store_len cc) LRU_ENTRY_LEN) as [Hsmall|Hbig].
  { rewrite decide_True in HQ.
    - wp_step. apply HQ; [by exists v, l, t|done].
    - unfold capacity, LRU_ENTRY_LEN in *. assert (store_len cc / 100 < 1) by (apply Z.div_lt_upper_bound; lia). lia. }
  rewrite decide_False in HQ.
  2:{ unfold capacity, LRU_ENTRY_LEN in *. assert (1 <= store_len cc / 100) by (apply Z.div_le_lower_bound; lia). lia. }
  apply (wp_init_key dig stk Hgen cc s v l t I rng). set (r := match c_key s with Some key => (rng, key) | None => _ end) in *.
  destruct r as [rng' key]. cbn [fst snd]. intros cc1 I1 Ek Ei Hkl El1. wp_step. wp_step. rewrite Ek.
  destruct (Hindex key (session_id p) Hkl Hid) as [-> Hlen].
  set (e := Entry (index key (session_id p)) (master_secret p) (version p) (cipher_suite p)) in *.
  assert (capacity cc = capacity cc1) as Ec by (unfold capacity; by rewrite El1).
  rewrite Ec in HQ. clear Ec I. cbn [c_entries] in *. pose proof (im_shape _ _ _ _ _ I1) as S.
  pose proof (sh_rep _ _ _ _ S) as R. pose proof (sh_tree _ _ _ _ S) as T. pose proof (im_entries _ _ _ _ _ I1) as Ee. cbn [c_entries] in Ee.
  wp_step. apply (wp_find_node cc1 v R t T); [done|]. intros [|l' x r] c Hf Hx; cbn [root_of].
  2:{ pose proof (sh_present _ _ _ _ S _ _ _ _ _ Hf) as Hxl.
    rewrite (node_eqb (store_len cc1)) by (by apply (sh_ok _ _ _ _ S) || apply R). cbn [negb]. wp_step.
    rewrite bool_decide_eq_true_2 in HQ; [apply HQ; [by exists v, l, t|done]|].
    rewrite Ee, map_map. change (e_id e) with (index key (session_id p)). rewrite <- Hx. apply list_elem_of_fmap. eauto. }
  rewrite Z.eqb_refl. cbn [negb]. pose proof (sh_absent _ _ _ _ S _ _ Hf) as Hn.
  rewrite bool_decide_eq_false_2 in HQ by (by rewrite Ee, map_map).
  wp_step. apply (wp_room cc1 _ v l t _ I1); [by rewrite El1|]. cbn [c_entries].
  intros x cc2 v2 l2 t2 [S2 ED Hxo Hxl Hptr Hb Hfit (E1 & E2 & E3)] Etake.
  rewrite (ztake_ge MASTER_SECRET_LEN) by (unfold MASTER_SECRET_LEN; lia).
  apply (wp_insert cc2 v2 l2 t2 x e (mret' rng')); [done|done|done|by constructor| |].
  { rewrite ED. intros (y & Ey & Hy)%list_elem_of_fmap. apply Hn. change (index key (session_id p)) with (e_id e). rewrite Ey.
    rewrite <- (map_map (vD v) e_id). apply list_elem_of_fmap. exists (vD v y). split; [done|].
    rewrite <- Ee. eapply elem_of_take_in. rewrite <- Etake. apply list_elem_of_fmap. eauto. }
  intros cc3 v3 t3 S3 ED3 F. destruct (frozen_eq _ _ F) as (F1 & F2 & F3 & F4). wp_step. apply HQ; [|by rewrite F1, E1].
  exists v3, (x :: l2), t3. constructor; rewrite ?F1, ?F2, ?F3, ?F4, ?E2, ?E3; try done.
  - cbn [length]. lia.
  - cbn [fst snd c_entries map]. rewrite ED3, fn_lookup_insert, <- Etake, ED. f_equal. apply map_ext_in.
    intros y Hy%list_elem_of_In. symmetry. apply fn_lookup_insert_ne. by intros <-.
  - cbn [c_key]. by rewrite Ek, Ei.
  - by rewrite Ei.
  - intros _. by rewrite Ek.
Qed.

Lemma wp_run_call cc s c (Q : lru_answer -> lru -> Prop) : refines cc s -> call_ok c ->
  (forall cc', refines cc' (cache_call dig stk index (capacity cc) c s).2 -> store_len cc' = store_len cc ->
     Q (cache_call dig stk index (capacity cc) c s).1 cc') ->
  wp (run_call dig stk c) Q cc.
Proof.
  intros (v & l & t & I) Hc HQ. destruct c as [rng p|p|id]; cbn [run_call cache_call] in *; wp_step.
  - apply (wp_lru_save cc s v l t rng p _ I Hc). intros cc' Hr El. wp_step.
    destruct (cache_save _ _ _ _ _ _ _). by apply HQ.
  - apply (wp_load dig stk index Hindex cc s v l t I p _ Hc). intros cc' Hr El.
    destruct (cache_load _ _ _) as [[r p'] s']. cbn [fst] in *. apply wp_ret. by apply HQ.
  - apply (wp_forget dig stk index Hindex cc s v l t I id _ Hc). intros cc' Hr El. wp_step. by apply HQ.
Qed.
Lemma wp_run_calls cs : forall cc s, refines cc s -> Forall call_ok cs ->
  wp (run_calls dig stk cs) (fun r _ => r = cache_calls dig stk index (capacity cc) cs s) cc.
Proof.
  induction cs as [|c cs IH]; intros cc s Hr Hc; cbn [run_calls cache_calls]; [by wp_step|].
  apply Forall_cons in Hc as [Hc Hcs]. wp_step. apply (wp_run_call cc s c); [done..|]. intros cc' Hr' El.
  assert (capacity cc' = capacity cc) as Ec by (unfold capacity; by rewrite El).
  destruct (cache_call _ _ _ _ _ _) as [a s']. wp_step. eapply wp_mono; [by apply (IH cc' s')|].
  intros r cc'' ->. wp_step. by rewrite Ec.
Qed.
End refine.

(** A cache that was just initialised is empty. *)
Lemma init_refines cc st len : zlen st = len -> len < 2 ^ 32 ->
  refines (br_ssl_session_cache_lru_init cc st len) (Cache None []).
Proof.
  intros Hl Hs. exists (View (fld LIST_PREV_OFF st) (fld LIST_NEXT_OFF st) (fld TREE_LEFT_OFF st) (fld TREE_RIGHT_OFF st) (data st)), [], Leaf.
  constructor; try done; [|cbn; lia]. constructor; try done. constructor; [done| |]; constructor.
Qed.

(** ** The index *)

(** The first bytes of the identifier are replaced with their HMAC. *)
Definition lru_index (dig : br_hash_class) (H : list Z -> list Z) (key id : list Z) : list Z :=
  let n := Z.min SESSION_ID_LEN (br_digest_size dig) in
  ztake n (HMAC H (block_size dig) key id) ++ zdrop n id.

Section index.
Context `{L : HashLaws dig H} (stk : hctx dig) (Hstk : hash_storage stk).

Lemma mask_id_hmac key id : zlen key <= 32 -> zlen id = 32 ->
  mask_id dig stk key id = lru_index dig H key id /\ zlen (lru_index dig H key id) = 32.
Proof.
  intros Hk Hid. pose proof law_block as (Hd & Hb & _).
  assert (zlen (lru_index dig H key id) = 32) as Hl.
  { unfold lru_index, SESSION_ID_LEN. rewrite zlen_app, zlen_ztake, zlen_zdrop; [lia|lia|]. rewrite HMAC_size. lia. }
  split; [|done]. unfold mask_id.
  pose proof (hmac_init_ok (hmac_slot dig stk) _ key SESSION_ID_LEN Hstk (key_init_ok stk key Hstk ltac:(lia))) as Hf.
  apply (hmac_update_ok key SESSION_ID_LEN _ [] id) in Hf; [|cbn [app]; lia].
  rewrite (hmac_out_ok key SESSION_ID_LEN _ _ stk Hf Hstk). destruct Hf as (_ & _ & ->). cbn [app].
  unfold lru_index, SESSION_ID_LEN in *. set (n := Z.min 32 (br_digest_size dig)).
  replace (if (0 <? 32) && (32 <? br_digest_size dig) then 32 else br_digest_size dig) with n
    by (destruct (Z.ltb_spec 32 (br_digest_size dig)); cbn; lia).
  pose proof (HMAC_size (L := L) (block_size dig) key id) as Hs.
  assert (zlen (ztake n (HMAC H (block_size dig) key id)) = n) as En by (apply zlen_ztake; lia).
  unfold zblit. rewrite En, ztake_le0 by lia. done.
Qed.

Lemma drbg_loop_len fuel kc hc V out len : 0 <= len ->
  zlen (drbg_loop dig stk fuel kc hc V out len).2 <= zlen out + len.
Proof.
  pose proof law_block as (Hd & _ & _).
  revert hc V out len. induction fuel as [|fuel IH]; intros hc V out len Hl; cbn [drbg_loop]; [cbn; lia|].
  destruct (Z.leb_spec len 0); [cbn; lia|]. destruct (drbg_step dig stk kc hc V) as [hc' V'].
  set (n := if len <? br_digest_size dig then len else br_digest_size dig).
  assert (0 < n <= len) as Hn by (subst n; destruct (Z.ltb_spec len (br_digest_size dig)); lia).
  etransitivity; [apply IH; lia|]. rewrite zlen_app.
  assert (zlen (ztake n V') <= n).
  { destruct (Z.le_gt_cases n (zlen V')); [rewrite zlen_ztake; lia|rewrite ztake_ge; lia]. }
  lia.
Qed.
Lemma drbg_generate_len rng : zlen (br_hmac_drbg_generate dig stk rng 32).2 <= 32.
Proof.
  unfold br_hmac_drbg_generate. destruct rng as [K V]. set (kc := br_hmac_key_init _ _ _).
  pose proof (drbg_loop_len (Z.to_nat 32) kc (hmac_slot dig stk) V [] 32 ltac:(lia)) as Hl.
  destruct (drbg_loop _ _ _ _ _ _ _ _) as [[hc V'] out]. cbn [snd] in Hl.
  destruct (drbg_step _ _ _ _ _) as [hc' V'']. cbn [snd]. cbn [length] in Hl. lia.
Qed.
End index.

(** C34: for every hash function that satisfies the interface, every block below
    [2^32] bytes and every history of saves, loads and forgets on a cache that was
    just initialised: every call returns, all its accesses lie in the block, and
    the answers are those of a list of [len / 100] entries in order of use, keyed
    by the session identifier whose first bytes are replaced with their HMAC under
    a key drawn at the first save. *)
Theorem lru_cache `{L : HashLaws dig H} stk cc st len calls : hash_storage stk ->
  zlen st = len -> len < 2 ^ 32 -> Forall call_ok calls ->
  exists cc', run_calls dig stk calls (br_ssl_session_cache_lru_init cc st len) =
    Some (cache_calls dig stk (lru_index dig H) (Z.to_nat (len / LRU_ENTRY_LEN)) calls (Cache None []), cc').
Proof.
  intros Hstk Hl Hs Hc. pose proof (init_refines cc st len Hl Hs) as Hr.
  pose proof (wp_run_calls dig stk (lru_index dig H) (mask_id_hmac stk Hstk) (drbg_generate_len stk) calls _ _ Hr Hc) as Hw.
  destruct (wp_returns _ _ _ Hw) as [[r cc'] E]. exists cc'. rewrite E. by rewrite (wp_elim _ _ _ _ _ Hw E).
Qed.

(** Three sessions in a block with room for two. *)
Definition session (n : Z) : br_ssl_session_parameters :=
  SessionParameters (replicate 32 n) 0x0303 0xC02F (replicate 48 (n + 100)).
Definition session_rng : br_hmac_drbg_context := Drbg (zeros 64) (zeros 64).
Definition session_calls : list lru_call :=
  [Load (session 1); Save session_rng (session 1); Save session_rng (session 2); Load (session 1);
   Save session_rng (session 3); Load (session 2); Load (session 1); Forget (session_id (session 3)); Load (session 3)].
Definition hits (a : list lru_answer) : list Z :=
  omap (fun a => match a with Loaded r _ => Some r | _ => None end) a.
Definition session_cache : lru := Lru [] 0 0 [] false 0 0 0.

Lemma lru_cache_witness :
  let answers := cache_calls br_sha256_vtable sha256_slot (lru_index br_sha256_vtable SHA256) 2 session_calls (Cache None []) in
  (exists cc', run_calls br_sha256_vtable sha256_slot session_calls (br_ssl_session_cache_lru_init session_cache (zeros 250) 250) =
    Some (answers, cc')) /\ hits answers = [0; 1; 0; 1; 0].
Proof.
  intros answers. split.
  - apply (lru_cache (L := sha256_laws) sha256_slot session_cache (zeros 250) 250 session_calls eq_refl eq_refl eq_refl).
    repeat constructor; by vm_compute.
  - vm_compute. reflexivity.
Defined.
