(* ===== verification/ServerStart.v ===== *)
(** * ServerStart: how [tlsv2_server_run] of [tls_wrapper_v3.c] starts

    Certificate and key are read from files into allocated blocks, the key through
    a decoder context on the stack; then the listening socket is made.  Memory is a
    map from block numbers to contents; a block on the stack is removed when its
    function returns, and every access checks that its block is there.  Files and
    sockets are the operating system's, the DER decoder (generated code) is a
    parameter that says what it found. *)
From stdpp Require Import gmap.
From S2P Require Import Prelude.
From S2P Require Import Effects.
From S2P Require Import Engine.
From S2P Require Import TlsServer.
From S2P Require Import TlsClient.

(** ** Pointers and memory *)

(** A pointer into a block; in a decoder context the offset counts from its
    [key_data]. *)
Record ptr : Type := Ptr { blk : nat; off : Z }.

(** [br_rsa_private_key]. *)
Record br_rsa_private_key : Type := RsaKey {
  n_bitlen : Z;
  key_p : ptr; plen : Z; key_q : ptr; qlen : Z; key_dp : ptr; dplen : Z;
  key_dq : ptr; dqlen : Z; key_iq : ptr; iqlen : Z }.
Record br_x509_certificate : Type := X509Certificate { cert_data : ptr; cert_data_len : Z }.
(** [br_skey_decoder_context]: the key (an RSA key once there is one), the error,
    the type and the numbers. *)
Record br_skey_decoder_context : Type := SkeyDecoder {
  sk_rsa : option br_rsa_private_key; sk_err : Z; key_type : Z; key_data : list Z }.

Inductive cell : Type :=
| Bytes (bs : list Z)
| Certificates (cs : list br_x509_certificate)
| Decoder (c : br_skey_decoder_context).

Definition BR_KEYTYPE_RSA : Z := 1.
Definition BR_KEYTYPE_EC : Z := 2.
Definition BR_ERR_X509_TRUNCATED : Z := 34.

(** What the decoder finds in DER data. *)
Inductive skey_parsed : Type :=
| SkeyError (e : Z)
| SkeyTruncated
| SkeyEc
| SkeyRsa (bitlen plen qlen dplen dqlen iqlen : Z) (data : list Z).

(** ** Files and the listening socket *)

Inductive whence : Type := SEEK_SET | SEEK_END.
Class Files (W F : Type) := {
  fopen : W -> list Z -> W * option F;
  fseek : W -> F -> whence -> W * bool;
  ftell : W -> F -> W * Z;
  fread : W -> F -> Z -> W * list Z;
  fclose : W -> F -> W }.
Class Listening (W : Type) := {
  sys_reuseaddr : W -> Z -> W;
  sys_bind : W -> Z -> Z -> W * bool;
  sys_listen : W -> Z -> Z -> W * bool;
  fcntl_getfl : W -> Z -> W * Z;
  fcntl_setfl : W -> Z -> Z -> W * bool }.
Definition O_NONBLOCK : Z := 0x800.

(** The memory, the globals of the file that the start sets, and the state the
    server runs on. *)
Record process {S : Type} : Type := Process {
  blocks : gmap nat cell; fresh_blk : nat;
  g_certs : option ptr; g_certs_len : Z; g_cert_der_buf : option ptr;
  g_skey : option br_rsa_private_key; g_key_der_buf : option ptr;
  g_listen_fd : option Z;
  running : S }.
Arguments process : clear implicits.
Arguments Process {S}.
#[export] Instance eta_process {S} : Eta (process S) := fun p =>
  Process (blocks p) (fresh_blk p) (g_certs p) (g_certs_len p) (g_cert_der_buf p) (g_skey p) (g_key_der_buf p)
    (g_listen_fd p) (running p).

Section start.
Context {RI RO HS : Type} `{!RecordIn RI} `{!RecordOut RO} `{!Handshake RI RO HS}.
Context {W F : Type} `{!OS W} `{!Files W F} `{!Net W} `{!Listening W}.
Context (skey_t0 : list Z -> skey_parsed).
(** [sizeof(br_x509_certificate)]. *)
Context (sizeof_certificate : Z).
Notation C := (client RI RO HS ptr br_rsa_private_key).
Notation proc := (process (srv C W)).
Notation M := (M proc).

Definition os {A} (f : W -> W * A) : M A := fun s =>
  let '(w, a) := f (world (running s)) in Some (a, s <| running := (running s) <| world := w |> |>).
Definition os' (f : W -> W) : M unit := os (fun w => (f w, tt)).

(** [malloc]: a new block with the contents [c], unless memory is short. *)
Definition alloc (c : cell) : M ptr := fun s =>
  Some (Ptr (fresh_blk s) 0, s <| blocks := <[fresh_blk s := c]> (blocks s) |> <| fresh_blk := S (fresh_blk s) |>).
Definition malloc (n : Z) (c : cell) : M (option ptr) :=
  let! ok := os (fun w => sys_malloc w n) in
  if ok then let! p := alloc c in mret' (Some p) else mret' None.
Definition get_block (p : ptr) : M cell := fun s =>
  match blocks s !! blk p with Some c => Some (c, s) | None => None end.
Definition set_block (p : ptr) (c : cell) : M unit := fun s =>
  match blocks s !! blk p with Some _ => Some (tt, s <| blocks := <[blk p := c]> (blocks s) |>) | None => None end.
Definition free (p : ptr) : M unit := fun s =>
  match blocks s !! blk p with Some _ => Some (tt, s <| blocks := delete (blk p) (blocks s) |>) | None => None end.
(** A local variable, gone when [body] is done. *)
Definition with_local {A} (c : cell) (body : ptr -> M A) : M A :=
  let! p := alloc c in let! a := body p in free p ;;! mret' a.

(** ** Loading *)

Definition load_der (path : list Z) : M (option (ptr * Z)) :=
  let! f := os (fun w => fopen w path) in
  match f with
  | None => mret' None
  | Some f =>
      let close := os' (fun w => fclose w f) in
      let! ok := os (fun w => fseek w f SEEK_END) in
      if negb ok then close ;;! mret' None
      else
        let! sz := os (fun w => ftell w f) in
        if sz <=? 0 then close ;;! mret' None
        else
          let! ok := os (fun w => fseek w f SEEK_SET) in
          if negb ok then close ;;! mret' None
          else
            let! buf := malloc sz (Bytes (zeros sz)) in
            match buf with
            | None => close ;;! mret' None
            | Some buf =>
                let! bs := os (fun w => fread w f sz) in
                let! c := get_block buf in
                (match c with
                 | Bytes b => let! b := mlift (write_at b 0 bs) in set_block buf (Bytes b)
                 | _ => mlift None
                 end) ;;!
                if negb (zlen bs =? sz) then close ;;! free buf ;;! mret' None
                else close ;;! mret' (Some (buf, sz))
            end
  end.

(** [out_certs], [out_len] and [out_der_buf], or the result -1. *)
Definition load_certificate_der (path : list Z) : M (option (ptr * Z * ptr)) :=
  let! r := load_der path in
  match r with
  | None => mret' None
  | Some (der, der_len) =>
      let! certs := malloc sizeof_certificate (Certificates [X509Certificate der der_len]) in
      match certs with
      | None => free der ;;! mret' None
      | Some certs => mret' (Some (certs, 1, der))
      end
  end.

(** *** The key decoder *)

Definition skey_zero : br_skey_decoder_context := SkeyDecoder None 0 0 [].
Definition br_skey_decoder_init (kc : ptr) : M unit := set_block kc (Decoder skey_zero).

(** The instruction [set-rsa-key]: the pointers of the key go into the context
    itself. *)
Definition set_rsa_key (kc : ptr) (bitlen plen qlen dplen dqlen iqlen : Z) : br_rsa_private_key :=
  let at_ o := Ptr (blk kc) o in
  let o := plen in
  let q := o in
  let o := o +! qlen in
  let dp := o in
  let o := o +! dplen in
  let dq := o in
  let o := o +! dqlen in
  RsaKey bitlen (at_ 0) plen (at_ q) qlen (at_ dp) dplen (at_ dq) dqlen (at_ o) iqlen.
Definition br_skey_decoder_push (kc : ptr) (data : list Z) : M unit :=
  set_block kc (Decoder
    match skey_t0 data with
    | SkeyError e => SkeyDecoder None e 0 []
    | SkeyTruncated => skey_zero
    | SkeyEc => SkeyDecoder None 0 BR_KEYTYPE_EC []
    | SkeyRsa bitlen plen qlen dplen dqlen iqlen kd =>
        SkeyDecoder (Some (set_rsa_key kc bitlen plen qlen dplen dqlen iqlen)) 0 BR_KEYTYPE_RSA kd
    end).
Definition br_skey_decoder_last_error (ctx : br_skey_decoder_context) : Z :=
  if negb (sk_err ctx =? 0) then sk_err ctx
  else if key_type ctx =? 0 then BR_ERR_X509_TRUNCATED else 0.
Definition br_skey_decoder_get_rsa (ctx : br_skey_decoder_context) : option br_rsa_private_key :=
  if (sk_err ctx =? 0) && (key_type ctx =? BR_KEYTYPE_RSA) then sk_rsa ctx else None.

Definition get_decoder (p : ptr) : M br_skey_decoder_context :=
  let! c := get_block p in match c with Decoder c => mret' c | _ => mlift None end.
Definition get_bytes (p : ptr) : M (list Z) :=
  let! c := get_block p in match c with Bytes b => mret' b | _ => mlift None end.

(** [out_skey] and [out_der_buf], or the result -1. *)
Definition load_rsa_key_der (path : list Z) : M (option (br_rsa_private_key * ptr)) :=
  let! r := load_der path in
  match r with
  | None => mret' None
  | Some (der, der_len) =>
      with_local (Decoder skey_zero) (fun kc =>
        br_skey_decoder_init kc ;;!
        let! data := get_bytes der in
        br_skey_decoder_push kc (ztake der_len data) ;;!
        let! ctx := get_decoder kc in
        if negb (br_skey_decoder_last_error ctx =? 0) then free der ;;! mret' None
        else
          match br_skey_decoder_get_rsa ctx with
          | None => free der ;;! mret' None
          | Some k => mret' (Some (k, der))
          end)
  end.

(** ** The listening socket *)

Definition gfns_set_nonblocking (s : Z) : M bool :=
  let! flags := os (fun w => fcntl_getfl w s) in
  if flags <? 0 then mret' false
  else os (fun w => fcntl_setfl w s (Z.lor flags O_NONBLOCK)).

Definition gfns_create_listen_socket (port : Z) : M (option Z) :=
  let! ok := os gfns_net_init in
  if negb ok then mret' None
  else
    let! s := os sys_socket in
    match s with
    | None => mret' None
    | Some s =>
        let fail := os' (fun w => sys_close w s) ;;! mret' None in
        os' (fun w => sys_reuseaddr w s) ;;!
        let! ok := os (fun w => sys_bind w s (u16 port)) in
        if negb ok then fail
        else
          let! ok := os (fun w => sys_listen w s 16) in
          if negb ok then fail
          else
            let! ok := gfns_set_nonblocking s in
            if negb ok then fail else mret' (Some s)
    end.

(** ** [tlsv2_server_run] up to its loop *)

Definition on_running {A} (m : Effects.M (srv C W) A) : M A := fun s =>
  match m (running s) with Some (a, r) => Some (a, s <| running := r |>) | None => None end.

(** [None] is a null configuration.  The result is -1, or [None] when the loop is
    entered. *)
Definition server_start (cfg : option (option (list Z) * option (list Z) * Z)) : M (option Z) :=
  match cfg with
  | Some (Some cert_file, Some key_file, port) =>
      let! r := load_certificate_der cert_file in
      match r with
      | None => mret' (Some (-1))
      | Some (certs, len, der) =>
          mset (fun s => s <| g_certs := Some certs |> <| g_certs_len := len |> <| g_cert_der_buf := Some der |>) ;;!
          let! r := load_rsa_key_der key_file in
          match r with
          | None => mret' (Some (-1))
          | Some (k, der) =>
              mset (fun s => s <| g_skey := Some k |> <| g_key_der_buf := Some der |>) ;;!
              on_running tlsv2_clients_init ;;!
              let! s := gfns_create_listen_socket port in
              mset (fun p => p <| g_listen_fd := s |>) ;;!
              match s with None => mret' (Some (-1)) | Some _ => mret' None end
          end
      end
  | _ => mret' (Some (-1))
  end.
End start.
