(* ===== verification/ServerStartSpec.v ===== *)
(** * ServerStartSpec: what the start of the server leaves behind

    The calls of the operating system and their answers are recorded ([calls]): the
    server listens just when all were granted.  Every file it opens is closed.  A start
    that fails leaves the blocks it had filled; the key it installs points into the
    decoder's frame, which is gone. *)
From stdpp Require Import gmap.
From S2P Require Import Prelude.
From S2P Require Import Effects.
From S2P Require Import Engine.
From S2P Require Import TlsServer.
From S2P Require Import TlsClient.
From S2P Require Import ServerStart.

(** ** What the system answered *)

Inductive event : Type :=
| EvOpen (path : list Z) (ok : bool) | EvSeek (ok : bool) | EvTell (size : Z) | EvRead (n : Z) (bs : list Z)
| EvMalloc (n : Z) (ok : bool)
| EvNet (ok : bool) | EvSocket (s : option Z) | EvBind (s port : Z) (ok : bool) | EvListen (s n : Z) (ok : bool)
| EvGetfl (s flags : Z) | EvSetfl (s flags : Z) (ok : bool).
(** A call that failed, a file that is empty or was not read to its end. *)
Definition failed (e : event) : bool :=
  match e with
  | EvOpen _ ok | EvSeek ok | EvMalloc _ ok | EvNet ok | EvBind _ _ ok | EvListen _ _ ok | EvSetfl _ _ ok => negb ok
  | EvTell n => n <=? 0
  | EvRead n bs => negb (zlen bs =? n)
  | EvSocket s => match s with Some _ => false | None => true end
  | EvGetfl _ n => n <? 0
  end.
Definition some_failed (ev : list event) : bool := existsb failed ev.
Lemma some_failed_app a b : some_failed (a ++ b) = some_failed a || some_failed b.
Proof. apply existsb_app. Qed.

(** One call from the system [w]: its answer and the system it leaves. *)
Inductive call {W F} `{!OS W, !Files W F, !Net W, !Listening W} (w : W) : list event -> W -> Prop :=
| call_fopen path w' r : fopen w path = (w', r) -> call w [EvOpen path (match r with Some _ => true | None => false end)] w'
| call_fseek f o w' ok : fseek w f o = (w', ok) -> call w [EvSeek ok] w'
| call_ftell f w' n : ftell w f = (w', n) -> call w [EvTell n] w'
| call_fread f n w' bs : fread w f n = (w', bs) -> call w [EvRead n bs] w'
| call_fclose f : call w [] (fclose w f)
| call_malloc n w' ok : sys_malloc w n = (w', ok) -> call w [EvMalloc n ok] w'
| call_net w' ok : gfns_net_init w = (w', ok) -> call w [EvNet ok] w'
| call_socket w' r : sys_socket w = (w', r) -> call w [EvSocket r] w'
| call_reuseaddr s : call w [] (sys_reuseaddr w s)
| call_bind s n w' ok : sys_bind w s n = (w', ok) -> call w [EvBind s n ok] w'
| call_listen s n w' ok : sys_listen w s n = (w', ok) -> call w [EvListen s n ok] w'
| call_getfl s w' n : fcntl_getfl w s = (w', n) -> call w [EvGetfl s n] w'
| call_setfl s n w' ok : fcntl_setfl w s n = (w', ok) -> call w [EvSetfl s n ok] w'
| call_close s : call w [] (sys_close w s).
#[export] Hint Constructors call : core.

(** The calls between two systems, and their answers in order. *)
Inductive calls {W F} `{!OS W, !Files W F, !Net W, !Listening W} (w : W) : list event -> W -> Prop :=
| calls_nil : calls w [] w
| calls_snoc ev w1 ev' w2 : calls w ev w1 -> call w1 ev' w2 -> calls w (ev ++ ev') w2.
Lemma calls_app {W F} `{!OS W, !Files W F, !Net W, !Listening W} (w1 w2 w3 : W) ev ev' :
  calls w1 ev w2 -> calls w2 ev' w3 -> calls w1 (ev ++ ev') w3.
Proof.
  intros H1 H2. induction H2 as [|ev2 w4 ev4 w5 _ IH Hc]; [by rewrite app_nil_r|].
  rewrite app_assoc. by apply (calls_snoc _ _ w4).
Qed.

(** [files] and [socks] count the files and sockets that are open. *)
Class StartLaws (W F : Type) `{!OS W, !Files W F, !Net W, !Listening W} (files socks : W -> Z) := {
  fopen_law : forall w path, let '(w', r) := fopen w path in
    files w' = files w + (match r with Some _ => 1 | None => 0 end) /\ socks w' = socks w;
  fseek_law : forall w f o, let '(w', _) := fseek w f o in files w' = files w /\ socks w' = socks w;
  ftell_law : forall w f, let '(w', _) := ftell w f in files w' = files w /\ socks w' = socks w;
  fread_law : forall w f n, 0 <= n -> let '(w', bs) := fread w f n in
    files w' = files w /\ socks w' = socks w /\ zlen bs <= n;
  fclose_law : forall w f, files (fclose w f) = files w - 1 /\ socks (fclose w f) = socks w;
  malloc_law : forall w n, let '(w', _) := sys_malloc w n in files w' = files w /\ socks w' = socks w;
  net_law : forall w, let '(w', _) := gfns_net_init w in files w' = files w /\ socks w' = socks w;
  socket_law : forall w, let '(w', r) := sys_socket w in
    files w' = files w /\ socks w' = socks w + (match r with Some _ => 1 | None => 0 end);
  setup_law : forall w s n, let same w' := files w' = files w /\ socks w' = socks w in
    same (sys_reuseaddr w s) /\ same (sys_bind w s n).1 /\ same (sys_listen w s n).1 /\
    same (fcntl_getfl w s).1 /\ same (fcntl_setfl w s n).1;
  close_law : forall w s, files (sys_close w s) = files w /\ socks (sys_close w s) = socks w - 1 }.

Section start.
Context {RI RO HS : Type} `{!RecordIn RI} `{!RecordOut RO} `{!Handshake RI RO HS}.
Context {W F : Type} `{!OS W} `{!Files W F} `{!Net W} `{!Listening W}.
Context (files socks : W -> Z) `{!StartLaws W F files socks}.
Context (skey_t0 : list Z -> skey_parsed) (sizeof_certificate : Z).
Notation C := (client RI RO HS ptr br_rsa_private_key).
Notation proc := (process (srv C W)).
Implicit Types (s : proc) (w : W).

(** What the functions below the start do not touch. *)
Definition globals s := (g_certs s, g_certs_len s, g_cert_der_buf s, g_skey s, g_key_der_buf s, g_listen_fd s,
  g_clients (running s)).
(** No block has a number that is still to come. *)
Definition blocks_ok s : Prop := forall b, is_Some (blocks s !! b) -> (b < fresh_blk s)%nat.
Notation wd s := (world (running s)).

(** From [s] to [s'] the memory changes to [bl], [df] more files and [ds] more
    sockets are open, and the system answers [ev]. *)
Record leads s s' (bl : gmap nat cell) (df ds : Z) (ev : list event) : Prop := Leads {
  le_globals : globals s' = globals s;
  le_blocks : blocks s' = bl;
  le_fresh : (fresh_blk s <= fresh_blk s')%nat;
  le_ok : blocks_ok s';
  le_files : files (wd s') = files (wd s) + df;
  le_socks : socks (wd s') = socks (wd s) + ds;
  le_calls : calls (wd s) ev (wd s') }.
Lemma leads_refl s : blocks_ok s -> leads s s (blocks s) 0 0 [].
Proof. intros. constructor; try done; [lia..|constructor]. Qed.

(** A call of the operating system that is known by what it opens and answers. *)
Lemma wp_os {A} s0 bl df ds ev (f : W -> W * A) df' ds' (ev' : A -> list event) s (Q : A -> proc -> Prop) :
  leads s0 s bl df ds ev ->
  (forall w' a, f (wd s) = (w', a) -> call (wd s) (ev' a) w') ->
  (let '(w', a) := f (wd s) in files w' = files (wd s) + df' a /\ socks w' = socks (wd s) + ds' a) ->
  (forall a s', leads s0 s' bl (df + df' a) (ds + ds' a) (ev ++ ev' a) -> fresh_blk s' = fresh_blk s -> (exists w', f (wd s) = (w', a)) -> Q a s') ->
  wp (os f) Q s.
Proof.
  intros Hl Hc Hf HQ. destruct (f (wd s)) as [w' a] eqn:E. destruct Hf as [Hf Hs].
  apply (wp_intro _ _ _ a (s <| running := (running s) <| world := w' |> |>)); [unfold os; by rewrite E|].
  apply HQ; [|done|eauto]. destruct Hl. constructor; try done.
  - cbn. rewrite Hf. lia.
  - cbn. rewrite Hs. lia.
  - exact (calls_snoc _ _ _ _ _ le_calls0 (Hc _ _ eq_refl)).
Qed.
(** A call that opens and closes nothing. *)
Lemma wp_os_same {A} s0 bl df ds ev (f : W -> W * A) (ev' : A -> list event) s (Q : A -> proc -> Prop) : leads s0 s bl df ds ev ->
  (forall w' a, f (wd s) = (w', a) -> call (wd s) (ev' a) w') ->
  (let '(w', a) := f (wd s) in files w' = files (wd s) /\ socks w' = socks (wd s)) ->
  (forall a s', leads s0 s' bl df ds (ev ++ ev' a) -> (exists w', f (wd s) = (w', a)) -> Q a s') -> wp (os f) Q s.
Proof.
  intros Hl Hc Hf HQ. apply (wp_os s0 bl df ds ev f (fun _ => 0) (fun _ => 0) ev'); [done|done| |].
  - destruct (f (wd s)). by rewrite !Z.add_0_r.
  - intros a s' L' _ Hw. rewrite !Z.add_0_r in L'. by apply HQ.
Qed.
Lemma wp_alloc s0 bl df ds ev c s (Q : ptr -> proc -> Prop) : leads s0 s bl df ds ev ->
  (forall s' b, bl !! b = None -> leads s0 s' (<[b:=c]> bl) df ds ev -> Q (Ptr b 0) s') -> wp (alloc c) Q s.
Proof.
  intros [G1 B1 F1 O1 Lf Ls Lh] HQ. eapply wp_intro; [reflexivity|].
  assert (bl !! fresh_blk s = None) as Hnone.
  { rewrite <- B1. destruct (blocks s !! fresh_blk s) eqn:E; [|done].
    specialize (O1 (fresh_blk s) (ex_intro _ _ E)). lia. }
  apply HQ; [done|]. rewrite B1. constructor; try done; [cbn; lia|].
  intros b. change (is_Some (<[fresh_blk s := c]> bl !! b) -> (b < S (fresh_blk s))%nat).
  destruct (decide (b = fresh_blk s)) as [->|Hne]; [lia|]. rewrite lookup_insert_ne by done.
  intros Hb. rewrite <- B1 in Hb. specialize (O1 b Hb). lia.
Qed.
Lemma wp_malloc s0 bl df ds ev n c s (Q : option ptr -> proc -> Prop) : leads s0 s bl df ds ev ->
  (forall s', leads s0 s' bl df ds (ev ++ [EvMalloc n false]) -> Q None s') ->
  (forall s' b, bl !! b = None -> leads s0 s' (<[b:=c]> bl) df ds (ev ++ [EvMalloc n true]) -> Q (Some (Ptr b 0)) s') ->
  wp (malloc n c) Q s.
Proof.
  intros Hl HN Hsome. unfold malloc. wp_step. apply (wp_os_same s0 bl df ds ev _ (fun ok => [EvMalloc n ok])); [done|eauto| |].
  { pose proof (malloc_law (wd s) n) as H. by destruct (sys_malloc (wd s) n). }
  intros ok s1 L1 _. destruct ok; [|wp_step; by apply HN].
  wp_step. apply (wp_alloc s0 _ _ _ _ _ _ _ L1). intros. wp_step. by apply Hsome.
Qed.
Lemma wp_free s0 bl df ds ev p s (Q : unit -> proc -> Prop) : leads s0 s bl df ds ev -> is_Some (bl !! blk p) ->
  (forall s', leads s0 s' (delete (blk p) bl) df ds ev -> Q tt s') -> wp (free p) Q s.
Proof.
  intros [] [c Hc] HQ. eapply wp_intro; [unfold free; rewrite le_blocks0, Hc; reflexivity|].
  apply HQ. constructor; try done. intros b Hb. apply le_ok0. cbn in Hb. rewrite lookup_delete_is_Some in Hb.
  rewrite le_blocks0. tauto.
Qed.
Lemma wp_get_block s0 bl df ds ev p c s (Q : cell -> proc -> Prop) : leads s0 s bl df ds ev -> bl !! blk p = Some c ->
  Q c s -> wp (get_block p) Q s.
Proof. intros [] Hc HQ. eapply wp_intro; [unfold get_block; rewrite le_blocks0, Hc; reflexivity|done]. Qed.
Lemma wp_set_block s0 bl df ds ev p c s (Q : unit -> proc -> Prop) : leads s0 s bl df ds ev -> is_Some (bl !! blk p) ->
  (forall s', leads s0 s' (<[blk p:=c]> bl) df ds ev -> Q tt s') -> wp (set_block p c) Q s.
Proof.
  intros [] [c0 Hc] HQ. eapply wp_intro; [unfold set_block; rewrite le_blocks0, Hc; reflexivity|].
  apply HQ. constructor; try done. intros b Hb. apply le_ok0. change (is_Some (<[blk p:=c]> bl !! b)) in Hb. destruct (decide (b = blk p)) as [->|Hne].
  - rewrite le_blocks0. eauto.
  - rewrite le_blocks0. by rewrite lookup_insert_ne in Hb.
Qed.
Lemma wp_fclose s0 bl df ds ev f s (Q : unit -> proc -> Prop) : leads s0 s bl (df + 1) ds ev ->
  (forall s', leads s0 s' bl df ds ev -> Q tt s') -> wp (os' (fun w => fclose w f)) Q s.
Proof.
  intros Hl HQ. destruct (fclose_law (wd s) f) as [Hf Hs].
  apply (wp_os s0 bl (df + 1) ds ev _ (fun _ => -1) (fun _ => 0) (fun _ => [])); [done|by intros ? ? [= <- _]|lia|].
  intros [] s' L' _ _. apply HQ. rewrite Z.add_0_r, app_nil_r in L'. by replace (df + 1 + -1) with df in L' by lia.
Qed.

(** The answers when a file is read as a whole. *)
Definition reads path bs : list event :=
  [EvOpen path true; EvSeek true; EvTell (zlen bs); EvSeek true; EvMalloc (zlen bs) true; EvRead (zlen bs) bs].

(** A file is closed again whether it is read or not. *)
Lemma wp_load_der s0 bl df ds ev path s (Q : option (ptr * Z) -> proc -> Prop) : leads s0 s bl df ds ev ->
  (forall s' ev', some_failed ev' = true -> leads s0 s' bl df ds (ev ++ ev') -> Q None s') ->
  (forall s' b bs, bl !! b = None -> 0 < zlen bs ->
     leads s0 s' (<[b:=Bytes bs]> bl) df ds (ev ++ reads path bs) -> Q (Some (Ptr b 0, zlen bs)) s') ->
  wp (load_der path) Q s.
Proof.
  intros Hl HN Hsome. unfold load_der. wp_step.
  apply (wp_os s0 bl df ds ev _ (fun r => match r with Some _ => 1 | None => 0 end) (fun _ => 0)
    (fun r => [EvOpen path (match r with Some _ => true | None => false end)])); [done|eauto| |].
  { pose proof (fopen_law (wd s) path) as H. destruct (fopen (wd s) path). by rewrite Z.add_0_r. }
  intros [f|] s1 L1 _ _; rewrite ?Z.add_0_r in L1; [|wp_step; by eapply HN, L1]. clear Hl.
  assert (forall s' ev', some_failed ev' = true -> leads s0 s' bl (df + 1) ds (ev ++ ev') -> wp (os' (fun w => fclose w f) ;;! mret' None) Q s') as Hfail.
  { intros s' ev' Hf L'. wp_step. apply (wp_fclose s0 bl df ds _ _ _ _ L'). intros s'' L''. wp_step. by eapply HN, L''. }
  wp_step. apply (wp_os_same s0 _ _ _ _ _ (fun ok => [EvSeek ok]) _ _ L1); [eauto|pose proof (fseek_law (wd s1) f SEEK_END); by destruct (fseek _ _ _)|].
  intros ok1 s2 L2 _. rewrite <- app_assoc in L2. destruct ok1; cbn [negb]; [|by eapply Hfail, L2]. wp_step.
  apply (wp_os_same s0 _ _ _ _ _ (fun n => [EvTell n]) _ _ L2); [eauto|pose proof (ftell_law (wd s2) f); by destruct (ftell _ _)|].
  intros sz s3 L3 _. rewrite <- app_assoc in L3.
  destruct (Z.leb_spec sz 0) as [H0|Hsz]; [eapply Hfail, L3; cbn; by rewrite (proj2 (Z.leb_le sz 0))|]. wp_step.
  apply (wp_os_same s0 _ _ _ _ _ (fun ok => [EvSeek ok]) _ _ L3); [eauto|pose proof (fseek_law (wd s3) f SEEK_SET); by destruct (fseek _ _ _)|].
  intros ok2 s4 L4 _. rewrite <- app_assoc in L4.
  destruct ok2; cbn [negb]; [|eapply Hfail, L4; cbn; by rewrite (proj2 (Z.leb_gt sz 0))]. wp_step.
  apply (wp_malloc s0 _ _ _ _ _ _ _ _ L4).
  { intros s' L'. rewrite <- app_assoc in L'. eapply Hfail, L'. cbn. by rewrite (proj2 (Z.leb_gt sz 0)). }
  intros s5 b Hb L5. rewrite <- app_assoc in L5. wp_step.
  apply (wp_os_same s0 _ _ _ _ _ (fun bs => [EvRead sz bs]) _ _ L5); [eauto|pose proof (fread_law (wd s5) f sz ltac:(lia)); destruct (fread _ _ _); tauto|].
  intros bs s6 L6 [w' Hw]. rewrite <- app_assoc in L6. pose proof (fread_law (wd s5) f sz ltac:(lia)) as Hle. rewrite Hw in Hle. destruct Hle as (_ & _ & Hle).
  assert (zlen (zeros sz) = sz) as Hz by (apply zlen_zeros; lia).
  wp_step. apply (wp_get_block s0 _ _ _ _ _ (Bytes (zeros sz)) _ _ L6); [by rewrite lookup_insert_eq|]. wp_step. wp_step.
  eapply wp_lift; [apply write_at_ok; blia|].
  apply (wp_set_block s0 _ _ _ _ _ _ _ _ L6); [rewrite lookup_insert_eq; eauto|].
  cbn [blk]. rewrite insert_insert_eq. intros s7 L7.
  destruct (Z.eqb_spec (zlen bs) sz) as [E|E]; cbn [negb].
  - wp_step. apply (wp_fclose s0 _ df ds _ _ _ _ L7). intros s8 L8. wp_step.
    assert (zblit (zeros sz) 0 bs = bs) as Eb.
    { unfold zblit. rewrite ztake_le0, zdrop_ge by blia. apply app_nil_r. }
    rewrite Eb in L8. rewrite <- E in L8 |- *. apply (Hsome s8 b bs); [done|lia|exact L8].
  - wp_step. apply (wp_fclose s0 _ df ds _ _ _ _ L7). intros s8 L8. wp_step.
    apply (wp_free s0 _ df ds _ _ _ _ L8); [rewrite lookup_insert_eq; eauto|]. cbn [blk]. rewrite delete_insert_id by done.
    intros s9 L9. wp_step. eapply HN, L9. cbn. by rewrite (proj2 (Z.eqb_neq _ _)), !orb_true_r by done.
Qed.

(** The answers when a certificate is loaded. *)
Definition loads_certificate path bs : list event := reads path bs ++ [EvMalloc sizeof_certificate true].

Lemma wp_load_certificate_der s0 bl df ds ev path s (Q : option (ptr * Z * ptr) -> proc -> Prop) : leads s0 s bl df ds ev ->
  (forall s' ev', some_failed ev' = true -> leads s0 s' bl df ds (ev ++ ev') -> Q None s') ->
  (forall s' b c bs, bl !! b = None -> bl !! c = None -> b <> c -> 0 < zlen bs ->
     leads s0 s' (<[c:=Certificates [X509Certificate (Ptr b 0) (zlen bs)]]> (<[b:=Bytes bs]> bl)) df ds
       (ev ++ loads_certificate path bs) ->
     Q (Some (Ptr c 0, 1, Ptr b 0)) s') ->
  wp (load_certificate_der sizeof_certificate path) Q s.
Proof.
  intros Hl HN Hsome. unfold load_certificate_der. wp_step.
  apply (wp_load_der s0 bl df ds ev); [done|intros s1 ev' Hf L1; wp_step; by eapply HN, L1|]. intros s1 b bs Hb Hpos L1. wp_step.
  apply (wp_malloc s0 _ _ _ _ _ _ _ _ L1).
  - intros s2 L2. wp_step. apply (wp_free s0 _ df ds _ _ _ _ L2); [rewrite lookup_insert_eq; eauto|]. cbn [blk].
    rewrite delete_insert_id by done. intros s3 L3. wp_step. rewrite <- app_assoc in L3. eapply HN, L3.
    by rewrite some_failed_app, orb_true_r.
  - intros s2 c Hc L2. wp_step. apply lookup_insert_None in Hc as [Hc Hne]. rewrite <- app_assoc in L2. by apply (Hsome s2 b c bs).
Qed.

(** The blocks a key points into. *)
Definition key_blocks (k : br_rsa_private_key) : list nat :=
  [blk (key_p k); blk (key_q k); blk (key_dp k); blk (key_dq k); blk (key_iq k)].

(** The decoder finds an RSA key. *)
Definition is_rsa bs : bool := match skey_t0 bs with SkeyRsa _ _ _ _ _ _ _ => true | _ => false end.
(** No key is loaded: something failed, or the file holds none. *)
Definition no_key path ev : Prop := some_failed ev = true \/ exists bs, ev = reads path bs /\ is_rsa bs = false.

Lemma wp_load_rsa_key_der s0 bl df ds ev path s (Q : option (br_rsa_private_key * ptr) -> proc -> Prop) : leads s0 s bl df ds ev ->
  (forall s' ev', no_key path ev' -> leads s0 s' bl df ds (ev ++ ev') -> Q None s') ->
  (forall s' b bs k, bl !! b = None -> 0 < zlen bs -> is_rsa bs = true ->
     Forall (fun d => <[b:=Bytes bs]> bl !! d = None) (key_blocks k) ->
     leads s0 s' (<[b:=Bytes bs]> bl) df ds (ev ++ reads path bs) -> Q (Some (k, Ptr b 0)) s') ->
  wp (load_rsa_key_der skey_t0 path) Q s.
Proof.
  intros Hl HN Hsome. unfold load_rsa_key_der. wp_step.
  apply (wp_load_der s0 bl df ds ev); [done|intros s1 ev' Hf L1; wp_step; eapply HN, L1; by left|]. intros s1 b bs Hb Hpos L1.
  unfold with_local. wp_step. apply (wp_alloc s0 _ df ds _ _ _ _ L1). intros s2 d Hd L2.
  apply lookup_insert_None in Hd as [Hd Hne]. assert (b <> d) as Hne' by done. wp_step. wp_step.
  apply (wp_set_block s0 _ df ds _ _ _ _ _ L2); [rewrite lookup_insert_eq; eauto|]. cbn [blk]. rewrite insert_insert_eq. intros s3 L3.
  wp_step. unfold get_bytes. wp_step. apply (wp_get_block s0 _ df ds _ _ (Bytes bs) _ _ L3).
  { cbn [blk]. rewrite lookup_insert_ne by done. by rewrite lookup_insert_eq. }
  wp_step. wp_step. rewrite ztake_ge by lia.
  apply (wp_set_block s0 _ df ds _ _ _ _ _ L3); [rewrite lookup_insert_eq; eauto|]. cbn [blk]. rewrite insert_insert_eq.
  set (ctx := match skey_t0 bs with SkeyError _ => _ | _ => _ end). intros s4 L4.
  wp_step. unfold get_decoder. wp_step. apply (wp_get_block s0 _ df ds _ _ (Decoder ctx) _ _ L4); [by rewrite lookup_insert_eq|].
  wp_step.
  assert (br_skey_decoder_last_error ctx = 0 /\ br_skey_decoder_get_rsa ctx <> None <-> is_rsa bs = true) as Hrsa.
  { subst ctx. unfold is_rsa. destruct (skey_t0 bs) as [e| | |e p q dp dq iq kd]; cbn.
    - split; [intros [_ H]; destruct H; unfold br_skey_decoder_get_rsa; cbn; by destruct (e =? 0)|discriminate].
    - split; [by intros [? _]|discriminate].
    - split; [intros [_ H]; by destruct H|discriminate].
    - done. }
  assert (is_rsa bs = false -> wp (free (Ptr b 0) ;;! mret' None) (fun a s' => wp (free (Ptr d 0) ;;! mret' a) Q s') s4) as Hfail.
  { intros Hno. wp_step. apply (wp_free s0 _ df ds _ _ _ _ L4).
    { cbn [blk]. rewrite lookup_insert_ne by done. rewrite lookup_insert_eq. eauto. }
    cbn [blk]. intros s5 L5. wp_step. wp_step. rewrite delete_insert_ne in L5 by done. rewrite delete_insert_id in L5 by done.
    apply (wp_free s0 _ df ds _ _ _ _ L5); [rewrite lookup_insert_eq; eauto|]. cbn [blk]. rewrite delete_insert_id by done.
    intros s6 L6. wp_step. eapply HN, L6. right. by exists bs. }
  destruct (Z.eqb_spec (br_skey_decoder_last_error ctx) 0) as [E0|E0]; cbn [negb]; [|apply Hfail; destruct (is_rsa bs); tauto].
  destruct (br_skey_decoder_get_rsa ctx) as [k|] eqn:Ek; [|apply Hfail; destruct (is_rsa bs); tauto].
  assert (is_rsa bs = true) as Hyes by (by apply Hrsa). clear Hfail. wp_step.
  wp_step. apply (wp_free s0 _ df ds _ _ _ _ L4); [rewrite lookup_insert_eq; eauto|]. cbn [blk].
  assert (<[b:=Bytes bs]> bl !! d = None) as Hgone by (by rewrite lookup_insert_ne).
  rewrite delete_insert_id by done. intros s5 L5. wp_step.
  assert (exists e p q dp dq iq kd, skey_t0 bs = SkeyRsa e p q dp dq iq kd /\ k = set_rsa_key (Ptr d 0) e p q dp dq iq)
    as (e & p & q & dp & dq & iq & kd & Ep & ->).
  { subst ctx. destruct (skey_t0 bs) as [e| | |e p q dp dq iq kd]; unfold br_skey_decoder_get_rsa in Ek;
      cbn [sk_err key_type sk_rsa skey_zero] in Ek; [by destruct (_ && _)|done|done|].
    injection Ek as <-. eauto 10. }
  apply (Hsome s5 b bs); [done..| |exact L5]. repeat constructor; exact Hgone.
Qed.

(** The answers when the socket [k] listens. *)
Definition listens k port fl : list event :=
  [EvNet true; EvSocket (Some k); EvBind k (u16 port) true; EvListen k 16 true; EvGetfl k fl;
   EvSetfl k (Z.lor fl O_NONBLOCK) true].

(** The listening socket: one more socket, or none. *)
Lemma wp_gfns_create_listen_socket s0 bl df ds ev port s (Q : option Z -> proc -> Prop) : leads s0 s bl df ds ev ->
  (forall s' ev', some_failed ev' = true -> leads s0 s' bl df ds (ev ++ ev') -> Q None s') ->
  (forall s' k fl, 0 <= fl -> leads s0 s' bl df (ds + 1) (ev ++ listens k port fl) -> Q (Some k) s') ->
  wp (gfns_create_listen_socket port) Q s.
Proof.
  intros Hl HN Hsome. unfold gfns_create_listen_socket. wp_step.
  apply (wp_os_same s0 bl df ds ev _ (fun ok => [EvNet ok])); [done|eauto|pose proof (net_law (wd s)); by destruct (gfns_net_init _)|].
  intros [] s1 L1 _; cbn [negb]; [|wp_step; by eapply HN, L1]. wp_step.
  apply (wp_os s0 bl df ds _ _ (fun _ => 0) (fun r => match r with Some _ => 1 | None => 0 end) (fun r => [EvSocket r]) _ _ L1); [eauto| |].
  { pose proof (socket_law (wd s1)) as H. destruct (sys_socket _). by rewrite Z.add_0_r. }
  intros [k|] s2 L2 _ _; rewrite ?Z.add_0_r, <- app_assoc in L2; [|wp_step; by eapply HN, L2].
  assert (forall s' ev', some_failed ev' = true -> leads s0 s' bl df (ds + 1) (ev ++ ev') ->
    wp (os' (fun w => sys_close w k) ;;! mret' None) Q s') as Hfail.
  { intros s' ev' Hf L'. wp_step. destruct (close_law (wd s') k) as [Hf' Hs].
    apply (wp_os s0 bl df (ds + 1) _ _ (fun _ => 0) (fun _ => -1) (fun _ => []) _ _ L'); [by intros ? ? [= <- _]|lia|].
    intros [] s'' L'' _ _. wp_step. rewrite Z.add_0_r, app_nil_r in L''. replace (ds + 1 + -1) with ds in L'' by lia. by eapply HN, L''. }
  wp_step. apply (wp_os_same s0 bl df (ds + 1) _ _ (fun _ => []) _ _ L2); [by intros ? ? [= <- _]|by apply (setup_law (wd s2) k 0)|].
  intros _ s3 L3 _. rewrite app_nil_r in L3.
  wp_step. apply (wp_os_same s0 bl df (ds + 1) _ _ (fun ok => [EvBind k (u16 port) ok]) _ _ L3);
    [eauto|pose proof (setup_law (wd s3) k (u16 port)) as H; destruct (sys_bind _ _ _); apply H|].
  intros ok4 s4 L4 _. rewrite <- app_assoc in L4. destruct ok4; cbn [negb]; [|by eapply Hfail, L4].
  wp_step. apply (wp_os_same s0 bl df (ds + 1) _ _ (fun ok => [EvListen k 16 ok]) _ _ L4);
    [eauto|pose proof (setup_law (wd s4) k 16) as H; destruct (sys_listen _ _ _); apply H|].
  intros ok5 s5 L5 _. rewrite <- app_assoc in L5. destruct ok5; cbn [negb]; [|by eapply Hfail, L5].
  wp_step. unfold gfns_set_nonblocking. wp_step.
  apply (wp_os_same s0 bl df (ds + 1) _ _ (fun fl => [EvGetfl k fl]) _ _ L5);
    [eauto|pose proof (setup_law (wd s5) k 0) as H; destruct (fcntl_getfl _ _); apply H|].
  intros fl s6 L6 _. rewrite <- app_assoc in L6.
  destruct (Z.ltb_spec fl 0) as [Hfl|Hfl]; [wp_step; eapply Hfail, L6; cbn; by rewrite (proj2 (Z.ltb_lt fl 0))|].
  apply (wp_os_same s0 bl df (ds + 1) _ _ (fun ok => [EvSetfl k (Z.lor fl O_NONBLOCK) ok]) _ _ L6);
    [eauto|pose proof (setup_law (wd s6) k (Z.lor fl O_NONBLOCK)) as H; destruct (fcntl_setfl _ _ _); apply H|].
  intros ok7 s7 L7 _. rewrite <- app_assoc in L7. destruct ok7; cbn [negb]; [wp_step; by eapply Hsome, L7|].
  eapply Hfail, L7. cbn. by rewrite (proj2 (Z.ltb_ge fl 0)).
Qed.

(** ** The start *)

(** The two blocks of a certificate, the DER data and the record that points to it. *)
Definition cert_blocks (bl : gmap nat cell) (b c : nat) (bs : list Z) : gmap nat cell :=
  <[c:=Certificates [X509Certificate (Ptr b 0) (zlen bs)]]> (<[b:=Bytes bs]> bl).

(** The certificate's file, the key's and the port; [None] is a null pointer. *)
Notation config := (option (option (list Z) * option (list Z) * Z)).

(** The certificate is installed, from [bl]. *)
Record has_certificate s' (bl : gmap nat cell) (b c : nat) (bs : list Z) : Prop := HasCertificate {
  hc_fresh : bl !! b = None /\ bl !! c = None /\ b <> c;
  hc_some : 0 < zlen bs;
  hc_certs : g_certs s' = Some (Ptr c 0) /\ g_certs_len s' = 1 /\ g_cert_der_buf s' = Some (Ptr b 0) }.
(** The key is installed, from [bl]: its DER data are there, its numbers are not. *)
Record has_key s' (bl : gmap nat cell) (b : nat) (bs : list Z) : Prop := HasKey {
  hk_fresh : bl !! b = None;
  hk_parsed : is_rsa bs = true;
  hk_key : exists k, g_skey s' = Some k /\ Forall (fun d => blocks s' !! d = None) (key_blocks k);
  hk_der : g_key_der_buf s' = Some (Ptr b 0) }.

(** How a start ends, after the answers of the system: nothing is loaded; the
    certificate is; the key is too; the server listens. *)
Inductive outcome (cfg : config) s : list event -> option Z -> proc -> Prop :=
| NothingLoaded ev s' :
    (match cfg with Some (Some _, Some _, _) => some_failed ev = true | _ => ev = [] end) ->
    blocks s' = blocks s -> globals s' = globals s -> socks (wd s') = socks (wd s) ->
    outcome cfg s ev (Some (-1)) s'
| NoKey cert_file key_file port ev s' b c bs : cfg = Some (Some cert_file, Some key_file, port) -> no_key key_file ev ->
    has_certificate s' (blocks s) b c bs -> blocks s' = cert_blocks (blocks s) b c bs ->
    socks (wd s') = socks (wd s) ->
    outcome cfg s (loads_certificate cert_file bs ++ ev) (Some (-1)) s'
| NoSocket cert_file key_file port ev s' b c bs kb kbs : cfg = Some (Some cert_file, Some key_file, port) -> some_failed ev = true ->
    has_certificate s' (blocks s) b c bs -> has_key s' (cert_blocks (blocks s) b c bs) kb kbs ->
    blocks s' = <[kb:=Bytes kbs]> (cert_blocks (blocks s) b c bs) -> g_listen_fd s' = None ->
    socks (wd s') = socks (wd s) ->
    outcome cfg s (loads_certificate cert_file bs ++ reads key_file kbs ++ ev) (Some (-1)) s'
| Listens cert_file key_file port fl s' b c bs kb kbs fd : cfg = Some (Some cert_file, Some key_file, port) -> 0 <= fl ->
    has_certificate s' (blocks s) b c bs -> has_key s' (cert_blocks (blocks s) b c bs) kb kbs ->
    blocks s' = <[kb:=Bytes kbs]> (cert_blocks (blocks s) b c bs) -> g_listen_fd s' = Some fd ->
    socks (wd s') = socks (wd s) + 1 -> Forall (fun c => is_unused c = true) (g_clients (running s')) ->
    outcome cfg s (loads_certificate cert_file bs ++ reads key_file kbs ++ listens fd port fl) None s'.

Lemma clients_init_unused (s : srv C W) : Forall (fun c => is_unused c = true)
  (map (fun c => c <| fd := GFNS_INVALID_SOCK |> <| state := TLSV2_STATE_UNUSED |> <| in_used := 0 |>
    <| expected_len := 0 |> <| out_used := 0 |> <| out_sent := 0 |> <| certs := None |>) (g_clients s)).
Proof. apply Forall_map, Forall_true. intros c. unfold is_unused. by apply bool_decide_eq_true_2. Qed.

Definition starts (cfg : config) s r s' : Prop :=
  files (wd s') = files (wd s) /\ exists ev, calls (wd s) ev (wd s') /\ outcome cfg s ev r s'.

Lemma wp_server_start cfg s : blocks_ok s -> wp (server_start skey_t0 sizeof_certificate cfg) (starts cfg s) s.
Proof.
  intros Hok.
  assert (match cfg with Some (Some _, Some _, _) => False | _ => True end -> wp (mret' (Some (-1))) (starts cfg s) s) as Hbad.
  { intros Hcfg. wp_step. split; [done|]. exists []. split; [constructor|]. apply NothingLoaded; [|done..].
    by destruct cfg as [[[[|] [|]] ?]|]. }
  destruct cfg as [[[[cert_file|] [key_file|]] port]|]; try exact (Hbad I). clear Hbad. cbn [server_start]. wp_step.
  apply (wp_load_certificate_der s (blocks s) 0 0 []); [by apply leads_refl| |].
  { intros s1 ev Hf [G1 B1 _ _ Lf Ls Lc]. wp_step. split; [lia|]. exists ev. split; [done|]. apply NothingLoaded; [done..|lia]. }
  intros s1 b c bs Hb Hc Hbc Hpos L1. wp_step. wp_step. fold (cert_blocks (blocks s) b c bs) in L1.
  set (s2 := setf _ (setf _ (setf _ s1))). destruct L1 as [G1 B1 _ O1 Lf1 Ls1 Lc1]. rewrite app_nil_l in Lc1.
  assert (has_certificate s2 (blocks s) b c bs) as HC by (by constructor).
  wp_step. apply (wp_load_rsa_key_der s2 (cert_blocks (blocks s) b c bs) 0 0 []).
  { rewrite <- B1. change (leads s2 s2 (blocks s2) 0 0 []). by apply leads_refl. }
  { intros s3 ev Hno [G3 B3 _ _ Lf3 Ls3 Lc3]. change (wd s2) with (wd s1) in *. wp_step. split; [lia|].
    eexists. split; [exact (calls_app _ _ _ _ _ Lc1 Lc3)|].
    apply (NoKey _ s cert_file key_file port ev s3 b c bs); [done..| |done|lia].
    constructor; [done..|]. unfold globals in G3. by injection G3. }
  intros s3 kb kbs k Hkb _ Hk Hgone [G3 B3 _ O3 Lf3 Ls3 Lc3]. change (wd s2) with (wd s1) in *.
  rewrite app_nil_l in Lc3. pose proof (calls_app _ _ _ _ _ Lc1 Lc3) as Lc.
  assert (g_certs s3 = Some (Ptr c 0) /\ g_certs_len s3 = 1 /\ g_cert_der_buf s3 = Some (Ptr b 0)) as HC3
    by (unfold globals in G3; by injection G3).
  wp_step. wp_step. set (s4 := setf _ (setf _ s3)). wp_step.
  eapply wp_intro; [reflexivity|]. cbv beta. set (s5 := setf _ s4).
  assert (blocks_ok s5) as O5 by exact O3.
  (* What holds after the socket is tried. *)
  assert (forall s6 fd, globals s6 = globals s5 -> blocks s6 = blocks s5 ->
    has_certificate (s6 <| g_listen_fd := fd |>) (blocks s) b c bs /\
    has_key (s6 <| g_listen_fd := fd |>) (cert_blocks (blocks s) b c bs) kb kbs /\
    blocks s6 = <[kb:=Bytes kbs]> (cert_blocks (blocks s) b c bs) /\ g_clients (running s6) = g_clients (running s5)) as Hafter.
  { intros s6 fd G6 B6. change (blocks s5) with (blocks s3) in B6. rewrite B3 in B6.
    unfold globals in G6. injection G6 as E1 E2 E3 E4 E5 E6 E7. split_and!; [| |done|done].
    - constructor; [done..|]. split_and!; [etransitivity; [exact E1|by apply HC3]|etransitivity; [exact E2|by apply HC3]|etransitivity; [exact E3|by apply HC3]].
    - constructor; [done|done| |exact E5]. exists k. split; [exact E4|]. cbn. by rewrite B6. }
  wp_step. apply (wp_gfns_create_listen_socket s5 (blocks s5) 0 0 []); [by apply leads_refl| |].
  - intros s6 ev Hf [G6 B6 _ _ Lf6 Ls6 Lc6]. change (wd s5) with (wd s3) in *. wp_step. wp_step. wp_step. set (s7 := setf _ s6).
    split; [change (files (wd s6) = files (wd s)); lia|]. eexists.
    split; [exact (calls_app _ _ _ _ _ Lc Lc6)|]. rewrite <- app_assoc. destruct (Hafter s6 None G6 B6) as (H1 & H2 & H3 & _).
    apply (NoSocket _ s cert_file key_file port ev s7 b c bs kb kbs); [done..|change (socks (wd s6) = socks (wd s)); lia].
  - intros s6 fd fl Hfl [G6 B6 _ _ Lf6 Ls6 Lc6]. change (wd s5) with (wd s3) in *. wp_step. wp_step. wp_step. set (s7 := setf _ s6).
    split; [change (files (wd s6) = files (wd s)); lia|]. eexists.
    split; [exact (calls_app _ _ _ _ _ Lc Lc6)|]. rewrite <- app_assoc. destruct (Hafter s6 (Some fd) G6 B6) as (H1 & H2 & H3 & H4).
    apply (Listens _ s cert_file key_file port fl s7 b c bs kb kbs fd); [done..|change (socks (wd s6) = socks (wd s) + 1); lia|].
    change (g_clients (running s7)) with (g_clients (running s6)). rewrite H4. apply clients_init_unused.
Qed.
End start.
