(* ===== verification/ServerStartThms.v ===== *)
(** * ServerStartThms: the start of the server, and the key it installs *)
From stdpp Require Import gmap.
From S2P Require Import Prelude.
From S2P Require Import Effects.
From S2P Require Import Engine.
From S2P Require Import TlsServer.
From S2P Require Import TlsClient.
From S2P Require Import ServerStart.
From S2P Require Import ServerStartSpec.

Section start.
Context {RI RO HS : Type} {W F : Type} `{!OS W} `{!Files W F} `{!Net W} `{!Listening W}.
Context (files socks : W -> Z) `{!StartLaws W F files socks}.
Context (skey_t0 : list Z -> skey_parsed) (sizeof_certificate : Z).
Notation proc := (process (srv (client RI RO HS ptr br_rsa_private_key) W)).
Implicit Types s : proc.

(** C35: the start of the server returns, touches only memory that is allocated and
    closes every file it opens.  It enters the loop exactly when the configuration
    is complete and the system granted every call: the certificate's file read to
    its end, the key's file read and found to hold an RSA key, and the socket made,
    bound to the port, listening and non-blocking, in this order; every client slot
    is free then.  Otherwise some call failed, or there is no RSA key in the file,
    or no file is named: it returns -1 with no socket more, and without freeing what
    it had loaded: the two blocks of the certificate when the key fails, the key's
    DER data too when the socket does. *)
Theorem server_start_outcome cfg s : blocks_ok s ->
  wp (server_start skey_t0 sizeof_certificate cfg)
     (fun r s' => files (world (running s')) = files (world (running s)) /\
        exists ev, calls (world (running s)) ev (world (running s')) /\
          outcome socks skey_t0 sizeof_certificate cfg s ev r s') s.
Proof. exact (wp_server_start files socks skey_t0 sizeof_certificate cfg s). Qed.

(** C36: a key that [load_rsa_key_der] returns cannot be read: each of its five
    pointers leads into the decoder context that was on the stack of the function.
    The DER data that are kept "alive" for it are not what it points to.  When
    there is no key, the memory is as it was. *)
Theorem rsa_key_dangles path s : blocks_ok s ->
  wp (load_rsa_key_der skey_t0 path) (fun r s' =>
    files (world (running s')) = files (world (running s)) /\
    match r with
    | None => blocks s' = blocks s
    | Some (k, der) =>
        (exists bs, blocks s !! blk der = None /\ blocks s' = <[blk der:=Bytes bs]> (blocks s)) /\
        Forall (fun p => get_block p s' = None) [key_p k; key_q k; key_dp k; key_dq k; key_iq k]
    end) s.
Proof.
  intros Hok. apply (wp_load_rsa_key_der files socks skey_t0 s (blocks s) 0 0 []); [by apply leads_refl| |].
  - intros s' ev _ [_ B _ _ Lf _ _]. split; [lia|done].
  - intros s' b bs k Hb _ _ Hk [_ B _ _ Lf _ _]. split; [lia|]. split; [by exists bs|].
    unfold key_blocks in Hk. rewrite <- B in Hk. rewrite !Forall_cons in Hk. destruct Hk as (H1 & H2 & H3 & H4 & H5 & _).
    unfold get_block. repeat constructor; by rewrite ?H1, ?H2, ?H3, ?H4, ?H5.
Qed.
End start.

(** ** A small system *)

(** Files by name, how many are open, and how many sockets; port 80 is taken. *)
Record start_world : Type := StartWorld { sw_files : list (list Z * list Z); sw_open : Z; sw_socks : Z }.
Fixpoint sw_find (path : list Z) (l : list (list Z * list Z)) : option (list Z) :=
  match l with [] => None | (p, c) :: l => if bool_decide (p = path) then Some c else sw_find path l end.

#[export] Instance start_os : OS start_world := {|
  sys_read w _ _ := (w, None); sys_write w _ _ := (w, 0); sys_accept w _ := (w, None);
  sys_nonblocking w _ := (w, true); sys_close w _ := StartWorld (sw_files w) (sw_open w) (sw_socks w - 1);
  sys_select w _ _ := (w, None); would_block _ := true; sys_malloc w n := (w, n <? 100000); sys_seed w := (w, true) |}.
#[export] Instance start_files : Files start_world (list Z) := {|
  fopen w path := match sw_find path (sw_files w) with
    | Some c => (StartWorld (sw_files w) (sw_open w + 1) (sw_socks w), Some c)
    | None => (w, None) end;
  fseek w _ _ := (w, true);
  ftell w c := (w, zlen c);
  fread w c n := (w, ztake n c);
  fclose w _ := StartWorld (sw_files w) (sw_open w - 1) (sw_socks w) |}.
#[export] Instance start_net : Net start_world := {|
  gfns_net_init w := (w, true);
  sys_socket w := (StartWorld (sw_files w) (sw_open w) (sw_socks w + 1), Some 3);
  inet_pton _ := None; sys_connect w _ _ _ := (w, false); in_progress _ := false |}.
#[export] Instance start_listening : Listening start_world := {|
  sys_reuseaddr w _ := w; sys_bind w _ port := (w, negb (port =? 80)); sys_listen w _ _ := (w, true);
  fcntl_getfl w _ := (w, 2); fcntl_setfl w _ _ := (w, true) |}.
#[export] Instance start_laws : StartLaws start_world (list Z) sw_open sw_socks.
Proof.
  constructor.
  - intros w path. cbn. destruct (sw_find path (sw_files w)); cbn; lia.
  - done.
  - done.
  - intros w f n Hn. cbn. split; [done|]. split; [done|].
    destruct (Z.le_gt_cases n (zlen f)); [rewrite zlen_ztake; lia|rewrite ztake_ge; lia].
  - intros. cbn. lia.
  - done.
  - done.
  - intros. cbn. lia.
  - done.
  - intros. cbn. lia.
Qed.

(** Two numbers of two bytes each, whatever the file holds. *)
Definition start_skey (bs : list Z) : skey_parsed := SkeyRsa 16 2 2 2 2 2 bs.
Definition start_world0 : start_world := StartWorld [([1], [48; 1; 2]); ([2], [48; 2])] 0 0.
Definition start_process : process (srv (client unit unit unit ptr br_rsa_private_key) start_world) :=
  Process ∅ 0 None 0 None None None None (Srv [] start_world0).
Lemma start_process_ok : blocks_ok start_process.
Proof. intros b [c Hc]. done. Qed.

(** Port 80 is taken, port 443 is not: on it the server listens. *)
Lemma server_start_outcome_witness : Forall (fun port =>
  (server_start start_skey 16 (Some (Some [1], Some [2], port)) start_process ≫= fun x => Some (fst x)) =
    Some (if port =? 443 then None else Some (-1)) /\
  wp (server_start start_skey 16 (Some (Some [1], Some [2], port)))
    (fun r s' => sw_open (world (running s')) = 0 /\ exists ev, calls start_world0 ev (world (running s')) /\
       outcome sw_socks start_skey 16 (Some (Some [1], Some [2], port)) start_process ev r s') start_process) [80; 443].
Proof.
  repeat apply Forall_cons_2; [split; [by vm_compute|]..|apply Forall_nil_2].
  - exact (server_start_outcome sw_open sw_socks start_skey 16 (Some (Some [1], Some [2], 80)) start_process start_process_ok).
  - exact (server_start_outcome sw_open sw_socks start_skey 16 (Some (Some [1], Some [2], 443)) start_process start_process_ok).
Defined.

Lemma rsa_key_dangles_witness :
  match load_rsa_key_der start_skey [2] start_process with
  | Some (Some (k, der), s') => get_block der s' = Some (Bytes [48; 2], s') /\ get_block (key_p k) s' = None
  | _ => False
  end.
Proof.
  destruct (load_rsa_key_der start_skey [2] start_process) as [[r s']|] eqn:E; [|by vm_compute in E].
  pose proof (wp_elim _ _ _ _ _ (rsa_key_dangles sw_open sw_socks start_skey [2] start_process start_process_ok) E) as H.
  cbv beta in H. destruct H as [_ H]. destruct r as [[k der]|]; [|by vm_compute in E].
  destruct H as [_ H]. apply Forall_cons in H as [H _]. split; [|exact H].
  revert E. vm_compute. intros E. injection E as <- <- <-. reflexivity.
Defined.
