(* ===== verification/ServerPoll.v ===== *)
(** * ServerPoll: the [WSAPoll] loop of [tlsv2_server_run]

    On Windows a turn of the server asks [WSAPoll] about an array of descriptors and
    finds the answer for a client by counting the clients in use.  As long as no
    connection is accepted in the turn this is the [select] loop; when one is, the
    count and the array no longer go together. *)
From S2P Require Import Prelude.
From S2P Require Import Words.
From S2P Require Import Effects.
From S2P Require Import JsonFrame.
From S2P Require Import Engine.
From S2P Require Import EngineSpec.
From S2P Require Import TlsServer.
From S2P Require Import TlsServerSpec.

Definition POLLRDNORM : Z := 0x100.
Definition POLLWRNORM : Z := 0x10.

(** [WSAPoll] on the descriptors; the answers, or [None] when it returns 0 or less. *)
Class Poll (W : Type) := sys_poll : W -> list (Z * Z) -> W * option (list Z).

Section poll.
Context {RI RO HS : Type} `{!RecordIn RI} `{!RecordOut RO} `{!Handshake RI RO HS}.
Context {W : Type} `{!OS W} `{!Poll W} {CERTS KEY : Type}.
Context (rin0 : RI) (server_init_full_rsa : CERTS -> KEY -> HS) (init_main : HS -> HS).
Context (g_cfg : tlsv2_server_config_t W) (g_listen_fd : Z) (fuel : nat).
Notation client := (client RI RO HS CERTS KEY).
Notation srv := (srv client W).
Implicit Types (c : client) (s : srv).
Notation handle i := (tlsv2_handle_client g_cfg fuel i).
Notation accept cs sk := (tlsv2_accept_new_client rin0 server_init_full_rsa init_main g_cfg g_listen_fd fuel cs sk).

(** The second loop, over the slots [slots], with [idx] entries of the array used up.
    Reading an entry that [WSAPoll] did not fill gives no result. *)
Fixpoint poll_scan (revents : list Z) (idx : nat) (slots : list nat) : M srv unit :=
  match slots with
  | [] => mret' tt
  | i :: slots =>
      let! c := get_client i in
      if is_unused c then poll_scan revents idx slots
      else
        let! r := mlift (revents !! idx) in
        (if negb (Z.land r (Z.lor POLLRDNORM POLLWRNORM) =? 0) then handle i else mret' tt) ;;!
        poll_scan revents (S idx) slots
  end.
Definition server_turn_poll (cs : CERTS) (sk : KEY) : M srv unit :=
  let! s := mget in
  let used := filter (fun c => is_unused c = false) (g_clients s) in
  let fds := (g_listen_fd, POLLRDNORM) :: map (fun c => (fd c, Z.lor POLLRDNORM POLLWRNORM)) used in
  let! ret := sys (fun w => sys_poll w fds) in
  match ret with
  | None => mret' tt
  | Some revents =>
      let! r := mlift (revents !! 0%nat) in
      (if negb (Z.land r POLLRDNORM =? 0) then accept cs sk else mret' tt) ;;!
      poll_scan revents 1 (seq 0 TLSV2_MAX_CLIENTS)
  end.

(** ** What handling a client leaves alone *)

(** The descriptor and the state of a slot. *)
Definition slot s (j : nat) : option (Z * tlsv2_client_state_t) := (fun c => (fd c, state c)) <$> g_clients s !! j.
(** No slot but [i] changes. *)
Definition other_slots (i : nat) s s' : Prop := forall j, j <> i -> slot s' j = slot s j.
Lemma slot_set_in s k f j : (k = j -> forall c, fd (f c) = fd c /\ state (f c) = state c) -> slot (set_in k f s) j = slot s j.
Proof.
  intros Hf. unfold slot, set_in. cbn. destruct (decide (k = j)) as [<-|Hne].
  - rewrite list_lookup_alter_eq. destruct (g_clients s !! k) as [c|]; [|done]. cbn. by destruct (Hf eq_refl c) as [-> ->].
  - by rewrite list_lookup_alter_ne.
Qed.
#[local] Instance other_slots_rel i : StoreRel i (other_slots i).
Proof.
  constructor.
  - split; [by intros s j|]. intros s t u H K j Hj. by rewrite K, H.
  - by intros s w j.
  - intros s k f Hf j Hj. by apply slot_set_in.
  - intros s f Hf j Hj. apply slot_set_in. intros ->. done.
Qed.
Lemma quiet_handle i s s' : handle i s = Some (tt, s') -> forall j, j <> i -> slot s' j = slot s j.
Proof. intros E. exact (keep_handle g_cfg fuel i (other_slots i) s tt s' E). Qed.

(** ** The two loops *)

(** The test of the second loop on an answer; other bits, as [POLLHUP] and [POLLERR],
    do not matter. *)
Definition hit (r : Z) : bool := negb (Z.land r (Z.lor POLLRDNORM POLLWRNORM) =? 0).
(** The answer for a client marks it when [select] reports it. *)
Definition answers (rd wr : list Z) (r : Z) c : Prop := hit r = bool_decide (fd c ∈ rd) || bool_decide (fd c ∈ wr).

Definition select_body (rd wr : list Z) (i : nat) : M srv unit :=
  let! c := get_client i in
  if is_unused c then mret' tt
  else
    let! r := mlift (fd_isset (fd c) rd) in
    let! w := (if r then mret' true else mlift (fd_isset (fd c) wr)) in
    if w then handle i else mret' tt.
Lemma select_body_eq rd wr i s c : g_clients s !! i = Some c -> is_unused c = false -> 0 <= fd c < FD_SETSIZE ->
  select_body rd wr i s = (if bool_decide (fd c ∈ rd) || bool_decide (fd c ∈ wr) then handle i else mret' tt) s.
Proof.
  intros Hc Hu Hfd. unfold select_body. rewrite (run_bind (get_client i) _ s c s) by (unfold get_client; by rewrite Hc).
  rewrite Hu, (run_lift _ _ s _ (fd_isset_ok (fd c) rd Hfd)). destruct (bool_decide (fd c ∈ rd)); cbn [orb].
  - by rewrite (run_bind (mret' true) _ s _ _ eq_refl).
  - by rewrite (run_lift _ _ s _ (fd_isset_ok (fd c) wr Hfd)).
Qed.

Lemma slot_client s k f st : slot s k = Some (f, st) -> exists c, g_clients s !! k = Some c /\ fd c = f /\ state c = st.
Proof. unfold slot. destruct (g_clients s !! k) as [c|]; [|done]. intros [= <- <-]. by exists c. Qed.

(** The slots from [k] on, whose clients are still those of [l] as far as
    descriptor and state go. *)
Lemma poll_scan_select revents rd wr : forall l k s idx,
  (forall j c, l !! j = Some c -> slot s (k + j) = Some (fd c, state c)) ->
  Forall (fun c => used c -> 0 <= fd c < FD_SETSIZE) l ->
  Forall2 (answers rd wr) (drop idx revents) (filter (fun c => is_unused c = false) l) ->
  poll_scan revents idx (seq k (length l)) s = mfor (seq k (length l)) (select_body rd wr) s.
Proof.
  induction l as [|c l IH]; intros k s idx Hs Hfd Hr; [done|]. cbn [length seq poll_scan mfor].
  rewrite Forall_cons in Hfd. destruct Hfd as [Hfdc Hfd].
  destruct (slot_client s k (fd c) (state c)) as (c' & Hc' & Ef & Est); [rewrite <- (Hs 0%nat c eq_refl); f_equal; lia|].
  assert (forall s1, (forall j, (j > k)%nat -> slot s1 j = slot s j) -> forall j d, l !! j = Some d -> slot s1 (S k + j) = Some (fd d, state d)) as Hnext.
  { intros s1 Hq j d Hd. rewrite Hq by lia. rewrite <- (Hs (S j) d Hd). f_equal. lia. }
  assert (is_unused c' = is_unused c) as Eu by (unfold is_unused; by rewrite Est).
  assert (get_client k s = Some (c', s)) as Hg by (unfold get_client; by rewrite Hc').
  rewrite (run_bind _ _ s _ _ Hg), Eu. destruct (is_unused c) eqn:Ec.
  - unfold select_body at 1. rewrite (run_bind_bind _ _ _ s _ _ Hg), Eu. rewrite (run_bind (mret' tt) _ s _ _ eq_refl).
    apply IH; [by apply Hnext|done|]. by rewrite filter_cons_False in Hr by (by rewrite Ec).
  - rewrite filter_cons_True in Hr by done. inversion Hr as [|r0 c0 revs cs0 Hhit Hrest E1 E2]. subst c0 cs0.
    assert (revents !! idx = Some r0) as E0 by (by rewrite <- (Nat.add_0_r idx), <- lookup_drop, <- E1).
    assert (revs = drop (S idx) revents) as ->.
    { replace (drop (S idx) revents) with (drop 1 (drop idx revents)) by (rewrite drop_drop; f_equal; lia). by rewrite <- E1. }
    apply is_unused_false, Hfdc in Ec as Hfd0. unfold answers in Hhit. rewrite <- Ef in Hhit, Hfd0.
    rewrite (run_lift _ _ s _ E0). fold (hit r0). rewrite Hhit. unfold mbind' at 2.
    rewrite (select_body_eq rd wr k s c' Hc' ltac:(by rewrite Eu) Hfd0).
    unfold mbind'. destruct (bool_decide (fd c' ∈ rd) || bool_decide (fd c' ∈ wr)).
    + destruct (handle k s) as [[[] s1]|] eqn:Eh; [|done].
      apply IH; [apply Hnext; intros j Hj; apply (quiet_handle k _ _ Eh); lia|done|done].
    + cbn [mret']. apply IH; [by apply Hnext|done|done].
Qed.

(** More clients in use than there are answers left. *)
Lemma poll_scan_overruns revents : forall l k s idx,
  (forall j c, l !! j = Some c -> slot s (k + j) = Some (fd c, state c)) ->
  (length (drop idx revents) < length (filter (fun c => is_unused c = false) l))%nat ->
  poll_scan revents idx (seq k (length l)) s = None.
Proof.
  induction l as [|c l IH]; intros k s idx Hs Hr; [cbn in Hr; lia|]. cbn [length seq poll_scan].
  destruct (slot_client s k (fd c) (state c)) as (c' & Hc' & Ef & Est); [rewrite <- (Hs 0%nat c eq_refl); f_equal; lia|].
  assert (forall s1, (forall j, (j > k)%nat -> slot s1 j = slot s j) -> forall j d, l !! j = Some d -> slot s1 (S k + j) = Some (fd d, state d)) as Hnext.
  { intros s1 Hq j d Hd. rewrite Hq by lia. rewrite <- (Hs (S j) d Hd). f_equal. lia. }
  assert (is_unused c' = is_unused c) as Eu by (unfold is_unused; by rewrite Est).
  rewrite (run_bind (get_client k) _ s c' s) by (unfold get_client; by rewrite Hc'). rewrite Eu.
  destruct (is_unused c) eqn:Ec.
  - apply IH; [by apply Hnext|]. by rewrite filter_cons_False in Hr by (by rewrite Ec).
  - rewrite filter_cons_True in Hr by done. cbn [length] in Hr. destruct (revents !! idx) as [r|] eqn:E0; [|done].
    rewrite (run_lift _ _ s _ eq_refl). pose proof (lookup_lt_Some _ _ _ E0). rewrite length_drop in Hr.
    unfold mbind'. destruct (negb _).
    + destruct (handle k s) as [[[] s1]|] eqn:Eh; [|done].
      apply IH; [apply Hnext; intros j Hj; apply (quiet_handle k _ _ Eh); lia|rewrite length_drop; lia].
    + cbn [mret']. apply IH; [by apply Hnext|rewrite length_drop; lia].
Qed.

(** The descriptors [select] may be asked about; what [WSAPoll] answers agrees with
    what [select] answers. *)
Definition agree s (w : W) (rd wr : list Z) : Prop :=
  let used_clients := filter (fun c => is_unused c = false) (g_clients s) in
  length (g_clients s) = TLSV2_MAX_CLIENTS /\ 0 <= g_listen_fd < FD_SETSIZE /\
  Forall (fun c => used c -> 0 <= fd c < FD_SETSIZE) (g_clients s) /\
  sys_select (world s) (g_listen_fd :: map fd used_clients) (map fd used_clients) = (w, Some (rd, wr)) /\
  exists r0 revents,
    sys_poll (world s) ((g_listen_fd, POLLRDNORM) :: map (fun c => (fd c, Z.lor POLLRDNORM POLLWRNORM)) used_clients) =
      (w, Some (r0 :: revents)) /\
    negb (Z.land r0 POLLRDNORM =? 0) = bool_decide (g_listen_fd ∈ rd) /\ Forall2 (answers rd wr) revents used_clients.

Lemma run_sys {A B} (f : W -> W * A) (k : A -> M srv B) s w a :
  f (world s) = (w, a) -> mbind' (sys f) k s = k a (s <| world := w |>).
Proof. intros E. unfold mbind', sys. by rewrite E. Qed.
Lemma slots_of s : forall j c, g_clients s !! j = Some c -> slot s (0 + j) = Some (fd c, state c).
Proof. intros j c Hc. unfold slot. cbn [Nat.add]. by rewrite Hc. Qed.

(** C37: a turn of the [WSAPoll] loop in which no connection is pending does what the
    turn of the [select] loop does, whatever handling the clients does to their slots,
    when the two calls agree: [WSAPoll] sets [POLLRDNORM] or [POLLWRNORM] for the clients
    that [select] reports, whatever other bits it sets. *)
Theorem poll_is_select cs sk s w rd wr : agree s w rd wr -> g_listen_fd ∉ rd ->
  server_turn_poll cs sk s =
  server_turn rin0 server_init_full_rsa init_main g_cfg g_listen_fd fuel cs sk s.
Proof.
  intros (Hlen & Hlfd & Hfd & Hsel & r0 & revents & Hpoll & Hr0 & Hans) Hl. unfold server_turn_poll, server_turn.
  rewrite !(run_bind mget _ s s s) by done.
  rewrite (run_lift (fd_set_add g_listen_fd []) _ s [g_listen_fd])
    by (unfold fd_set_add, fd_in_set; by rewrite (proj2 (Z.leb_le 0 g_listen_fd)), (proj2 (Z.ltb_lt g_listen_fd FD_SETSIZE)) by lia).
  rewrite (run_lift _ _ s _ (fd_sets_ok (g_clients s) ([g_listen_fd], []) Hfd)). cbn [fst snd app].
  erewrite run_sys; [|exact Hpoll]. erewrite run_sys; [|exact Hsel].
  rewrite (run_lift _ _ _ r0) by done. rewrite (run_lift _ _ _ _ (fd_isset_ok g_listen_fd rd Hlfd)), Hr0.
  rewrite bool_decide_eq_false_2 by done. rewrite !(run_bind (mret' tt) _ _ tt _ eq_refl). rewrite <- Hlen.
  by apply (poll_scan_select _ rd wr (g_clients s) 0); [apply (slots_of s)|..].
Qed.

(** A client that [WSAPoll] only marks as hung up or in error is not handled: with such
    answers alone the turn does nothing. *)
Theorem poll_ignores_hangups cs sk s w r0 revents :
  let used_clients := filter (fun c => is_unused c = false) (g_clients s) in
  length (g_clients s) = TLSV2_MAX_CLIENTS -> length revents = length used_clients ->
  sys_poll (world s) ((g_listen_fd, POLLRDNORM) :: map (fun c => (fd c, Z.lor POLLRDNORM POLLWRNORM)) used_clients) =
    (w, Some (r0 :: revents)) ->
  Z.land r0 POLLRDNORM = 0 -> Forall (fun r => hit r = false) revents ->
  server_turn_poll cs sk s = Some (tt, s <| world := w |>).
Proof.
  intros used_clients Hlen Hn Hpoll Hr0 Hhit. unfold server_turn_poll. rewrite (run_bind mget _ s s s) by done.
  rewrite (run_sys (fun w => sys_poll w _) _ s w _ Hpoll). rewrite (run_lift _ _ _ r0) by done. rewrite Hr0. cbn [Z.eqb negb].
  rewrite (run_bind (mret' tt) _ _ tt _ eq_refl). rewrite <- Hlen.
  assert (forall l k idx s, (forall j c, l !! j = Some c -> slot s (k + j) = Some (fd c, state c)) ->
    Forall (fun r => hit r = false) (drop idx (r0 :: revents)) ->
    length (drop idx (r0 :: revents)) = length (filter (fun c => is_unused c = false) l) ->
    poll_scan (r0 :: revents) idx (seq k (length l)) s = Some (tt, s)) as H; [|apply (H (g_clients s) 0%nat 1%nat); [exact (slots_of s)|exact Hhit|exact Hn]].
  clear. induction l as [|c l IH]; intros k idx s Hs Hh Hn; [done|]. cbn [length seq poll_scan].
  destruct (slot_client s k (fd c) (state c)) as (c' & Hc' & Ef & Est); [rewrite <- (Hs 0%nat c eq_refl); f_equal; lia|].
  assert (forall j d, l !! j = Some d -> slot s (S k + j) = Some (fd d, state d)) as Hnext.
  { intros j d Hd. rewrite <- (Hs (S j) d Hd). f_equal. lia. }
  assert (is_unused c' = is_unused c) as Eu by (unfold is_unused; by rewrite Est).
  rewrite (run_bind (get_client k) _ s c' s) by (unfold get_client; by rewrite Hc'). rewrite Eu.
  destruct (is_unused c) eqn:Ec.
  - apply IH; [done|done|]. by rewrite filter_cons_False in Hn by (by rewrite Ec).
  - rewrite filter_cons_True in Hn by done. destruct (drop idx (r0 :: revents)) as [|r rs] eqn:Ed; [done|].
    rewrite Forall_cons in Hh. destruct Hh as [Hh0 Hh]. cbn [length] in Hn.
    rewrite (run_lift _ _ s r) by (by rewrite <- (Nat.add_0_r idx), <- lookup_drop, Ed). fold (hit r). rewrite Hh0.
    rewrite (run_bind (mret' tt) _ s tt _ eq_refl).
    assert (drop (S idx) (r0 :: revents) = rs) as Ed'.
    { replace (drop (S idx) (r0 :: revents)) with (drop 1 (drop idx (r0 :: revents))) by (rewrite drop_drop; f_equal; lia). by rewrite Ed. }
    apply IH; [done|by rewrite Ed'|rewrite Ed'; lia].
Qed.

(** With a pending connection that takes a slot, the turn comes to an answer that
    was never given. *)
Theorem poll_accept_overruns cs sk s w rd wr s1 : agree s w rd wr -> g_listen_fd ∈ rd ->
  accept cs sk (s <| world := w |>) = Some (tt, s1) -> length (g_clients s1) = TLSV2_MAX_CLIENTS ->
  (length (filter (fun c => is_unused c = false) (g_clients s)) < length (filter (fun c => is_unused c = false) (g_clients s1)))%nat ->
  server_turn_poll cs sk s = None.
Proof.
  intros (_ & _ & _ & _ & r0 & revents & Hpoll & Hr0 & Hans) Hl Ha Hlen Hmore. unfold server_turn_poll.
  rewrite (run_bind mget _ s s s) by done. rewrite bool_decide_eq_true_2 in Hr0 by done.
  erewrite run_sys; [|exact Hpoll].
  cbv beta iota. rewrite (run_lift _ _ _ r0) by done. rewrite Hr0.
  rewrite (run_bind _ _ _ _ _ Ha). rewrite <- Hlen.
  apply poll_scan_overruns; [apply (slots_of s1)|]. rewrite length_drop. cbn [length]. apply Forall2_length in Hans. lia.
Qed.
End poll.

(** ** A system in which two clients are known and one of them is ready *)

Section witness.
Import Established.
Notation client := (client unit unit unit unit unit).
Definition poll_engine : engine unit unit unit := engine_zero [] tt tt.
Definition poll_client (f : Z) (st : tlsv2_client_state_t) : client := Client f poll_engine None None st [] 0 0 [] 0 0.
Definition poll_clients : list client :=
  poll_client 0 TLSV2_STATE_UNUSED :: poll_client 5 TLSV2_STATE_OPEN :: poll_client 6 TLSV2_STATE_OPEN ::
  replicate 61 (poll_client 0 TLSV2_STATE_UNUSED).
(** The world is the list of descriptors that are ready. *)
#[local] Instance poll_os : OS (list Z) := {|
  sys_read w fd n := (w, None); sys_write w fd bs := (w, -1); sys_accept w fd := (w, None);
  sys_nonblocking w fd := (w, true); sys_close w fd := w;
  sys_select w r o := (w, Some (w, []));
  would_block w := true; sys_malloc w n := (w, true); sys_seed w := (w, true) |}.
#[local] Instance poll_poll : Poll (list Z) := fun w fds =>
  (w, Some (map (fun f => if bool_decide (f.1 ∈ w) then Z.lor POLLRDNORM 2 else 0) fds)).

(** The client that is ready has hung up too (bit 2). *)
Lemma poll_is_select_witness :
  let s := Srv poll_clients [6] in
  server_turn_poll tt (fun _ _ => tt) (fun h => h) (Config None None None) 3 10 tt tt s =
  server_turn tt (fun _ _ => tt) (fun h => h) (Config None None None) 3 10 tt tt s.
Proof.
  intros s. apply (poll_is_select tt (fun _ _ => tt) (fun h => h) (Config None None None) 3 10 tt tt s [6] [6] []).
  - split; [reflexivity|]. split; [unfold FD_SETSIZE; lia|]. split.
    + change (g_clients s) with poll_clients. unfold poll_clients, FD_SETSIZE. rewrite !Forall_cons.
      split; [by intros []|]. split; [intros _; cbn; lia|]. split; [intros _; cbn; lia|]. apply Forall_replicate. by intros [].
    + split; [vm_compute; reflexivity|]. eexists _, _. split; [vm_compute; reflexivity|].
      split; [vm_compute; reflexivity|]. vm_compute. repeat constructor.
  - intros H. apply list_elem_of_In in H. cbn in H. lia.
Defined.
End witness.
