(* ===== verification/TlsV1.v ===== *)
(** * TlsV1: the first TLS wrapper (tls_wrapper.c, over OpenSSL), tcp_wrapper.c and select_wrapper.c

    The wrapper keeps the OpenSSL object of each connection in a table of 128
    entries, addressed by file descriptor.  The socket calls are the class [Posix],
    OpenSSL is the class [OpenSSL], both over a state [W] of the world; [SSL] and
    [CTX] are the pointers OpenSSL hands out.  A computation that yields [None] has
    passed a null pointer to OpenSSL, or accessed an [fd_set] out of its bounds. *)
From stdpp Require Import gmap.
From S2P Require Import Prelude.
From S2P Require Import Effects.

(** ** The calls of the system and of OpenSSL *)

(** [socket] is for [AF_INET], [SOCK_STREAM]; a result below 0 is an error.
    [inet_pton] gives the address, or [None] for a result of 0 or less. *)
Class Posix (W : Type) := {
  posix_socket : W -> W * Z;
  posix_inet_pton : list Z -> option Z;
  posix_connect : W -> Z -> Z -> Z -> W * Z;
  posix_bind : W -> Z -> Z -> Z -> W * Z;
  posix_listen : W -> Z -> Z -> W * Z;
  posix_accept : W -> Z -> W * Z;
  posix_send : W -> Z -> list Z -> W * Z;
  posix_recv : W -> Z -> Z -> W * (Z * list Z);
  posix_select : W -> Z -> list bool -> W * (Z * list bool);
  posix_close : W -> Z -> W }.

Inductive method : Type := TLS_server_method | TLS_client_method.
Class OpenSSL (W SSL CTX : Type) := {
  SSL_library_init : W -> W;
  SSL_CTX_new : W -> method -> W * option CTX;
  SSL_CTX_use_certificate_file : W -> CTX -> W * Z;
  SSL_CTX_use_PrivateKey_file : W -> CTX -> W * Z;
  SSL_CTX_check_private_key : W -> CTX -> W * bool;
  SSL_new : W -> CTX -> W * option SSL;
  SSL_set_fd : W -> SSL -> Z -> W;
  SSL_accept : W -> SSL -> W * Z;
  SSL_connect : W -> SSL -> W * Z;
  SSL_write : W -> SSL -> list Z -> W * Z;
  SSL_read : W -> SSL -> Z -> W * (Z * list Z);
  SSL_shutdown : W -> SSL -> W;
  SSL_free : W -> SSL -> W }.

(** ** The table *)

Definition MAX_SSL_CONNECTIONS : nat := 128.

Record ssl_entry {SSL : Type} : Type := Entry { fd : Z; ssl : option SSL }.
Arguments ssl_entry : clear implicits.
Arguments Entry {SSL}.

Section table.
Context {SSL : Type}.
Notation entry := (ssl_entry SSL).
Implicit Types l : list entry.

Definition ssl_table_init : list entry := replicate MAX_SSL_CONNECTIONS (Entry (-1) None).

(** The loops return at the first entry that matches; [None] is "table full". *)
Fixpoint ssl_table_add l (f : Z) (s : option SSL) : option (list entry) :=
  match l with
  | [] => None
  | e :: l => if fd e <? 0 then Some (Entry f s :: l) else cons e <$> ssl_table_add l f s
  end.
Fixpoint ssl_table_get l (f : Z) : option SSL :=
  match l with
  | [] => None
  | e :: l => if fd e =? f then ssl e else ssl_table_get l f
  end.
Fixpoint ssl_table_remove l (f : Z) : list entry :=
  match l with
  | [] => []
  | e :: l => if fd e =? f then Entry (-1) None :: l else e :: ssl_table_remove l f
  end.
End table.

(** ** The calls of the wrapper *)

Record tls_state {W SSL CTX : Type} : Type := TlsState {
  ctx_server : option CTX; ctx_client : option CTX; ssl_table : list (ssl_entry SSL); world : W }.
Arguments tls_state : clear implicits.
Arguments TlsState {W SSL CTX}.
#[export] Instance eta_tls_state {W SSL CTX} : Eta (tls_state W SSL CTX) := fun s =>
  TlsState (ctx_server s) (ctx_client s) (ssl_table s) (world s).

Section wrapper.
Context {W SSL CTX : Type} `{!Posix W} `{!OpenSSL W SSL CTX}.
Notation state := (tls_state W SSL CTX).
Notation M := (M state).

Definition call {A} (f : W -> W * A) : M A := fun s =>
  let '(w, a) := f (world s) in Some (a, s <| world := w |>).
Definition call' (f : W -> W) : M unit := fun s => Some (tt, s <| world := f (world s) |>).

Definition tcp_connect (host : list Z) (port : Z) : M Z :=
  let! sock := call posix_socket in
  if sock <? 0 then mret' (-1)
  else match posix_inet_pton host with
  | None => call' (fun w => posix_close w sock) ;;! mret' (-2)
  | Some addr =>
      let! r := call (fun w => posix_connect w sock addr port) in
      if r <? 0 then call' (fun w => posix_close w sock) ;;! mret' (-3) else mret' sock
  end.

(** [ssl_table_add] on the global table: 0 or -1. *)
Definition table_add (f : Z) (s : SSL) : M Z := fun st =>
  match ssl_table_add (ssl_table st) f (Some s) with
  | Some l => Some (0, st <| ssl_table := l |>)
  | None => Some (-1, st)
  end.

Definition drop_connection (f : Z) (s : SSL) : M unit :=
  call' (fun w => SSL_shutdown w s) ;;! call' (fun w => SSL_free w s) ;;! call' (fun w => posix_close w f).

Definition register_tls_socket (s : SSL) (f : Z) : M Z :=
  let! r := table_add f s in
  if negb (r =? 0) then drop_connection f s ;;! mret' (-1) else mret' f.

Definition tls_init : M unit := call' SSL_library_init.

Definition tls_init_server : M unit :=
  tls_init ;;!
  mset (fun st => st <| ssl_table := ssl_table_init |>) ;;!
  let! c := call (fun w => SSL_CTX_new w TLS_server_method) in
  mset (fun st => st <| ctx_server := c |>) ;;!
  match c with
  | None => mret' tt
  | Some c =>
      let! r := call (fun w => SSL_CTX_use_certificate_file w c) in
      if r <=? 0 then mret' tt
      else
        let! r := call (fun w => SSL_CTX_use_PrivateKey_file w c) in
        if r <=? 0 then mret' tt
        else let! ok := call (fun w => SSL_CTX_check_private_key w c) in mret' tt
  end.

Definition tls_init_client : M unit :=
  tls_init ;;!
  mset (fun st => st <| ssl_table := ssl_table_init |>) ;;!
  let! c := call (fun w => SSL_CTX_new w TLS_client_method) in
  mset (fun st => st <| ctx_client := c |>).

(** [INADDR_ANY] is 0. *)
Definition tls_listen (port : Z) : M Z :=
  let! sock := call posix_socket in
  if sock <? 0 then mret' (-1)
  else
    let! r := call (fun w => posix_bind w sock 0 port) in
    if r <? 0 then call' (fun w => posix_close w sock) ;;! mret' (-2)
    else
      let! r := call (fun w => posix_listen w sock 5) in
      if r <? 0 then call' (fun w => posix_close w sock) ;;! mret' (-3) else mret' sock.

Definition tls_accept (server : Z) : M Z :=
  let! client_fd := call (fun w => posix_accept w server) in
  if client_fd <? 0 then mret' (-1)
  else
    let! st := mget in
    match ctx_server st with
    | None => call' (fun w => posix_close w client_fd) ;;! mret' (-2)
    | Some ctx =>
        let! s := call (fun w => SSL_new w ctx) in
        match s with
        | None => call' (fun w => posix_close w client_fd) ;;! mret' (-3)
        | Some s =>
            call' (fun w => SSL_set_fd w s client_fd) ;;!
            let! r := call (fun w => SSL_accept w s) in
            if r <=? 0 then
              call' (fun w => SSL_free w s) ;;! call' (fun w => posix_close w client_fd) ;;! mret' (-4)
            else
              let! r := table_add client_fd s in
              if negb (r =? 0) then drop_connection client_fd s ;;! mret' (-5) else mret' client_fd
        end
    end.

(** The result of [SSL_new] is not tested here: a null pointer goes to [SSL_set_fd]. *)
Definition tls_connect (host : list Z) (port : Z) : M Z :=
  let! st := mget in
  match ctx_client st with
  | None => mret' (-1)
  | Some ctx =>
      let! sock := tcp_connect host port in
      if sock <? 0 then mret' (-2)
      else
        let! s := call (fun w => SSL_new w ctx) in
        let! s := mlift s in
        call' (fun w => SSL_set_fd w s sock) ;;!
        let! r := call (fun w => SSL_connect w s) in
        if r <=? 0 then
          call' (fun w => SSL_free w s) ;;! call' (fun w => posix_close w sock) ;;! mret' (-3)
        else register_tls_socket s sock
  end.

Definition tls_send (sock : Z) (buf : list Z) : M Z :=
  let! st := mget in
  match ssl_table_get (ssl_table st) sock with
  | Some s => call (fun w => SSL_write w s buf)
  | None => call (fun w => posix_send w sock buf)
  end.

(** The result and the bytes stored in the buffer. *)
Definition tls_recv (sock maxlen : Z) : M (Z * list Z) :=
  let! st := mget in
  match ssl_table_get (ssl_table st) sock with
  | Some s => call (fun w => SSL_read w s maxlen)
  | None => call (fun w => posix_recv w sock maxlen)
  end.

Definition tls_close (sock : Z) : M unit :=
  let! st := mget in
  match ssl_table_get (ssl_table st) sock with
  | Some s =>
      call' (fun w => SSL_shutdown w s) ;;! call' (fun w => SSL_free w s) ;;!
      mset (fun st => st <| ssl_table := ssl_table_remove (ssl_table st) sock |>)
  | None => mret' tt
  end ;;!
  call' (fun w => posix_close w sock).

(** ** tcp_wrapper.c and select_wrapper.c *)

Definition tcp_listen (port : Z) : M Z :=
  let! sock := call posix_socket in
  let! _ := call (fun w => posix_bind w sock 0 port) in
  let! _ := call (fun w => posix_listen w sock 5) in
  mret' sock.
Definition tcp_accept (sock : Z) : M Z := call (fun w => posix_accept w sock).

(** An [fd_set] is [FD_SETSIZE] bits. *)
Definition FD_ZERO : list bool := replicate (Z.to_nat FD_SETSIZE) false.
Definition FD_SET (f : Z) (s : list bool) : option (list bool) :=
  if f <? FD_SETSIZE then Some (<[Z.to_nat f := true]> s) else None.
Definition FD_ISSET (f : Z) (s : list bool) : option bool := s !! Z.to_nat f.

Fixpoint set_fds (fds : list Z) (s : list bool) : option (list bool) :=
  match fds with
  | [] => Some s
  | f :: fds => if 0 <=? f then (s ← FD_SET f s; set_fds fds s) else set_fds fds s
  end.
Fixpoint read_flags (fds : list Z) (s : list bool) : option (list Z) :=
  match fds with
  | [] => Some []
  | f :: fds =>
      b ← (if 0 <=? f then FD_ISSET f s else Some false);
      cons (b2z b) <$> read_flags fds s
  end.

(** [fds] is the array up to [nfds], [flags] is [ready_flags]; the result and
    the flags after the call. *)
Definition gf_select (maxfd : Z) (fds flags : list Z) : M (Z * list Z) :=
  let! readfds := mlift (set_fds fds FD_ZERO) in
  let! r := call (fun w => posix_select w (maxfd + 1) readfds) in
  let '(rc, readfds) := r in
  if rc <=? 0 then mret' (rc, flags)
  else let! ready := mlift (read_flags fds readfds) in mret' (rc, ready).
End wrapper.
