(* ===== verification/TlsV1Spec.v ===== *)
(** * TlsV1Spec: the connections of the first TLS wrapper

    The contract of the wrapper is a machine on finite maps ([spec]): which session
    serves which descriptor, which descriptors are open, which sessions nobody can
    reach any more.  The table refines the map, every call refines a transition. *)
From stdpp Require Import gmap fin_maps.
From S2P Require Import Prelude.
From S2P Require Import Effects.
From S2P Require Import TlsV1.

(** ** The table is a finite map *)

Section table.
Context {SSL : Type}.
Notation entry := (ssl_entry SSL).
Implicit Types (l : list entry) (m : gmap Z SSL).

(** [l] holds the bindings of [m], each once; free entries hold no session. *)
Inductive table_map : list entry -> gmap Z SSL -> Prop :=
| table_nil : table_map [] ∅
| table_free l m f : f < 0 -> table_map l m -> table_map (Entry f None :: l) m
| table_used l m f s : 0 <= f -> m !! f = None -> table_map l m -> table_map (Entry f (Some s) :: l) (<[f := s]> m).

Lemma table_init_map : table_map ssl_table_init ∅.
Proof. unfold ssl_table_init. induction MAX_SSL_CONNECTIONS as [|n IH]; constructor; (done || lia). Qed.
Lemma table_neg l m f : table_map l m -> f < 0 -> m !! f = None.
Proof. induction 1; intros Hf; [done|auto|]. rewrite lookup_insert_ne by lia. auto. Qed.
Lemma table_get l m f : table_map l m -> ssl_table_get l f = m !! f.
Proof.
  induction 1 as [|l m g Hg Hm IH|l m g s Hg Hn Hm IH]; [done| |]; cbn [ssl_table_get fd ssl].
  - destruct (Z.eqb_spec g f) as [<-|]; [|done]. symmetry. by apply (table_neg l).
  - destruct (Z.eqb_spec g f) as [<-|]; [by rewrite lookup_insert_eq|]. by rewrite lookup_insert_ne.
Qed.
Lemma table_size l m : table_map l m -> (size m <= length l)%nat.
Proof.
  induction 1; cbn [length]; [by rewrite map_size_empty|lia|]. rewrite map_size_insert_None by done. lia.
Qed.
Lemma table_add_map l m f s : table_map l m -> 0 <= f -> m !! f = None ->
  match ssl_table_add l f (Some s) with
  | Some l' => table_map l' (<[f := s]> m) /\ length l' = length l /\ (size m < length l)%nat
  | None => size m = length l
  end.
Proof.
  intros Hm Hf. induction Hm as [|l m g Hg Hm IH|l m g t Hg Hn Hm IH]; intros Hn'; [done| |]; cbn [ssl_table_add fd].
  - rewrite (proj2 (Z.ltb_lt g 0)) by lia. pose proof (table_size l m Hm). split; [by constructor|]. split; [done|cbn; lia].
  - rewrite (proj2 (Z.ltb_ge g 0)) by lia.
    apply lookup_insert_None in Hn' as [Hn' Hne]. specialize (IH Hn').
    destruct (ssl_table_add l f (Some s)) as [l'|] eqn:E; cbn [fmap option_fmap option_map length].
    + destruct IH as (IH & L & Hs). rewrite insert_insert_ne by done.
      split; [apply table_used; [done|by rewrite lookup_insert_ne|done]|].
      rewrite map_size_insert_None by done. lia.
    + rewrite map_size_insert_None by done. lia.
Qed.
Lemma table_remove_map l m f : table_map l m ->
  0 <= f -> table_map (ssl_table_remove l f) (delete f m) /\ length (ssl_table_remove l f) = length l.
Proof.
  intros Hm Hf. induction Hm as [|l m g Hg Hm IH|l m g s Hg Hn Hm IH]; cbn [ssl_table_remove fd].
  - rewrite delete_empty. split; [constructor|done].
  - rewrite (proj2 (Z.eqb_neq g f)) by lia. destruct IH as [IH L]. split; [by constructor|cbn; lia].
  - destruct (Z.eqb_spec g f) as [<-|Hne].
    + rewrite delete_insert_id by done. split; [by constructor|done].
    + destruct IH as [IH L]. rewrite delete_insert_ne by done.
      split; [constructor; [done|by rewrite lookup_delete_ne|done]|cbn; lia].
Qed.
End table.

(** ** What the wrapper relies on *)

(** The open descriptors and the live sessions with the descriptor each is bound
    to; every call changes them as documented, and most do not change them. *)
Definition same {W A B : Type} (f : W -> A) (g : W -> B) (w w' : W) : Prop := f w' = f w /\ g w' = g w.
Class V1Laws (W SSL CTX : Type) `{Countable SSL} `{!Posix W} `{!OpenSSL W SSL CTX}
    (fds : W -> gset Z) (sessions : W -> gmap SSL (option Z)) : Prop := {
  socket_law w w' r : posix_socket w = (w', r) ->
    sessions w' = sessions w /\ if decide (0 <= r) then r ∉ fds w /\ fds w' = {[r]} ∪ fds w else fds w' = fds w;
  accept_law w w' sv r : posix_accept w sv = (w', r) ->
    sessions w' = sessions w /\ if decide (0 <= r) then r ∉ fds w /\ fds w' = {[r]} ∪ fds w else fds w' = fds w;
  close_law w f : fds (posix_close w f) = fds w ∖ {[f]} /\ sessions (posix_close w f) = sessions w;
  connect_law w f a p : same fds sessions w (posix_connect w f a p).1;
  bind_law w f a p : same fds sessions w (posix_bind w f a p).1;
  listen_law w f n : same fds sessions w (posix_listen w f n).1;
  send_law w f bs : same fds sessions w (posix_send w f bs).1;
  recv_law w f n : same fds sessions w (posix_recv w f n).1;
  library_init_law w : same fds sessions w (SSL_library_init w);
  ctx_new_law w m : same fds sessions w (SSL_CTX_new w m).1;
  use_certificate_law w c : same fds sessions w (SSL_CTX_use_certificate_file w c).1;
  use_key_law w c : same fds sessions w (SSL_CTX_use_PrivateKey_file w c).1;
  check_key_law w c : same fds sessions w (SSL_CTX_check_private_key w c).1;
  ssl_accept_law w s : same fds sessions w (SSL_accept w s).1;
  ssl_connect_law w s : same fds sessions w (SSL_connect w s).1;
  ssl_write_law w s bs : same fds sessions w (SSL_write w s bs).1;
  ssl_read_law w s n : same fds sessions w (SSL_read w s n).1;
  ssl_shutdown_law w s : same fds sessions w (SSL_shutdown w s);
  ssl_new_law w w' c r : SSL_new w c = (w', r) -> fds w' = fds w /\
    match r with Some s => sessions w !! s = None /\ sessions w' = <[s := None]> (sessions w) | None => sessions w' = sessions w end;
  ssl_set_fd_law w s f : fds (SSL_set_fd w s f) = fds w /\ sessions (SSL_set_fd w s f) = <[s := Some f]> (sessions w);
  ssl_free_law w s : fds (SSL_free w s) = fds w /\ sessions (SSL_free w s) = delete s (sessions w) }.

(** ** The contract *)

Inductive tls_call : Type :=
| CInitServer | CInitClient
| CListen (port : Z) | CAccept (server : Z) | CConnect (host : list Z) (port : Z)
| CSend (sock : Z) (buf : list Z) | CRecv (sock maxlen : Z) | CClose (sock : Z).

(** Calls that give a descriptor. *)
Definition opens (c : tls_call) : bool :=
  match c with CListen _ | CAccept _ | CConnect _ _ => true | _ => false end.

Record conns {SSL : Type} `{Countable SSL} : Type := Conns {
  reg : gmap Z SSL; open_fds : gset Z; lost : gset SSL }.
Arguments conns SSL {_ _}.

Section contract.
Context {SSL : Type} `{Countable SSL}.
Implicit Types a : conns SSL.

Inductive spec : tls_call -> conns SSL -> Z -> conns SSL -> Prop :=
| spec_init c a : c = CInitServer \/ c = CInitClient ->
    spec c a 0 (Conns SSL _ _ ∅ (open_fds a) (lost a ∪ map_img (reg a)))
| spec_listen port a r : 0 <= r -> r ∉ open_fds a ->
    spec (CListen port) a r (Conns SSL _ _ (reg a) ({[r]} ∪ open_fds a) (lost a))
| spec_established c a r s : (exists sv, c = CAccept sv) \/ (exists host port, c = CConnect host port) ->
    0 <= r -> r ∉ open_fds a -> s ∉ lost a -> (forall f, reg a !! f <> Some s) ->
    (size (reg a) < MAX_SSL_CONNECTIONS)%nat ->
    spec c a r (Conns SSL _ _ (<[r := s]> (reg a)) ({[r]} ∪ open_fds a) (lost a))
| spec_refused c a r : opens c = true -> -5 <= r < 0 -> (r = -5 -> size (reg a) = MAX_SSL_CONNECTIONS) ->
    spec c a r a
| spec_io c a r : (exists f bs, c = CSend f bs) \/ (exists f n, c = CRecv f n) -> spec c a r a
| spec_close f a :
    spec (CClose f) a 0 (Conns SSL _ _ (delete f (reg a)) (open_fds a ∖ {[f]}) (lost a)).

Inductive spec_steps : conns SSL -> list tls_call -> list Z -> conns SSL -> Prop :=
| spec_done a : spec_steps a [] [] a
| spec_next a c r b cs rs d : spec c a r b -> spec_steps b cs rs d -> spec_steps a (c :: cs) (r :: rs) d.
End contract.

(** ** Every call keeps the contract *)

(** [m] returns with [Q], or gives [None] in a situation described by [N]. *)
Definition pp {S A} (m : M S A) (Q : A -> S -> Prop) (N : Prop) (s : S) : Prop :=
  match m s with Some (a, s') => Q a s' | None => N end.
Lemma pp_ret {S A} (a : A) (Q : A -> S -> Prop) N s : Q a s -> pp (mret' a) Q N s.
Proof. done. Qed.
Lemma pp_bind {S A B} (m : M S A) (k : A -> M S B) Q N s : pp m (fun a => pp (k a) Q N) N s -> pp (mbind' m k) Q N s.
Proof. unfold pp, mbind'. by destruct (m s) as [[a s']|]. Qed.
Lemma pp_mono {S A} (m : M S A) (Q Q' : A -> S -> Prop) N s :
  pp m Q N s -> (forall a s', Q a s' -> Q' a s') -> pp m Q' N s.
Proof. unfold pp. destruct (m s) as [[a s']|]; auto. Qed.
Lemma pp_eqn {S A} (m : M S A) (Q : A -> S -> Prop) N s :
  pp m (fun a s' => m s = Some (a, s') -> Q a s') N s -> pp m Q N s.
Proof. unfold pp. destruct (m s) as [[a s']|]; auto. Qed.
Lemma pp_lift {S A} (o : option A) (Q : A -> S -> Prop) (N : Prop) s :
  (forall a, o = Some a -> Q a s) -> (o = None -> N) -> pp (mlift o) Q N s.
Proof. unfold pp, mlift. destruct o; auto. Qed.

Section calls.
Context {W SSL CTX : Type} `{Countable SSL} `{!Posix W} `{!OpenSSL W SSL CTX}.
Context {fds : W -> gset Z} {sessions : W -> gmap SSL (option Z)} `{!V1Laws W SSL CTX fds sessions}.
Notation state := (tls_state W SSL CTX).
Notation M := (Effects.M state).
Implicit Types (st : state) (a : conns SSL).

Record repr st a : Prop := Repr {
  repr_table : table_map (ssl_table st) (reg a);
  repr_len : length (ssl_table st) = MAX_SSL_CONNECTIONS;
  repr_fds : fds (world st) = open_fds a;
  repr_reg : forall f s, reg a !! f = Some s ->
    0 <= f /\ f ∈ open_fds a /\ s ∉ lost a /\ sessions (world st) !! s = Some (Some f);
  repr_live : forall s, is_Some (sessions (world st) !! s) <-> s ∈ lost a \/ exists f, reg a !! f = Some s }.

(** The table, the descriptors and the sessions of a state. *)
Definition shape (T : list (ssl_entry SSL)) (F : gset Z) (S : gmap SSL (option Z)) st : Prop :=
  ssl_table st = T /\ fds (world st) = F /\ sessions (world st) = S.
Lemma shape_refl st : shape (ssl_table st) (fds (world st)) (sessions (world st)) st.
Proof. by repeat split. Qed.
Lemma shape_repr st st' a : repr st a -> shape (ssl_table st) (fds (world st)) (sessions (world st)) st' -> repr st' a.
Proof. intros [] (ET & EF & ES). split; rewrite ?ET, ?EF, ?ES; done. Qed.

Lemma pp_call {A} (f : W -> W * A) (Q : A -> state -> Prop) N st :
  (forall w r, f (world st) = (w, r) -> Q r (st <| world := w |>)) -> pp (call f) Q N st.
Proof. unfold pp, call. destruct (f (world st)) as [w r]. auto. Qed.
Lemma pp_call' (f : W -> W) (Q : unit -> state -> Prop) N st : Q tt (st <| world := f (world st) |>) -> pp (call' f) Q N st.
Proof. done. Qed.

Section shapes.
Context {A : Type} (N : Prop) (T : list (ssl_entry SSL)) (F : gset Z) (S : gmap SSL (option Z)) (st : state).
Context (HS : shape T F S st).

Lemma shape_quiet w : same fds sessions (world st) w -> shape T F S (st <| world := w |>).
Proof. destruct HS as (ET & EF & ES). intros (F' & S'). split; [done|]. split; [by rewrite <- EF|by rewrite <- ES]. Qed.
Lemma pp_quiet (f : W -> W * A) (Q : A -> state -> Prop) :
  (forall w, same fds sessions w (f w).1) -> (forall r st', shape T F S st' -> Q r st') -> pp (call f) Q N st.
Proof.
  intros Hf HQ. apply pp_call. intros w r E. apply HQ, shape_quiet. specialize (Hf (world st)). by rewrite E in Hf.
Qed.
Lemma pp_quiet' (f : W -> W) (Q : unit -> state -> Prop) :
  (forall w, same fds sessions w (f w)) -> (forall st', shape T F S st' -> Q tt st') -> pp (call' f) Q N st.
Proof. intros Hf HQ. apply pp_call', HQ, shape_quiet, Hf. Qed.
Lemma pp_socket (Q : Z -> state -> Prop) :
  (forall r st', shape T ({[r]} ∪ F) S st' -> 0 <= r -> r ∉ F -> Q r st') ->
  (forall r st', shape T F S st' -> r < 0 -> Q r st') -> pp (call posix_socket) Q N st.
Proof.
  destruct HS as (ET & EF & ES). intros H1 H2. apply pp_call. intros w r E. apply socket_law in E as [E1 E2].
  rewrite ES in E1. rewrite EF in E2. case_decide; [destruct E2; apply H1|apply H2]; (done || lia).
Qed.
Lemma pp_accept sv (Q : Z -> state -> Prop) :
  (forall r st', shape T ({[r]} ∪ F) S st' -> 0 <= r -> r ∉ F -> Q r st') ->
  (forall r st', shape T F S st' -> r < 0 -> Q r st') -> pp (call (fun w => posix_accept w sv)) Q N st.
Proof.
  destruct HS as (ET & EF & ES). intros H1 H2. apply pp_call. intros w r E. apply accept_law in E as [E1 E2].
  rewrite ES in E1. rewrite EF in E2. case_decide; [destruct E2; apply H1|apply H2]; (done || lia).
Qed.
Lemma pp_close f (Q : unit -> state -> Prop) :
  (forall st', shape T (F ∖ {[f]}) S st' -> Q tt st') -> pp (call' (fun w => posix_close w f)) Q N st.
Proof.
  destruct HS as (ET & EF & ES). intros HQ. apply pp_call', HQ. destruct (close_law (world st) f) as [E1 E2].
  rewrite EF in E1. rewrite ES in E2. done.
Qed.
Lemma pp_ssl_new c (Q : option SSL -> state -> Prop) :
  (forall s st', shape T F (<[s := None]> S) st' -> S !! s = None -> Q (Some s) st') ->
  (forall st', shape T F S st' -> Q None st') -> pp (call (fun w => SSL_new w c)) Q N st.
Proof.
  destruct HS as (ET & EF & ES). intros H1 H2. apply pp_call. intros w r E. apply ssl_new_law in E as [E1 E2].
  rewrite EF in E1. rewrite ES in E2. destruct r as [s|]; [destruct E2; by apply H1|by apply H2].
Qed.
Lemma pp_ssl_set_fd s f (Q : unit -> state -> Prop) :
  (forall st', shape T F (<[s := Some f]> S) st' -> Q tt st') -> pp (call' (fun w => SSL_set_fd w s f)) Q N st.
Proof.
  destruct HS as (ET & EF & ES). intros HQ. apply pp_call', HQ. destruct (ssl_set_fd_law (world st) s f) as [E1 E2].
  rewrite EF in E1. rewrite ES in E2. done.
Qed.
Lemma pp_ssl_free s (Q : unit -> state -> Prop) :
  (forall st', shape T F (delete s S) st' -> Q tt st') -> pp (call' (fun w => SSL_free w s)) Q N st.
Proof.
  destruct HS as (ET & EF & ES). intros HQ. apply pp_call', HQ. destruct (ssl_free_law (world st) s) as [E1 E2].
  rewrite EF in E1. rewrite ES in E2. done.
Qed.
Lemma pp_table_add f s (Q : Z -> state -> Prop) :
  (forall T' st', ssl_table_add T f (Some s) = Some T' -> shape T' F S st' -> Q 0 st') ->
  (ssl_table_add T f (Some s) = None -> Q (-1) st) -> pp (table_add f s) Q N st.
Proof.
  destruct HS as (ET & EF & ES). intros H1 H2. unfold pp, table_add. rewrite ET.
  destruct (ssl_table_add T f (Some s)) as [T'|]; [by eapply H1|by apply H2].
Qed.
End shapes.

(** *** The calls that give a descriptor *)

(** The call [c] in [st] has ended with [r] in [st']. *)
Definition ended a (c : tls_call) (r : Z) st' : Prop := exists b, spec c a r b /\ repr st' b.

Lemma close_open (r : Z) (F : gset Z) : r ∉ F -> ({[r]} ∪ F) ∖ {[r]} = F.
Proof. set_solver. Qed.
Lemma free_new (s : SSL) (x y : option Z) (S : gmap SSL (option Z)) :
  S !! s = None -> delete s (<[s := x]> (<[s := y]> S)) = S.
Proof. intros E. rewrite insert_insert_eq. by apply delete_insert_id. Qed.

Section opening.
Context (N : Prop) (st : state) (a : conns SSL) (Ha : repr st a).
Notation T := (ssl_table st).
Notation F := (fds (world st)).
Notation S := (sessions (world st)).

Lemma refused c r st' : opens c = true -> -5 <= r < 0 -> (r = -5 -> size (reg a) = MAX_SSL_CONNECTIONS) ->
  shape T F S st' -> ended a c r st'.
Proof. intros Hc Hr H5 HS. exists a. split; [by apply spec_refused|by apply (shape_repr st)]. Qed.

(** A session for a new descriptor is not one the table or a caller has. *)
Lemma new_session s : S !! s = None -> s ∉ lost a /\ forall f, reg a !! f <> Some s.
Proof.
  intros Hs. pose proof (repr_live _ _ Ha s) as Hl. rewrite Hs in Hl.
  split; [intros Hin|intros f Hf]; apply (is_Some_None (A := option Z)), Hl; eauto.
Qed.
Lemma full_table f s : 0 <= f -> f ∉ F -> ssl_table_add T f (Some s) = None -> size (reg a) = MAX_SSL_CONNECTIONS.
Proof.
  intros Hf Hn E. pose proof (table_add_map _ _ f s (repr_table _ _ Ha) Hf) as Hadd.
  rewrite E in Hadd. rewrite <- (repr_len _ _ Ha). apply Hadd. apply eq_None_not_Some. intros [t Ht].
  destruct (repr_reg _ _ Ha _ _ Ht) as (_ & Hin & _). by rewrite <- (repr_fds _ _ Ha) in Hin.
Qed.
Lemma established c f s T' st' : (exists sv, c = CAccept sv) \/ (exists host port, c = CConnect host port) ->
  0 <= f -> f ∉ F -> S !! s = None -> ssl_table_add T f (Some s) = Some T' ->
  shape T' ({[f]} ∪ F) (<[s := Some f]> (<[s := None]> S)) st' -> ended a c f st'.
Proof.
  intros Hc Hf Hn Hs E (ET & EF & ES). destruct (new_session s Hs) as [Hlost Hreg].
  assert (reg a !! f = None) as Hnone.
  { apply eq_None_not_Some. intros [t Ht]. destruct (repr_reg _ _ Ha _ _ Ht) as (_ & Hin & _).
    by rewrite <- (repr_fds _ _ Ha) in Hin. }
  pose proof (table_add_map _ _ f s (repr_table _ _ Ha) Hf Hnone) as Hadd. rewrite E in Hadd.
  destruct Hadd as (Hm & Hlen & Hsize). rewrite (repr_len _ _ Ha) in Hlen, Hsize.
  rewrite insert_insert_eq in ES.
  eexists. split; [apply (spec_established c a f s Hc Hf)|]; [by rewrite <- (repr_fds _ _ Ha)|done..|].
  split; cbn [reg open_fds lost]; rewrite ?ET, ?EF, ?ES; try done.
  - by rewrite (repr_fds _ _ Ha).
  - intros g t. rewrite lookup_insert_Some. intros [[<- <-]|[Hne Ht]].
    + split; [done|]. split; [set_solver|]. split; [done|by rewrite lookup_insert_eq].
    + destruct (repr_reg _ _ Ha _ _ Ht) as (? & ? & ? & ?). split; [done|]. split; [set_solver|]. split; [done|].
      rewrite lookup_insert_ne; [done|]. intros <-. congruence.
  - intros t. destruct (decide (s = t)) as [<-|Hne].
    + rewrite lookup_insert_eq. split; [|by eauto]. intros _. right. exists f. by rewrite lookup_insert_eq.
    + rewrite lookup_insert_ne by done. rewrite (repr_live _ _ Ha t). split; (intros [?|[g Hg]]; [by left|right]).
      * exists g. rewrite lookup_insert_ne; [done|]. congruence.
      * apply lookup_insert_Some in Hg as [[_ ?]|[_ Hg]]; [done|eauto].
Qed.
End opening.
End calls.

(** The calls that change neither descriptors nor sessions. *)
Ltac quiet_law :=
  intros; first
  [ apply connect_law | apply bind_law | apply listen_law | apply send_law | apply recv_law | apply library_init_law
  | apply ctx_new_law | apply use_certificate_law | apply use_key_law | apply check_key_law | apply ssl_accept_law
  | apply ssl_connect_law | apply ssl_write_law | apply ssl_read_law | apply ssl_shutdown_law ].

(** One call of the system or of OpenSSL; the shape of the state is followed. *)
Ltac pp_step :=
  match goal with
  | |- pp (mbind' _ _) _ _ _ => apply pp_bind
  | |- pp (mret' _) _ _ _ => apply pp_ret
  | HS : shape ?T ?F ?S ?st |- pp _ _ _ ?st =>
      first
      [ apply (pp_socket _ T F S st HS); clear HS; [intros ? ? HS ? ?|intros ? ? HS ?]
      | apply (pp_accept _ T F S st HS); clear HS; [intros ? ? HS ? ?|intros ? ? HS ?]
      | apply (pp_close _ T F S st HS); clear HS; intros ? HS
      | apply (pp_ssl_new _ T F S st HS); clear HS; [intros ? ? HS ?|intros ? HS]
      | apply (pp_ssl_set_fd _ T F S st HS); clear HS; intros ? HS
      | apply (pp_ssl_free _ T F S st HS); clear HS; intros ? HS
      | apply (pp_table_add _ T F S st HS); [intros ? ? ?|intros ?]
      | apply (pp_quiet _ T F S st HS); [quiet_law|]; clear HS; intros ? ? HS
      | apply (pp_quiet' _ T F S st HS); [quiet_law|]; clear HS; intros ? HS ]
  end.

Section calls.
Context {W SSL CTX : Type} `{Countable SSL} `{!Posix W} `{!OpenSSL W SSL CTX}.
Context {fds : W -> gset Z} {sessions : W -> gmap SSL (option Z)} `{!V1Laws W SSL CTX fds sessions}.
Notation state := (tls_state W SSL CTX).
Implicit Types (st : state) (a : conns SSL).
Notation repr := (repr (fds := fds) (sessions := sessions)).
Notation shape := (shape (fds := fds) (sessions := sessions)).
Notation ended := (ended (fds := fds) (sessions := sessions)).

(** Through a call to its end: the branches of the code, then the shape reached. *)
Ltac pp_run :=
  repeat first
  [ pp_step
  | match goal with
    | |- pp (if ?b then _ else _) _ _ _ => destruct b eqn:?; try lia
    | |- pp (match ?o with Some _ => _ | None => _ end) _ _ _ => destruct o eqn:?
    | |- pp mget _ _ _ => unfold pp at 1, mget
    end ].
Ltac at_refusal :=
  match goal with
  | HS : shape _ _ _ ?st' |- ended _ _ _ ?st' =>
      rewrite ?close_open in HS by done; rewrite ?free_new in HS by done;
      eapply refused; [eassumption|done|done|try done|exact HS]
  end.

Lemma listen_spec N st a port : repr st a -> pp (tls_listen port) (ended a (CListen port)) N st.
Proof.
  intros Ha. pose proof (shape_refl (fds := fds) (sessions := sessions) st) as HS. unfold tls_listen.
  pp_run; try at_refusal.
  destruct HS as (ET & EF & ES). eexists. split; [apply spec_listen; [done|by rewrite <- (repr_fds _ _ Ha)]|].
  destruct Ha as [HT HL HF HR HV]. split; cbn [reg open_fds lost]; rewrite ?ET, ?EF, ?ES, ?HF; try done.
  intros f s Hs. destruct (HR f s Hs) as (? & ? & ?). split; [done|]. split; [set_solver|done].
Qed.

Lemma accept_spec N st a sv : repr st a -> pp (tls_accept sv) (ended a (CAccept sv)) N st.
Proof.
  intros Ha. pose proof (shape_refl (fds := fds) (sessions := sessions) st) as HS. unfold tls_accept, drop_connection.
  pp_run; try at_refusal.
  - eapply established; eauto.
  - intros _. eapply full_table; eassumption.
Qed.

Lemma tcp_connect_spec N st host port (Q : Z -> state -> Prop) :
  (forall r st', shape (ssl_table st) ({[r]} ∪ fds (world st)) (sessions (world st)) st' ->
     0 <= r -> r ∉ fds (world st) -> Q r st') ->
  (forall r st', shape (ssl_table st) (fds (world st)) (sessions (world st)) st' -> r < 0 -> Q r st') ->
  pp (tcp_connect host port) Q N st.
Proof.
  intros HQ1 HQ2. pose proof (shape_refl (fds := fds) (sessions := sessions) st) as HS. unfold tcp_connect.
  pp_run; try (apply HQ1; done); apply HQ2; try lia; rewrite ?close_open in HS by done; exact HS.
Qed.

(** [SSL_new] has no memory for the session of a connected socket. *)
Definition null_session st host port : Prop :=
  exists ctx sock st1, ctx_client st = Some ctx /\ tcp_connect host port st = Some (sock, st1) /\
    0 <= sock /\ (SSL_new (world st1) ctx).2 = None.

Lemma connect_spec st a host port : repr st a ->
  pp (tls_connect host port) (ended a (CConnect host port)) (null_session st host port) st.
Proof.
  intros Ha. pose proof (shape_refl (fds := fds) (sessions := sessions) st) as HS. unfold tls_connect, register_tls_socket, drop_connection.
  pp_run; [|at_refusal]. rename c into ctx. apply pp_eqn, tcp_connect_spec.
  - clear HS. intros sock st1 HS H0 Hn E. rewrite (proj2 (Z.ltb_ge sock 0)) by done.
    apply pp_bind, pp_eqn. pp_step; intros En.
    + unfold mlift. pp_step. unfold pp at 1. pp_run; try at_refusal. eapply established; eauto.
    + exists ctx, sock, st1. split; [done|]. split; [done|]. split; [done|]. unfold call in En.
      destruct (SSL_new (world st1) ctx) as [w r]. by injection En as -> _.
  - clear HS. intros r st1 HS Hr E. rewrite (proj2 (Z.ltb_lt r 0)) by done. pp_run. at_refusal.
Qed.

(** *** The other calls *)

Definition run_call (c : tls_call) : Effects.M state Z :=
  match c with
  | CInitServer => tls_init_server ;;! mret' 0
  | CInitClient => tls_init_client ;;! mret' 0
  | CListen port => tls_listen port
  | CAccept sv => tls_accept sv
  | CConnect host port => tls_connect host port
  | CSend sock buf => tls_send sock buf
  | CRecv sock n => let! r := tls_recv sock n in mret' r.1
  | CClose sock => tls_close sock ;;! mret' 0
  end.
Fixpoint run_calls (cs : list tls_call) : Effects.M state (list Z) :=
  match cs with
  | [] => mret' []
  | c :: cs => let! r := run_call c in let! rs := run_calls cs in mret' (r :: rs)
  end.

(** An assignment to a variable of the file. *)
Lemma pp_assign N T T' F S st (f : state -> state) (Q : unit -> state -> Prop) : shape T F S st ->
  shape T' F S (f st) -> (forall st', shape T' F S st' -> Q tt st') -> pp (mset f) Q N st.
Proof. intros _ Hf HQ. unfold pp, mset. by apply HQ. Qed.

Lemma init_spec N st a c : c = CInitServer \/ c = CInitClient -> fds (world st) = open_fds a ->
  (forall s, is_Some (sessions (world st) !! s) <-> s ∈ lost a \/ exists f, reg a !! f = Some s) ->
  pp (run_call c) (ended a c) N st.
Proof.
  intros Hc HF Hlive. pose proof (shape_refl (fds := fds) (sessions := sessions) st) as HS.
  assert (forall st', shape ssl_table_init (fds (world st)) (sessions (world st)) st' -> ended a c 0 st') as Hend.
  { intros st' (ET & EF & ES). eexists. split; [by apply spec_init|].
    split; cbn [reg open_fds lost]; rewrite ?ET, ?EF, ?ES, ?HF; try done.
    - apply table_init_map.
    - intros s. rewrite Hlive, elem_of_union. split.
      + intros [?|[f Hf]]; left; [by left|right]. apply elem_of_map_img. by exists f.
      + intros [[?|Hi]|[f Hf]]; [by left|right; by apply elem_of_map_img in Hi|done]. }
  destruct Hc as [-> | ->]; cbn [run_call]; unfold tls_init_server, tls_init_client, tls_init; pp_run;
    (eapply pp_assign; [exact HS| |clear HS; intros ? HS]; [by destruct HS as (_ & ? & ?)|]); pp_run;
    (eapply pp_assign; [exact HS| |clear HS; intros ? HS]; [exact HS|]); pp_run; by apply Hend.
Qed.

Lemma close_spec N st a f : repr st a -> pp (run_call (CClose f)) (ended a (CClose f)) N st.
Proof.
  intros Ha. pose proof (shape_refl (fds := fds) (sessions := sessions) st) as HS. destruct Ha as [HT HL HF HR HV].
  cbn [run_call]. unfold tls_close. pp_step. pp_step. unfold pp at 1, mget. pp_step. rewrite (table_get _ _ f HT).
  destruct (reg a !! f) as [s|] eqn:Es.
  - destruct (HR f s Es) as (H0 & Hin & Hlost & Hses). destruct (table_remove_map _ _ f HT H0) as [HT' HL'].
    pp_run. eapply (pp_assign _ _ (ssl_table_remove (ssl_table st) f)); [exact HS| |clear HS; intros ? HS].
    { destruct HS as (ET & ? & ?). split; [|done]. cbn. by rewrite ET. }
    pp_run. destruct HS as (ET & EF & ES). eexists. split; [apply spec_close|].
    split; cbn [reg open_fds lost]; rewrite ?ET, ?EF, ?ES, ?HF; try done; [by rewrite HL'| |].
    + intros g t. rewrite lookup_delete_Some. intros [Hne Ht]. destruct (HR g t Ht) as (? & ? & ? & Hs).
      split; [done|]. split; [set_solver|]. split; [done|]. rewrite lookup_delete_ne; [done|]. intros <-. congruence.
    + intros t. destruct (decide (s = t)) as [<-|Hne].
      * rewrite lookup_delete_eq. split; [by intros []|]. intros [?|[g Hg]]; [done|].
        apply lookup_delete_Some in Hg as [Hne Hg]. destruct (HR g s Hg) as (_ & _ & _ & Hs). congruence.
      * rewrite lookup_delete_ne by done. rewrite HV. split; (intros [?|[g Hg]]; [by left|right]); exists g.
        -- rewrite lookup_delete_ne; [done|]. congruence.
        -- by apply lookup_delete_Some in Hg as [_ Hg].
  - pp_run. destruct HS as (ET & EF & ES). eexists. split; [apply spec_close|].
    split; cbn [reg open_fds lost]; rewrite ?ET, ?EF, ?ES, ?HF; rewrite ?delete_id by done; try done.
    intros g t Ht. destruct (HR g t Ht) as (? & ? & ? & ?). split; [done|]. split; [|done].
    assert (g <> f) by congruence. set_solver.
Qed.

Lemma call_spec st a c : repr st a ->
  pp (run_call c) (ended a c) (exists host port, c = CConnect host port /\ null_session st host port) st.
Proof.
  intros Ha. pose proof (shape_refl (fds := fds) (sessions := sessions) st) as HS.
  assert (forall r st', (exists f bs, c = CSend f bs) \/ (exists f n, c = CRecv f n) ->
    shape (ssl_table st) (fds (world st)) (sessions (world st)) st' -> ended a c r st') as Hio.
  { intros r st' Hc HS'. exists a. split; [by apply spec_io|by apply (shape_repr st)]. }
  destruct c as [| |port|sv|host port|f bs|f n|f].
  - apply init_spec; [by left|exact (repr_fds _ _ Ha)|exact (repr_live _ _ Ha)].
  - apply init_spec; [by right|exact (repr_fds _ _ Ha)|exact (repr_live _ _ Ha)].
  - by apply listen_spec.
  - by apply accept_spec.
  - pose proof (connect_spec st a host port Ha) as Hc. unfold pp in *. cbn [run_call].
    destruct (tls_connect host port st) as [[r st']|]; [done|by eauto].
  - cbn [run_call]. unfold tls_send. pp_run; (apply Hio; [by eauto|done]).
  - cbn [run_call]. unfold tls_recv. pp_run; (apply Hio; [by eauto|done]).
  - by apply close_spec.
Qed.

(** *** Histories *)

(** The state of the file when the program starts: static memory is zero. *)
Definition boot (w : W) : state := TlsState None None (replicate MAX_SSL_CONNECTIONS (Entry 0 None)) w.

(** The history stops in a call to [tls_connect] that hands a null pointer on. *)
Definition stops_at_null (c : tls_call) (cs : list tls_call) st : Prop :=
  exists before host port after rs st1, c :: cs = before ++ CConnect host port :: after /\
    run_calls before st = Some (rs, st1) /\ null_session st1 host port.

Lemma run_calls_cons c cs st : run_calls (c :: cs) st =
  match run_call c st with
  | Some (r, st1) => match run_calls cs st1 with Some (rs, st2) => Some (r :: rs, st2) | None => None end
  | None => None
  end.
Proof. cbn [run_calls]. unfold mbind'. destruct (run_call c st) as [[r st1]|]; [|done]. by destruct (run_calls cs st1) as [[rs st2]|]. Qed.

Lemma histories st a c cs : pp (run_call c) (ended a c) (exists host port, c = CConnect host port /\ null_session st host port) st ->
  pp (run_calls (c :: cs)) (fun rs st' => exists b, spec_steps a (c :: cs) rs b /\ repr st' b) (stops_at_null c cs st) st.
Proof.
  revert st a c. induction cs as [|d cs IH]; intros st a c Hc; unfold pp in Hc |- *; rewrite run_calls_cons;
    destruct (run_call c st) as [[r st1]|] eqn:E.
  - destruct Hc as (b & Hs & Hb). exists b. split; [|done]. by eapply spec_next; [|constructor].
  - destruct Hc as (host & port & -> & Hn). by exists [], host, port, [], [], st.
  - destruct Hc as (b & Hs & Hb). pose proof (IH st1 b d (call_spec st1 b d Hb)) as H1. unfold pp in H1.
    destruct (run_calls (d :: cs) st1) as [[rs st2]|].
    + destruct H1 as (e & He & Hr). exists e. split; [|done]. by eapply spec_next.
    + destruct H1 as (before & host & port & after & rs & st2 & -> & Hb1 & Hn).
      exists (c :: before), host, port, after, (r :: rs), st2. split; [done|]. split; [|done].
      by rewrite run_calls_cons, E, Hb1.
  - destruct Hc as (host & port & -> & Hn). by exists [], host, port, (d :: cs), [], st.
Qed.

Lemma boot_histories w c cs : sessions w = ∅ -> c = CInitServer \/ c = CInitClient ->
  pp (run_calls (c :: cs)) (fun rs st => exists a, spec_steps (Conns SSL _ _ ∅ (fds w) ∅) (c :: cs) rs a /\ repr st a)
    (stops_at_null c cs (boot w)) (boot w).
Proof.
  intros Hw Hc. apply histories, init_spec; [done|done|]. intros s. cbn. rewrite Hw, lookup_empty.
  split; [by intros []|]. by intros [?|[??]].
Qed.

(** C6: every history of calls, from the start of the program and an
    initialisation on, is a history of the contract: each descriptor that is given
    out is new and served by a session of its own, a call that fails leaves
    descriptors and sessions as they were, closing releases both, an initialisation
    loses the sessions there are.  The table at the end is the map of the contract.
    The only history that does not run is one that meets [SSL_new] out of memory in
    [tls_connect]. *)
Theorem v1_refines_contract w c cs : sessions w = ∅ -> c = CInitServer \/ c = CInitClient ->
  match run_calls (c :: cs) (boot w) with
  | Some (rs, st) => exists a, spec_steps (Conns SSL _ _ ∅ (fds w) ∅) (c :: cs) rs a /\
      (forall f, ssl_table_get (ssl_table st) f = reg a !! f) /\ fds (world st) = open_fds a /\
      (forall s, is_Some (sessions (world st) !! s) <-> s ∈ lost a \/ exists f, reg a !! f = Some s)
  | None => stops_at_null c cs (boot w)
  end.
Proof.
  intros Hw Hc. pose proof (boot_histories w c cs Hw Hc) as H0. unfold pp in H0.
  destruct (run_calls (c :: cs) (boot w)) as [[rs st]|]; [|done]. destruct H0 as (a & Hs & Hr).
  exists a. split; [done|]. split; [intros f; apply table_get; exact (repr_table _ _ Hr)|]. by destruct Hr.
Qed.

End calls.

(** ** gf_select *)

Section select.
Context {W SSL CTX : Type} `{!Posix W}.
Notation state := (tls_state W SSL CTX).
Implicit Types st : state.

(** The [fd_set] of the descriptors in [fds]. *)
Definition fd_set_of (fds : list Z) (s : list bool) : Prop :=
  zlen s = FD_SETSIZE /\ forall i b, s !! i = Some b -> b = bool_decide (Z.of_nat i ∈ fds).

Lemma set_fds_spec fds : forall s done_, Forall (fun f => f < FD_SETSIZE) fds -> fd_set_of done_ s ->
  exists s', set_fds fds s = Some s' /\ fd_set_of (done_ ++ fds) s'.
Proof.
  induction fds as [|f fds IH]; intros s done_ Hf Hs; [exists s; by rewrite app_nil_r|].
  apply Forall_cons in Hf as [Hf Hfs]. cbn [set_fds]. replace (done_ ++ f :: fds) with ((done_ ++ [f]) ++ fds) by by rewrite <- app_assoc.
  destruct Hs as [L Hs]. destruct (Z.leb_spec 0 f) as [H0|H0].
  - unfold FD_SET. rewrite (proj2 (Z.ltb_lt _ _)) by done. cbn [mbind option_bind]. apply IH; [done|].
    split; [by rewrite length_insert|]. intros i b. rewrite list_lookup_insert_Some.
    intros [(<- & <- & _)|[Hne Hi]].
    + symmetry. apply bool_decide_eq_true_2. rewrite Z2Nat.id by done. set_solver.
    + rewrite (Hs i b Hi). apply bool_decide_ext. rewrite elem_of_app, list_elem_of_singleton. split; [by left|].
      intros [?|E]; [done|]. destruct Hne. lia.
  - apply IH; [done|]. split; [done|]. intros i b Hi. rewrite (Hs i b Hi). apply bool_decide_ext.
    rewrite elem_of_app, list_elem_of_singleton. split; [by left|]. intros [?|E]; [done|lia].
Qed.
Lemma set_fds_over fds : forall s, ~ Forall (fun f => f < FD_SETSIZE) fds -> set_fds fds s = None.
Proof.
  induction fds as [|f fds IH]; intros s Hf; [by destruct Hf|]. cbn [set_fds].
  destruct (decide (f < FD_SETSIZE)) as [Hlt|Hge].
  - assert (~ Forall (fun f => f < FD_SETSIZE) fds) as Hfs by (intros ?; apply Hf; by constructor).
    destruct (0 <=? f); [|by apply IH]. unfold FD_SET. rewrite (proj2 (Z.ltb_lt _ _)) by done. by apply IH.
  - replace (0 <=? f) with true by (unfold FD_SETSIZE in *; lia). unfold FD_SET.
    by rewrite (proj2 (Z.ltb_ge _ _)) by lia.
Qed.

(** What [FD_ISSET] says of a descriptor, 0 for a negative one. *)
Definition flag_of (s : list bool) (f : Z) : Z := b2z (bool_decide (0 <= f) && default false (s !! Z.to_nat f)).
Lemma read_flags_spec fds s : Forall (fun f => f < FD_SETSIZE) fds -> zlen s = FD_SETSIZE ->
  read_flags fds s = Some (map (flag_of s) fds).
Proof.
  intros Hf L. induction Hf as [|f fds Hf Hfs IH]; [done|]. cbn [read_flags map]. rewrite IH. clear IH.
  enough ((if 0 <=? f then FD_ISSET f s else Some false) = Some (bool_decide (0 <= f) && default false (s !! Z.to_nat f))) as -> by done.
  destruct (Z.leb_spec 0 f) as [H0|H0].
  - rewrite (bool_decide_eq_true_2 (0 <= f)) by done. unfold FD_ISSET.
    destruct (lookup_lt_is_Some_2 s (Z.to_nat f)) as [b ->]; [unfold FD_SETSIZE in *; lia|]. done.
  - by rewrite (bool_decide_eq_false_2 (0 <= f)) by lia.
Qed.

(** C40: [gf_select] waits for exactly the descriptors of the array that are not
    negative; the flags say of each entry whether [select] found it readable, and
    stay as they are on an error or when nothing is ready.  A descriptor of 1024 or
    more is written outside the [fd_set]: the function does not test for it. *)
Theorem gf_select_flags maxfd fds flags st :
  (forall w n s, zlen s = FD_SETSIZE -> zlen (posix_select w n s).2.2 = FD_SETSIZE) ->
  if decide (Forall (fun f => f < FD_SETSIZE) fds)
  then exists asked w rc ready, fd_set_of fds asked /\
         posix_select (world st) (maxfd + 1) asked = (w, (rc, ready)) /\
         gf_select maxfd fds flags st =
           Some (rc, if rc <=? 0 then flags else map (flag_of ready) fds, st <| world := w |>)
  else gf_select maxfd fds flags st = None.
Proof.
  intros Hsel. unfold gf_select, mbind' at 1, mlift. case_decide as Hf.
  - destruct (set_fds_spec fds FD_ZERO [] Hf) as (asked & -> & Ha).
    { split; [done|]. intros i b Hi. apply lookup_replicate in Hi as [-> _]. symmetry.
      apply bool_decide_eq_false_2. by intros ?%elem_of_nil. }
    pose proof (Hsel (world st) (maxfd + 1) asked (proj1 Ha)) as L. unfold mbind', call.
    destruct (posix_select (world st) (maxfd + 1) asked) as [w [rc ready]] eqn:E.
    exists asked, w, rc, ready. split; [done|]. split; [done|]. destruct (rc <=? 0); [done|].
    by rewrite read_flags_spec.
  - by rewrite set_fds_over.
Qed.
End select.

(** ** A small system *)

(** Open descriptors, sessions, and the memory left for sessions. *)
Record sim : Type := Sim { sim_fds : gset nat; sim_sessions : gmap nat (option Z); sim_memory : nat }.
Definition sim_new_fd (w : sim) : sim * Z :=
  let r := fresh (sim_fds w) in (Sim ({[r]} ∪ sim_fds w) (sim_sessions w) (sim_memory w), Z.of_nat r).
#[local] Instance sim_posix : Posix sim := {|
  posix_socket := sim_new_fd; posix_inet_pton host := Some 0; posix_connect w f a p := (w, 0);
  posix_bind w f a p := (w, 0); posix_listen w f n := (w, 0); posix_accept w sv := sim_new_fd w;
  posix_send w f bs := (w, zlen bs); posix_recv w f n := (w, (0, [])); posix_select w n s := (w, (1, s));
  posix_close w f := if decide (0 <= f) then Sim (sim_fds w ∖ {[Z.to_nat f]}) (sim_sessions w) (sim_memory w) else w |}.
#[local] Instance sim_openssl : OpenSSL sim nat unit := {|
  SSL_library_init w := w; SSL_CTX_new w m := (w, Some tt); SSL_CTX_use_certificate_file w c := (w, 1);
  SSL_CTX_use_PrivateKey_file w c := (w, 1); SSL_CTX_check_private_key w c := (w, true);
  SSL_new w c := match sim_memory w with
    | O => (w, None)
    | S n => let s := fresh (dom (sim_sessions w)) in (Sim (sim_fds w) (<[s := None]> (sim_sessions w)) n, Some s)
    end;
  SSL_set_fd w s f := Sim (sim_fds w) (<[s := Some f]> (sim_sessions w)) (sim_memory w);
  SSL_accept w s := (w, 1); SSL_connect w s := (w, 1); SSL_write w s bs := (w, zlen bs); SSL_read w s n := (w, (0, []));
  SSL_shutdown w s := w; SSL_free w s := Sim (sim_fds w) (delete s (sim_sessions w)) (sim_memory w) |}.
Definition open_set (w : sim) : gset Z := set_map Z.of_nat (sim_fds w).
Lemma open_set_new w : Z.of_nat (fresh (sim_fds w)) ∉ open_set w /\
  open_set (sim_new_fd w).1 = {[Z.of_nat (fresh (sim_fds w))]} ∪ open_set w.
Proof.
  unfold open_set. split.
  - rewrite elem_of_map. intros (x & Hx%Nat2Z.inj & Hin). pose proof (is_fresh (sim_fds w)). congruence.
  - cbn. by rewrite set_map_union_L, set_map_singleton_L.
Qed.
#[local] Instance sim_laws : V1Laws sim nat unit open_set sim_sessions.
Proof.
  split; try (intros; by split).
  - intros w w' r [= <- <-]. split; [done|]. rewrite decide_True by lia. apply open_set_new.
  - intros w w' sv r [= <- <-]. split; [done|]. rewrite decide_True by lia. apply open_set_new.
  - intros w f. unfold posix_close, sim_posix. case_decide as Hf; (split; [|done]); unfold open_set; cbn.
    + apply set_eq. intros x. rewrite elem_of_difference, !elem_of_map, elem_of_singleton. split.
      * intros (y & -> & Hy). apply elem_of_difference in Hy as [Hy Hne]. split; [by exists y|].
        intros <-. apply Hne. rewrite Nat2Z.id. by apply elem_of_singleton.
      * intros [(y & -> & Hy) Hne]. exists y. split; [done|]. apply elem_of_difference. split; [done|].
        intros ->%elem_of_singleton. apply Hne. lia.
    + apply set_eq. intros x. rewrite elem_of_difference, elem_of_singleton, elem_of_map. split; [|by intros [? _]].
      intros (y & -> & Hy). split; [by exists y|]. lia.
  - intros w w' c r. cbn. destruct (sim_memory w) as [|n]; intros [= <- <-]; [done|]. split; [done|].
    split; [|done]. apply not_elem_of_dom. apply is_fresh.
Qed.

Definition sim0 (memory : nat) : sim := Sim ∅ ∅ memory.
(** A server takes two connections; the second finds no memory for its session.  The
    first is closed. *)
Definition history : list tls_call := [CListen 443; CAccept 0; CAccept 0; CClose 1].

Lemma history_runs : run_calls (CInitServer :: history) (boot (sim0 1)) =
  Some ([0; 0; 1; -3; 0], TlsState (Some tt) None ssl_table_init (Sim {[0%nat]} ∅ 0)).
Proof. vm_compute. reflexivity. Qed.

Lemma v1_refines_contract_witness :
  exists a, spec_steps (Conns nat _ _ ∅ ∅ ∅) (CInitServer :: history) [0; 0; 1; -3; 0] a /\
    reg a = ∅ /\ open_fds a = {[0]} /\ lost a = ∅.
Proof.
  pose proof (v1_refines_contract (sim0 1) CInitServer history eq_refl (or_introl eq_refl)) as H.
  rewrite history_runs in H. destruct H as (a & Hs & Hget & Hfds & Hlive). exists a. split; [exact Hs|]. split.
  { apply map_eq. intros f. rewrite <- Hget, lookup_empty. apply (table_get _ _ f table_init_map). }
  split; [by rewrite <- Hfds|]. apply set_eq. intros s. split; [|done]. intros Hin.
  destruct (proj2 (Hlive s) (or_introl Hin)) as [x Hx]. done.
Defined.


Lemma gf_select_flags_witness :
  let st := boot (SSL := nat) (CTX := unit) (sim0 0) in
  gf_select 5 [3; -1; 5] [7; 7; 7] st = Some (1, [1; 0; 1], st) /\ gf_select 2000 [2000] [0] st = None.
Proof.
  intros st. split.
  - pose proof (gf_select_flags 5 [3; -1; 5] [7; 7; 7] st ltac:(intros w n s L; exact L)) as H.
    rewrite decide_True in H by (repeat constructor).
    destruct H as (asked & w & rc & ready & [L Ha] & E & H). rewrite H. cbn in E. injection E as <- <- <-.
    assert (forall f, 0 <= f < 1024 -> flag_of asked f = b2z (bool_decide (f ∈ [3; -1; 5]))) as Hflag.
    { intros f Hf. unfold flag_of. destruct (lookup_lt_is_Some_2 asked (Z.to_nat f)) as [b Hb]; [unfold FD_SETSIZE in *; lia|].
      rewrite Hb. specialize (Ha _ _ Hb). rewrite Z2Nat.id in Ha by lia. by rewrite bool_decide_eq_true_2 by lia; subst b. }
    cbn [map]. rewrite (Hflag 3), (Hflag 5) by lia. reflexivity.
  - pose proof (gf_select_flags 2000 [2000] [0] st ltac:(intros w n s L; exact L)) as H.
    rewrite decide_False in H; [exact H|]. intros F. apply Forall_cons in F as [F _]. done.
Defined.
